(* ===== verification/_CoqProject ===== *)
-Q . S2P
Prelude.v
PyLib.v
Schema.v
RunSpec.v
RunRepo.v
RunInv.v
RunSafe.v
RunLease.v
RunTree.v
Requests.v
Queue.v
QueueSpec.v
Submission.v
SubmissionSpec.v
SubmissionProps.v
SandboxScope.v
PyTime.v
PyJson.v
Paths.v
PathProps.v
Tasks.v
TaskSpec.v
TaskProps.v
TaskWorker.v
Sandboxes.v
SandboxSpec.v
SandboxProps.v
Permissions.v
Governance.v
GovernanceProps.v
Schedules.v
ScheduleProps.v
ScheduleInv.v
ScheduleRuns.v
Shell.v
CodingAdapters.v
Coding.v
CodingProps.v
Executors.v
CodingExec.v
CodingExecProps.v
Multica.v
Delegation.v
DelegationProps.v
ChannelSync.v
ChannelSyncProps.v
