(* ===== verification/Prelude.v ===== *)
(** Yuanlei: a verification of the parts of the backend that decide who runs what, and when.

    The backend ([src/backend/package/yuxi], below just by file name) lets users talk to
    agents.  A request waits in the queue of its conversation thread; dispatching it creates an
    agent run; a worker claims the run under a lease, executes it in a sandbox and finishes it.
    Durable tasks (parsing, indexing, deletion jobs) have a second, simpler lease protocol, and
    dedicated sandboxes a third.  All three share one PostgreSQL database, which is where the
    processes meet; what is verified here is the state they keep there.

    * The parts

    - [Prelude.v]: record update ([r <| f := v |>]), exceptions and the session monad [M], tables
      as finite maps with queries ([select], [any], [update_where]), JSON, [str.strip],
      [ORDER BY] as a sort by a boolean order, byte-wise string order.  [row_simpl] reads fields
      of updated rows, [m_cases] splits a monadic execution into its paths, [bool_hyps] reads
      boolean guards as propositions.
    - [Schema.v]: the rows and constraints of the agent-run domain (models_business.py).
    - [RunRepo.v]: agent_run_repository.py and agent_run_scope_repository.py.  Each method is
      one definition of the same name.
      [RunSpec.v] is the abstract life cycle of a run; [RunInv.v] the invariant [wf] and the
      relation [evolves]; [RunSafe.v] shows each operation [safe]; [RunLease.v] defines the steps
      and reachable databases and holds C1-C10; [RunTree.v] holds C11 and C12.
    - [Requests.v]: agent_run_request_repository.py, run_scope_service.py, workdir_service.py.
      [Queue.v]: agent_request_queue_service.py, over the interface [DispatchScope] that names
      the execution scope of a new run.  [QueueSpec.v] holds C15-C19.
    - [Submission.v]: agent_request_service.py, the entry of every message, with what it calls of
      agent_run_service.py and conversation_repository.py, over the interface [AgentCatalog] (the
      agents a user sees, their bindings and models).  [SubmissionSpec.v] inverts its paths;
      [SubmissionProps.v] holds C13 and C14.
    - [SandboxScope.v]: agents/backends/sandbox/policy.py, [SandboxScope] of provider.py and the
      policy resolution of sandbox_lifecycle_service.py; [policy_dispatch_scope] is its
      instance of [DispatchScope].  C20-C22.
    - [Tasks.v]: task_repository.py and the writing half of task_service.py; [TaskSpec.v] the
      invariant and what a transition may change; [TaskProps.v] the step relation and C23-C31.
      [TaskWorker.v]: task_registry.py, task_queue_service.py and [process_task]; C32, C33.
    - [Sandboxes.v]: agent_sandbox_repository.py, sandbox_lease_service.py,
      sandbox_lifecycle_service.py and sandbox_lifecycle_supervisor_service.py, over the
      interface [SandboxProvider] of the external provisioner; [SandboxSpec.v] the invariant and
      that every operation keeps it; [SandboxProps.v] holds C34-C37.
    - [Permissions.v]: permissions/resource_permission.py; C38, C39.
    - [Governance.v]: governance_repository.py, governance_service.py and their tables;
      [GovernanceProps.v] holds C40.

    * What the theorems show

    - Runs (C1-C12): every reachable database satisfies the constraints and the invariant of the
      lease protocol; each step is a move of the abstract life cycle; terminal runs, cancel
      requests and recorded facts are kept; a live lease excludes the other workers; what
      claiming, renewing and finishing do; a reconciliation ends every run whose owner is lost;
      cancelling an execution tree reaches each active descendant.
    - Submission (C13, C14): a submission replays, or becomes one request that is dispatched,
      queued or rejected as its policy says, and keeps the invariants of queue and runs;
      submitting again changes nothing.
    - Queue (C15-C19): steer before FIFO; the position shown is the rank in the list; a dispatch
      creates one run or leaves the queue as it was; nothing is dispatched before its turn.
    - Scopes (C20-C22): scope keys read back; resolved policies are coherent; a run is dispatched
      to its thread's sandbox or to the dedicated one.
    - Tasks (C23-C33): the columns fit the status, dedupe keys are unique among active tasks, the
      running tasks stay within the capacity, a task is claimed once, only its live owner writes,
      finishing is all or nothing, a process that dies leaves a task that is failed, not rerun;
      running a claimable task to its end leaves it terminal.
    - Sandboxes (C34-C37): the event log tells the lease's owner; a live lease excludes other
      owners and the supervisor; waiting ends; what [ensure_ready] returns.
    - Permissions (C38, C39): normalised configurations are canonical and stable; the effective
      permission is the smaller of what the scopes grant and the ceiling of the role.
    - Governance (C40): the tables stay well formed and reviewed facts never change.

    * How the code is read

    A method that changes rows is a function on the tables it touches.  Row locks
    ([SELECT .. FOR UPDATE]) and single statements make these functions atomic; the interleaving
    of processes is the order of the steps of a step relation, with any arguments and any clock
    readings.  Where a transaction reads something another one may change before it writes, the
    two halves are separate steps or a hook or argument stands for what happens between.
    [SKIP LOCKED] queries take the rows that were locked as an argument.  A function takes the
    clock as an argument ([now]; [now2] is a second reading after a hook ran).  Times are
    integers in microseconds.  Exceptions are values ([Raise]); a savepoint or a session undoes
    the writes of a body that raises ([atomic]).  Fresh UUIDs are arguments, and a collision
    raises the primary key's error.  Sequences count up.

    Strings are code points below 256, with the white space of [str.strip] in that range, and
    the database compares them byte-wise.  JSON numbers are integers.  NULL sorts last.
    Tables listed without ORDER BY come in an arbitrary fixed order.

    Bounds: the walk over an execution tree has the fuel [S (size runs)], and C12 shows that it
    reaches every active descendant within it, cycles included.  The waiting loop of [acquire]
    is given its turns as a list; C36 bounds their number by the time window.  Every other
    definition is structurally recursive or not recursive.

    * Not modelled

    - The worker process around a run (run_worker.py), chat_service.py, the agent graphs,
      middlewares and model adapters: they drive third-party libraries.  The state they change
      goes through the run repository.  A handler's execution is an argument where it matters
      ([process_task]).
    - Redis, ARQ and server-sent events: a wake-up is the returned list of ids, a stream one poll.
    - The sandbox provisioner and its HTTP client: the interface [SandboxProvider].
    - The HTTP API, authentication, the command line client and the web front end: adapters.
    - Knowledge bases, the file systems, git, coding executors, schema migrations: calls to
      external services and processes.
    - Read-only aggregates and the dictionaries responses are made of.
    - Scheduled agents, delegation, channel synchronisation and most of the conversation repository:
      not yet. *)

From stdpp Require Import prelude gmap strings list fin_maps pretty.
From Stdlib Require Import ZArith Lia Sorting.Sorted.

(** * Record update

    ORM rows are mutated field by field ([run.status = "running"]).  A row is a
    record here and [r <| f := v |>] is the row with field [f] replaced.  The
    setter of a projection is derived from the eta expansion of its record,
    which every record declares once. *)

Class Eta (R : Type) := eta_of : R → R.

Class Setter {R T : Type} (proj : R → T) := setter : (T → T) → R → R.

Definition the_eta {R : Type} {e : Eta R} : R → R := e.

Ltac derive_setter :=
  lazymatch goal with
  | |- @Setter ?R ?T ?p =>
      let e := eval hnf in (@the_eta R _) in
      lazymatch eval pattern p in e with
      | ?u _ =>
          let b := eval cbv beta in (fun (f : T -> T) => u (fun r => f (p r))) in
          exact b
      end
  end.

#[export] Hint Extern 1 (Setter _) => derive_setter : typeclass_instances.

Definition set {R T : Type} (proj : R → T) {s : Setter proj} (f : T → T) (r : R) : R :=
  s f r.
Arguments set : simpl never.

Declare Scope row_scope.
Delimit Scope row_scope with row.
Notation "r <| f := v |>" := (set f (λ _, v) r)
  (at level 1, left associativity, f at level 1, v at level 99) : row_scope.
Notation "r <| f ::= g |>" := (set f g r)
  (at level 1, left associativity, f at level 1, g at level 99) : row_scope.
Open Scope row_scope.

(** Reading a field of an updated row: the equation is checked on a variable, so
    that conversion never compares two nests of updates. *)
Ltac read_same p q u f r :=
  let R := type of r in
  constr:((λ x : R, (eq_refl : p (@set _ _ q u f x) = f (q x))) r).
Ltac read_other p q u f r :=
  let R := type of r in
  constr:((λ x : R, (eq_refl : p (@set _ _ q u f x) = p x)) r).

Ltac read_eq p q u f r :=
  match goal with
  | _ => let _ := constr:(eq_refl : p = q) in read_same p q u f r
  | _ => read_other p q u f r
  end.

Ltac row_simpl_goal :=
  match goal with
  | |- context [?p (@set _ _ ?q ?u ?f ?r)] =>
      let E := read_eq p q u f r in rewrite E; cbn beta
  end.

Ltac row_simpl_hyp :=
  match goal with
  | H : context [?p (@set _ _ ?q ?u ?f ?r)] |- _ =>
      let E := read_eq p q u f r in rewrite E in H; cbn beta in H
  end.

Ltac row_simpl := cbn beta; repeat row_simpl_goal; repeat row_simpl_hyp; cbn beta in *.

(** * Exceptions and the session monad

    A repository or service function runs in a database session: it reads and
    writes the session's state and may raise. *)

Inductive exn : Type :=
  | ValueError (msg : string)
  | TypeError (msg : string)
  | PermissionError (msg : string)
  | RuntimeError (msg : string)
  | IntegrityError (constraint_name : string)
  | DataError (msg : string)
  | HTTPException (status_code : Z) (code : string)
  | DelegationError (error_code msg : string)
  | AttributeError (msg : string)
  | MultipleResultsFound.

Inductive outcome (A : Type) : Type :=
  | Ret (a : A)
  | Raise (e : exn).
Arguments Ret {A} a.
Arguments Raise {A} e.

Definition M (S A : Type) : Type := S → outcome A * S.

#[export] Instance M_ret {S} : MRet (M S) := λ A a s, (Ret a, s).
#[export] Instance M_bind {S} : MBind (M S) := λ A B k m s,
  match m s with
  | (Ret a, s') => k a s'
  | (Raise e, s') => (Raise e, s')
  end.

Definition raise {S A} (e : exn) : M S A := λ s, (Raise e, s).
Definition gets {S A} (f : S → A) : M S A := λ s, (Ret (f s), s).
Definition modify {S} (f : S → S) : M S unit := λ s, (Ret tt, f s).

(** [session.begin_nested()] and [get_async_session_context()]: the writes of a
    body that raises are rolled back, and the exception goes on. *)
Definition atomic {S A} (m : M S A) : M S A := λ s,
  match m s with
  | (Ret a, s') => (Ret a, s')
  | (Raise e, _) => (Raise e, s)
  end.

(** [try: m except IntegrityError: h]. *)
Definition catch_integrity {S A} (m : M S A) (h : string → M S A) : M S A := λ s,
  match m s with
  | (Raise (IntegrityError c), s') => h c s'
  | r => r
  end.

(** [for x in xs: body(x)], collecting what each iteration appends. *)
Fixpoint for_each {S A B} (body : A → M S (list B)) (xs : list A) : M S (list B) :=
  match xs with
  | [] => mret []
  | x :: xs => out ← body x; rest ← for_each body xs; mret (out ++ rest)
  end.

(** [result.scalar_one_or_none()]. *)
Definition scalar_one_or_none {S A} (l : list A) : M S (option A) :=
  match l with
  | [] => mret None
  | [a] => mret (Some a)
  | _ => raise MultipleResultsFound
  end.

Ltac m_unfold :=
  unfold mbind, mret, M_bind, M_ret, gets, modify, raise in *; cbn beta iota zeta in *.

(** [m_inv H] turns [H : m s = (Ret a, s')] for a function [m] in bind form into
    its execution paths, one subgoal each. *)
Ltac m_cases H :=
  repeat (m_unfold; simplify_eq H;
          match type of H with
          | context [match ?x with _ => _ end] =>
              lazymatch x with
              | context [match _ with _ => _ end] => fail
              | _ => destruct x eqn:?
              end
          end);
  m_unfold; simplify_eq.

Lemma bind_inv {S A B} (m : M S A) (k : A → M S B) s b s' :
  (m ≫= k) s = (Ret b, s') → ∃ a s1, m s = (Ret a, s1) ∧ k a s1 = (Ret b, s').
Proof. unfold mbind, M_bind. destruct (m s) as [[a|e] s1]; [eauto|done]. Qed.

Lemma bind_run {S A B} (m : M S A) (k : A → M S B) s a s1 :
  m s = (Ret a, s1) → (m ≫= k) s = k a s1.
Proof. unfold mbind, M_bind. by intros ->. Qed.

(** [run H] splits the first bind of [H : m s = (Ret b, s')]; the new hypothesis is named [R]. *)
Ltac run H :=
  let a := fresh "a" in let s1 := fresh "s1" in let H1 := fresh "R" in
  apply bind_inv in H as (a & s1 & H1 & H); cbv beta in H.
(** Guards of the code are booleans; [bool_hyps] reads them as propositions. *)
Create Rewrite HintDb guards.
#[export] Hint Rewrite andb_true_iff andb_false_iff orb_true_iff orb_false_iff
  negb_true_iff negb_false_iff : guards.
#[export] Hint Rewrite @bool_decide_eq_true @bool_decide_eq_false : guards.
#[export] Hint Rewrite Z.ltb_lt Z.ltb_ge Z.leb_le Z.leb_gt Z.eqb_eq Z.eqb_neq : guards.

Ltac bool_hyps := autorewrite with guards in *.

(** * Reads

    [m] leaves alone what [f] reads of the state. *)
Definition keeps {S X A} (f : S → X) (m : M S A) : Prop := ∀ s, f (m s).2 = f s.

Section keeps.
Context {S X : Type} (f : S → X).

Lemma keeps_pure {A} (m : M S A) : (∀ s, (m s).2 = s) → keeps f m.
Proof. intros H s. by rewrite H. Qed.

Lemma keeps_ret {A} (a : A) : keeps f (mret a : M S A).
Proof. done. Qed.

Lemma keeps_raise {A} e : keeps f (raise e : M S A).
Proof. done. Qed.

Lemma keeps_gets {A} (g : S → A) : keeps f (gets g).
Proof. done. Qed.

Lemma keeps_modify (g : S → S) : (∀ s, f (g s) = f s) → keeps f (modify g).
Proof. intros H s. apply H. Qed.

Lemma keeps_bind {A B} (m : M S A) (k : A → M S B) :
  keeps f m → (∀ a, keeps f (k a)) → keeps f (m ≫= k).
Proof.
  intros Hm Hk s. unfold mbind, M_bind. specialize (Hm s).
  destruct (m s) as [[a|e] s1]; [|done]. simpl in Hm. by rewrite Hk.
Qed.

Lemma keeps_atomic {A} (m : M S A) : keeps f m → keeps f (atomic m).
Proof. intros Hm s. unfold atomic. specialize (Hm s). by destruct (m s) as [[a|e] s1]. Qed.

Lemma keeps_catch {A} (m : M S A) h :
  keeps f m → (∀ c, keeps f (h c)) → keeps f (catch_integrity m h).
Proof.
  intros Hm Hh s. unfold catch_integrity. specialize (Hm s).
  destruct (m s) as [[a|e] s1]; [done|]. destruct e; try done. simpl in Hm. by rewrite Hh.
Qed.

Lemma keeps_inv {A} (m : M S A) s a s' : keeps f m → m s = (Ret a, s') → f s' = f s.
Proof. intros Q E. specialize (Q s). by rewrite E in Q. Qed.
End keeps.

(** [m] keeps the invariant [P]. *)
Definition maintains {S A} (P : S → Prop) (m : M S A) : Prop := ∀ s, P s → P (m s).2.

Section maintains.
Context {S : Type} (P : S → Prop).

Lemma maintains_reads {A} (m : M S A) : keeps (λ s, s) m → maintains P m.
Proof. intros K s Hs. by rewrite K. Qed.

Lemma maintains_modify (f : S → S) : (∀ s, P s → P (f s)) → maintains P (modify f).
Proof. intros H s. apply H. Qed.

Lemma maintains_bind {A B} (m : M S A) (k : A → M S B) :
  maintains P m → (∀ a, maintains P (k a)) → maintains P (m ≫= k).
Proof.
  intros Hm Hk s Hs. unfold mbind, M_bind. specialize (Hm s Hs).
  destruct (m s) as [[a|e] s1]; [by apply Hk|done].
Qed.

Lemma maintains_atomic {A} (m : M S A) : maintains P m → maintains P (atomic m).
Proof.
  intros Hm s Hs. unfold atomic. specialize (Hm s Hs). by destruct (m s) as [[a|e] s1].
Qed.

Lemma maintains_catch {A} (m : M S A) h :
  maintains P m → (∀ c, maintains P (h c)) → maintains P (catch_integrity m h).
Proof.
  intros Hm Hh s Hs. unfold catch_integrity. specialize (Hm s Hs).
  destruct (m s) as [[a|e] s1]; [done|]. destruct e; try done. by apply Hh.
Qed.
End maintains.

Create HintDb quiet.
#[export] Hint Resolve keeps_ret keeps_raise keeps_gets keeps_bind keeps_atomic keeps_catch : quiet.

(** Opens every match of a body and uses the lemmas of its calls. *)
Ltac quietly :=
  repeat first [ progress (intros; cbv beta) | solve [eauto with quiet] | apply keeps_bind
               | apply keeps_atomic | apply keeps_catch | case_match ].

(** * Tables

    A table with a primary key is a finite map from the key to the row.  A query
    without [ORDER BY] returns the rows in the map's own order. *)

Section tables.
Context {K A : Type} `{Countable K}.
Implicit Types (m : gmap K A) (p : A → bool).

Definition rows m : list A := (map_to_list m).*2.
Definition select p m : list A := List.filter p (rows m).
Definition any p m : bool := existsb p (rows m).

Lemma elem_of_rows m a : a ∈ rows m ↔ ∃ k, m !! k = Some a.
Proof.
  unfold rows. rewrite list_elem_of_fmap. split.
  - intros [[k x] [-> Hin]]. exists k. by apply elem_of_map_to_list in Hin.
  - intros [k Hk]. exists (k, a). split; [done|]. by apply elem_of_map_to_list.
Qed.

Lemma elem_of_select p m a : a ∈ select p m ↔ p a = true ∧ ∃ k, m !! k = Some a.
Proof.
  unfold select. rewrite list_elem_of_In, filter_In, <- list_elem_of_In, elem_of_rows.
  tauto.
Qed.

Lemma any_true p m : any p m = true ↔ ∃ k a, m !! k = Some a ∧ p a = true.
Proof.
  unfold any. rewrite existsb_exists. split.
  - intros (a & Ha & Hp). apply list_elem_of_In, elem_of_rows in Ha as [k Hk]. eauto.
  - intros (k & a & Hk & Hp). exists a. split; [|done].
    apply list_elem_of_In, elem_of_rows. eauto.
Qed.

Lemma any_false p m : any p m = false ↔ ∀ k a, m !! k = Some a → p a = false.
Proof.
  split.
  - intros Hf k a Hk. destruct (p a) eqn:Hp; [|done].
    assert (any p m = true) by (apply any_true; eauto). congruence.
  - intros Hall. destruct (any p m) eqn:E; [|done].
    apply any_true in E as (k & a & Hk & Hp). rewrite (Hall k a Hk) in Hp. done.
Qed.

(** A query returns a row once, when no row is stored under two keys. *)
Lemma NoDup_select p m :
  (∀ k1 k2 a, m !! k1 = Some a → m !! k2 = Some a → k1 = k2) → NoDup (select p m).
Proof.
  intros Hinj. unfold select, rows.
  assert (Hin : ∀ k a, (k, a) ∈ map_to_list m → m !! k = Some a).
  { intros k a. apply elem_of_map_to_list. }
  pose proof (NoDup_fst_map_to_list m) as Hnd.
  induction (map_to_list m) as [|[k a] l IH]; [constructor|].
  rewrite fmap_cons, NoDup_cons in Hnd. destruct Hnd as [Hn Hnd].
  assert (IH' : NoDup (List.filter p l.*2)) by (apply IH; [|done]; intros; apply Hin; by right).
  simpl. case_match; [|done]. rewrite NoDup_cons. split; [|done].
  intros Ha. apply list_elem_of_In, filter_In in Ha as [Ha _].
  apply list_elem_of_In, list_elem_of_fmap in Ha as ([j b] & E & Hj). simpl in E. subst b.
  apply Hn, list_elem_of_fmap. exists (j, a). split; [|done]. simpl.
  apply (Hinj k j a); apply Hin; [by left|by right].
Qed.

(** [UPDATE t SET .. WHERE p]. *)
Definition update_where p (f : A → A) m : gmap K A :=
  (λ a, if p a then f a else a) <$> m.

Lemma lookup_update_where p f m k :
  update_where p f m !! k = (λ a, if p a then f a else a) <$> m !! k.
Proof. apply lookup_fmap. Qed.

Lemma filter_list_fmap_snd p (l : list (K * A)) :
  List.filter p l.*2 = (filter (λ kv, p kv.2 = true) l).*2.
Proof.
  induction l as [|[k a] l IH]; [done|]. rewrite filter_cons, fmap_cons. cbn [List.filter snd].
  destruct (p a); case_decide; try done. rewrite fmap_cons. cbn. by rewrite IH.
Qed.

(** [COUNT] of a query. *)
Lemma length_select p m : length (select p m) = size (filter (λ kv, p kv.2 = true) m).
Proof.
  unfold select, rows. rewrite filter_list_fmap_snd, length_fmap, <- length_map_to_list.
  apply Permutation_length, NoDup_Permutation.
  - apply NoDup_filter, NoDup_map_to_list.
  - apply NoDup_map_to_list.
  - intros [k a]. rewrite list_elem_of_filter, !elem_of_map_to_list, map_lookup_filter_Some. tauto.
Qed.

Lemma length_select_insert_le p m k r :
  length (select p (<[k := r]> m)) ≤ S (length (select p m)).
Proof.
  rewrite !length_select. destruct (decide (p r = true)).
  - rewrite map_filter_insert_True by done. rewrite map_size_insert. destruct (filter _ m !! k); simpl; lia.
  - rewrite map_filter_insert_False by done. apply Nat.le_le_succ_r, map_subseteq_size.
    apply map_filter_strong_subseteq_ext.
    intros i x [? Hl]. split; [done|]. apply lookup_delete_Some in Hl. tauto.
Qed.

Lemma length_select_insert_mono p m k r r' :
  m !! k = Some r → (p r' = true → p r = true) →
  length (select p (<[k := r']> m)) ≤ length (select p m).
Proof.
  intros Hk Hp. rewrite !length_select. destruct (decide (p r' = true)) as [E|E].
  - rewrite map_filter_insert_True by done. rewrite map_size_insert.
    assert (El : filter (λ kv, p kv.2 = true) m !! k = Some r).
    { apply map_lookup_filter_Some. simpl. auto. }
    rewrite El. simpl. lia.
  - rewrite map_filter_insert_False by done. apply map_subseteq_size.
    apply map_filter_strong_subseteq_ext.
    intros i x [? Hl]. split; [done|]. apply lookup_delete_Some in Hl. tauto.
Qed.

Lemma length_select_insert_lt p m k r r' :
  m !! k = Some r → p r = true → p r' = false →
  length (select p (<[k := r']> m)) < length (select p m).
Proof.
  intros Hk Hp Hp'. rewrite !length_select.
  assert (El : filter (λ kv, p kv.2 = true) m !! k = Some r) by (by apply map_lookup_filter_Some).
  rewrite map_filter_insert_False by (simpl; congruence). rewrite map_filter_delete.
  rewrite map_size_delete, El.
  assert (Hs : size (filter (λ kv, p kv.2 = true) m) ≠ 0).
  { intros E. apply map_size_empty_inv in E. by rewrite E, lookup_empty in El. }
  lia.
Qed.

Lemma filter_permutation p (l l' : list A) : l ≡ₚ l' → List.filter p l ≡ₚ List.filter p l'.
Proof.
  induction 1; cbn [List.filter]; repeat case_match; auto.
  - apply Permutation_swap.
  - by etrans.
Qed.

(** A query after the insertion of a new row. *)
Lemma select_insert_new p m k r :
  m !! k = None → select p (<[k := r]> m) ≡ₚ (if p r then [r] else []) ++ select p m.
Proof.
  intros N. unfold select, rows. etrans.
  - apply filter_permutation. apply (fmap_Permutation snd). by apply map_to_list_insert.
  - cbn. by destruct (p r).
Qed.

(** A query after a change of a row that it does not see. *)
Lemma select_insert_same {B} (g : A → B) p m k r r' :
  m !! k = Some r → p r' = p r → g r' = g r →
  map g (select p (<[k := r']> m)) ≡ₚ map g (select p m).
Proof.
  intros Hk Hp Hg. rewrite <- (insert_delete_id m k r Hk) at 2. rewrite <- (insert_delete_eq m k r').
  rewrite (Permutation_map g (select_insert_new p _ k r' (lookup_delete_eq m k))).
  rewrite (Permutation_map g (select_insert_new p _ k r (lookup_delete_eq m k))).
  rewrite Hp. destruct (p r); cbn; by rewrite ?Hg.
Qed.

Lemma length_select_size p m : length (select p m) ≤ size m.
Proof. rewrite length_select. apply map_subseteq_size, map_filter_subseteq. Qed.

Lemma length_select_subseteq p m m' : m ⊆ m' → length (select p m) ≤ length (select p m').
Proof.
  intros Hs. rewrite !length_select. apply map_subseteq_size. by apply map_filter_subseteq_mono.
Qed.
End tables.

(** * Python values *)

(** A naive UTC [datetime], in microseconds. *)
Abbreviation datetime := Z (only parsing).

(** [timedelta(seconds=n)] for a whole number of seconds. *)
Definition seconds (n : Z) : Z := (n * 1000000)%Z.

(** The JSON values the columns of type [JSON] hold.  A number that is not an integer is kept
    as its literal. *)
Inductive json : Type :=
  | JNull
  | JBool (b : bool)
  | JInt (z : Z)
  | JFloat (literal : string)
  | JStr (s : string)
  | JArr (l : list json)
  | JObj (fields : list (string * json)).

(** Induction that reaches into arrays and objects. *)
Section json_induction.
Context (P : json → Prop) (P_null : P JNull) (P_bool : ∀ b, P (JBool b)) (P_int : ∀ z, P (JInt z))
  (P_float : ∀ s, P (JFloat s)) (P_str : ∀ s, P (JStr s)) (P_arr : ∀ l, Forall P l → P (JArr l))
  (P_obj : ∀ fields, Forall (λ kv, P kv.2) fields → P (JObj fields)).

Fixpoint json_rect' (v : json) : P v :=
  match v with
  | JNull => P_null
  | JBool b => P_bool b
  | JInt z => P_int z
  | JFloat s => P_float s
  | JStr s => P_str s
  | JArr l => P_arr l ((fix go l : Forall P l :=
      match l with
      | [] => @List.Forall_nil _ P
      | w :: l => @List.Forall_cons _ P w l (json_rect' w) (go l)
      end) l)
  | JObj fields => P_obj fields ((fix go l : Forall (λ kv, P kv.2) l :=
      match l with
      | [] => @List.Forall_nil _ (λ kv, P kv.2)
      | kv :: l => @List.Forall_cons _ (λ kv, P kv.2) kv l (json_rect' kv.2) (go l)
      end) fields)
  end.
End json_induction.

(** Equality of the stored form; the order of the fields counts. *)
Fixpoint json_eqb (v w : json) : bool :=
  match v, w with
  | JNull, JNull => true
  | JBool a, JBool b => Bool.eqb a b
  | JInt a, JInt b => (a =? b)%Z
  | JFloat a, JFloat b | JStr a, JStr b => bool_decide (a = b)
  | JArr a, JArr b =>
      (fix go a b := match a, b with
                     | [], [] => true
                     | v :: a, w :: b => json_eqb v w && go a b
                     | _, _ => false
                     end) a b
  | JObj a, JObj b =>
      (fix go a b := match a, b with
                     | [], [] => true
                     | (k, v) :: a, (j, w) :: b => bool_decide (k = j) && json_eqb v w && go a b
                     | _, _ => false
                     end) a b
  | _, _ => false
  end.

Lemma json_eqb_eq v w : json_eqb v w = true ↔ v = w.
Proof.
  revert w. induction v as [|b|z|s|s|l IH|l IH] using json_rect'; intros w; destruct w; cbn; try done.
  - rewrite Bool.eqb_true_iff. split; congruence.
  - rewrite Z.eqb_eq. split; congruence.
  - rewrite bool_decide_eq_true. split; congruence.
  - rewrite bool_decide_eq_true. split; congruence.
  - revert l0. induction IH as [|v l Hv Hl IHl]; intros [|w l']; try done.
    rewrite andb_true_iff, Hv, IHl. split; [intros [-> [= ->]]; done|]. by intros [= -> ->].
  - revert fields. induction IH as [|[k v] l Hv Hl IHl]; intros [|[j w] l']; try done.
    cbn in Hv. rewrite !andb_true_iff, bool_decide_eq_true, Hv, IHl.
    split; [intros [[-> ->] [= ->]]; done|]. by intros [= -> -> ->].
Qed.

#[global] Instance json_eq_dec : EqDecision json.
Proof.
  intros v w. destruct (json_eqb v w) eqn:E; [left|right].
  - by apply json_eqb_eq.
  - intros ->. assert (json_eqb w w = true) by by apply json_eqb_eq. congruence.
Defined.

(** A literal with a digit other than zero before its exponent. *)
Fixpoint nonzero_literal (s : string) : bool :=
  match s with
  | EmptyString => false
  | String c s' =>
      let n := Ascii.N_of_ascii c in
      if bool_decide (n = 101%N) || bool_decide (n = 69%N) then false
      else negb (bool_decide (n = 48%N) || bool_decide (n = 46%N) || bool_decide (n = 45%N))
           || nonzero_literal s'
  end.

(** [bool(v)], as in [v or default]. *)
Definition truthy (v : json) : bool :=
  match v with
  | JNull => false
  | JBool b => b
  | JInt z => negb (z =? 0)%Z
  | JFloat literal => nonzero_literal literal
  | JStr s => negb (bool_decide (s = ""))
  | JArr l => negb (bool_decide (length l = 0))
  | JObj l => negb (bool_decide (length l = 0))
  end.

(** [d.get(key)] on a JSON object; the last binding of a key is the live one. *)
Fixpoint assoc_last (key : string) (l : list (string * json)) : option json :=
  match l with
  | [] => None
  | (k, v) :: l =>
      match assoc_last key l with
      | Some w => Some w
      | None => if bool_decide (k = key) then Some v else None
      end
  end.

Definition jget (key : string) (v : json) : option json :=
  match v with
  | JObj l => assoc_last key l
  | _ => None
  end.

Definition json_or_empty (v : json) : json := if truthy v then v else JObj [].

(** [d[key] = value]: in place, or at the end for a new key. *)
Definition jset (key : string) (value : json) (v : json) : json :=
  match v with
  | JObj l =>
      if existsb (λ kv, bool_decide (kv.1 = key)) l
      then JObj (map (λ kv, if bool_decide (kv.1 = key) then (key, value) else kv) l)
      else JObj (l ++ [(key, value)])
  | _ => v
  end.

(** [str(v)]; [container_text] is the text of a list, a dict or a float. *)
Definition str_of (container_text : json → string) (v : json) : string :=
  match v with
  | JStr s => s
  | JInt z => pretty z
  | JBool b => if b then "True" else "False"
  | JNull => "None"
  | _ => container_text v
  end.

(** [str.strip()] on code points below 256. *)
Definition is_space (c : Ascii.ascii) : bool :=
  let n := Ascii.N_of_ascii c in
  ((9 <=? n) && (n <=? 13))%N || ((28 <=? n) && (n <=? 32))%N
  || (n =? 133)%N || (n =? 160)%N.

Fixpoint lstrip (s : string) : string :=
  match s with
  | EmptyString => EmptyString
  | String c s' => if is_space c then lstrip s' else s
  end.

Fixpoint rstrip (s : string) : string :=
  match s with
  | EmptyString => EmptyString
  | String c s' =>
      match rstrip s' with
      | EmptyString => if is_space c then EmptyString else String c EmptyString
      | t => String c t
      end
  end.

Definition strip (s : string) : string := rstrip (lstrip s).

Lemma lstrip_idem s : lstrip (lstrip s) = lstrip s.
Proof. induction s as [|c s IH]; [done|]. simpl. destruct (is_space c) eqn:E; [done|]. simpl. by rewrite E. Qed.

Lemma rstrip_idem s : rstrip (rstrip s) = rstrip s.
Proof.
  induction s as [|c s IH]; [done|]. simpl. destruct (rstrip s) as [|d t] eqn:E.
  - destruct (is_space c) eqn:Ec; [done|]. simpl. by rewrite Ec.
  - simpl in *. by rewrite IH.
Qed.

Lemma lstrip_rstrip s : lstrip s = s → lstrip (rstrip s) = rstrip s.
Proof.
  destruct s as [|c s]; [done|]. simpl. destruct (is_space c) eqn:Ec.
  - intros E. exfalso. assert (H : String.length (lstrip s) ≤ String.length s).
    { clear. induction s as [|d s IH]; simpl; [lia|]. destruct (is_space d); simpl; lia. }
    rewrite E in H. simpl in H. lia.
  - intros _. destruct (rstrip s); simpl; by rewrite Ec.
Qed.

Lemma strip_idem s : strip (strip s) = strip s.
Proof.
  unfold strip. rewrite (lstrip_rstrip (lstrip s)) by apply lstrip_idem. apply rstrip_idem.
Qed.

(** [not s.strip()]. *)
Definition blank (s : string) : bool := bool_decide (strip s = "").

(** [not s] for an optional string. *)
Definition falsy_str (o : option string) : bool :=
  match o with
  | None => true
  | Some s => bool_decide (s = "")
  end.

(** [a or b] on optional values whose present values are truthy. *)
Definition or_else {A} (o : option A) (d : A) : A :=
  match o with
  | Some a => a
  | None => d
  end.

(** * Ordering

    [ORDER BY] sorts with a boolean order; ties keep the order of the input. *)

Section sorting.
Context {A : Type} (leb : A → A → bool).

Fixpoint insert_by (x : A) (l : list A) : list A :=
  match l with
  | [] => [x]
  | y :: l' => if leb x y then x :: l else y :: insert_by x l'
  end.

Fixpoint sort_by (l : list A) : list A :=
  match l with
  | [] => []
  | x :: l => insert_by x (sort_by l)
  end.

Lemma insert_by_perm x l : insert_by x l ≡ₚ x :: l.
Proof.
  induction l as [|y l IH]; simpl; [done|].
  case_match; [done|]. rewrite IH. apply Permutation_swap.
Qed.

Lemma sort_by_perm l : sort_by l ≡ₚ l.
Proof. induction l as [|x l IH]; simpl; [done|]. by rewrite insert_by_perm, IH. Qed.

Lemma elem_of_sort_by x l : x ∈ sort_by l ↔ x ∈ l.
Proof. by rewrite sort_by_perm. Qed.

Lemma length_sort_by l : length (sort_by l) = length l.
Proof. by rewrite sort_by_perm. Qed.

Context (leb_total : ∀ x y, leb x y = true ∨ leb y x = true).
Context (leb_trans : ∀ x y z, leb x y = true → leb y z = true → leb x z = true).

Local Abbreviation le := (λ x y, leb x y = true).

Lemma insert_by_sorted x l :
  StronglySorted le l → StronglySorted le (insert_by x l).
Proof.
  induction 1 as [|y l Hl IH Hy]; simpl; [by repeat constructor|].
  destruct (leb x y) eqn:E.
  - constructor; [by constructor|]. constructor; [done|].
    eapply Forall_impl; [exact Hy|]. simpl; eauto.
  - constructor; [done|].
    rewrite insert_by_perm. constructor; [|done].
    destruct (leb_total x y); congruence.
Qed.

Lemma sort_by_sorted l : StronglySorted le (sort_by l).
Proof. induction l; simpl; [constructor|]. by apply insert_by_sorted. Qed.

(** [ORDER BY .. LIMIT 1] is a least element. *)
Lemma sort_by_head_least x l l' :
  sort_by l = x :: l' → x ∈ l ∧ ∀ y, y ∈ l → leb x y = true.
Proof.
  intros E. split.
  { apply elem_of_sort_by. rewrite E. by left. }
  intros y Hy. apply elem_of_sort_by in Hy. rewrite E in Hy.
  pose proof (sort_by_sorted l) as Hs. rewrite E in Hs. inversion Hs; subst.
  apply elem_of_cons in Hy as [->|Hy].
  - destruct (leb_total x x); done.
  - by eapply Forall_forall in H2.
Qed.

Lemma sort_by_head_none l : head (sort_by l) = None ↔ l = [].
Proof.
  split; [|by intros ->]. destruct l as [|x l]; [done|]. simpl.
  destruct (insert_by x (sort_by l)) eqn:E; [|done].
  pose proof (insert_by_perm x (sort_by l)) as P. rewrite E in P.
  by apply Permutation_nil_cons in P.
Qed.
End sorting.

(** [ORDER BY ts ASC] of a nullable timestamp: PostgreSQL sorts NULL last. *)
Definition ts_leb (a b : option datetime) : bool :=
  match a, b with
  | _, None => true
  | None, Some _ => false
  | Some x, Some y => (x <=? y)%Z
  end.

Lemma ts_leb_total a b : ts_leb a b = true ∨ ts_leb b a = true.
Proof. destruct a, b; simpl; auto. destruct (Z.leb_spec z z0); [auto|right]. apply Z.leb_le. lia. Qed.

Lemma ts_leb_trans a b c : ts_leb a b = true → ts_leb b c = true → ts_leb a c = true.
Proof. destruct a, b, c; simpl; try done. rewrite !Z.leb_le. lia. Qed.

Lemma ts_leb_antisym a b : ts_leb a b = true → ts_leb b a = true → a = b.
Proof. destruct a, b; simpl; try done. rewrite !Z.leb_le. intros. f_equal. lia. Qed.

(** Byte-wise order of strings: a [VARCHAR] key under the C collation. *)
Fixpoint str_leb (s t : string) : bool :=
  match s, t with
  | EmptyString, _ => true
  | String _ _, EmptyString => false
  | String c s', String d t' =>
      let m := Ascii.N_of_ascii c in
      let n := Ascii.N_of_ascii d in
      if (m <? n)%N then true else if (m =? n)%N then str_leb s' t' else false
  end.

Lemma str_leb_total s t : str_leb s t = true ∨ str_leb t s = true.
Proof.
  revert t. induction s as [|c s IH]; intros [|d t]; simpl; auto.
  destruct (N.ltb_spec (Ascii.N_of_ascii c) (Ascii.N_of_ascii d)); auto.
  destruct (N.ltb_spec (Ascii.N_of_ascii d) (Ascii.N_of_ascii c)); auto.
  replace (Ascii.N_of_ascii d) with (Ascii.N_of_ascii c) by lia.
  rewrite N.eqb_refl. apply IH.
Qed.

Lemma str_leb_trans s t u :
  str_leb s t = true → str_leb t u = true → str_leb s u = true.
Proof.
  revert t u. induction s as [|c s IH]; intros [|d t] [|e u]; simpl; try done.
  destruct (N.ltb_spec (Ascii.N_of_ascii c) (Ascii.N_of_ascii d));
    destruct (N.eqb_spec (Ascii.N_of_ascii c) (Ascii.N_of_ascii d));
    destruct (N.ltb_spec (Ascii.N_of_ascii d) (Ascii.N_of_ascii e));
    destruct (N.eqb_spec (Ascii.N_of_ascii d) (Ascii.N_of_ascii e));
    destruct (N.ltb_spec (Ascii.N_of_ascii c) (Ascii.N_of_ascii e));
    destruct (N.eqb_spec (Ascii.N_of_ascii c) (Ascii.N_of_ascii e));
    try done; try lia; eauto.
Qed.

Lemma str_leb_antisym s t : str_leb s t = true → str_leb t s = true → s = t.
Proof.
  revert t. induction s as [|c s IH]; intros [|d t]; simpl; try done.
  destruct (N.ltb_spec (Ascii.N_of_ascii c) (Ascii.N_of_ascii d));
    destruct (N.ltb_spec (Ascii.N_of_ascii d) (Ascii.N_of_ascii c));
    destruct (N.eqb_spec (Ascii.N_of_ascii c) (Ascii.N_of_ascii d)) as [E|];
    destruct (N.eqb_spec (Ascii.N_of_ascii d) (Ascii.N_of_ascii c));
    try done; try lia.
  intros. f_equal; [|by apply IH].
  rewrite <- (Ascii.ascii_N_embedding c), <- (Ascii.ascii_N_embedding d). by f_equal.
Qed.
