(* ===== verification/PyLib.v ===== *)
(** The library functions of Python whose results the services store and compare: [str.split]
    (its length), [json.dumps] with sorted keys, [str.encode], [hashlib.sha256] and
    [datetime.isoformat].

    Strings are code points below 256, so [encode] writes one or two bytes a character.  A naive
    [datetime] is its microseconds since 1970; [isoformat] follows datetime.py. *)

From stdpp Require Import prelude strings list pretty.
From Stdlib Require Import ZArith Lia Ascii.
From S2P Require Import Prelude.
Local Open Scope string_scope.
Local Open Scope Z_scope.

(** * Strings *)

(** [len(s.split())]. *)
Fixpoint count_words (inside : bool) (s : string) : nat :=
  match s with
  | EmptyString => 0
  | String c s' =>
      if is_space c then count_words false s'
      else if inside then count_words true s'
      else S (count_words true s')
  end.

Fixpoint all_chars (p : Ascii.ascii → bool) (s : string) : bool :=
  match s with
  | EmptyString => true
  | String c s' => p c && all_chars p s'
  end.

Lemma all_chars_app p s t : all_chars p (s ++ t)%string = all_chars p s && all_chars p t.
Proof.
  induction s as [|c s IH]; [done|].
  change (p c && all_chars p (s ++ t)%string = p c && all_chars p s && all_chars p t).
  by rewrite IH, andb_assoc.
Qed.

Lemma strip_solid s : all_chars (λ c, negb (is_space c)) s = true → strip s = s.
Proof.
  intros H. unfold strip. assert (E : lstrip s = s).
  { destruct s as [|c s]; [done|]. cbn in *. by destruct (is_space c). }
  rewrite E. clear E. induction s as [|c s IH]; [done|]. cbn in *. apply andb_true_iff in H as [Hc H].
  rewrite IH by done. destruct s; [|done]. by destruct (is_space c).
Qed.

Lemma all_chars_weaken (p q : Ascii.ascii → bool) s :
  (∀ c, p c = true → q c = true) → all_chars p s = true → all_chars q s = true.
Proof.
  intros H. induction s as [|c s IH]; [done|]. cbn. rewrite !andb_true_iff. intros [Hc Hs]. auto.
Qed.

(** [s[:n]]. *)
Fixpoint str_take (n : nat) (s : string) : string :=
  match n, s with
  | S n', String c s' => String c (str_take n' s')
  | _, _ => EmptyString
  end.

Fixpoint str_concat (sep : string) (l : list string) : string :=
  match l with
  | [] => ""
  | [s] => s
  | s :: l' => s ++ sep ++ str_concat sep l'
  end.

(** The line boundaries of [str.splitlines] below 256. *)
Definition line_break (c : Ascii.ascii) : bool :=
  let n := Ascii.N_of_ascii c in
  ((10 <=? n) && (n <=? 13))%N || ((28 <=? n) && (n <=? 30))%N || (n =? 133)%N.

(** [s.splitlines()]; [cur] is the current line, if one was begun. *)
Fixpoint splitlines_go (cur : option string) (s : string) : list string :=
  match s with
  | EmptyString => match cur with None => [] | Some l => [l] end
  | String c s' =>
      if line_break c then
        default "" cur ::
          match s' with
          | String d s'' =>
              if Ascii.eqb c "013" && Ascii.eqb d "010" then splitlines_go None s''
              else splitlines_go None s'
          | EmptyString => []
          end
      else splitlines_go (Some (default "" cur ++ String c "")) s'
  end.

Definition splitlines (s : string) : list string := splitlines_go None s.

(** [w in s]. *)
Fixpoint occurs (w s : string) : bool :=
  String.prefix w s || match s with String _ s' => occurs w s' | EmptyString => false end.

(** [text.replace(old, new)] for a text [old] that is not empty: [skip] characters belong to
    the occurrence that was replaced last. *)
Fixpoint str_replace (old new : string) (skip : nat) (s : string) : string :=
  match s with
  | EmptyString => ""
  | String c s' =>
      match skip with
      | S k => str_replace old new k s'
      | O => if String.prefix old s
             then new ++ str_replace old new (Nat.pred (String.length old)) s'
             else String c (str_replace old new 0 s')
      end
  end.

(** [s.split(c)]: never empty. *)
Fixpoint split_on (c : Ascii.ascii) (s : string) : list string :=
  match s with
  | EmptyString => [EmptyString]
  | String d s' =>
      if Ascii.eqb d c then EmptyString :: split_on c s'
      else match split_on c s' with
           | [] => [String d EmptyString]
           | w :: ws => String d w :: ws
           end
  end.

Definition hex_digit (d : Z) : Ascii.ascii :=
  let d := Z.land d 15 in
  Ascii.ascii_of_N (Z.to_N (if d <? 10 then 48 + d else 87 + d)).

(** The last [n] hexadecimal digits of [z]. *)
Fixpoint hex (n : nat) (z : Z) : string :=
  match n with
  | O => ""
  | S n' => String (hex_digit (Z.shiftr z (4 * Z.of_nat n'))) (hex n' z)
  end.

(** The last [n] decimal digits of [z]: [f"{z:0nd}"] for [0 <= z < 10 ^ n]. *)
Fixpoint decimal (n : nat) (z : Z) : string :=
  match n with
  | O => ""
  | S n' =>
      String (Ascii.ascii_of_N (Z.to_N (48 + z / 10 ^ Z.of_nat n' mod 10))) (decimal n' z)
  end.

(** * JSON text *)

Definition dquote : Ascii.ascii := "034"%char.
Definition backslash : Ascii.ascii := "092"%char.

(** One character of a JSON string, with [ensure_ascii=False]. *)
Definition escape_char (c : Ascii.ascii) : string :=
  match Ascii.N_of_ascii c with
  | 34%N => String backslash (String dquote "")
  | 92%N => String backslash (String backslash "")
  | 8%N => String backslash "b"
  | 9%N => String backslash "t"
  | 10%N => String backslash "n"
  | 12%N => String backslash "f"
  | 13%N => String backslash "r"
  | n => if (n <? 32)%N then String backslash ("u" ++ hex 4 (Z.of_N n)) else String c ""
  end.

Fixpoint escape (s : string) : string :=
  match s with
  | EmptyString => ""
  | String c s' => escape_char c ++ escape s'
  end.

Definition dumps_str (s : string) : string :=
  String dquote (escape s ++ String dquote "").

(** [json.dumps(v, ensure_ascii=False, sort_keys=True, separators=(",", ":"))]. *)
Fixpoint dumps (v : json) : string :=
  match v with
  | JNull => "null"
  | JBool b => if b then "true" else "false"
  | JInt z => pretty z
  | JFloat literal => literal
  | JStr s => dumps_str s
  | JArr l => "[" ++ str_concat "," (map dumps l) ++ "]"
  | JObj fields =>
      let items := map (λ kv, (kv.1, dumps kv.2)) fields in
      "{" ++ str_concat "," (map (λ kv, dumps_str kv.1 ++ ":" ++ kv.2)
               (sort_by (λ a b, str_leb a.1 b.1) items)) ++ "}"
  end.

(** * SHA-256 *)

Definition utf8_char (c : Ascii.ascii) : list Z :=
  let n := Z.of_N (Ascii.N_of_ascii c) in
  if n <? 128 then [n] else [192 + Z.shiftr n 6; 128 + Z.land n 63].

(** [s.encode()]. *)
Fixpoint encode (s : string) : list Z :=
  match s with
  | EmptyString => []
  | String c s' => (utf8_char c ++ encode s')%list
  end.

Definition w32 (z : Z) : Z := Z.land z 0xffffffff.
Definition rotr (n x : Z) : Z := Z.lor (Z.shiftr x n) (w32 (Z.shiftl x (32 - n))).
Definition xor3 (x y z : Z) : Z := Z.lxor x (Z.lxor y z).
Definition big_sigma0 (x : Z) : Z := xor3 (rotr 2 x) (rotr 13 x) (rotr 22 x).
Definition big_sigma1 (x : Z) : Z := xor3 (rotr 6 x) (rotr 11 x) (rotr 25 x).
Definition small_sigma0 (x : Z) : Z := xor3 (rotr 7 x) (rotr 18 x) (Z.shiftr x 3).
Definition small_sigma1 (x : Z) : Z := xor3 (rotr 17 x) (rotr 19 x) (Z.shiftr x 10).
Definition choose (x y z : Z) : Z := Z.lxor (Z.land x y) (Z.land (Z.lxor x 0xffffffff) z).
Definition majority (x y z : Z) : Z := xor3 (Z.land x y) (Z.land x z) (Z.land y z).

(** The constants of the standard: the first 32 bits of the fraction of the cube roots of the
    first 64 primes, and of the square roots of the first eight. *)
Definition is_prime (n : Z) : bool :=
  (2 <=? n) && forallb (λ d, negb (n mod d =? 0)) (map Z.of_nat (seq 2 (Z.to_nat (Z.sqrt n) - 1))).

Definition primes : list Z := List.filter is_prime (map Z.of_nat (seq 2 310)).

(** The integer cube root of [n] below [r + 2^bits]. *)
Fixpoint cube_root (bits : nat) (r n : Z) : Z :=
  match bits with
  | O => r
  | S b => let r' := r + Z.shiftl 1 (Z.of_nat b) in
           cube_root b (if r' * r' * r' <=? n then r' else r) n
  end.

Definition round_constants : list Z :=
  Eval vm_compute in map (λ p, w32 (cube_root 36 0 (Z.shiftl p 96))) primes.

Definition root_words : list Z :=
  Eval vm_compute in map (λ p, w32 (Z.sqrt (Z.shiftl p 64))) (take 8 primes).

Record HashState := { ha : Z; hb : Z; hc : Z; hd : Z; he : Z; hf : Z; hg : Z; hh : Z }.

Definition initial_hash : HashState :=
  let h i := nth i root_words 0 in
  {| ha := h 0%nat; hb := h 1%nat; hc := h 2%nat; hd := h 3%nat;
     he := h 4%nat; hf := h 5%nat; hg := h 6%nat; hh := h 7%nat |}.

(** [n] more words of the message schedule; the newest word comes first. *)
Fixpoint message_schedule (n : nat) (ws : list Z) : list Z :=
  match n with
  | O => rev ws
  | S n' =>
      let w := w32 (small_sigma1 (nth 1 ws 0) + nth 6 ws 0 + small_sigma0 (nth 14 ws 0) + nth 15 ws 0) in
      message_schedule n' (w :: ws)
  end.

Definition hash_round (s : HashState) (kw : Z * Z) : HashState :=
  let t1 := hh s + big_sigma1 (he s) + choose (he s) (hf s) (hg s) + kw.1 + kw.2 in
  let t2 := big_sigma0 (ha s) + majority (ha s) (hb s) (hc s) in
  {| ha := w32 (t1 + t2); hb := ha s; hc := hb s; hd := hc s;
     he := w32 (hd s + t1); hf := he s; hg := hf s; hh := hg s |}.

Fixpoint be_words (bytes : list Z) : list Z :=
  match bytes with
  | a :: b :: c :: d :: rest =>
      Z.lor (Z.shiftl a 24) (Z.lor (Z.shiftl b 16) (Z.lor (Z.shiftl c 8) d)) :: be_words rest
  | _ => []
  end.

Definition hash_block (s : HashState) (block : list Z) : HashState :=
  let r := fold_left hash_round
             (combine round_constants (message_schedule 48 (rev (be_words block)))) s in
  {| ha := w32 (ha s + ha r); hb := w32 (hb s + hb r); hc := w32 (hc s + hc r);
     hd := w32 (hd s + hd r); he := w32 (he s + he r); hf := w32 (hf s + hf r);
     hg := w32 (hg s + hg r); hh := w32 (hh s + hh r) |}.

Definition pad (bytes : list Z) : list Z :=
  let n := Z.of_nat (length bytes) in
  (bytes ++ 0x80 :: repeat 0 (Z.to_nat ((55 - n) mod 64))
   ++ map (λ i, Z.land (Z.shiftr (8 * n) (8 * i)) 255) [7; 6; 5; 4; 3; 2; 1; 0])%list.

Fixpoint hash_blocks (n : nat) (s : HashState) (bytes : list Z) : HashState :=
  match n with
  | O => s
  | S n' => hash_blocks n' (hash_block s (take 64 bytes)) (drop 64 bytes)
  end.

(** [hashlib.sha256(s.encode()).hexdigest()]. *)
Definition sha256_hexdigest (s : string) : string :=
  let bytes := pad (encode s) in
  let r := hash_blocks (length bytes / 64) initial_hash bytes in
  str_concat "" (map (hex 8) [ha r; hb r; hc r; hd r; he r; hf r; hg r; hh r]).

Example sha256_empty : sha256_hexdigest "" =
  "e3b0c44298fc1c149afbf4c8996fb92427ae41e4649b934ca495991b7852b855".
Proof. vm_compute. reflexivity. Qed.

Example sha256_two_blocks :
  sha256_hexdigest "abcdbcdecdefdefgefghfghighijhijkijkljklmklmnlmnomnopnopq" =
  "248d6a61d20638b8e5c026930c3e6039a33ce45964ff2167f6ecedd419db06c1".
Proof. vm_compute. reflexivity. Qed.

(** * Dates *)

(** [_days_before_year] of datetime.py. *)
Definition days_before_year (year : Z) : Z :=
  let y := year - 1 in y * 365 + y / 4 - y / 100 + y / 400.

Definition is_leap (year : Z) : bool :=
  (year mod 4 =? 0) && (negb (year mod 100 =? 0) || (year mod 400 =? 0)).

(** [_DAYS_BEFORE_MONTH], and the leap day. *)
Definition month_start (leap : bool) (month : Z) : Z :=
  nth (Z.to_nat month) [0; 0; 31; 59; 90; 120; 151; 181; 212; 243; 273; 304; 334] 0
  + (if (2 <? month) && leap then 1 else 0).

Definition month_length (leap : bool) (month : Z) : Z :=
  if month =? 12 then 31 else month_start leap (month + 1) - month_start leap month.

(** [_days_in_month]. *)
Definition days_in_month (year month : Z) : Z := month_length (is_leap year) month.

(** [_ymd2ord]: day 1 is the first of January of year 1. *)
Definition ymd2ord (year month day : Z) : Z :=
  days_before_year year + month_start (is_leap year) month + day.

(** The month and the day of day [n] of a year, counted from 0. *)
Definition month_day (leap : bool) (n : Z) : Z * Z :=
  let month := Z.shiftr (n + 50) 5 in
  let month := if n <? month_start leap month then month - 1 else month in
  (month, n - month_start leap month + 1).

(** [_ord2ymd]. *)
Definition ord2ymd (ordinal : Z) : Z * Z * Z :=
  let n := ordinal - 1 in
  let n400 := n / 146097 in
  let n := n mod 146097 in
  let n100 := n / 36524 in
  let n := n mod 36524 in
  let n4 := n / 1461 in
  let n := n mod 1461 in
  let n1 := n / 365 in
  let n := n mod 365 in
  let year := n400 * 400 + 1 + n100 * 100 + n4 * 4 + n1 in
  if (n1 =? 4) || (n100 =? 4) then (year - 1, 12, 31)
  else
    let leap := (n1 =? 3) && (negb (n4 =? 24) || (n100 =? 3)) in
    let '(month, day) := month_day leap n in
    (year, month, day).

Definition EPOCH_ORDINAL : Z := 719163.
Definition DAY : Z := 86400000000.

(** [t.isoformat()]: the microseconds are left out when they are zero. *)
Definition isoformat (t : datetime) : string :=
  let '(year, month, day) := ord2ymd (EPOCH_ORDINAL + t / DAY) in
  let us := t mod DAY in
  decimal 4 year ++ "-" ++ decimal 2 month ++ "-" ++ decimal 2 day ++ "T"
  ++ decimal 2 (us / 3600000000) ++ ":" ++ decimal 2 (us / 60000000 mod 60) ++ ":"
  ++ decimal 2 (us / 1000000 mod 60)
  ++ (if us mod 1000000 =? 0 then "" else "." ++ decimal 6 (us mod 1000000)).

Example isoformat_epoch : isoformat 1709210096000001 = "2024-02-29T12:34:56.000001".
Proof. vm_compute. reflexivity. Qed.

(** * Lengths *)

Lemma length_append s t : String.length (s ++ t) = (String.length s + String.length t)%nat.
Proof. induction s as [|c s IH]; simpl; [done|]. by rewrite IH. Qed.

Lemma length_hex n z : String.length (hex n z) = n.
Proof. induction n as [|n IH]; simpl; [done|]. by rewrite IH. Qed.

Lemma length_str_take n s : String.length (str_take n s) = Nat.min n (String.length s).
Proof. revert s. induction n as [|n IH]; intros [|c s]; simpl; auto. Qed.

Lemma sha256_words s :
  ∃ words, length words = 8%nat ∧ sha256_hexdigest s = str_concat "" (map (hex 8) words).
Proof. by eexists [_; _; _; _; _; _; _; _]. Qed.

Lemma length_sha256 s : String.length (sha256_hexdigest s) = 64%nat.
Proof.
  destruct (sha256_words s) as (words & L & ->). do 8 (destruct words as [|? words]; [done|]).
  destruct words; [|done]. cbn [map str_concat]. by rewrite !length_append, !length_hex.
Qed.

(** * Decimal numbers *)

Lemma ascii_of_digit_inj a b :
  0 <= a < 10 → 0 <= b < 10 →
  Ascii.ascii_of_N (Z.to_N (48 + a)) = Ascii.ascii_of_N (Z.to_N (48 + b)) → a = b.
Proof.
  intros Ha Hb E. apply (f_equal Ascii.N_of_ascii) in E.
  rewrite !Ascii.N_ascii_embedding in E by lia. lia.
Qed.

Lemma decimal_inj n z z' r r' :
  0 <= z < 10 ^ Z.of_nat n → 0 <= z' < 10 ^ Z.of_nat n →
  decimal n z ++ r = decimal n z' ++ r' → z = z' ∧ r = r'.
Proof.
  intros Hz Hz' E.
  assert (Q : z mod 10 ^ Z.of_nat n = z' mod 10 ^ Z.of_nat n ∧ r = r').
  2: { rewrite !Z.mod_small in Q by done. done. }
  clear Hz Hz'. revert E. induction n as [|n IH]; intros E.
  { simpl in E. by rewrite !Z.mod_1_r. }
  cbn [decimal String.append] in E. injection E as E1 E2.
  apply ascii_of_digit_inj in E1; [|apply Z.mod_pos_bound; lia..].
  apply IH in E2 as [E2 ->]. split; [|done].
  assert (P : 0 < 10 ^ Z.of_nat n) by (apply Z.pow_pos_nonneg; lia).
  rewrite Nat2Z.inj_succ, Z.pow_succ_r, Z.mul_comm, !Z.rem_mul_r by lia. congruence.
Qed.

(** * Dates *)

Fixpoint upto (n : nat) (p : Z → bool) (r : Z) : bool :=
  match n with
  | O => true
  | S n' => p r && upto n' p (r + 1)
  end.

Lemma upto_spec n p r : upto n p r = true → ∀ i, r <= i < r + Z.of_nat n → p i = true.
Proof.
  revert r. induction n as [|n IH]; intros r H i Hi; [lia|].
  simpl in H. apply andb_true_iff in H as [H1 H2].
  destruct (decide (i = r)) as [->|]; [done|]. apply (IH (r + 1)); [done|lia].
Qed.

(** A year, day by day. *)
Definition month_back (leap : bool) (n : Z) : bool :=
  let '(m, d) := month_day leap n in
  (month_start leap m + d =? n + 1) && (1 <=? m) && (m <=? 12) && (1 <=? d) && (d <=? month_length leap m)
  && (d <=? 31).

Lemma month_day_back leap n :
  0 <= n < 365 →
  let '(m, d) := month_day leap n in
  month_start leap m + d = n + 1 ∧ 1 <= m <= 12 ∧ 1 <= d <= 31 ∧ d <= month_length leap m.
Proof.
  intros Hn. assert (H : upto 365 (month_back leap) 0 = true) by (destruct leap; vm_compute; done).
  pose proof (upto_spec _ _ _ H n ltac:(lia)) as Hb. unfold month_back in Hb.
  destruct (month_day leap n) as [m d]. rewrite !andb_true_iff, !Z.leb_le, Z.eqb_eq in Hb. lia.
Qed.

Lemma year_parts a b c e :
  0 <= b <= 3 → 0 <= c <= 24 → 0 <= e <= 3 →
  days_before_year (a * 400 + 1 + b * 100 + c * 4 + e)
  = 146097 * a + 36524 * b + 1461 * c + 365 * e.
Proof. intros. unfold days_before_year. cbv zeta. Z.div_mod_to_equations. lia. Qed.

Lemma leap_parts a b c e :
  0 <= b <= 3 → 0 <= c <= 24 → 0 <= e <= 3 →
  is_leap (a * 400 + 1 + b * 100 + c * 4 + e) = (e =? 3) && (negb (c =? 24) || (b =? 3)).
Proof.
  intros. unfold is_leap. apply eq_true_iff_eq.
  rewrite !andb_true_iff, !orb_true_iff, !negb_true_iff, !Z.eqb_eq, !Z.eqb_neq.
  Z.div_mod_to_equations. lia.
Qed.

(** The date of a day gives the day back. *)
Lemma ord2ymd_back n :
  let '(y, m, d) := ord2ymd n in
  ymd2ord y m d = n ∧ 1 <= m <= 12 ∧ 1 <= d <= 31 ∧ d <= days_in_month y m.
Proof.
  unfold ord2ymd. cbv zeta.
  pose proof (Z.div_mod (n - 1) 146097 ltac:(lia)) as E0.
  pose proof (Z.mod_pos_bound (n - 1) 146097 ltac:(lia)) as B0.
  generalize dependent ((n - 1) / 146097). intros a.
  generalize dependent ((n - 1) mod 146097). intros r1 B0 E0.
  pose proof (Z.div_mod r1 36524 ltac:(lia)) as E1.
  pose proof (Z.mod_pos_bound r1 36524 ltac:(lia)) as B1.
  generalize dependent (r1 / 36524). intros b.
  generalize dependent (r1 mod 36524). intros r2 B1 E1.
  pose proof (Z.div_mod r2 1461 ltac:(lia)) as E2.
  pose proof (Z.mod_pos_bound r2 1461 ltac:(lia)) as B2.
  generalize dependent (r2 / 1461). intros c.
  generalize dependent (r2 mod 1461). intros r3 B2 E2.
  pose proof (Z.div_mod r3 365 ltac:(lia)) as E3.
  pose proof (Z.mod_pos_bound r3 365 ltac:(lia)) as B3.
  generalize dependent (r3 / 365). intros e.
  generalize dependent (r3 mod 365). intros r4 B3 E3.
  assert (0 <= b <= 4 ∧ 0 <= c <= 24 ∧ 0 <= e <= 4) as (Hb & Hc & He) by lia.
  destruct (Z.eqb_spec e 4) as [->|Ne]; [|destruct (Z.eqb_spec b 4) as [->|Nb]]; cbn [orb].
  - assert (b <= 3) by lia. split; [|split; [lia|split; [lia|done]]]. unfold ymd2ord.
    replace (a * 400 + 1 + b * 100 + c * 4 + 4 - 1) with (a * 400 + 1 + b * 100 + c * 4 + 3) by lia.
    rewrite year_parts, leap_parts by lia.
    replace ((3 =? 3) && (negb (c =? 24) || (b =? 3))) with true
      by (destruct (Z.eqb_spec c 24); [destruct (Z.eqb_spec b 3)|]; [done|lia|done]).
    change (month_start true 12) with 335. lia.
  - assert (c = 0 ∧ e = 0) as [-> ->] by lia. split; [|split; [lia|split; [lia|done]]]. unfold ymd2ord.
    replace (a * 400 + 1 + 4 * 100 + 0 * 4 + 0 - 1) with (a * 400 + 1 + 3 * 100 + 24 * 4 + 3) by lia.
    rewrite year_parts, leap_parts by lia. change (month_start _ 12) with 335. lia.
  - pose proof (month_day_back ((e =? 3) && (negb (c =? 24) || (b =? 3))) r4 B3) as M.
    destruct (month_day _ r4) as [m d]. unfold ymd2ord, days_in_month.
    rewrite year_parts, leap_parts by lia. split; [lia|]. tauto.
Qed.

(** The years [isoformat] can write in four digits. *)
Definition representable (t : datetime) : Prop :=
  let '(y, _, _) := ord2ymd (EPOCH_ORDINAL + t / DAY) in 1 <= y <= 9999.

Lemma month_start_bound leap m : 1 <= m <= 12 → 0 <= month_start leap m <= 335.
Proof.
  intros Hm. assert (C : m = 1 ∨ m = 2 ∨ m = 3 ∨ m = 4 ∨ m = 5 ∨ m = 6 ∨ m = 7 ∨ m = 8 ∨ m = 9
    ∨ m = 10 ∨ m = 11 ∨ m = 12) by lia.
  repeat (destruct C as [->|C]; [destruct leap; vm_compute; by split|]). subst.
  destruct leap; vm_compute; by split.
Qed.

(** From 1970 to 2500. *)
Lemma representable_range t : 0 <= t <= 16725225600000000 → representable t.
Proof.
  intros Ht. unfold representable, EPOCH_ORDINAL, DAY.
  pose proof (ord2ymd_back (719163 + t / 86400000000)) as B.
  destruct (ord2ymd _) as [[y m] d]. destruct B as (B & Hm & Hd).
  pose proof (month_start_bound (is_leap y) m Hm) as Ms.
  unfold ymd2ord, days_before_year in B. cbv zeta in B. Z.div_mod_to_equations. lia.
Qed.

Lemma prefix_cons c w d s :
  String.prefix (String c w) (String d s) = Ascii.eqb c d && String.prefix w s.
Proof. cbn. destruct (ascii_dec c d) as [->|N]; [by rewrite Ascii.eqb_refl|]. by apply Ascii.eqb_neq in N as ->. Qed.

Lemma replace_absent c old new s :
  all_chars (λ d, negb (Ascii.eqb d c)) s = true → str_replace (String c old) new 0 s = s.
Proof.
  induction s as [|d s IH]; [done|]. cbn [all_chars str_replace]. rewrite andb_true_iff.
  intros [Hd Hs]. rewrite prefix_cons, Ascii.eqb_sym. apply negb_true_iff in Hd. rewrite Hd.
  cbn [andb]. by rewrite IH.
Qed.

Lemma append_cons c s t : String c s ++ t = String c (s ++ t).
Proof. reflexivity. Qed.

Lemma append_nil_l s : "" ++ s = s.
Proof. reflexivity. Qed.

Lemma append_nil_r s : s ++ "" = s.
Proof. induction s as [|c s IH]; [done|]. change (String c (s ++ "") = String c s). by rewrite IH. Qed.

Lemma append_assoc (s t u : string) : s ++ (t ++ u) = (s ++ t) ++ u.
Proof.
  induction s as [|c s IH]; [done|].
  change (String c (s ++ (t ++ u)) = String c ((s ++ t) ++ u)). by rewrite IH.
Qed.

Lemma append_same_start s r r' : s ++ r = s ++ r' → r = r'.
Proof. induction s as [|c s IH]; simpl; [done|]. intros [= E]. auto. Qed.

Lemma clock_parts us :
  us = us / 3600000000 * 3600000000 + us / 60000000 mod 60 * 60000000
       + us / 1000000 mod 60 * 1000000 + us mod 1000000.
Proof.
  pose proof (Z.div_mod us 1000000 ltac:(lia)) as E0.
  pose proof (Z.div_mod (us / 1000000) 60 ltac:(lia)) as E1.
  pose proof (Z.div_mod (us / 60000000) 60 ltac:(lia)) as E2.
  rewrite Z.div_div in E1, E2 by lia.
  change (1000000 * 60) with 60000000 in E1. change (60000000 * 60) with 3600000000 in E2. lia.
Qed.

(** Two moments with the same text are the same moment. *)
Lemma isoformat_inj t t' :
  representable t → representable t' → isoformat t = isoformat t' → t = t'.
Proof.
  unfold representable, isoformat.
  pose proof (ord2ymd_back (EPOCH_ORDINAL + t / DAY)) as B.
  pose proof (ord2ymd_back (EPOCH_ORDINAL + t' / DAY)) as B'.
  destruct (ord2ymd (EPOCH_ORDINAL + t / DAY)) as [[y m] d].
  destruct (ord2ymd (EPOCH_ORDINAL + t' / DAY)) as [[y' m'] d'].
  intros Hy Hy' E. unfold DAY in *.
  pose proof (Z.mod_pos_bound t 86400000000 ltac:(lia)) as U.
  pose proof (Z.mod_pos_bound t' 86400000000 ltac:(lia)) as U'.
  pose proof (Z.div_mod t 86400000000 ltac:(lia)) as D.
  pose proof (Z.div_mod t' 86400000000 ltac:(lia)) as D'.
  remember (t mod 86400000000) as us eqn:Eu. remember (t' mod 86400000000) as us' eqn:Eu'.
  clear Eu Eu'.
  assert (Hh : ∀ v, 0 <= v < 86400000000 → 0 <= v / 3600000000 < 100).
  { intros v Hv. split; [apply Z.div_pos; lia|]. apply Z.div_lt_upper_bound; lia. }
  assert (H6 : ∀ v, 0 <= v mod 60 < 100) by (intros v; pose proof (Z.mod_pos_bound v 60); lia).
  assert (H7 : ∀ v, 0 <= v mod 1000000 < 1000000) by (intros v; apply Z.mod_pos_bound; lia).
  apply decimal_inj in E as [-> E]; [|simpl; lia..]. apply append_same_start in E.
  apply decimal_inj in E as [-> E]; [|simpl; lia..]. apply append_same_start in E.
  apply decimal_inj in E as [-> E]; [|simpl; lia..]. apply append_same_start in E.
  apply decimal_inj in E as [E1 E]; [|apply Hh; lia..]. apply append_same_start in E.
  apply decimal_inj in E as [E2 E]; [|apply H6..]. apply append_same_start in E.
  apply decimal_inj in E as [E3 E]; [|apply H6..].
  assert (E4 : us mod 1000000 = us' mod 1000000).
  { destruct (Z.eqb_spec (us mod 1000000) 0) as [Z1|Z1];
      destruct (Z.eqb_spec (us' mod 1000000) 0) as [Z2|Z2]; [congruence|done|done|].
    apply append_same_start in E. rewrite <- (append_nil_r (decimal 6 (us mod 1000000))) in E.
    rewrite <- (append_nil_r (decimal 6 (us' mod 1000000))) in E.
    apply decimal_inj in E as [E _]; [done|apply H7..]. }
  assert (Eu : us = us') by (rewrite (clock_parts us), (clock_parts us'); congruence).
  lia.
Qed.

(** * JSON strings read back *)

Definition hex_value (c : Ascii.ascii) : Z :=
  let n := Z.of_N (Ascii.N_of_ascii c) in if n <? 58 then n - 48 else n - 87.

(** The first character of an escaped text, and the rest. *)
Definition unescape (s : string) : option (Ascii.ascii * string) :=
  match s with
  | EmptyString => None
  | String c s' =>
      if bool_decide (c = dquote) then None
      else if negb (bool_decide (c = backslash)) then Some (c, s')
      else match s' with
           | EmptyString => None
           | String "b"%char s'' => Some ("008"%char, s'')
           | String "t"%char s'' => Some ("009"%char, s'')
           | String "n"%char s'' => Some ("010"%char, s'')
           | String "f"%char s'' => Some ("012"%char, s'')
           | String "r"%char s'' => Some ("013"%char, s'')
           | String "u"%char (String _ (String _ (String h (String l s'')))) =>
               Some (Ascii.ascii_of_N (Z.to_N (16 * hex_value h + hex_value l)), s'')
           | String d s'' => Some (d, s'')
           end
  end.

Lemma unescape_char c r : unescape (escape_char c ++ r) = Some (c, r).
Proof. destruct c as [[] [] [] [] [] [] [] []]; reflexivity. Qed.

Lemma escape_inj s t r r' :
  escape s ++ String dquote r = escape t ++ String dquote r' → s = t ∧ r = r'.
Proof.
  revert t. induction s as [|c s IH]; intros [|d t]; cbn [escape].
  - by intros [= ->].
  - rewrite <- append_assoc. intros E. apply (f_equal unescape) in E.
    by rewrite unescape_char in E.
  - rewrite <- append_assoc. intros E. apply (f_equal unescape) in E.
    by rewrite unescape_char in E.
  - rewrite <- !append_assoc. intros E. apply (f_equal unescape) in E.
    rewrite !unescape_char in E. injection E as -> E. by apply IH in E as [-> ->].
Qed.

Lemma dumps_str_inj s t r r' : dumps_str s ++ r = dumps_str t ++ r' → s = t ∧ r = r'.
Proof.
  unfold dumps_str. intros E.
  change (String dquote ((escape s ++ String dquote "") ++ r)
          = String dquote ((escape t ++ String dquote "") ++ r')) in E.
  injection E as E. rewrite <- !append_assoc in E. by apply escape_inj in E.
Qed.

(** A text or null. *)
Lemma dumps_optional_inj o o' r r' :
  dumps (default JNull (JStr <$> o)) ++ r = dumps (default JNull (JStr <$> o')) ++ r' →
  o = o' ∧ r = r'.
Proof.
  destruct o as [s|], o' as [s'|]; cbn [dumps fmap option_fmap option_map default from_option].
  - intros E. by apply dumps_str_inj in E as [-> ->].
  - by unfold dumps_str.
  - by unfold dumps_str.
  - intros E. split; [done|]. by injection E.
Qed.

Lemma dumps_bool_inj b b' r r' :
  dumps (JBool b) ++ r = dumps (JBool b') ++ r' → b = b' ∧ r = r'.
Proof. destruct b, b'; cbn; try done; intros E; (split; [done|]); by injection E. Qed.

(** Conversion leaves digests alone; [vm_compute] evaluates them. *)
#[global] Opaque sha256_hexdigest.
