(* ===== verification/Schema.v ===== *)
(** The rows of the agent-run domain ([storage/postgres/models_business.py]):
    runs, attempts, messages, tool calls, scopes, subagent threads, requests and
    conversations, with the constraints PostgreSQL enforces on [agent_runs]. *)

From stdpp Require Import prelude gmap strings list fin_maps.
From Stdlib Require Import ZArith Lia.
From S2P Require Import Prelude.

(** * Value sets of the status columns *)

Inductive RunStatus :=
  | Pending | Running | Completed | Failed | CancelRequested | Cancelled | Interrupted.

Inductive RunType := Chat | Resume | Subagent.

(** [AgentRunAttempt.outcome]: a terminal status of the run, or the fact that
    the lease was released for a retry or expired. *)
Inductive AttemptOutcome :=
  | OutcomeStatus (s : RunStatus)
  | RetryReleased
  | LeaseExpired.

Inductive ExecStatus :=
  | ExecRunning | ExecCompleted | ExecFailed | ExecInterrupted | ExecAbandoned.

Inductive RequestStatus := Queued | Dispatched | ReqCancelled | ReqRejected | ReqFailed.

#[global] Instance RunStatus_eq_dec : EqDecision RunStatus.
Proof. solve_decision. Defined.
#[global] Instance RunType_eq_dec : EqDecision RunType.
Proof. solve_decision. Defined.
#[global] Instance AttemptOutcome_eq_dec : EqDecision AttemptOutcome.
Proof. solve_decision. Defined.
#[global] Instance ExecStatus_eq_dec : EqDecision ExecStatus.
Proof. solve_decision. Defined.
#[global] Instance RequestStatus_eq_dec : EqDecision RequestStatus.
Proof. solve_decision. Defined.

(** [AGENT_RUN_TERMINAL_STATUSES]. *)
Definition AGENT_RUN_TERMINAL_STATUSES : list RunStatus :=
  [Completed; Failed; Cancelled; Interrupted].

(** [status in TERMINAL_RUN_STATUSES]. *)
Definition is_terminal (s : RunStatus) : bool :=
  bool_decide (s ∈ AGENT_RUN_TERMINAL_STATUSES).

(** * Rows *)

(** [AgentRun]: one execution of an agent, with its lease. *)
Module Run.
Record AgentRun := mk {
  id : string;
  conversation_thread_id : string;
  runtime_scope_id : string;
  runtime_cleanup_pending : bool;
  agent_slug : string;
  uid : string;
  status : RunStatus;
  request_id : string;
  source : string;
  channel : string;
  external_id : option string;
  origin_metadata : json;
  conversation_id : option Z;
  created_by_run_id : option string;
  subagent_thread_relation_id : option Z;
  run_type : RunType;
  input_message_id : option Z;
  output_message_id : option Z;
  input_payload : json;
  token_usage : json;
  langfuse_trace_id : option string;
  error_type : option string;
  error_message : option string;
  worker_id : option string;
  heartbeat_at : option datetime;
  lease_expires_at : option datetime;
  manifest : option json;
  manifest_fingerprint : option string;
  manifest_recorded_at : option datetime;
  started_at : option datetime;
  prepared_at : option datetime;
  first_model_request_at : option datetime;
  first_output_at : option datetime;
  finished_at : option datetime;
  created_at : option datetime;
  updated_at : option datetime;
}.
#[global] Instance eta : Eta AgentRun := λ r,
  mk (id r) (conversation_thread_id r) (runtime_scope_id r) (runtime_cleanup_pending r)
    (agent_slug r) (uid r) (status r) (request_id r) (source r) (channel r) (external_id r)
    (origin_metadata r) (conversation_id r) (created_by_run_id r)
    (subagent_thread_relation_id r) (run_type r) (input_message_id r) (output_message_id r)
    (input_payload r) (token_usage r) (langfuse_trace_id r) (error_type r) (error_message r)
    (worker_id r) (heartbeat_at r) (lease_expires_at r) (manifest r)
    (manifest_fingerprint r) (manifest_recorded_at r) (started_at r) (prepared_at r)
    (first_model_request_at r) (first_output_at r) (finished_at r) (created_at r)
    (updated_at r).
End Run.
Abbreviation AgentRun := Run.AgentRun.

(** [AgentRunAttempt]: one ownership of a run by a worker; a row is never deleted,
    so the table is the list of its rows in insertion order. *)
Module Attempt.
Record AgentRunAttempt := mk {
  id : Z;
  run_id : string;
  attempt_no : Z;
  worker_id : string;
  started_at : datetime;
  heartbeat_at : option datetime;
  lease_expires_at : option datetime;
  finished_at : option datetime;
  outcome : option AttemptOutcome;
  error_type : option string;
  error_message : option string;
  updated_at : option datetime;
}.
#[global] Instance eta : Eta AgentRunAttempt := λ r,
  mk (id r) (run_id r) (attempt_no r) (worker_id r) (started_at r) (heartbeat_at r)
    (lease_expires_at r) (finished_at r) (outcome r) (error_type r) (error_message r)
    (updated_at r).
End Attempt.
Abbreviation AgentRunAttempt := Attempt.AgentRunAttempt.

(** [Message]: a chat message or an audit row of a model or tool operation. *)
Module Msg.
Record Message := mk {
  id : Z;
  conversation_id : Z;
  role : string;
  content : string;
  message_type : string;
  created_at : option datetime;
  extra_metadata : option json;
  image_content : option string;
  run_id : option string;
  request_id : option string;
  delivery_status : string;
  operation_id : option string;
  started_at : option datetime;
  finished_at : option datetime;
  duration_ms : option Z;
  sequence : option Z;
  execution_status : option ExecStatus;
}.
#[global] Instance eta : Eta Message := λ r,
  mk (id r) (conversation_id r) (role r) (content r) (message_type r) (created_at r)
    (extra_metadata r) (image_content r) (run_id r) (request_id r) (delivery_status r)
    (operation_id r) (started_at r) (finished_at r) (duration_ms r) (sequence r)
    (execution_status r).
End Msg.
Abbreviation Message := Msg.Message.

(** [ToolCall]. *)
Module Tool.
Record ToolCall := mk {
  id : Z;
  message_id : Z;
  langgraph_tool_call_id : option string;
  tool_name : string;
  tool_input : option json;
  tool_output : option string;
  status : string;
  error_message : option string;
  created_at : option datetime;
}.
#[global] Instance eta : Eta ToolCall := λ r,
  mk (id r) (message_id r) (langgraph_tool_call_id r) (tool_name r) (tool_input r)
    (tool_output r) (status r) (error_message r) (created_at r).
End Tool.
Abbreviation ToolCall := Tool.ToolCall.

(** [AgentRunScope]: the dedicated sandbox scope of a run. *)
Module Scope.
Record AgentRunScope := mk {
  run_id : string;
  scope_key : string;
  created_at : datetime;
}.
#[global] Instance eta : Eta AgentRunScope := λ r,
  mk (run_id r) (scope_key r) (created_at r).
End Scope.
Abbreviation AgentRunScope := Scope.AgentRunScope.

(** [SubagentThread]: the thread of a subagent and the conversation that owns it. *)
Module SubThread.
Record SubagentThread := mk {
  id : Z;
  uid : string;
  parent_conversation_id : Z;
  child_conversation_id : Z;
  child_thread_id : string;
  subagent_slug : string;
  created_by_run_id : string;
}.
#[global] Instance eta : Eta SubagentThread := λ r,
  mk (id r) (uid r) (parent_conversation_id r) (child_conversation_id r) (child_thread_id r)
    (subagent_slug r) (created_by_run_id r).
End SubThread.
Abbreviation SubagentThread := SubThread.SubagentThread.

(** [AgentRunRequest]: a queued user request. *)
Module Req.
Record AgentRunRequest := mk {
  id : Z;
  request_id : string;
  uid : string;
  agent_slug : string;
  conversation_thread_id : string;
  source : string;
  channel : string;
  external_id : option string;
  origin_metadata : json;
  queue_policy : string;
  status : RequestStatus;
  input_message_id : Z;
  dispatched_run_id : option string;
  input_payload : json;
  error_message : option string;
  created_at : datetime;
  dispatched_at : option datetime;
  updated_at : datetime;
}.
#[global] Instance eta : Eta AgentRunRequest := λ r,
  mk (id r) (request_id r) (uid r) (agent_slug r) (conversation_thread_id r) (source r)
    (channel r) (external_id r) (origin_metadata r) (queue_policy r) (status r)
    (input_message_id r) (dispatched_run_id r) (input_payload r) (error_message r)
    (created_at r) (dispatched_at r) (updated_at r).
End Req.
Abbreviation AgentRunRequest := Req.AgentRunRequest.

(** [Conversation]: the columns the run and queue code reads. *)
Module Conv.
Record Conversation := mk {
  id : Z;
  thread_id : string;
  uid : string;
  agent_id : string;
  status : string;
  project_id : string;
  extra_metadata : option json;
}.
#[global] Instance eta : Eta Conversation := λ r,
  mk (id r) (thread_id r) (uid r) (agent_id r) (status r) (project_id r) (extra_metadata r).
End Conv.
Abbreviation Conversation := Conv.Conversation.

(** [Project]: its owner, its status and the columns that bind a conversation to its Workdir. *)
Module Proj.
Record Project := mk {
  id : string;
  uid : string;
  workdir_path : string;
  directory_mode : string;
  status : string;
}.
#[global] Instance eta : Eta Project := λ r,
  mk (id r) (uid r) (workdir_path r) (directory_mode r) (status r).
End Proj.
Abbreviation Project := Proj.Project.

(** The tables of the agent-run domain and their sequences. *)
Module DB.
Record Database := mk {
  runs : gmap string AgentRun;
  attempts : list AgentRunAttempt;
  messages : gmap Z Message;
  tool_calls : gmap Z ToolCall;
  run_scopes : gmap string AgentRunScope;
  subagent_threads : gmap Z SubagentThread;
  run_requests : gmap string AgentRunRequest;
  conversations : gmap Z Conversation;
  projects : gmap string Project;
  next_attempt_id : Z;
  next_request_id : Z;
  next_message_id : Z;
}.
#[global] Instance eta : Eta Database := λ r,
  mk (runs r) (attempts r) (messages r) (tool_calls r) (run_scopes r) (subagent_threads r)
    (run_requests r) (conversations r) (projects r) (next_attempt_id r)
    (next_request_id r) (next_message_id r).
End DB.
Abbreviation Database := DB.Database.

(** * Constraints of [agent_runs] *)

(** [AGENT_RUN_SHAPE_CONSTRAINT_SQL]. *)
Definition nonterminal_shape (r : AgentRun) : bool :=
  is_terminal (Run.status r)
  || (negb (bool_decide (Run.runtime_scope_id r = ""))
      && negb (bool_decide (Run.conversation_thread_id r = ""))
      && match Run.run_type r with
         | Chat =>
             bool_decide (Run.runtime_scope_id r = Run.conversation_thread_id r)
             && bool_decide (Run.created_by_run_id r = None)
             && bool_decide (Run.subagent_thread_relation_id r = None)
         | Resume =>
             bool_decide (Run.runtime_scope_id r = Run.conversation_thread_id r)
             && negb (bool_decide (Run.created_by_run_id r = None))
             && bool_decide (Run.subagent_thread_relation_id r = None)
         | Subagent =>
             negb (bool_decide (Run.created_by_run_id r = None))
             && negb (bool_decide (Run.subagent_thread_relation_id r = None))
         end).

(** The key of the partial unique index [uq_agent_runs_one_active_per_thread]. *)
Definition thread_key (r : AgentRun) : string * string * string :=
  (Run.uid r, Run.agent_slug r, Run.conversation_thread_id r).

Definition active (r : AgentRun) : bool := negb (is_terminal (Run.status r)).

(** Inserting a run: the check constraint, the primary key, the unique request
    id and the partial unique index, in this order. *)
Definition insert_run (r : AgentRun) : M Database unit :=
  existing ← gets DB.runs;
  if negb (nonterminal_shape r) then raise (IntegrityError "ck_agent_runs_nonterminal_shape")
  else if bool_decide (is_Some (existing !! Run.id r)) then raise (IntegrityError "agent_runs_pkey")
  else if any (λ o, bool_decide (Run.request_id o = Run.request_id r)) existing
  then raise (IntegrityError "ix_agent_runs_request_id")
  else if active r && any (λ o, active o && bool_decide (thread_key o = thread_key r)) existing
  then raise (IntegrityError "uq_agent_runs_one_active_per_thread")
  else modify (λ db, db <| DB.runs ::= <[Run.id r := r]> |>).

(** Flushing the changed columns of a loaded run. *)
Definition put_run (r : AgentRun) : M Database unit :=
  modify (λ db, db <| DB.runs ::= <[Run.id r := r]> |>).

Definition put_message (m : Message) : M Database unit :=
  modify (λ db, db <| DB.messages ::= <[Msg.id m := m]> |>).

Lemma is_terminal_true s :
  is_terminal s = true ↔ s = Completed ∨ s = Failed ∨ s = Cancelled ∨ s = Interrupted.
Proof. destruct s; compute; intuition congruence. Qed.

Lemma is_terminal_false s :
  is_terminal s = false ↔ s = Pending ∨ s = Running ∨ s = CancelRequested.
Proof. destruct s; compute; intuition congruence. Qed.
