(* ===== verification/RunSpec.v ===== *)
(** What the lease protocol promises, without tables: the life of one run as
    a small state machine.  [RunInv] requires every change of a run's row to be
    a sequence of these moves, so the repository refines it. *)

From stdpp Require Import prelude strings list relations.
From Stdlib Require Import ZArith Lia.
From S2P Require Import Prelude Schema.

(** [Waiting fresh]: free to be claimed, [fresh] until the first claim.
    [Held w e]: executed by [w] until [e].  [Stopping w e]: asked to stop, with or
    without an owner.  [Done s]: ended. *)
Inductive phase : Type :=
  | Waiting (fresh : bool)
  | Held (w : option string) (e : option datetime)
  | Stopping (w : option string) (e : option datetime)
  | Done (s : RunStatus).

Inductive move : phase → phase → Prop :=
  | move_claim b w e : move (Waiting b) (Held (Some w) (Some e))
  | move_beat w e e' : move (Held w e) (Held w e')
  | move_release w e : move (Held w e) (Waiting false)
  | move_stop w e : move (Held w e) (Stopping w e)
  | move_stop_released : move (Waiting false) (Stopping None None)
  | move_adopt w e : move (Stopping None None) (Stopping (Some w) (Some e))
  | move_stop_beat w e e' : move (Stopping w e) (Stopping w e')
  | move_drop b s : s = Failed ∨ s = Cancelled → move (Waiting b) (Done s)
  | move_finish w e s :
      s = Completed ∨ s = Failed ∨ s = Interrupted → move (Held w e) (Done s)
  | move_stopped w e : move (Stopping w e) (Done Cancelled)
  | move_lost w e : move (Stopping w e) (Done Failed).

(** The phase a row is in. *)
Definition phase_of (r : AgentRun) : phase :=
  match Run.status r with
  | Pending => Waiting (bool_decide (Run.started_at r = None))
  | Running => Held (Run.worker_id r) (Run.lease_expires_at r)
  | CancelRequested => Stopping (Run.worker_id r) (Run.lease_expires_at r)
  | s => Done s
  end.

Definition moves : phase → phase → Prop := rtc move.

(** * Consequences of the machine *)

Lemma done_is_final s p : moves (Done s) p → p = Done s.
Proof. unfold moves. intros H. inversion H as [|? ? ? Hm]; subst; [done|]. inversion Hm. Qed.

(** A cancel request never goes back to a state that may run to completion. *)
Definition stops (p : phase) : Prop :=
  match p with
  | Stopping _ _ => True
  | Done s => s = Cancelled ∨ s = Failed
  | _ => False
  end.

Lemma stopping_stops p q : moves p q → stops p → stops q.
Proof.
  unfold moves. induction 1 as [|p1 p2 p3 Hm _ IH]; intros Hs; [done|]. apply IH.
  destruct Hm; simpl in *; auto; done.
Qed.

(** No run goes back to [fresh]. *)
Lemma not_fresh_again p q : moves p q → p ≠ Waiting true → q ≠ Waiting true.
Proof.
  unfold moves. induction 1 as [|p1 p2 p3 Hm _ IH]; intros Hne; [done|]. apply IH.
  destruct Hm; done.
Qed.

(** A run changes hands only by being released in between. *)
Definition owner (p : phase) : option string :=
  match p with
  | Held w _ | Stopping w _ => w
  | _ => None
  end.

Lemma move_owner p q :
  move p q → owner p = owner q ∨ owner p = None ∨ owner q = None.
Proof. destruct 1; simpl; auto. Qed.

Lemma phase_done r : is_terminal (Run.status r) = true → phase_of r = Done (Run.status r).
Proof. unfold phase_of. intros Ht. apply is_terminal_true in Ht as [E|[E|[E|E]]]; by rewrite E. Qed.

Lemma phase_done_inv r s : phase_of r = Done s → Run.status r = s ∧ is_terminal s = true.
Proof. unfold phase_of. destruct (Run.status r); try done; by intros [= <-]. Qed.
