(* ===== verification/RunRepo.v ===== *)
(** [AgentRunRepository] ([repositories/agent_run_repository.py]): queries, the
    execution lease of a run, cancellation of an execution tree, reconciliation
    of lost owners and the write-once facts of an attempt.

    [now] is the one reading of the clock a call makes ([now or utc_now_naive()]).
    A row lock ([SELECT .. FOR UPDATE]) makes each function atomic on the rows it
    loads; the returned row is the object the session holds after the call. *)

From stdpp Require Import prelude gmap strings list fin_maps.
From Stdlib Require Import ZArith Lia.
From S2P Require Import Prelude Schema.

Definition TOP_LEVEL_RUN_TYPES : list RunType := [Chat; Resume].
Definition LEASED_RUN_STATUSES : list RunStatus := [Running; CancelRequested].
Definition AUDIT_MESSAGE_TYPES : list string := ["model_audit"; "tool_audit"].

Definition RUN_STATUS_TO_DELIVERY_STATUS (s : RunStatus) : option string :=
  match s with
  | Completed => Some "complete"
  | Failed => Some "failed"
  | Cancelled => Some "cancelled"
  | _ => None
  end.

(** * Orders of the queries *)

(** [ORDER BY created_at ASC, id ASC]. *)
Definition run_asc (a b : AgentRun) : bool :=
  if bool_decide (Run.created_at a = Run.created_at b) then str_leb (Run.id a) (Run.id b)
  else ts_leb (Run.created_at a) (Run.created_at b).

(** [ORDER BY created_at DESC, id DESC]. *)
Definition run_desc (a b : AgentRun) : bool := run_asc b a.

(** [ORDER BY created_at DESC]. *)
Definition run_newest (a b : AgentRun) : bool := ts_leb (Run.created_at b) (Run.created_at a).

(** [ORDER BY finished_at ASC, id ASC]. *)
Definition run_finished_asc (a b : AgentRun) : bool :=
  if bool_decide (Run.finished_at a = Run.finished_at b) then str_leb (Run.id a) (Run.id b)
  else ts_leb (Run.finished_at a) (Run.finished_at b).

(** * Queries *)

Definition get_run (run_id : string) : M Database (option AgentRun) :=
  gets (λ db, DB.runs db !! run_id).

Definition get_run_by_request_id (request_id : string) : M Database (option AgentRun) :=
  found ← gets (λ db, select (λ r, bool_decide (Run.request_id r = request_id)) (DB.runs db));
  scalar_one_or_none found.

Definition get_run_for_user (run_id uid : string) : M Database (option AgentRun) :=
  run ← get_run run_id;
  mret (match run with
        | Some r => if bool_decide (Run.uid r = uid) then Some r else None
        | None => None
        end).

Definition lock_run_for_user := get_run_for_user.

Definition lock_run := get_run.

Definition get_subagent_run_with_creator (uid created_by_run_id run_id : string)
    : M Database (option (AgentRun * AgentRun)) :=
  creator ← get_run_for_user created_by_run_id uid;
  match creator with
  | None => mret None
  | Some creator =>
      run ← get_run_for_user run_id uid;
      match run with
      | None => mret None
      | Some run =>
          if negb (bool_decide (Run.run_type run = Subagent)) then mret None
          else if negb (bool_decide (Run.created_by_run_id run = Some (Run.id creator)))
          then mret None
          else match Run.subagent_thread_relation_id run with
               | None => mret None
               | Some relation_id =>
                   if (relation_id =? 0)%Z then mret None else
                   threads ← gets DB.subagent_threads;
                   match threads !! relation_id with
                   | None => mret None
                   | Some relation =>
                       if negb (bool_decide (SubThread.uid relation = uid)) then mret None
                       else if negb (bool_decide
                              (Some (SubThread.parent_conversation_id relation)
                               = Run.conversation_id creator))
                       then mret None
                       else if negb (bool_decide
                                 (Some (SubThread.child_conversation_id relation)
                                  = Run.conversation_id run))
                               || negb (bool_decide
                                 (SubThread.child_thread_id relation
                                  = Run.conversation_thread_id run))
                       then mret None
                       else mret (Some (creator, run))
                   end
               end
      end
  end.

Definition get_latest_subagent_run_by_thread_for_user (thread_id uid : string)
    : M Database (option AgentRun) :=
  gets (λ db, head (sort_by run_newest (select (λ r,
    bool_decide (Run.conversation_thread_id r = thread_id)
    && bool_decide (Run.uid r = uid)
    && bool_decide (Run.run_type r = Subagent)) (DB.runs db)))).

Definition get_latest_run_by_thread_for_user (thread_id uid : string)
    : M Database (option AgentRun) :=
  gets (λ db, head (sort_by run_newest (select (λ r,
    bool_decide (Run.conversation_thread_id r = thread_id)
    && bool_decide (Run.uid r = uid)
    && bool_decide (Run.run_type r ∈ [Chat; Resume; Subagent])) (DB.runs db)))).

Definition get_latest_chat_or_resume_run (uid agent_slug thread_id : string)
    : M Database (option AgentRun) :=
  gets (λ db, head (sort_by run_desc (select (λ r,
    bool_decide (Run.uid r = uid)
    && bool_decide (Run.agent_slug r = agent_slug)
    && bool_decide (Run.conversation_thread_id r = thread_id)
    && bool_decide (Run.run_type r ∈ TOP_LEVEL_RUN_TYPES)) (DB.runs db)))).

(** One window-function query: per thread, the first row of the partition. *)
Definition get_latest_top_level_runs_for_threads (uid : string) (thread_ids : list string)
    : M Database (gmap string (string * RunStatus)) :=
  if bool_decide (thread_ids = []) then mret ∅ else
  gets (λ db, list_to_map (omap (λ t,
    (λ r, (t, (Run.id r, Run.status r))) <$>
      head (sort_by run_desc (select (λ r,
        bool_decide (Run.uid r = uid)
        && bool_decide (Run.conversation_thread_id r = t)
        && bool_decide (Run.run_type r ∈ TOP_LEVEL_RUN_TYPES)) (DB.runs db))))
    thread_ids)).

Definition list_child_runs_for_user (created_by_run_id uid : string)
    : M Database (list AgentRun) :=
  gets (λ db, sort_by run_asc (select (λ r,
    bool_decide (Run.created_by_run_id r = Some created_by_run_id)
    && bool_decide (Run.uid r = uid)) (DB.runs db))).

Definition list_subagent_runs_for_conversation (conversation_id : Z) (uid : string)
    : M Database (list AgentRun) :=
  gets (λ db, sort_by run_asc (select (λ r,
    match Run.subagent_thread_relation_id r ≫= λ i, DB.subagent_threads db !! i with
    | None => false
    | Some t =>
        bool_decide (SubThread.parent_conversation_id t = conversation_id)
        && bool_decide (SubThread.uid t = uid)
        && bool_decide (Run.uid r = uid)
        && bool_decide (Run.run_type r = Subagent)
        && bool_decide (Run.conversation_id r = Some (SubThread.child_conversation_id t))
    end) (DB.runs db))).

(** [status NOT IN terminal OR runtime_cleanup_pending]. *)
Definition occupies_runtime (r : AgentRun) : bool :=
  active r || Run.runtime_cleanup_pending r.

Definition get_active_run_by_thread_for_user (agent_slug thread_id uid : string)
    : M Database (option AgentRun) :=
  gets (λ db, head (sort_by run_newest (select (λ r,
    bool_decide (Run.agent_slug r = agent_slug)
    && bool_decide (Run.uid r = uid)
    && bool_decide (Run.conversation_thread_id r = thread_id)
    && occupies_runtime r) (DB.runs db)))).

Definition get_active_run_by_runtime_scope_for_user (runtime_scope_id uid : string)
    : M Database (option AgentRun) :=
  gets (λ db, head (sort_by run_desc (select (λ r,
    bool_decide (Run.runtime_scope_id r = runtime_scope_id)
    && bool_decide (Run.uid r = uid)
    && occupies_runtime r) (DB.runs db)))).

Definition list_pending_runtime_cleanups (limit : nat) : M Database (list AgentRun) :=
  gets (λ db, take limit (sort_by run_finished_asc (select (λ r,
    Run.runtime_cleanup_pending r && negb (bool_decide (Run.run_type r = Subagent)))
    (DB.runs db)))).

(** * Creating a run *)

Definition create_run (run_id thread_id : string) (runtime_scope_id : option string)
    (agent_slug uid request_id : string) (input_payload : json) (source channel : string)
    (external_id : option string) (origin_metadata : json) (conversation_id : option Z)
    (created_by_run_id : option string) (relation_id : option Z) (run_type : RunType)
    (input_message_id : option Z) (now : datetime) : M Database AgentRun :=
  let run := {|
    Run.id := run_id;
    Run.conversation_thread_id := thread_id;
    Run.runtime_scope_id :=
      match runtime_scope_id with None => thread_id | Some s => strip s end;
    Run.runtime_cleanup_pending := false;
    Run.agent_slug := agent_slug;
    Run.uid := uid;
    Run.status := Pending;
    Run.request_id := request_id;
    Run.source := source;
    Run.channel := channel;
    Run.external_id := external_id;
    Run.origin_metadata := json_or_empty origin_metadata;
    Run.conversation_id := conversation_id;
    Run.created_by_run_id := created_by_run_id;
    Run.subagent_thread_relation_id := relation_id;
    Run.run_type := run_type;
    Run.input_message_id := input_message_id;
    Run.output_message_id := None;
    Run.input_payload := json_or_empty input_payload;
    Run.token_usage := JObj [];
    Run.langfuse_trace_id := None;
    Run.error_type := None;
    Run.error_message := None;
    Run.worker_id := None;
    Run.heartbeat_at := None;
    Run.lease_expires_at := None;
    Run.manifest := None;
    Run.manifest_fingerprint := None;
    Run.manifest_recorded_at := None;
    Run.started_at := None;
    Run.prepared_at := None;
    Run.first_model_request_at := None;
    Run.first_output_at := None;
    Run.finished_at := None;
    Run.created_at := Some now;
    Run.updated_at := Some now
  |} in
  _ ← insert_run run;
  mret run.

(** * Attempts *)

Definition attempt_open (a : AgentRunAttempt) : bool :=
  bool_decide (Attempt.finished_at a = None).

Definition attempt_of (run_id : string) (a : AgentRunAttempt) : bool :=
  bool_decide (Attempt.run_id a = run_id).

Definition attempts_of (run_id : string) (db : Database) : list AgentRunAttempt :=
  List.filter (attempt_of run_id) (DB.attempts db).

Definition attempt_asc (a b : AgentRunAttempt) : bool :=
  if (Attempt.attempt_no a =? Attempt.attempt_no b)%Z
  then (Attempt.id a <=? Attempt.id b)%Z
  else (Attempt.attempt_no a <=? Attempt.attempt_no b)%Z.

Definition list_run_attempts (run_id : string) : M Database (list AgentRunAttempt) :=
  gets (λ db, sort_by attempt_asc (attempts_of run_id db)).

Definition get_open_attempt (run_id : string) (worker_id : option string)
    : M Database (option AgentRunAttempt) :=
  gets (λ db, head (sort_by (λ a b, (Attempt.attempt_no b <=? Attempt.attempt_no a)%Z)
    (List.filter (λ a,
      attempt_open a
      && match worker_id with
         | None => true
         | Some w => bool_decide (Attempt.worker_id a = w)
         end) (attempts_of run_id db)))).

(** Writing back the changed columns of one loaded attempt. *)
Definition put_attempt (a : AgentRunAttempt) : M Database unit :=
  modify (λ db, db <| DB.attempts ::= map (λ b,
    if (Attempt.id b =? Attempt.id a)%Z then a else b) |>).

Definition finish_attempt (outcome : AttemptOutcome) (error_type error_message : option string)
    (now : datetime) (a : AgentRunAttempt) : AgentRunAttempt :=
  a <| Attempt.outcome := Some outcome |>
    <| Attempt.error_type := error_type |>
    <| Attempt.error_message := error_message |>
    <| Attempt.finished_at := Some now |>
    <| Attempt.updated_at := Some now |>.

Definition finish_open_attempt (run_id : string) (worker_id : option string)
    (outcome : AttemptOutcome) (now : datetime) (error_type error_message : option string)
    : M Database unit :=
  attempt ← get_open_attempt run_id worker_id;
  match attempt with
  | None => mret tt
  | Some a => put_attempt (finish_attempt outcome error_type error_message now a)
  end.

Definition close_open_attempts (run_id : string) (outcome : AttemptOutcome) (now : datetime)
    (error_type error_message : option string) : M Database unit :=
  modify (λ db, db <| DB.attempts ::= map (λ a,
    if attempt_of run_id a && attempt_open a
    then finish_attempt outcome error_type error_message now a else a) |>).

(** [SELECT COALESCE(MAX(attempt_no), 0)]. *)
Definition max_attempt_no (l : list AgentRunAttempt) : Z :=
  match l with
  | [] => 0
  | a :: l => foldr (λ b m, Z.max (Attempt.attempt_no b) m) (Attempt.attempt_no a) l
  end.

(** [db.add(AgentRunAttempt(..))] with the next value of the id sequence. *)
Definition add_attempt (run_id : string) (attempt_no : Z) (worker_id : string) (now : datetime)
    (lease_expires_at : option datetime) : M Database unit :=
  modify (λ db,
    db <| DB.attempts ::= λ l, l ++ [{|
            Attempt.id := DB.next_attempt_id db;
            Attempt.run_id := run_id;
            Attempt.attempt_no := attempt_no;
            Attempt.worker_id := worker_id;
            Attempt.started_at := now;
            Attempt.heartbeat_at := Some now;
            Attempt.lease_expires_at := lease_expires_at;
            Attempt.finished_at := None;
            Attempt.outcome := None;
            Attempt.error_type := None;
            Attempt.error_message := None;
            Attempt.updated_at := Some now |}] |>
       <| DB.next_attempt_id ::= Z.succ |>).

(** * Projections kept in the same transaction *)

Definition project_input_delivery_status (run : AgentRun) : M Database unit :=
  match Run.input_message_id run, RUN_STATUS_TO_DELIVERY_STATUS (Run.status run) with
  | Some i, Some delivery_status =>
      modify (λ db, db <| DB.messages ::= update_where
        (λ m, (Msg.id m =? i)%Z) (λ m, m <| Msg.delivery_status := delivery_status |>) |>)
  | _, _ => mret tt
  end.

(** [isinstance(v, int)]: a Python bool is an int. *)
Definition json_int (v : json) : option Z :=
  match v with
  | JInt z => Some z
  | JBool b => Some (if b then 1%Z else 0%Z)
  | _ => None
  end.

(** The metadata of the running tool audits, by compatibility tool-call id. *)
Definition running_tool_metadata (run_id : string) (db : Database) : gmap Z json :=
  foldl (λ acc m,
    match Msg.extra_metadata m with
    | Some (JObj l) =>
        match jget "compatibility_tool_call_id" (JObj l) ≫= json_int with
        | Some i => <[i := JObj l]> acc
        | None => acc
        end
    | _ => acc
    end) ∅
    (select (λ m, bool_decide (Msg.run_id m = Some run_id)
                  && bool_decide (Msg.message_type m = "tool_audit")
                  && bool_decide (Msg.execution_status m = Some ExecRunning))
            (DB.messages db)).

Definition exec_status_text (s : ExecStatus) : string :=
  match s with
  | ExecRunning => "running"
  | ExecCompleted => "completed"
  | ExecFailed => "failed"
  | ExecInterrupted => "interrupted"
  | ExecAbandoned => "abandoned"
  end.

Definition close_running_audits (run_id : string) (execution_status : ExecStatus)
    (now : datetime) (preserve_pending_tool_calls : bool) : M Database unit :=
  tool_metadata ← gets (running_tool_metadata run_id);
  _ ← (if negb (bool_decide (size tool_metadata = 0)) && negb preserve_pending_tool_calls
       then modify (λ db, db <| DB.tool_calls ::= λ calls,
              map_imap (λ i c,
                Some (match tool_metadata !! i with
                      | None => c
                      | Some metadata =>
                          c <| Tool.status := "error" |>
                            <| Tool.error_message := Some
                                 (match jget "error_message" metadata with
                                  | Some (JStr s) =>
                                      if bool_decide (s = "")
                                      then "Tool 审计由 Run 终态收敛为 " +:+ exec_status_text execution_status
                                      else s
                                  | _ => "Tool 审计由 Run 终态收敛为 " +:+ exec_status_text execution_status
                                  end) |>
                      end)) calls |>)
       else mret tt);
  modify (λ db, db <| DB.messages ::= update_where
    (λ m, bool_decide (Msg.run_id m = Some run_id)
          && bool_decide (Msg.message_type m ∈ AUDIT_MESSAGE_TYPES)
          && bool_decide (Msg.execution_status m = Some ExecRunning))
    (λ m, m <| Msg.execution_status := Some execution_status |>
            <| Msg.finished_at := Some (or_else (Msg.finished_at m) now) |>) |>).

Definition get_matching_output_message (run : AgentRun) (message_id : Z)
    : M Database (option Message) :=
  messages ← gets DB.messages;
  mret (match messages !! message_id with
        | Some m =>
            if bool_decide (Some (Msg.conversation_id m) = Run.conversation_id run)
               && bool_decide (Msg.run_id m = Some (Run.id run))
               && bool_decide (Msg.request_id m = Some (Run.request_id run))
               && bool_decide (Msg.role m = "assistant")
            then Some m else None
        | None => None
        end).

(** * Lease-protected writes *)

(** [expires is not None and expires > now]. *)
Definition lease_live (expires : option datetime) (now : datetime) : bool :=
  match expires with
  | Some e => (now <? e)%Z
  | None => false
  end.

(** The negation of the guard of [_require_lease_owner]. *)
Definition owns_lease (run : AgentRun) (worker_id : string) (now : datetime) : bool :=
  bool_decide (Run.status run = Running)
  && bool_decide (Run.worker_id run = Some worker_id)
  && lease_live (Run.lease_expires_at run) now.

Definition require_lease_owner (run : AgentRun) (worker_id : string) (now : datetime)
    (action : string) : M Database unit :=
  if owns_lease run worker_id now then mret tt
  else raise (ValueError ("只有当前有效 AgentRun lease owner 可以" +:+ action)).

Definition set_langfuse_trace_id (run_id trace_id worker_id : string) (now : datetime)
    : M Database (option AgentRun) :=
  let normalized_trace_id := strip trace_id in
  if bool_decide (normalized_trace_id = "") then raise (ValueError "trace_id 不能为空")
  else if blank worker_id then raise (ValueError "worker_id 不能为空")
  else
    run ← lock_run run_id;
    match run with
    | None => mret None
    | Some run =>
        _ ← require_lease_owner run worker_id now "固化 Langfuse trace";
        if negb (falsy_str (Run.langfuse_trace_id run))
           && negb (bool_decide (Run.langfuse_trace_id run = Some normalized_trace_id))
        then raise (ValueError "AgentRun 已绑定不同的 Langfuse trace")
        else
          let run := run <| Run.langfuse_trace_id := Some normalized_trace_id |>
                         <| Run.updated_at := Some now |> in
          _ ← put_run run;
          mret (Some run)
    end.

Definition set_output_message (run_id : string) (message_id : Z) (worker_id : string)
    (now : datetime) : M Database (option AgentRun) :=
  if blank worker_id then raise (ValueError "worker_id 不能为空")
  else
    run ← lock_run run_id;
    match run with
    | None => mret None
    | Some run =>
        _ ← require_lease_owner run worker_id now "持久化输出消息";
        message ← get_matching_output_message run message_id;
        match message with
        | None => raise (ValueError "输出消息必须属于同一 conversation、Run 和 request，且角色为 assistant")
        | Some _ =>
            let run := run <| Run.output_message_id := Some message_id |>
                           <| Run.updated_at := Some now |> in
            _ ← put_run run;
            mret (Some run)
        end
    end.

Definition lock_output_persistence (run_id worker_id thread_id request_id : string)
    (now : datetime) : M Database (option AgentRun) :=
  if blank worker_id then raise (ValueError "worker_id 不能为空")
  else
    run ← lock_run run_id;
    match run with
    | None => mret None
    | Some run =>
        _ ← require_lease_owner run worker_id now "持久化输出消息";
        if negb (bool_decide (Run.conversation_thread_id run = thread_id))
           || negb (bool_decide (Run.request_id run = request_id))
        then raise (ValueError "AgentRun 输出必须属于同一 thread 和 request")
        else if bool_decide (Run.conversation_id run = None)
        then raise (ValueError "AgentRun 输出缺少 conversation 归属")
        else mret (Some run)
    end.

Definition lock_memory_write (run_id uid worker_id thread_id request_id : string)
    (now : datetime) : M Database (option AgentRun) :=
  if blank worker_id then raise (ValueError "worker_id 不能为空")
  else
    run ← lock_run run_id;
    match run with
    | None => mret None
    | Some run =>
        _ ← require_lease_owner run worker_id now "写入 Memory";
        if negb (bool_decide (Run.uid run = uid))
           || negb (bool_decide (Run.conversation_thread_id run = thread_id))
           || negb (bool_decide (Run.request_id run = request_id))
           || negb (bool_decide (Run.run_type run ∈ TOP_LEVEL_RUN_TYPES))
        then raise (ValueError "Memory 写入必须属于当前用户的同一顶层 Run、thread 和 request")
        else mret (Some run)
    end.

Definition record_run_manifest (run_id : string) (manifest : json) (fingerprint worker_id : string)
    (now : datetime) : M Database (option AgentRun * bool) :=
  if blank worker_id then raise (ValueError "worker_id 不能为空")
  else if blank fingerprint then raise (ValueError "fingerprint 不能为空")
  else
    run ← lock_run run_id;
    match run with
    | None => mret (None, false)
    | Some run =>
        _ ← require_lease_owner run worker_id now "固化运行清单";
        if negb (bool_decide (Run.manifest_fingerprint run = None)) then mret (Some run, false)
        else
          let run := run <| Run.manifest := Some manifest |>
                         <| Run.manifest_fingerprint := Some fingerprint |>
                         <| Run.manifest_recorded_at := Some now |>
                         <| Run.updated_at := Some now |> in
          _ ← put_run run;
          mret (Some run, true)
    end.

Definition record_prepared (run_id worker_id : string) (observed_at : option datetime)
    (now : datetime) : M Database (option AgentRun * bool) :=
  run ← lock_run run_id;
  match run with
  | None => mret (None, false)
  | Some run =>
      if negb (bool_decide (Run.prepared_at run = None)) then mret (Some run, false)
      else
        _ ← require_lease_owner run worker_id now "记录运行准备时间";
        let event_time := or_else observed_at now in
        if match Run.started_at run with None => true | Some t => (event_time <? t)%Z end
        then raise (ValueError "AgentRun 准备时间不能早于开始时间")
        else
          let run := run <| Run.prepared_at := Some event_time |>
                         <| Run.updated_at := Some now |> in
          _ ← put_run run;
          mret (Some run, true)
  end.

Definition record_first_model_request (run_id worker_id : string)
    (observed_at : option datetime) (now : datetime) : M Database (option AgentRun * bool) :=
  run ← lock_run run_id;
  match run with
  | None => mret (None, false)
  | Some run =>
      if negb (bool_decide (Run.first_model_request_at run = None)) then mret (Some run, false)
      else if negb (bool_decide (Run.status run ∈ LEASED_RUN_STATUSES))
              || negb (bool_decide (Run.worker_id run = Some worker_id))
              || negb (lease_live (Run.lease_expires_at run) now)
      then raise (ValueError "只有当前有效 AgentRun lease owner 可以记录首次模型请求时间")
      else
        let event_time := or_else observed_at now in
        if match Run.created_at run with None => false | Some t => (event_time <? t)%Z end
        then raise (ValueError "AgentRun 首次模型请求时间不能早于创建时间")
        else
          let run := run <| Run.first_model_request_at := Some event_time |>
                         <| Run.updated_at := Some now |> in
          _ ← put_run run;
          mret (Some run, true)
  end.

Definition record_first_output (run_id worker_id : string) (observed_at : option datetime)
    (now : datetime) : M Database (option AgentRun * bool) :=
  run ← lock_run run_id;
  match run with
  | None => mret (None, false)
  | Some run =>
      if negb (bool_decide (Run.first_output_at run = None)) then mret (Some run, false)
      else
        _ ← require_lease_owner run worker_id now "记录首次模型输出时间";
        let event_time := or_else observed_at now in
        if match Run.prepared_at run with None => true | Some t => (event_time <? t)%Z end
        then raise (ValueError "AgentRun 首次输出时间不能早于准备完成时间")
        else
          let run := run <| Run.first_output_at := Some event_time |>
                         <| Run.updated_at := Some now |> in
          _ ← put_run run;
          mret (Some run, true)
  end.

(** * Taking, renewing and releasing the lease *)

Definition mark_running (run_id worker_id : string) (lease_seconds : Z) (now : datetime)
    : M Database (option AgentRun * bool) :=
  if blank worker_id then raise (ValueError "worker_id 不能为空")
  else if (lease_seconds <=? 0)%Z then raise (ValueError "lease_seconds 必须大于 0")
  else
    run ← lock_run run_id;
    match run with
    | None => mret (None, false)
    | Some run =>
        if is_terminal (Run.status run) then mret (Some run, false)
        else if Run.runtime_cleanup_pending run then mret (Some run, false)
        else
          let initial_claim :=
            bool_decide (Run.status run = Pending)
            || (bool_decide (Run.status run = CancelRequested)
                && bool_decide (Run.worker_id run = None)) in
          let same_live_owner :=
            bool_decide (Run.status run ∈ LEASED_RUN_STATUSES)
            && bool_decide (Run.worker_id run = Some worker_id)
            && lease_live (Run.lease_expires_at run) now in
          if negb initial_claim && negb same_live_owner then mret (Some run, false)
          else
            let lease := Some (now + seconds lease_seconds)%Z in
            let run :=
              run <| Run.status := (if bool_decide (Run.status run = Pending)
                                    then Running else Run.status run) |>
                  <| Run.worker_id := Some worker_id |>
                  <| Run.heartbeat_at := Some now |>
                  <| Run.lease_expires_at := lease |>
                  <| Run.started_at := Some (or_else (Run.started_at run) now) |>
                  <| Run.updated_at := Some now |> in
            _ ← put_run run;
            _ ← (if initial_claim then
                   _ ← close_open_attempts (Run.id run) LeaseExpired now
                         (Some "worker_lease_expired")
                         (Some "执行占有人在取得新所有权前已失联。");
                   attempts ← gets (attempts_of (Run.id run));
                   add_attempt (Run.id run) (max_attempt_no attempts + 1) worker_id now lease
                 else
                   attempt ← get_open_attempt run_id (Some worker_id);
                   match attempt with
                   | None => mret tt
                   | Some a => put_attempt (a <| Attempt.heartbeat_at := Some now |>
                                              <| Attempt.lease_expires_at := lease |>
                                              <| Attempt.updated_at := Some now |>)
                   end);
            mret (Some run, true)
    end.

Definition renew_lease (run_id worker_id : string) (lease_seconds : Z) (now : datetime)
    : M Database bool :=
  if blank worker_id then raise (ValueError "worker_id 不能为空")
  else if (lease_seconds <=? 0)%Z then raise (ValueError "lease_seconds 必须大于 0")
  else
    run ← lock_run run_id;
    match run with
    | None => mret false
    | Some run =>
        if negb (bool_decide (Run.status run ∈ LEASED_RUN_STATUSES))
           || negb (bool_decide (Run.worker_id run = Some worker_id))
           || negb (lease_live (Run.lease_expires_at run) now)
        then mret false
        else
          let lease := Some (now + seconds lease_seconds)%Z in
          _ ← put_run (run <| Run.heartbeat_at := Some now |>
                           <| Run.lease_expires_at := lease |>
                           <| Run.updated_at := Some now |>);
          attempt ← get_open_attempt run_id (Some worker_id);
          _ ← match attempt with
              | None => mret tt
              | Some a => put_attempt (a <| Attempt.heartbeat_at := Some now |>
                                         <| Attempt.lease_expires_at := lease |>
                                         <| Attempt.updated_at := Some now |>)
              end;
          mret true
    end.

Definition release_lease_for_retry (run_id worker_id : string) (now : datetime)
    : M Database bool :=
  run ← lock_run run_id;
  match run with
  | None => mret false
  | Some run =>
      if negb (owns_lease run worker_id now) then mret false
      else
        _ ← put_run (run <| Run.status := Pending |>
                         <| Run.worker_id := None |>
                         <| Run.heartbeat_at := None |>
                         <| Run.lease_expires_at := None |>
                         <| Run.runtime_cleanup_pending :=
                              negb (bool_decide (Run.run_type run = Subagent)) |>
                         <| Run.updated_at := Some now |>);
        _ ← finish_open_attempt run_id (Some worker_id) RetryReleased now None None;
        mret true
  end.

(** * Cancelling an execution tree *)

(** [AgentRunScopeRepository.get] and [.list_run_ids]. *)
Definition get_scope (run_id : string) : M Database (option AgentRunScope) :=
  gets (λ db, DB.run_scopes db !! run_id).

Definition list_scope_run_ids (scope_key : string) : M Database (list string) :=
  gets (λ db, map Scope.run_id
    (select (λ s, bool_decide (Scope.scope_key s = scope_key)) (DB.run_scopes db))).

(** One transition of a run locked by the caller. *)
Definition request_cancel_locked (run : AgentRun) (now : datetime) : M Database AgentRun :=
  if is_terminal (Run.status run) then mret run
  else if bool_decide (Run.status run = Pending) && bool_decide (Run.worker_id run = None)
          && bool_decide (Run.started_at run = None)
  then
    let run := run <| Run.status := Cancelled |>
                   <| Run.error_type := Some "cancelled" |>
                   <| Run.error_message := Some "对话已在执行前取消" |>
                   <| Run.finished_at := Some now |>
                   <| Run.updated_at := Some now |>
                   <| Run.runtime_cleanup_pending := false |> in
    _ ← put_run run;
    _ ← project_input_delivery_status run;
    mret run
  else
    let run := run <| Run.status := CancelRequested |> <| Run.updated_at := Some now |> in
    _ ← put_run run;
    mret run.

Definition tree_closed_message : string := "父运行已结束，请停止共享执行树".

(** The body of the loop over one level's rows. *)
Definition cancel_child (now : datetime) (child : AgentRun)
    : M Database (list (string * string)) :=
  let child := child <| Run.error_type := Some "execution_tree_closed" |>
                     <| Run.error_message := Some tree_closed_message |> in
  _ ← (if bool_decide (Run.status child = Pending) && bool_decide (Run.worker_id child = None)
          && bool_decide (Run.started_at child = None)
       then
         let child := child <| Run.status := Cancelled |>
                            <| Run.finished_at := Some now |>
                            <| Run.worker_id := None |>
                            <| Run.heartbeat_at := None |>
                            <| Run.lease_expires_at := None |>
                            <| Run.updated_at := Some now |> in
         _ ← put_run child;
         _ ← project_input_delivery_status child;
         close_open_attempts (Run.id child) (OutcomeStatus Cancelled) now
           (Run.error_type child) (Run.error_message child)
       else put_run (child <| Run.status := CancelRequested |> <| Run.updated_at := Some now |>));
  mret [(Run.id child, Run.conversation_thread_id child)].

(** [for child in rows: if child.id in seen_ids: continue; ..], returning
    [seen_ids] and what the level appended to [cancelled]. *)
Fixpoint cancel_level (now : datetime) (children : list AgentRun) (seen : list string)
    : M Database (list string * list (string * string)) :=
  match children with
  | [] => mret (seen, [])
  | child :: children =>
      if bool_decide (Run.id child ∈ seen) then cancel_level now children seen
      else
        out ← cancel_child now child;
        rest ← cancel_level now children (Run.id child :: seen);
        mret (rest.1, out ++ rest.2)
  end.

(** The rows a level of the tree loads. *)
Definition is_tree_child (root : AgentRun) (scope_key : string) (scope_run_ids : list string)
    (parent_ids : list string) (r : AgentRun) : bool :=
  match Run.created_by_run_id r with
  | None => false
  | Some p => bool_decide (p ∈ parent_ids)
  end
  && bool_decide (Run.uid r = Run.uid root)
  && (bool_decide (Run.runtime_scope_id r = scope_key)
      || bool_decide (Run.id r ∈ scope_run_ids))
  && active r.

(** [while pending_parent_ids: ..], with fuel. *)
Fixpoint cancel_levels (fuel : nat) (root : AgentRun) (scope_key : string)
    (scope_run_ids : list string) (now : datetime) (parent_ids : list string)
    (seen : list string) : M Database (list (string * string)) :=
  match fuel with
  | O => mret []
  | S fuel =>
      if bool_decide (parent_ids = []) then mret []
      else
        children ← gets (λ db, sort_by run_asc
          (select (is_tree_child root scope_key scope_run_ids parent_ids) (DB.runs db)));
        level ← cancel_level now children seen;
        rest ← cancel_levels fuel root scope_key scope_run_ids now level.2.*1 level.1;
        mret (level.2 ++ rest)
  end.

(** The scope key the tree of [root] shares. *)
Definition root_scope_key (root : AgentRun) (db : Database) : string :=
  match DB.run_scopes db !! Run.id root with
  | Some s => Scope.scope_key s
  | None => Run.runtime_scope_id root
  end.

(** Each level but the last marks a run not seen before, so one level more than
    there are runs is enough fuel. *)
Definition cancel_active_execution_tree_descendants (root : AgentRun) (now : datetime)
    : M Database (list (string * string)) :=
  if bool_decide (Run.run_type root = Subagent) then mret []
  else
    scope_key ← gets (root_scope_key root);
    scope_run_ids ← list_scope_run_ids scope_key;
    fuel ← gets (λ db, S (size (DB.runs db)));
    cancel_levels fuel root scope_key scope_run_ids now [Run.id root] [].

Definition request_cancel_execution_tree (run_id uid : string) (cascade_descendants : bool)
    (now : datetime) : M Database (option AgentRun * list string) :=
  run ← lock_run_for_user run_id uid;
  match run with
  | None => mret (None, [])
  | Some run =>
      run ← request_cancel_locked run now;
      if cascade_descendants then
        descendants ← cancel_active_execution_tree_descendants run now;
        mret (Some run, Run.id run :: descendants.*1)
      else mret (Some run, [Run.id run])
  end.

(** * Terminal states *)

(** The model/tool audit rows left running by a run that ended with [status]. *)
Definition audit_status_of (status : RunStatus) : ExecStatus :=
  match status with
  | Completed => ExecAbandoned
  | Failed => ExecFailed
  | _ => ExecInterrupted
  end.

(** [status == "completed"] without a matching output message. *)
Definition output_missing (status : RunStatus) (run : AgentRun) : M Database bool :=
  if bool_decide (status = Completed) then
    match Run.output_message_id run with
    | None => mret true
    | Some i =>
        message ← get_matching_output_message run i;
        mret (bool_decide (message = None))
    end
  else mret false.

Definition set_terminal_status (run_id : string) (status : RunStatus)
    (error_type error_message : option string) (token_usage : option json)
    (worker_id : option string) (now : datetime) : M Database (option AgentRun * bool) :=
  if negb (is_terminal status) then raise (ValueError "不支持的 AgentRun 终态")
  else
    run ← lock_run run_id;
    match run with
    | None => mret (None, false)
    | Some run =>
        if is_terminal (Run.status run) then
          if negb (bool_decide (Run.worker_id run = None))
             || negb (bool_decide (Run.heartbeat_at run = None))
             || negb (bool_decide (Run.lease_expires_at run = None))
          then
            let run := run <| Run.worker_id := None |>
                           <| Run.heartbeat_at := None |>
                           <| Run.lease_expires_at := None |>
                           <| Run.updated_at := Some now |> in
            _ ← put_run run;
            mret (Some run, false)
          else mret (Some run, false)
        else if bool_decide (Run.status run = Pending)
                && (negb (bool_decide (worker_id = None))
                    || negb (bool_decide (status ∈ [Failed; Cancelled])))
        then mret (Some run, false)
        else if bool_decide (Run.status run ∈ LEASED_RUN_STATUSES)
                && (negb (bool_decide (Run.worker_id run = worker_id))
                    || negb (lease_live (Run.lease_expires_at run) now))
        then mret (Some run, false)
        else if bool_decide (Run.status run = CancelRequested)
                && negb (bool_decide (status = Cancelled))
        then mret (Some run, false)
        else if bool_decide (Run.status run = Running) && bool_decide (status = Cancelled)
        then mret (Some run, false)
        else
          missing ← output_missing status run;
          if (missing : bool)
          then raise (ValueError "AgentRun 完成前必须绑定同一 Run 的有效 assistant 输出消息")
          else
            let run := run <| Run.status := status |>
                           <| Run.error_type := error_type |>
                           <| Run.error_message := error_message |>
                           <| Run.token_usage := json_or_empty (default (JObj []) token_usage) |>
                           <| Run.finished_at := Some now |>
                           <| Run.updated_at := Some now |>
                           <| Run.worker_id := None |>
                           <| Run.heartbeat_at := None |>
                           <| Run.lease_expires_at := None |>
                           <| Run.runtime_cleanup_pending :=
                                negb (bool_decide (Run.run_type run = Subagent)) |> in
            _ ← put_run run;
            _ ← project_input_delivery_status run;
            _ ← close_running_audits (Run.id run) (audit_status_of status) now
                  (bool_decide (status = Interrupted));
            _ ← finish_open_attempt (Run.id run) worker_id (OutcomeStatus status) now
                  error_type error_message;
            mret (Some run, true)
    end.

(** * Reconciliation *)

Definition lease_missing_or_expired (r : AgentRun) (now : datetime) : bool :=
  match Run.lease_expires_at r with
  | None => true
  | Some e => (e <=? now)%Z
  end.

(** The [WHERE] clause of [reconcile_expired_leases]. *)
Definition lost_owner (now : datetime) (r : AgentRun) : bool :=
  (bool_decide (Run.status r = Running) && lease_missing_or_expired r now)
  || (bool_decide (Run.status r = CancelRequested)
      && negb (bool_decide (Run.worker_id r = None)) && lease_missing_or_expired r now)
  || (bool_decide (Run.status r = CancelRequested)
      && bool_decide (Run.worker_id r = None)
      && negb (bool_decide (Run.started_at r = None))).

(** The fields a run that is failed without its owner gets. *)
Definition fail_run (error_type error_message : string) (cleanup : bool) (now : datetime)
    (run : AgentRun) : AgentRun :=
  run <| Run.status := Failed |>
      <| Run.error_type := Some error_type |>
      <| Run.error_message := Some error_message |>
      <| Run.finished_at := Some now |>
      <| Run.updated_at := Some now |>
      <| Run.worker_id := None |>
      <| Run.heartbeat_at := None |>
      <| Run.lease_expires_at := None |>
      <| Run.runtime_cleanup_pending := cleanup |>.

(** One iteration: the session's object of a selected row carries what earlier
    iterations of the same call wrote to it, so the row is read again. *)
Definition reconcile_one (now : datetime) (run_id : string)
    : M Database (list (AgentRun * list (string * string))) :=
  run ← lock_run run_id;
  match run with
  | None => mret []
  | Some run =>
      if is_terminal (Run.status run) then mret []
      else
        let run := fail_run "worker_lease_expired"
          "执行 worker 的 lease 已过期；本次运行结果未知，需按 at-least-once 语义检查副作用。"
          (negb (bool_decide (Run.run_type run = Subagent))) now run in
        _ ← put_run run;
        _ ← project_input_delivery_status run;
        _ ← close_running_audits (Run.id run) ExecAbandoned now false;
        _ ← close_open_attempts (Run.id run) LeaseExpired now (Some "worker_lease_expired")
              (Some "执行 worker 的 lease 已过期；本次运行结果未知。");
        descendants ← cancel_active_execution_tree_descendants run now;
        mret [(run, descendants)]
  end.

(** [locked] are the runs whose row lock another transaction holds
    ([FOR UPDATE SKIP LOCKED]). *)
Definition reconcile_expired_leases (locked : gset string) (now : datetime)
    : M Database (list AgentRun * list (string * string)) :=
  found ← gets (λ db, select (λ r, lost_owner now r && negb (bool_decide (Run.id r ∈ locked)))
                  (DB.runs db));
  let runs := sort_by (λ a b,
    bool_decide (Run.created_by_run_id a = None)
    || negb (bool_decide (Run.created_by_run_id b = None))) found in
  out ← for_each (reconcile_one now) (map Run.id runs);
  mret (out.*1, concat out.*2).

Definition fail_one_for_storage_migration (now : datetime) (run_id : string)
    : M Database (list string) :=
  run ← lock_run run_id;
  match run with
  | None => mret []
  | Some run =>
      let run := fail_run "storage_migration" "存储升级已停止旧运行环境；本次运行未完成"
                   false now run in
      _ ← put_run run;
      _ ← project_input_delivery_status run;
      _ ← close_running_audits (Run.id run) ExecAbandoned now false;
      _ ← close_open_attempts (Run.id run) (OutcomeStatus Failed) now
            (Run.error_type run) (Run.error_message run);
      mret [Run.id run]
  end.

Definition fail_nonterminal_for_storage_migration (now : datetime) : M Database (list string) :=
  runs ← gets (λ db, sort_by run_asc (select active (DB.runs db)));
  for_each (fail_one_for_storage_migration now) (map Run.id runs).

Lemma leased_status s : s ∈ LEASED_RUN_STATUSES ↔ s = Running ∨ s = CancelRequested.
Proof. unfold LEASED_RUN_STATUSES. rewrite !elem_of_cons, elem_of_nil. tauto. Qed.
