(* ===== verification/RunInv.v ===== *)
(** The invariant of the agent-run tables and what a transition may change.

    [wf] is the invariant every reachable database satisfies; [evolves] relates
    the database before and after an operation; [safe m] says that [m] preserves
    the first and respects the second.  [safe_transition] reduces both to facts
    about the one row an operation rewrites. *)

From stdpp Require Import prelude gmap strings list fin_maps relations.
From Stdlib Require Import ZArith Lia.
From S2P Require Import Prelude Schema RunSpec RunRepo.

(** * The invariant *)

Definition closed (a : AgentRunAttempt) : Prop := attempt_open a = false.

(** The lease columns and the timestamps fit the status. *)
Definition lease_shape (r : AgentRun) : Prop :=
  match Run.status r with
  | Pending =>
      Run.worker_id r = None ∧ Run.heartbeat_at r = None ∧ Run.lease_expires_at r = None
      ∧ Run.finished_at r = None
  | Running =>
      is_Some (Run.worker_id r) ∧ is_Some (Run.heartbeat_at r)
      ∧ is_Some (Run.lease_expires_at r) ∧ is_Some (Run.started_at r)
      ∧ Run.finished_at r = None ∧ Run.runtime_cleanup_pending r = false
  | CancelRequested =>
      is_Some (Run.started_at r) ∧ Run.finished_at r = None
      ∧ ((Run.worker_id r = None ∧ Run.heartbeat_at r = None ∧ Run.lease_expires_at r = None)
         ∨ (is_Some (Run.worker_id r) ∧ is_Some (Run.heartbeat_at r)
            ∧ is_Some (Run.lease_expires_at r) ∧ Run.runtime_cleanup_pending r = false))
  | _ =>
      Run.worker_id r = None ∧ Run.heartbeat_at r = None ∧ Run.lease_expires_at r = None
      ∧ is_Some (Run.finished_at r)
  end.

(** The attempts of a run are numbered 1, 2, ..; only the last can be open, and it
    is open exactly when the run is owned, by the owner and with its lease. *)
Definition history_ok (r : AgentRun) (h : list AgentRunAttempt) : Prop :=
  map Attempt.attempt_no h = map Z.of_nat (seq 1 (length h))
  ∧ match Run.worker_id r with
    | None => Forall closed h
    | Some w => ∃ h0 a, h = h0 ++ [a] ∧ Forall closed h0 ∧ attempt_open a = true
        ∧ Attempt.worker_id a = w ∧ Attempt.lease_expires_at a = Run.lease_expires_at r
        ∧ Attempt.heartbeat_at a = Run.heartbeat_at r
    end
  ∧ (Run.started_at r = None → h = []).

(** The milestones of an execution come in order. *)
Definition milestones_ordered (r : AgentRun) : Prop :=
  (∀ p, Run.prepared_at r = Some p → ∃ t, Run.started_at r = Some t ∧ (t ≤ p)%Z)
  ∧ (∀ o, Run.first_output_at r = Some o → ∃ p, Run.prepared_at r = Some p ∧ (p ≤ o)%Z)
  ∧ (∀ q c, Run.first_model_request_at r = Some q → Run.created_at r = Some c → (c ≤ q)%Z).

Record run_ok (r : AgentRun) : Prop := {
  ok_shape : nonterminal_shape r = true;
  ok_lease : lease_shape r;
  ok_cleanup : Run.run_type r = Subagent → Run.runtime_cleanup_pending r = false;
  ok_milestones : milestones_ordered r;
  ok_output : Run.status r = Completed → is_Some (Run.output_message_id r)
}.

Record wf (db : Database) : Prop := {
  wf_key : ∀ k r, DB.runs db !! k = Some r → Run.id r = k;
  wf_run : ∀ k r, DB.runs db !! k = Some r → run_ok r;
  wf_history : ∀ k r, DB.runs db !! k = Some r → history_ok r (attempts_of k db);
  wf_attempt_run : ∀ a, a ∈ DB.attempts db → is_Some (DB.runs db !! Attempt.run_id a);
  wf_attempt_ids : NoDup (Attempt.id <$> DB.attempts db);
  wf_attempt_next : ∀ a, a ∈ DB.attempts db → (Attempt.id a < DB.next_attempt_id db)%Z;
  wf_request : ∀ k1 k2 r1 r2, DB.runs db !! k1 = Some r1 → DB.runs db !! k2 = Some r2 →
    Run.request_id r1 = Run.request_id r2 → k1 = k2;
  wf_active : ∀ k1 k2 r1 r2, DB.runs db !! k1 = Some r1 → DB.runs db !! k2 = Some r2 →
    active r1 = true → active r2 = true → thread_key r1 = thread_key r2 → k1 = k2
}.

(** * What a transition may change *)

(** The columns fixed at creation. *)
Definition same_identity (r r' : AgentRun) : Prop :=
  Run.id r' = Run.id r ∧ Run.uid r' = Run.uid r ∧ Run.agent_slug r' = Run.agent_slug r
  ∧ Run.conversation_thread_id r' = Run.conversation_thread_id r
  ∧ Run.runtime_scope_id r' = Run.runtime_scope_id r
  ∧ Run.request_id r' = Run.request_id r ∧ Run.run_type r' = Run.run_type r
  ∧ Run.created_by_run_id r' = Run.created_by_run_id r
  ∧ Run.subagent_thread_relation_id r' = Run.subagent_thread_relation_id r
  ∧ Run.conversation_id r' = Run.conversation_id r
  ∧ Run.input_message_id r' = Run.input_message_id r
  ∧ Run.input_payload r' = Run.input_payload r
  ∧ Run.created_at r' = Run.created_at r.

(** The outcome of a run, once it is terminal. *)
Definition terminal_facts (r : AgentRun) :=
  (Run.status r, Run.finished_at r, Run.error_type r, Run.error_message r,
   Run.token_usage r, Run.output_message_id r).

(** A fact that is written once keeps its value. *)
Definition write_once {A} (x y : option A) : Prop := is_Some x → y = x.

Record run_evolves (r r' : AgentRun) : Prop := {
  ev_identity : same_identity r r';
  ev_terminal : is_terminal (Run.status r) = true → terminal_facts r' = terminal_facts r;
  ev_phase : moves (phase_of r) (phase_of r');
  ev_started : write_once (Run.started_at r) (Run.started_at r');
  ev_prepared : write_once (Run.prepared_at r) (Run.prepared_at r');
  ev_first_request : write_once (Run.first_model_request_at r) (Run.first_model_request_at r');
  ev_first_output : write_once (Run.first_output_at r) (Run.first_output_at r');
  ev_manifest : is_Some (Run.manifest_fingerprint r) →
    (Run.manifest r', Run.manifest_fingerprint r', Run.manifest_recorded_at r')
    = (Run.manifest r, Run.manifest_fingerprint r, Run.manifest_recorded_at r)
}.

Record evolves (db db' : Database) : Prop := {
  evolves_run : ∀ k r, DB.runs db !! k = Some r →
    ∃ r', DB.runs db' !! k = Some r' ∧ run_evolves r r';
  evolves_attempt : ∀ a, a ∈ DB.attempts db → closed a → a ∈ DB.attempts db'
}.

Lemma write_once_trans {A} (x y z : option A) :
  write_once x y → write_once y z → write_once x z.
Proof. unfold write_once. intros H1 H2 Hx. rewrite H2; [auto|]. by rewrite H1. Qed.

#[global] Instance run_evolves_refl : Reflexive run_evolves.
Proof.
  intros r. split; unfold same_identity, write_once; auto 20.
  apply rtc_refl.
Qed.

#[global] Instance run_evolves_trans : Transitive run_evolves.
Proof.
  intros r1 r2 r3 [I1 T1 C1 S1 P1 Q1 O1 M1] [I2 T2 C2 S2 P2 Q2 O2 M2].
  split; eauto using write_once_trans.
  - unfold same_identity in *. intuition congruence.
  - intros H. pose proof (T1 H) as E. rewrite <- E. apply T2.
    unfold terminal_facts in E. simplify_eq. congruence.
  - unfold moves in *. by etrans.
  - intros H. pose proof (M1 H) as E. rewrite <- E. apply M2. simplify_eq. congruence.
Qed.

#[global] Instance evolves_refl : Reflexive evolves.
Proof. intros db. split; eauto using run_evolves_refl. Qed.

#[global] Instance evolves_trans : Transitive evolves.
Proof.
  intros db1 db2 db3 [R1 A1] [R2 A2]. split; [|auto].
  intros k r Hr. destruct (R1 k r Hr) as (r' & Hr' & E1).
  destruct (R2 k r' Hr') as (r'' & Hr'' & E2). exists r''. split; [done|]. by etrans.
Qed.

Lemma same_identity_key r r' : same_identity r r' → thread_key r' = thread_key r.
Proof. unfold same_identity, thread_key. intuition congruence. Qed.

(** * Safe operations *)

(** [m] preserves the invariant and only lets the tables evolve. *)
Definition safe {A} (m : M Database A) : Prop :=
  ∀ db, wf db → wf (m db).2 ∧ evolves db (m db).2.

Lemma safe_ret {A} (a : A) : safe (mret a).
Proof. intros db H. split; [done|]. simpl. reflexivity. Qed.

Lemma safe_raise {A} e : safe (raise e : M Database A).
Proof. intros db H. split; [done|]. simpl. reflexivity. Qed.

Lemma safe_gets {A} (f : Database → A) : safe (gets f).
Proof. intros db H. split; [done|]. simpl. reflexivity. Qed.

Lemma safe_bind {A B} (m : M Database A) (k : A → M Database B) :
  safe m → (∀ a, safe (k a)) → safe (m ≫= k).
Proof.
  intros Hm Hk db Hdb. unfold mbind, M_bind.
  destruct (Hm db Hdb) as [Hwf Hev]. destruct (m db) as [[a|e] db'] eqn:E; [|done].
  simpl in *. destruct (Hk a db' Hwf) as [Hwf' Hev']. split; [done|]. by etrans.
Qed.

Lemma safe_for_each {A B} (body : A → M Database (list B)) xs :
  (∀ x, safe (body x)) → safe (for_each body xs).
Proof.
  intros Hb. induction xs as [|x xs IH]; simpl; [apply safe_ret|].
  apply safe_bind; [done|]. intros out. apply safe_bind; [done|].
  intros rest. apply safe_ret.
Qed.

(** The same at one database. *)
Definition safe_at {A} (db : Database) (m : M Database A) : Prop :=
  wf (m db).2 ∧ evolves db (m db).2.

Lemma safe_at_bind {A B} db (m : M Database A) (k : A → M Database B) :
  safe_at db m → (∀ a db', m db = (Ret a, db') → wf db' → safe_at db' (k a)) →
  safe_at db (m ≫= k).
Proof.
  unfold safe_at, mbind, M_bind. intros [Hwf Hev] Hk.
  destruct (m db) as [[a|e] db'] eqn:E; [|done].
  simpl in *. destruct (Hk a db' eq_refl Hwf). split; [done|]. by etrans.
Qed.

Lemma safe_at_gets {A B} db (f : Database → A) (k : A → M Database B) :
  safe_at db (k (f db)) → safe_at db (gets f ≫= k).
Proof. done. Qed.

Create HintDb safe.
#[export] Hint Resolve safe_ret safe_raise safe_gets safe_bind safe_for_each : safe.

(** * One-row transitions *)

(** The tables [wf] reads. *)
Definition core (db : Database) :=
  (DB.runs db, DB.attempts db, DB.next_attempt_id db).

Lemma wf_core db db' : core db' = core db → wf db → wf db'.
Proof.
  unfold core. intros [= E1 E2 E3] [K R H O I X Q U].
  split; unfold attempts_of in *; rewrite ?E1, ?E2, ?E3; done.
Qed.

Lemma evolves_core db db' : core db' = core db → evolves db db'.
Proof.
  unfold core. intros [= E1 E2 E3]. split; rewrite ?E1, ?E2; eauto using run_evolves_refl.
Qed.

Lemma safe_core {A} (m : M Database A) :
  (∀ db, core (m db).2 = core db) → safe m.
Proof. intros H db Hdb. split; [eapply wf_core; [apply H|done]|by apply evolves_core]. Qed.

(** Replacing one run and changing only its own attempts. *)
Lemma safe_transition db db' k r r' :
  wf db →
  DB.runs db !! k = Some r →
  DB.runs db' = <[k := r']> (DB.runs db) →
  run_evolves r r' →
  (active r' = true → active r = true) →
  run_ok r' →
  history_ok r' (attempts_of k db') →
  (∀ j, j ≠ k → attempts_of j db' = attempts_of j db) →
  (∀ a, a ∈ DB.attempts db' → Attempt.run_id a = k ∨ a ∈ DB.attempts db) →
  (∀ a, a ∈ DB.attempts db → closed a → a ∈ DB.attempts db') →
  NoDup (Attempt.id <$> DB.attempts db') →
  (∀ a, a ∈ DB.attempts db' → (Attempt.id a < DB.next_attempt_id db')%Z) →
  wf db' ∧ evolves db db'.
Proof.
  intros [K R H O I X Q U] Hr Er Hev Hact Hok Hh Hoth Hfrom Hcl Hnd Hnx.
  assert (Hid : Run.id r' = k).
  { rewrite <- (K k r Hr). apply Hev. }
  assert (Hl : ∀ j q, DB.runs db' !! j = Some q →
    (j = k ∧ q = r') ∨ (j ≠ k ∧ DB.runs db !! j = Some q)).
  { intros j q. rewrite Er. destruct (decide (j = k)) as [->|Hne].
    - rewrite lookup_insert_eq. intros [= <-]. by left.
    - rewrite lookup_insert_ne by done. by right. }
  assert (Hold : ∀ j q, DB.runs db' !! j = Some q → ∃ q0, DB.runs db !! j = Some q0
    ∧ Run.request_id q0 = Run.request_id q ∧ thread_key q0 = thread_key q
    ∧ (active q = true → active q0 = true)).
  { intros j q Hq. apply Hl in Hq as [[-> ->]|[Hne Hq]]; [|by exists q].
    exists r. destruct Hev as [Hi _ _ _ _ _ _ _]. pose proof (same_identity_key _ _ Hi).
    unfold same_identity in Hi. intuition congruence. }
  split; split.
  - intros j q Hq. apply Hl in Hq as [[-> ->]|[Hne Hq]]; [done|by apply K].
  - intros j q Hq. apply Hl in Hq as [[-> ->]|[Hne Hq]]; [done|by eapply R].
  - intros j q Hq. apply Hl in Hq as [[-> ->]|[Hne Hq]]; [done|].
    rewrite Hoth by done. by apply H.
  - intros a Ha. rewrite Er. destruct (Hfrom a Ha) as [->|Ha'].
    + rewrite lookup_insert_eq. eauto.
    + destruct (decide (Attempt.run_id a = k)) as [->|Hne].
      * rewrite lookup_insert_eq. eauto.
      * rewrite lookup_insert_ne by done. by apply O.
  - done.
  - done.
  - intros k1 k2 q1 q2 H1 H2 E. apply Hold in H1 as (p1 & ? & ? & ? & ?).
    apply Hold in H2 as (p2 & ? & ? & ? & ?). eapply Q; eauto. congruence.
  - intros k1 k2 q1 q2 H1 H2 A1 A2 E. apply Hold in H1 as (p1 & ? & ? & ? & ?).
    apply Hold in H2 as (p2 & ? & ? & ? & ?). eapply U; eauto. congruence.
  - intros j q Hq. rewrite Er. destruct (decide (j = k)) as [->|Hne].
    + exists r'. rewrite lookup_insert_eq. by simplify_eq.
    + exists q. rewrite lookup_insert_ne by done. split; [done|]. reflexivity.
  - done.
Qed.

(** * Transformations of the attempts table *)

Section attempts.
Implicit Types (l : list AgentRunAttempt) (a : AgentRunAttempt).

Lemma filter_map_preserved f l k :
  (∀ a, a ∈ l → Attempt.run_id (f a) = Attempt.run_id a) →
  List.filter (attempt_of k) (map f l) = map f (List.filter (attempt_of k) l).
Proof.
  intros Hf. induction l as [|a l IH]; [done|]. simpl.
  assert (E : attempt_of k (f a) = attempt_of k a).
  { unfold attempt_of. by rewrite Hf by left. }
  rewrite E. destruct (attempt_of k a); simpl; rewrite IH; auto;
    intros b Hb; apply Hf; by right.
Qed.

Lemma map_id_in f l : (∀ a, a ∈ l → f a = a) → map f l = l.
Proof.
  induction l as [|a l IH]; intros Hf; [done|]. simpl. f_equal.
  - apply Hf. by left.
  - apply IH. intros b Hb. apply Hf. by right.
Qed.

Lemma elem_of_filter_attempt k a l :
  a ∈ List.filter (attempt_of k) l ↔ Attempt.run_id a = k ∧ a ∈ l.
Proof.
  rewrite !list_elem_of_In, filter_In. unfold attempt_of. rewrite bool_decide_eq_true. tauto.
Qed.

Lemma NoDup_filter_ids k l :
  NoDup (Attempt.id <$> l) → NoDup (Attempt.id <$> List.filter (attempt_of k) l).
Proof.
  induction l as [|a l IH]; [done|]. rewrite fmap_cons, NoDup_cons. intros [Hn Hd].
  simpl. case_match; [|auto]. rewrite fmap_cons, NoDup_cons. split; [|auto].
  rewrite list_elem_of_fmap in *. intros (b & Eb & Hb). apply Hn. exists b.
  split; [done|]. by apply elem_of_filter_attempt in Hb as [_ ?].
Qed.

(** The numbering survives any change that keeps run ids and numbers. *)
Lemma numbered_map f l :
  (∀ a, Attempt.attempt_no (f a) = Attempt.attempt_no a) →
  map Attempt.attempt_no l = map Z.of_nat (seq 1 (length l)) →
  map Attempt.attempt_no (map f l) = map Z.of_nat (seq 1 (length (map f l))).
Proof. intros Hf E. rewrite length_map, map_map, <- E. by apply map_ext. Qed.

Lemma numbered_last h a :
  map Attempt.attempt_no (h ++ [a]) = map Z.of_nat (seq 1 (length (h ++ [a]))) →
  Attempt.attempt_no a = Z.of_nat (S (length h)).
Proof.
  rewrite length_app, seq_app, !map_app. simpl.
  intros E. apply app_inj_2 in E as [_ E]; [|done]. by simplify_eq.
Qed.

Lemma numbered_snoc h a :
  map Attempt.attempt_no h = map Z.of_nat (seq 1 (length h)) →
  Attempt.attempt_no a = Z.of_nat (S (length h)) →
  map Attempt.attempt_no (h ++ [a]) = map Z.of_nat (seq 1 (length (h ++ [a]))).
Proof.
  intros E1 E2. rewrite length_app, seq_app, !map_app, E1. simpl. by rewrite E2.
Qed.

(** [COALESCE(MAX(attempt_no), 0)] of a numbered history is its length. *)
Lemma foldr_max_seq m l n :
  (n ≤ m + length l)%nat →
  map Attempt.attempt_no l = map Z.of_nat (seq (S m) (length l)) →
  (Z.of_nat n ≤ Z.of_nat (m + length l))%Z →
  foldr (λ b z, Z.max (Attempt.attempt_no b) z) (Z.of_nat n) l
    = if decide (l = []) then Z.of_nat n else Z.of_nat (m + length l).
Proof.
  revert m n. induction l as [|a l IH]; intros m n Hn E Hz; [done|].
  simpl in *. injection E as E1 E2.
  destruct (decide (a :: l = [])) as [|_]; [done|].
  destruct l as [|b l].
  - simpl in *. rewrite E1. lia.
  - rewrite (IH (S m) n); [|simpl in *; lia|done|simpl in *; lia].
    destruct (decide (b :: l = [])); [done|]. rewrite E1. simpl. lia.
Qed.

Lemma max_attempt_no_numbered l :
  map Attempt.attempt_no l = map Z.of_nat (seq 1 (length l)) →
  max_attempt_no l = Z.of_nat (length l).
Proof.
  destruct l as [|a l]; [done|]. simpl. intros [= E1 E2]. rewrite E1.
  change 1%Z with (Z.of_nat 1).
  rewrite (foldr_max_seq 1 l 1); [|lia|done|lia].
  case_decide; subst; simpl; lia.
Qed.
End attempts.

(** * Effects of the attempt operations

    [attempts_step k db db'] says that only attempts of run [k] changed, and that
    finished attempts did not. *)

Record attempts_step (k : string) (db db' : Database) : Prop := {
  as_other : ∀ j, j ≠ k → attempts_of j db' = attempts_of j db;
  as_from : ∀ a, a ∈ DB.attempts db' → Attempt.run_id a = k ∨ a ∈ DB.attempts db;
  as_closed : ∀ a, a ∈ DB.attempts db → closed a → a ∈ DB.attempts db';
  as_ids : NoDup (Attempt.id <$> DB.attempts db) →
    (∀ a, a ∈ DB.attempts db → (Attempt.id a < DB.next_attempt_id db)%Z) →
    NoDup (Attempt.id <$> DB.attempts db')
    ∧ (∀ a, a ∈ DB.attempts db' → (Attempt.id a < DB.next_attempt_id db')%Z)
}.

Lemma attempts_step_same k db db' :
  DB.attempts db' = DB.attempts db → DB.next_attempt_id db' = DB.next_attempt_id db →
  attempts_step k db db'.
Proof. intros E1 E2. split; unfold attempts_of; rewrite ?E1, ?E2; auto. Qed.

Lemma attempts_step_trans k db1 db2 db3 :
  attempts_step k db1 db2 → attempts_step k db2 db3 → attempts_step k db1 db3.
Proof.
  intros [O1 F1 C1 I1] [O2 F2 C2 I2]. split.
  - intros j Hj. by rewrite O2, O1.
  - intros a Ha. destruct (F2 a Ha); auto.
  - auto.
  - intros Hn Hx. destruct (I1 Hn Hx). auto.
Qed.

Lemma safe_transition' db db' k r r' :
  wf db → DB.runs db !! k = Some r → DB.runs db' = <[k := r']> (DB.runs db) →
  attempts_step k db db' →
  run_evolves r r' → (active r' = true → active r = true) → run_ok r' →
  history_ok r' (attempts_of k db') →
  wf db' ∧ evolves db db'.
Proof.
  intros Hwf Hr Er [O F C I] Hev Hact Hok Hh.
  destruct (I (wf_attempt_ids _ Hwf) (wf_attempt_next _ Hwf)).
  by eapply safe_transition.
Qed.

(** Replacing the row with [a]'s id. *)
Definition replace_attempt (a b : AgentRunAttempt) : AgentRunAttempt :=
  if (Attempt.id b =? Attempt.id a)%Z then a else b.

Lemma put_attempt_step k a a' db :
  NoDup (Attempt.id <$> DB.attempts db) → a ∈ attempts_of k db → attempt_open a = true →
  Attempt.id a' = Attempt.id a → Attempt.run_id a' = Attempt.run_id a →
  attempts_step k db (put_attempt a' db).2
  ∧ attempts_of k (put_attempt a' db).2 = map (replace_attempt a') (attempts_of k db).
Proof.
  intros Hnd Ha Hopen Ei Er. apply elem_of_filter_attempt in Ha as [Hk Ha].
  assert (Hu : ∀ b, b ∈ DB.attempts db → Attempt.id b = Attempt.id a → b = a).
  { clear -Hnd Ha. induction (DB.attempts db) as [|c l IH]; [inversion 1|].
    rewrite fmap_cons, NoDup_cons in Hnd. destruct Hnd as [Hn Hnd].
    rewrite list_elem_of_fmap in Hn. intros b Hb Eb.
    apply elem_of_cons in Hb as [->|Hb]; apply elem_of_cons in Ha as [->|Ha]; auto;
      exfalso; apply Hn; eauto. }
  assert (Hrun : ∀ b, b ∈ DB.attempts db →
    Attempt.run_id (replace_attempt a' b) = Attempt.run_id b).
  { intros b Hb. unfold replace_attempt. destruct (Z.eqb_spec (Attempt.id b) (Attempt.id a')); [|done].
    rewrite Er. f_equal. symmetry. apply Hu; congruence. }
  assert (Hsame : ∀ b, Attempt.id b ≠ Attempt.id a → replace_attempt a' b = b).
  { intros b Hne. unfold replace_attempt. destruct (Z.eqb_spec (Attempt.id b) (Attempt.id a')); congruence. }
  unfold put_attempt, modify. simpl.
  change (λ b, if (Attempt.id b =? Attempt.id a')%Z then a' else b) with (replace_attempt a').
  assert (Eof : ∀ j, attempts_of j (db <| DB.attempts ::= map (replace_attempt a') |>)
    = map (replace_attempt a') (attempts_of j db)).
  { intros j. unfold attempts_of. row_simpl. by apply filter_map_preserved. }
  split; [|apply Eof]. split.
  - intros j Hj. rewrite Eof. apply map_id_in. intros b Hb.
    apply elem_of_filter_attempt in Hb as [? Hb]. apply Hsame. intros Eb.
    apply Hj. rewrite <- Hk, <- (Hu b) by done. done.
  - row_simpl. intros b Hb. apply list_elem_of_fmap in Hb as (c & -> & Hc).
    destruct (decide (Attempt.id c = Attempt.id a)) as [Ec|Hne]; [|right; by rewrite Hsame].
    left. rewrite Hrun, (Hu c); auto.
  - row_simpl. intros b Hb Hc. apply list_elem_of_fmap. exists b. split; [|done].
    symmetry. apply Hsame. intros Eb. rewrite (Hu b) in Hc by done. unfold closed in Hc. congruence.
  - row_simpl. intros _ Hx. split.
    + replace (Attempt.id <$> map (replace_attempt a') (DB.attempts db))
        with (Attempt.id <$> DB.attempts db); [done|].
      change (map (replace_attempt a') (DB.attempts db))
        with (replace_attempt a' <$> DB.attempts db).
      rewrite <- list_fmap_compose. apply list_fmap_ext. intros _ b _. simpl.
      unfold replace_attempt. case_match eqn:E; [|done]. by apply Z.eqb_eq in E.
    + intros b Hb. apply list_elem_of_fmap in Hb as (c & -> & Hc).
      unfold replace_attempt. case_match; [rewrite Ei|]; auto.
Qed.

(** Rewriting the open attempt at the end of a history. *)
Lemma replace_last k a a' h0 db :
  NoDup (Attempt.id <$> DB.attempts db) → attempts_of k db = h0 ++ [a] →
  Attempt.id a' = Attempt.id a →
  map (replace_attempt a') (attempts_of k db) = h0 ++ [a'].
Proof.
  intros Hnd E Ei. pose proof (NoDup_filter_ids k _ Hnd) as Hk.
  fold (attempts_of k db) in Hk. rewrite E in Hk |- *.
  rewrite fmap_app, NoDup_app in Hk. destruct Hk as (_ & Hn & _).
  rewrite map_app. f_equal.
  - apply map_id_in. intros b Hb. unfold replace_attempt.
    destruct (Z.eqb_spec (Attempt.id b) (Attempt.id a')) as [Eb|]; [|done].
    exfalso. apply (Hn (Attempt.id b)); [|rewrite Eb, Ei; by left].
    apply list_elem_of_fmap. eauto.
  - simpl. unfold replace_attempt. by rewrite Ei, Z.eqb_refl.
Qed.

(** An owned run's open attempt is the last one. *)
Lemma filter_closed_none l (p : AgentRunAttempt → bool) :
  Forall closed l → List.filter (λ a, attempt_open a && p a) l = [].
Proof.
  induction 1 as [|b l Hb Hl IH]; [done|]. simpl. unfold closed in Hb. by rewrite Hb.
Qed.

Lemma get_open_attempt_owned k w h0 a db :
  attempts_of k db = h0 ++ [a] → Forall closed h0 → attempt_open a = true →
  Attempt.worker_id a = w →
  get_open_attempt k (Some w) db = (Ret (Some a), db).
Proof.
  intros E Hc Ho Hw. unfold get_open_attempt, gets. rewrite E, List.filter_app.
  rewrite filter_closed_none by done. simpl.
  by rewrite Ho, bool_decide_eq_true_2.
Qed.

Lemma get_open_attempt_closed k wo db :
  Forall closed (attempts_of k db) → get_open_attempt k wo db = (Ret None, db).
Proof. intros Hc. unfold get_open_attempt, gets. by rewrite filter_closed_none. Qed.

(** Closing every open attempt of a run. *)
Definition close_if_open k outcome now et em (a : AgentRunAttempt) : AgentRunAttempt :=
  if attempt_of k a && attempt_open a then finish_attempt outcome et em now a else a.

Lemma close_open_attempts_step k outcome now et em db :
  attempts_step k db (close_open_attempts k outcome now et em db).2
  ∧ attempts_of k (close_open_attempts k outcome now et em db).2
    = map (close_if_open k outcome now et em) (attempts_of k db).
Proof.
  set (f := close_if_open k outcome now et em).
  assert (Er : ∀ a, Attempt.run_id (f a) = Attempt.run_id a).
  { intros a. unfold f, close_if_open. by case_match. }
  assert (Ei : ∀ a, Attempt.id (f a) = Attempt.id a).
  { intros a. unfold f, close_if_open. by case_match. }
  unfold close_open_attempts, modify. simpl.
  change (λ a, if attempt_of k a && attempt_open a then _ else a) with f.
  assert (Eof : ∀ j, attempts_of j (db <| DB.attempts ::= map f |>) = map f (attempts_of j db)).
  { intros j. unfold attempts_of. row_simpl. by apply filter_map_preserved. }
  split; [|apply Eof]. split.
  - intros j Hj. rewrite Eof. apply map_id_in. intros a Ha.
    apply elem_of_filter_attempt in Ha as [<- _]. unfold f, close_if_open, attempt_of.
    by rewrite bool_decide_eq_false_2.
  - row_simpl. intros a Ha. apply list_elem_of_fmap in Ha as (b & -> & Hb). rewrite Er.
    unfold f, close_if_open, attempt_of. case_bool_decide; simpl; auto.
  - row_simpl. intros a Ha Hc. apply list_elem_of_fmap. exists a. split; [|done].
    unfold f, close_if_open. unfold closed in Hc. by rewrite Hc, andb_false_r.
  - row_simpl. intros Hnd Hx. change (map f (DB.attempts db)) with (f <$> DB.attempts db).
    split.
    + rewrite <- list_fmap_compose. by rewrite (list_fmap_ext _ Attempt.id) by (intros; apply Ei).
    + intros a Ha. apply list_elem_of_fmap in Ha as (b & -> & Hb). rewrite Ei. auto.
Qed.

Lemma close_if_open_closed k outcome now et em l :
  (∀ a, a ∈ l → Attempt.run_id a = k) →
  Forall closed (map (close_if_open k outcome now et em) l).
Proof.
  intros Hl. apply Forall_forall. intros a Ha. apply list_elem_of_fmap in Ha as (b & -> & Hb).
  unfold close_if_open, attempt_of. rewrite (bool_decide_eq_true_2 _ (Hl b Hb)). simpl.
  unfold closed. destruct (attempt_open b) eqn:E; [|done]. done.
Qed.

Lemma attempts_of_run k db a : a ∈ attempts_of k db → Attempt.run_id a = k.
Proof. intros Ha. by apply elem_of_filter_attempt in Ha as [? _]. Qed.

(** Appending the next attempt. *)
Lemma add_attempt_step k no w now lease db :
  attempts_step k db (add_attempt k no w now lease db).2
  ∧ ∃ a, attempts_of k (add_attempt k no w now lease db).2 = attempts_of k db ++ [a]
    ∧ Attempt.attempt_no a = no ∧ attempt_open a = true ∧ Attempt.worker_id a = w
    ∧ Attempt.lease_expires_at a = lease ∧ Attempt.heartbeat_at a = Some now
    ∧ Attempt.started_at a = now.
Proof.
  unfold add_attempt, modify. simpl.
  match goal with |- context [λ l, l ++ [?x]] => set (a := x) end.
  assert (Eof : ∀ j, attempts_of j
    (db <| DB.attempts ::= λ l, l ++ [a] |> <| DB.next_attempt_id ::= Z.succ |>)
    = attempts_of j db ++ List.filter (attempt_of j) [a]).
  { intros j. unfold attempts_of. row_simpl. apply List.filter_app. }
  split; [split|].
  - intros j Hj. rewrite Eof. simpl. unfold attempt_of.
    rewrite bool_decide_eq_false_2 by (subst a; simpl; congruence). apply app_nil_r.
  - row_simpl. intros b Hb. apply elem_of_app in Hb as [Hb|Hb]; [by right|].
    apply list_elem_of_singleton in Hb as ->. by left.
  - row_simpl. intros b Hb _. apply elem_of_app. by left.
  - row_simpl. intros Hnd Hx. split.
    + rewrite fmap_app, NoDup_app. split; [done|]. split; [|apply NoDup_singleton].
      intros i Hi. rewrite list_elem_of_fmap in Hi. destruct Hi as (b & -> & Hb).
      apply Hx in Hb. intros E%list_elem_of_singleton. subst a. simpl in E. lia.
    + intros b Hb. apply elem_of_app in Hb as [Hb|Hb]; [apply Hx in Hb; lia|].
      apply list_elem_of_singleton in Hb as ->. subst a. simpl. lia.
  - exists a. rewrite Eof. simpl. unfold attempt_of. by rewrite bool_decide_eq_true_2.
Qed.

(** [finish_open_attempt] by the owner, and on a history without an open attempt. *)
Lemma finish_open_attempt_owned k w outcome now et em h0 a db :
  NoDup (Attempt.id <$> DB.attempts db) →
  attempts_of k db = h0 ++ [a] → Forall closed h0 → attempt_open a = true →
  Attempt.worker_id a = w →
  ∃ db', finish_open_attempt k (Some w) outcome now et em db = (Ret tt, db')
    ∧ attempts_step k db db' ∧ DB.runs db' = DB.runs db
    ∧ attempts_of k db' = h0 ++ [finish_attempt outcome et em now a].
Proof.
  intros Hnd E Hc Ho Hw.
  assert (Ha : a ∈ attempts_of k db) by (rewrite E; apply elem_of_app; right; by left).
  unfold finish_open_attempt, mbind, M_bind.
  rewrite (get_open_attempt_owned k w h0 a) by done.
  destruct (put_attempt_step k a (finish_attempt outcome et em now a) db) as [Hs Hm]; try done.
  eexists. split; [reflexivity|]. split; [done|]. split; [done|].
  rewrite <- (replace_last k a (finish_attempt outcome et em now a) h0 db); done.
Qed.

Lemma finish_open_attempt_closed k wo outcome now et em db :
  Forall closed (attempts_of k db) →
  finish_open_attempt k wo outcome now et em db = (Ret tt, db).
Proof.
  intros Hc. unfold finish_open_attempt, mbind, M_bind.
  by rewrite get_open_attempt_closed.
Qed.

(** The projections into [messages] and [tool_calls] leave the run tables alone. *)
Lemma project_input_delivery_status_core r db :
  ∃ db', project_input_delivery_status r db = (Ret tt, db') ∧ core db' = core db.
Proof.
  unfold project_input_delivery_status. repeat case_match; eexists; split; reflexivity.
Qed.

Lemma close_running_audits_core k s now p db :
  ∃ db', close_running_audits k s now p db = (Ret tt, db') ∧ core db' = core db.
Proof.
  unfold close_running_audits. m_unfold. destruct (negb _ && negb _); eexists; split; reflexivity.
Qed.

Lemma core_runs db db' : core db' = core db → DB.runs db' = DB.runs db.
Proof. unfold core. congruence. Qed.

Lemma core_attempts_of k db db' : core db' = core db → attempts_of k db' = attempts_of k db.
Proof. unfold core, attempts_of. congruence. Qed.

Lemma core_attempts_step k db db' : core db' = core db → attempts_step k db db'.
Proof. unfold core. intros [= E1 E2 E3]. by apply attempts_step_same. Qed.

Lemma active_status r r' :
  Run.status r' = Run.status r → active r' = true → active r = true.
Proof. unfold active. congruence. Qed.

Lemma nonterminal_shape_identity r r' :
  same_identity r r' → nonterminal_shape r = true → active r = true →
  nonterminal_shape r' = true.
Proof.
  unfold same_identity, nonterminal_shape, active.
  intros (_&_&_&Ht&Hs&_&Hty&Hc&Hr&_) Hsh Ha.
  apply negb_true_iff in Ha. rewrite Ha in Hsh. simpl in Hsh.
  rewrite Ht, Hs, Hty, Hc, Hr, Hsh. apply orb_true_r.
Qed.

(** The columns the milestones are read from. *)
Definition milestones (r : AgentRun) :=
  (Run.created_at r, Run.started_at r, Run.prepared_at r, Run.first_model_request_at r,
   Run.first_output_at r).

Lemma milestones_same r r' :
  milestones r' = milestones r → milestones_ordered r → milestones_ordered r'.
Proof.
  unfold milestones, milestones_ordered. intros [= E1 E2 E3 E4 E5].
  by rewrite E1, E2, E3, E4, E5.
Qed.
