(* ===== verification/RunSafe.v ===== *)
(** Every operation of the repository is [safe]: it preserves the invariant of
    the run tables and only lets them evolve. *)

From stdpp Require Import prelude gmap strings list fin_maps relations.
From Stdlib Require Import ZArith Lia.
From S2P Require Import Prelude Schema RunSpec RunRepo RunInv.

(** * Tactics for one-row transitions *)

(** [run_evolves r r'] where [r'] rewrites columns of a non-terminal [r]. *)
Ltac ev_once :=
  unfold write_once; row_simpl;
  let Hsome := fresh in intros Hsome; try (destruct Hsome as [? Hsome]; rewrite ?Hsome);
  solve [reflexivity | bool_hyps; congruence | congruence].

(** The phase is kept, or the caller proves the moves. *)
Ltac ev_moves := try apply rtc_refl.

Ltac solve_evolves :=
  split;
  [ repeat split; reflexivity
  | let Ht := fresh in intros Ht;
    first [ reflexivity
          | repeat match goal with E : Run.status _ = _ |- _ => rewrite E in Ht end; discriminate
          | congruence ]
  | ev_moves
  | ev_once | ev_once | ev_once | ev_once
  | let Hf := fresh in intros Hf; first [ reflexivity | destruct Hf; bool_hyps; congruence ] ].

(** The rows a run owns are its own; a transition that only rewrites columns. *)
Lemma safe_put_run db k r r' :
  wf db → DB.runs db !! k = Some r →
  run_evolves r r' → (active r' = true → active r = true) → run_ok r' →
  (history_ok r (attempts_of k db) → history_ok r' (attempts_of k db)) →
  wf (put_run r' db).2 ∧ evolves db (put_run r' db).2.
Proof.
  intros Hwf Hr Hev Hact Hok Hh.
  assert (Hid : Run.id r' = k) by (rewrite <- (wf_key _ Hwf k r Hr); apply Hev).
  unfold put_run, modify. rewrite Hid. simpl. eapply safe_transition'; eauto.
  - by apply attempts_step_same.
  - change (attempts_of k (db <| DB.runs ::= <[k:=r']> |>)) with (attempts_of k db).
    by apply Hh, Hwf.
Qed.

(** Columns the invariant does not read. *)
Definition same_lease (r r' : AgentRun) : Prop :=
  Run.status r' = Run.status r ∧ Run.worker_id r' = Run.worker_id r
  ∧ Run.heartbeat_at r' = Run.heartbeat_at r
  ∧ Run.lease_expires_at r' = Run.lease_expires_at r
  ∧ Run.started_at r' = Run.started_at r ∧ Run.finished_at r' = Run.finished_at r
  ∧ Run.runtime_cleanup_pending r' = Run.runtime_cleanup_pending r.

Lemma safe_put_facts db k r r' :
  wf db → DB.runs db !! k = Some r → run_evolves r r' → same_lease r r' →
  (milestones_ordered r → milestones_ordered r') →
  (is_Some (Run.output_message_id r) → is_Some (Run.output_message_id r')) →
  wf (put_run r' db).2 ∧ evolves db (put_run r' db).2.
Proof.
  intros Hwf Hr Hev (Es & Ew & Eh & El & Est & Ef & Ec) Hm Ho.
  pose proof (wf_run _ Hwf k r Hr) as [Osh Ole Ocl Omi Oou].
  pose proof (ev_identity _ _ Hev) as Hi.
  eapply safe_put_run; eauto.
  - by apply active_status.
  - split.
    + destruct (active r) eqn:Ha; [by eapply nonterminal_shape_identity|].
      unfold nonterminal_shape. rewrite Es. unfold active in Ha.
      apply negb_false_iff in Ha. by rewrite Ha.
    + unfold lease_shape in *. by rewrite Es, Ew, Eh, El, Est, Ef, Ec.
    + unfold same_identity in Hi. rewrite Ec. intros E. apply Ocl. intuition congruence.
    + auto.
    + rewrite Es. auto.
  - unfold history_ok. rewrite Ew, Eh, El, Est. done.
Qed.

(** [load; guard; write one row] for the write-once facts. *)
Ltac safe_done := first [ split; [assumption | simpl; reflexivity] ].

Ltac safe_load k r Hr :=
  unfold lock_run, get_run, require_lease_owner; m_unfold;
  destruct (DB.runs _ !! k) as [r|] eqn:Hr; [|safe_done].

Lemma owns_lease_true r w now :
  owns_lease r w now = true ↔
  Run.status r = Running ∧ Run.worker_id r = Some w
  ∧ ∃ e, Run.lease_expires_at r = Some e ∧ (now < e)%Z.
Proof.
  unfold owns_lease, lease_live. rewrite !andb_true_iff, !bool_decide_eq_true.
  destruct (Run.lease_expires_at r) as [e|]; [rewrite Z.ltb_lt|].
  - split; [intros [[? ?] ?]; eauto|]. intros (? & ? & e' & [= ->] & ?). auto.
  - split; [intros [_ ?]; done|]. by intros (_ & _ & e' & ? & _).
Qed.

Lemma safe_set_langfuse_trace_id k t w now : safe (set_langfuse_trace_id k t w now).
Proof.
  intros db Hwf. unfold set_langfuse_trace_id.
  destruct (bool_decide _); [safe_done|]. destruct (blank w); [safe_done|].
  safe_load k r Hr. destruct (owns_lease r w now) eqn:Ho; [|safe_done].
  destruct (negb _ && negb _); [safe_done|].
  apply owns_lease_true in Ho as (Es & _).
  eapply safe_put_facts; eauto; [solve_evolves|repeat split; reflexivity].
Qed.

Lemma safe_set_output_message k m w now : safe (set_output_message k m w now).
Proof.
  intros db Hwf. unfold set_output_message, get_matching_output_message.
  destruct (blank w); [safe_done|].
  safe_load k r Hr. destruct (owns_lease r w now) eqn:Ho; [|safe_done].
  apply owns_lease_true in Ho as (Es & _).
  case_match; [|safe_done].
  eapply safe_put_facts; eauto; [solve_evolves|repeat split; reflexivity].
Qed.

Lemma safe_lock_output_persistence k w t q now : safe (lock_output_persistence k w t q now).
Proof.
  intros db Hwf. unfold lock_output_persistence. destruct (blank w); [safe_done|].
  safe_load k r Hr. destruct (owns_lease r w now); [|safe_done].
  repeat (destruct (bool_decide _); cbn; [try safe_done|try safe_done]).
Qed.

Lemma safe_lock_memory_write k u w t q now : safe (lock_memory_write k u w t q now).
Proof.
  intros db Hwf. unfold lock_memory_write. destruct (blank w); [safe_done|].
  safe_load k r Hr. destruct (owns_lease r w now); [|safe_done].
  destruct (_ || _); safe_done.
Qed.

Lemma safe_record_run_manifest k m f w now : safe (record_run_manifest k m f w now).
Proof.
  intros db Hwf. unfold record_run_manifest. destruct (blank w); [safe_done|].
  destruct (blank f); [safe_done|].
  safe_load k r Hr. destruct (owns_lease r w now) eqn:Ho; [|safe_done].
  apply owns_lease_true in Ho as (Es & _).
  destruct (bool_decide (Run.manifest_fingerprint r = None)) eqn:Hm; [|safe_done].
  eapply safe_put_facts; eauto; [solve_evolves|repeat split; reflexivity].
Qed.

Lemma safe_record_prepared k w o now : safe (record_prepared k w o now).
Proof.
  intros db Hwf. unfold record_prepared. safe_load k r Hr.
  destruct (bool_decide (Run.prepared_at r = None)) eqn:Hm; [|safe_done]. cbn [negb].
  destruct (owns_lease r w now) eqn:Ho; [|safe_done].
  apply owns_lease_true in Ho as (Es & _).
  match goal with |- context [if ?b then _ else _] => destruct b eqn:Hb end; [safe_done|].
  eapply safe_put_facts; eauto; [solve_evolves|repeat split; reflexivity|].
  destruct (Run.started_at r) as [t|] eqn:Est; [|done]. apply Z.ltb_ge in Hb.
  intros (_ & Ho' & Hq). apply bool_decide_eq_true in Hm. unfold milestones_ordered. row_simpl.
  split; [|split; [|done]].
  - intros p [= <-]. eauto.
  - intros o' Eo. destruct (Ho' o' Eo) as (p & Ep & _). congruence.
Qed.

Lemma safe_record_first_model_request k w o now :
  safe (record_first_model_request k w o now).
Proof.
  intros db Hwf. unfold record_first_model_request. safe_load k r Hr.
  destruct (bool_decide (Run.first_model_request_at r = None)) eqn:Hm; [|safe_done].
  cbn [negb].
  match goal with |- context [if ?b then _ else _] => destruct b end; [safe_done|].
  match goal with |- context [if ?b then _ else _] => destruct b eqn:Hb end; [safe_done|].
  eapply safe_put_facts; eauto; [solve_evolves|repeat split; reflexivity|].
  intros (Hp & Ho & _). unfold milestones_ordered. row_simpl. split; [done|]. split; [done|].
  intros q c [= <-] Ec. rewrite Ec in Hb. by apply Z.ltb_ge in Hb.
Qed.

Lemma safe_record_first_output k w o now : safe (record_first_output k w o now).
Proof.
  intros db Hwf. unfold record_first_output. safe_load k r Hr.
  destruct (bool_decide (Run.first_output_at r = None)) eqn:Hm; [|safe_done]. cbn [negb].
  destruct (owns_lease r w now) eqn:Ho; [|safe_done].
  match goal with |- context [if ?b then _ else _] => destruct b eqn:Hb end; [safe_done|].
  eapply safe_put_facts; eauto; [solve_evolves|repeat split; reflexivity|].
  destruct (Run.prepared_at r) as [p|] eqn:Ep; [|done]. apply Z.ltb_ge in Hb.
  intros (Hp & _ & Hq). unfold milestones_ordered. row_simpl.
  split; [done|]. split; [|done]. intros q [= <-]. eauto.
Qed.

(** * Transitions that rewrite a run and its attempts *)

(** The database after the run's row is flushed. *)
Definition with_run (k : string) (r' : AgentRun) (db : Database) : Database :=
  db <| DB.runs ::= <[k := r']> |>.

Lemma put_run_with k r r' db :
  wf db → DB.runs db !! k = Some r → same_identity r r' →
  put_run r' db = (Ret tt, with_run k r' db).
Proof.
  intros Hwf Hr Hi. unfold put_run, modify, with_run.
  replace (Run.id r') with k; [done|]. rewrite <- (wf_key _ Hwf k r Hr). symmetry. apply Hi.
Qed.

Lemma with_run_attempts j k r' db : attempts_of j (with_run k r' db) = attempts_of j db.
Proof. done. Qed.

Lemma with_run_wf_ids k r' db : wf db →
  NoDup (Attempt.id <$> DB.attempts (with_run k r' db)).
Proof. intros H. exact (wf_attempt_ids _ H). Qed.

Lemma safe_with_run db db' k r r' :
  wf db → DB.runs db !! k = Some r →
  DB.runs db' = DB.runs (with_run k r' db) →
  attempts_step k (with_run k r' db) db' →
  run_evolves r r' → (active r' = true → active r = true) → run_ok r' →
  history_ok r' (attempts_of k db') →
  wf db' ∧ evolves db db'.
Proof.
  intros Hwf Hr Er Hs Hev Hact Hok Hh. eapply safe_transition'; eauto; [by rewrite Er|].
  eapply attempts_step_trans; [|exact Hs]. by apply attempts_step_same.
Qed.

Lemma active_of_status r s : Run.status r = s → is_terminal s = false → active r = true.
Proof. unfold active. by intros -> ->. Qed.

Lemma nonterminal_shape_terminal r : is_terminal (Run.status r) = true → nonterminal_shape r = true.
Proof. unfold nonterminal_shape. by intros ->. Qed.

(** An owned history, taken apart. *)
Lemma history_owned r h w :
  history_ok r h → Run.worker_id r = Some w →
  ∃ h0 a, h = h0 ++ [a] ∧ Forall closed h0 ∧ attempt_open a = true ∧ Attempt.worker_id a = w.
Proof.
  intros (_ & Hw & _) E. rewrite E in Hw.
  destruct Hw as (h0 & a & ? & ? & ? & ? & _). eauto 6.
Qed.

Lemma history_unowned r h :
  history_ok r h → Run.worker_id r = None → Forall closed h.
Proof. intros (_ & Hw & _) E. by rewrite E in Hw. Qed.

(** The history of an owner: the last attempt is open and carries the lease. *)
Lemma history_claimed r w lease now h h' a :
  map Attempt.attempt_no h = map Z.of_nat (seq 1 (length h)) →
  Forall closed h → h' = h ++ [a] →
  Attempt.attempt_no a = Z.of_nat (S (length h)) → attempt_open a = true →
  Attempt.worker_id a = w → Attempt.lease_expires_at a = lease →
  Attempt.heartbeat_at a = Some now →
  Run.worker_id r = Some w → Run.lease_expires_at r = lease →
  Run.heartbeat_at r = Some now → is_Some (Run.started_at r) →
  history_ok r h'.
Proof.
  intros Hn Hc -> Ea Ho Ew El Eh Rw Rl Rh [t Rs]. split; [by apply numbered_snoc|].
  split; [|congruence]. rewrite Rw. exists h, a. repeat split; congruence.
Qed.

(** The history after the open attempts were closed. *)
Lemma history_closed r h f :
  map Attempt.attempt_no h = map Z.of_nat (seq 1 (length h)) →
  (∀ a, Attempt.attempt_no (f a) = Attempt.attempt_no a) →
  Forall closed (map f h) →
  Run.worker_id r = None → (Run.started_at r = None → h = []) →
  history_ok r (map f h).
Proof.
  intros Hn Hf Hc Rw Rs. split; [by apply numbered_map|]. rewrite Rw.
  split; [done|]. intros E. by rewrite Rs.
Qed.

(** The common part of [mark_running]: the claimed row. *)
Definition claimed_run (r : AgentRun) (w : string) (lease : option datetime) (now : datetime)
    : AgentRun :=
  r <| Run.status := (if bool_decide (Run.status r = Pending) then Running else Run.status r) |>
    <| Run.worker_id := Some w |>
    <| Run.heartbeat_at := Some now |>
    <| Run.lease_expires_at := lease |>
    <| Run.started_at := Some (or_else (Run.started_at r) now) |>
    <| Run.updated_at := Some now |>.

(** Who [mark_running] lets in: a run without an owner, or its own live owner. *)
Definition claimable (r : AgentRun) (w : string) : Prop :=
  Run.status r = Pending
  ∨ (Run.status r = CancelRequested ∧ Run.worker_id r = None)
  ∨ (Run.status r ∈ LEASED_RUN_STATUSES ∧ Run.worker_id r = Some w).

Lemma claimed_run_moves r w e now :
  run_ok r → claimable r w → moves (phase_of r) (phase_of (claimed_run r w (Some e) now)).
Proof.
  intros Hok Hc. apply rtc_once. pose proof (ok_lease _ Hok) as Hl. unfold lease_shape in Hl.
  unfold phase_of, claimed_run. row_simpl. destruct Hc as [E|[[E Ew]|[Hs Ew]]].
  - rewrite E. constructor.
  - rewrite E, Ew in *. destruct Hl as (_ & _ & [(_ & _ & ->)|([? ?] & _)]); [|done].
    constructor.
  - apply leased_status in Hs as [E|E]; rewrite E, Ew; constructor.
Qed.

Lemma claimed_run_evolves r w e now :
  run_ok r → claimable r w → is_terminal (Run.status r) = false →
  run_evolves r (claimed_run r w (Some e) now).
Proof.
  intros Hok Hc Ht. pose proof (claimed_run_moves r w e now Hok Hc).
  unfold claimed_run in *. solve_evolves. done.
Qed.

Lemma claimable_guard r w (live : bool) :
  negb (bool_decide (Run.status r = Pending)
        || (bool_decide (Run.status r = CancelRequested) && bool_decide (Run.worker_id r = None)))
  && negb (bool_decide (Run.status r ∈ LEASED_RUN_STATUSES)
           && bool_decide (Run.worker_id r = Some w) && live) = false →
  claimable r w.
Proof.
  rewrite <- negb_orb, negb_false_iff, !orb_true_iff, !andb_true_iff, !bool_decide_eq_true.
  unfold claimable. tauto.
Qed.

Lemma claimed_run_status r w lease now :
  is_terminal (Run.status r) = false →
  Run.status (claimed_run r w lease now) = Running
  ∨ Run.status (claimed_run r w lease now) = CancelRequested.
Proof.
  intros Ht. unfold claimed_run. row_simpl.
  apply is_terminal_false in Ht as [E|[E|E]]; rewrite E; auto.
Qed.

Lemma claimed_run_ok r w e now :
  run_ok r → is_terminal (Run.status r) = false → Run.runtime_cleanup_pending r = false →
  run_ok (claimed_run r w (Some e) now).
Proof.
  intros [Hsh Hl Hcl Hm Ho] Ht Hc. pose proof (claimed_run_status r w (Some e) now Ht) as Hst.
  split.
  - eapply nonterminal_shape_identity; [|exact Hsh|unfold active; by rewrite Ht].
    repeat split; reflexivity.
  - assert (Hf : Run.finished_at r = None).
    { unfold lease_shape in Hl. apply is_terminal_false in Ht as [E|[E|E]]; rewrite E in Hl; apply Hl. }
    unfold lease_shape. destruct Hst as [-> | ->];
      unfold claimed_run; row_simpl; repeat split; eauto; right; repeat split; eauto.
  - intros _. done.
  - destruct Hm as (Hp & Hfo & Hq). unfold milestones_ordered, claimed_run. row_simpl.
    split; [|done]. intros p Ep. destruct (Hp p Ep) as (t & Et & ?). rewrite Et. eauto.
  - destruct Hst as [-> | ->]; done.
Qed.

(** Re-extending the lease of an open attempt. *)
Definition beat (now : datetime) (lease : option datetime) (a : AgentRunAttempt)
    : AgentRunAttempt :=
  a <| Attempt.heartbeat_at := Some now |>
    <| Attempt.lease_expires_at := lease |>
    <| Attempt.updated_at := Some now |>.

Lemma history_beat r r' h0 a now lease :
  history_ok r (h0 ++ [a]) → Forall closed h0 → attempt_open a = true →
  Run.worker_id r = Some (Attempt.worker_id a) →
  Run.worker_id r' = Run.worker_id r → Run.heartbeat_at r' = Some now →
  Run.lease_expires_at r' = lease → is_Some (Run.started_at r') →
  history_ok r' (h0 ++ [beat now lease a]).
Proof.
  intros (Hn & _ & _) Hc Ho Rw Ew Eh El [t Es]. split; [|split; [|congruence]].
  - apply numbered_snoc; [|exact (numbered_last _ _ Hn)].
    rewrite !length_app, !map_app, seq_app, map_app in Hn. by apply app_inj_2 in Hn as [? _].
  - rewrite Ew, Rw. exists h0, (beat now lease a). repeat split; auto.
Qed.

(** The owner's heartbeat: the run's row and its open attempt. *)
Lemma safe_beat db k r r' w now lease :
  wf db → DB.runs db !! k = Some r → Run.worker_id r = Some w → active r = true →
  run_evolves r r' → run_ok r' → Run.worker_id r' = Some w →
  Run.heartbeat_at r' = Some now → Run.lease_expires_at r' = lease →
  is_Some (Run.started_at r') →
  ∃ a, get_open_attempt k (Some w) (with_run k r' db) = (Ret (Some a), with_run k r' db)
    ∧ wf (put_attempt (beat now lease a) (with_run k r' db)).2
    ∧ evolves db (put_attempt (beat now lease a) (with_run k r' db)).2.
Proof.
  intros Hwf Hr Rw Ha Hev Hok Ew Eh El Es.
  pose proof (wf_history _ Hwf k r Hr) as Hh.
  destruct (history_owned _ _ _ Hh Rw) as (h0 & a & E & Hc & Ho & Haw).
  rewrite <- (with_run_attempts k k r' db) in E.
  assert (Hin : a ∈ attempts_of k (with_run k r' db)).
  { rewrite E. apply elem_of_app. right. by left. }
  destruct (put_attempt_step k a (beat now lease a) (with_run k r' db)) as [Hs Hm];
    [by apply with_run_wf_ids|done..|].
  exists a. split; [by apply (get_open_attempt_owned k w h0 a)|].
  eapply safe_with_run; eauto.
  rewrite Hm. erewrite replace_last; [|by apply with_run_wf_ids|exact E|done].
  rewrite with_run_attempts in E. rewrite E in Hh. subst w.
  by eapply history_beat; [exact Hh|..]; [| |exact Rw|congruence|..].
Qed.

(** A new owner: the stale attempts are closed and the next one is opened. *)
Lemma safe_claim db k r r' w now e et em :
  wf db → DB.runs db !! k = Some r → active r = true →
  run_evolves r r' → run_ok r' → Run.worker_id r' = Some w →
  Run.heartbeat_at r' = Some now → Run.lease_expires_at r' = e →
  is_Some (Run.started_at r') →
  ∃ db', (_ ← close_open_attempts k LeaseExpired now et em;
          attempts ← gets (attempts_of k);
          add_attempt k (max_attempt_no attempts + 1) w now e) (with_run k r' db)
         = (Ret tt, db')
    ∧ wf db' ∧ evolves db db'.
Proof.
  intros Hwf Hr Ha Hev Hok Ew Eh El Es.
  pose proof (wf_history _ Hwf k r Hr) as (Hn & _ & _).
  set (db1 := with_run k r' db).
  destruct (close_open_attempts_step k LeaseExpired now et em db1) as [Hs Hm].
  unfold mbind, M_bind, gets.
  assert (Ec : close_open_attempts k LeaseExpired now et em db1
    = (Ret tt, (close_open_attempts k LeaseExpired now et em db1).2)) by done.
  assert (Er : DB.runs (close_open_attempts k LeaseExpired now et em db1).2 = DB.runs db1)
    by done.
  rewrite Ec. set (db2 := (close_open_attempts k LeaseExpired now et em db1).2) in *.
  set (f := close_if_open k LeaseExpired now et em) in *.
  assert (Hnf : map Attempt.attempt_no (attempts_of k db2)
    = map Z.of_nat (seq 1 (length (attempts_of k db2)))).
  { rewrite Hm. apply numbered_map; [|done]. intros a. unfold f, close_if_open. by case_match. }
  destruct (add_attempt_step k (max_attempt_no (attempts_of k db2) + 1) w now e db2)
    as [Ha2 (a & Ea & En & Eo & Eaw & Eal & Eah & _)].
  eexists. split; [done|]. eapply safe_with_run; eauto.
  - by eapply attempts_step_trans.
  - eapply (history_claimed _ w e now (attempts_of k db2)); eauto.
    + rewrite Hm. apply close_if_open_closed. intros b Hb. by eapply attempts_of_run.
    + rewrite En, max_attempt_no_numbered by done. lia.
Qed.

(** * The lease protocol is safe *)

Lemma safe_mark_running k w n now : safe (mark_running k w n now).
Proof.
  intros db Hwf. unfold mark_running.
  destruct (blank w); [safe_done|]. destruct (n <=? 0)%Z; [safe_done|].
  unfold lock_run, get_run. m_unfold.
  destruct (DB.runs db !! k) as [r|] eqn:Hr; [|safe_done].
  destruct (is_terminal (Run.status r)) eqn:Ht; [safe_done|].
  destruct (Run.runtime_cleanup_pending r) eqn:Hcp; [safe_done|].
  set (initial := _ || _). set (live := _ && lease_live _ _).
  destruct (negb initial && negb live) eqn:Hg; [safe_done|].
  set (e := Some (now + seconds n)%Z). fold (claimed_run r w e now).
  pose proof (claimable_guard r w _ Hg) as Hclaim.
  pose proof (claimed_run_evolves r w (now + seconds n)%Z now (wf_run _ Hwf k r Hr) Hclaim Ht)
    as Hev. fold e in Hev.
  pose proof (claimed_run_ok r w (now + seconds n)%Z now (wf_run _ Hwf k r Hr) Ht Hcp) as Hok.
  assert (Ha : active r = true) by (unfold active; by rewrite Ht).
  rewrite (put_run_with k r) by (done || apply Hev).
  change (Run.id (claimed_run r w e now)) with (Run.id r).
  rewrite (wf_key _ Hwf k r Hr).
  destruct initial.
  - destruct (safe_claim db k r (claimed_run r w e now) w now e
      (Some "worker_lease_expired") (Some "执行占有人在取得新所有权前已失联。"))
      as (db' & E & H'); try done.
    m_unfold. rewrite E. exact H'.
  - assert (Rw : Run.worker_id r = Some w).
    { apply negb_false_iff, andb_true_iff in Hg as [[_ Hw]%andb_true_iff _].
      by apply bool_decide_eq_true in Hw. }
    destruct (safe_beat db k r (claimed_run r w e now) w now e)
      as (a & E & H'); try done.
    m_unfold. rewrite E. exact H'.
Qed.

Lemma safe_renew_lease k w n now : safe (renew_lease k w n now).
Proof.
  intros db Hwf. unfold renew_lease.
  destruct (blank w); [safe_done|]. destruct (n <=? 0)%Z; [safe_done|].
  unfold lock_run, get_run. m_unfold.
  destruct (DB.runs db !! k) as [r|] eqn:Hr; [|safe_done].
  destruct (_ || _) eqn:Hg; [safe_done|].
  set (e := Some (now + seconds n)%Z).
  set (r' := r <| Run.heartbeat_at := Some now |> <| Run.lease_expires_at := e |>
               <| Run.updated_at := Some now |>).
  bool_hyps. destruct Hg as [[Hst Hw] _].
  assert (Hs : Run.status r = Running ∨ Run.status r = CancelRequested) by (by apply leased_status).
  pose proof (wf_run _ Hwf k r Hr) as [Osh Ole Ocl Omi Oou].
  assert (Ht : is_terminal (Run.status r) = false) by (by destruct Hs as [-> | ->]).
  assert (Ha : active r = true) by (unfold active; by rewrite Ht).
  assert (Hev : run_evolves r r').
  { unfold r'. solve_evolves. unfold phase_of. row_simpl.
    destruct Hs as [E|E]; rewrite E; apply rtc_once; constructor. }
  assert (Hstart : is_Some (Run.started_at r)).
  { unfold lease_shape in Ole. destruct Hs as [E|E]; rewrite E in Ole; tauto. }
  assert (Hok : run_ok r').
  { split; [by (eapply nonterminal_shape_identity; [apply Hev|..])| |exact Ocl|exact Omi|exact Oou].
    unfold lease_shape in *. change (Run.status r') with (Run.status r).
    unfold r'. destruct Hs as [E|E]; rewrite E in *; row_simpl.
    - destruct Ole as (? & ? & ? & ? & ? & ?). unfold e. eauto 10.
    - destruct Ole as (? & ? & [(Hn & _)|(? & ? & ? & ?)]); [congruence|].
      unfold e. split; [done|]. split; [done|]. right. eauto 10. }
  rewrite (put_run_with k r) by (done || apply Hev).
  destruct (safe_beat db k r r' w now e) as (a & E & H'); try done.
  m_unfold. rewrite E. exact H'.
Qed.

Lemma safe_release_lease_for_retry k w now : safe (release_lease_for_retry k w now).
Proof.
  intros db Hwf. unfold release_lease_for_retry. safe_load k r Hr.
  destruct (owns_lease r w now) eqn:Ho; [|safe_done]. cbn [negb].
  apply owns_lease_true in Ho as (Es & Ew & _).
  set (r' := r <| Run.status := _ |> <| Run.worker_id := _ |> <| Run.heartbeat_at := _ |>
    <| Run.lease_expires_at := _ |> <| Run.runtime_cleanup_pending := _ |>
    <| Run.updated_at := _ |>).
  assert (Ha : active r = true) by (unfold active; by rewrite Es).
  pose proof (wf_run _ Hwf k r Hr) as [Osh Ole Ocl Omi Oou].
  unfold lease_shape in Ole. rewrite Es in Ole. destruct Ole as (_ & _ & _ & [t Hst] & Hf & _).
  assert (Hev : run_evolves r r').
  { unfold r'. solve_evolves. unfold phase_of. row_simpl. rewrite Es, Hst. apply rtc_once.
    constructor. }
  assert (Hok : run_ok r').
  { split; [by (eapply nonterminal_shape_identity; [apply Hev|..])| | |exact Omi|done].
    - by repeat split.
    - intros E. unfold r'. row_simpl. change (Run.run_type r' = Subagent) in E.
      by rewrite bool_decide_eq_true_2. }
  rewrite (put_run_with k r) by (done || apply Hev).
  pose proof (wf_history _ Hwf k r Hr) as Hh.
  destruct (history_owned _ _ _ Hh Ew) as (h0 & a & E & Hc & Hop & Haw).
  destruct (finish_open_attempt_owned k w RetryReleased now None None h0 a (with_run k r' db))
    as (db' & -> & Hs & Er & Eh); try done; [by apply with_run_wf_ids|].
  eapply safe_with_run; eauto. cbn [snd]. rewrite Eh. destruct Hh as (Hn & _ & _). rewrite E in Hn.
  split; [|split; [|intros E0; exfalso; revert E0; unfold r'; row_simpl; congruence]].
  - apply numbered_snoc; [|exact (numbered_last _ _ Hn)].
    rewrite !length_app, !map_app, seq_app, map_app in Hn. by apply app_inj_2 in Hn as [? _].
  - apply Forall_app. split; [done|]. by repeat constructor.
Qed.

(** * Leaving the active states *)

(** The columns of a run that has just become terminal. *)
Definition finished_shape (r r' : AgentRun) : Prop :=
  is_terminal (Run.status r') = true
  ∧ Run.worker_id r' = None ∧ Run.heartbeat_at r' = None ∧ Run.lease_expires_at r' = None
  ∧ is_Some (Run.finished_at r') ∧ Run.started_at r' = Run.started_at r
  ∧ (Run.run_type r = Subagent → Run.runtime_cleanup_pending r' = false)
  ∧ milestones r' = milestones r
  ∧ (Run.status r' = Completed → is_Some (Run.output_message_id r')).

Lemma finished_run_ok r r' :
  run_ok r → run_evolves r r' → finished_shape r r' → run_ok r'.
Proof.
  intros Hok Hev (Ht & Ew & Eh & El & Ef & Es & Ec & Em & Eo). split.
  - by apply nonterminal_shape_terminal.
  - unfold lease_shape. apply is_terminal_true in Ht as [E|[E|[E|E]]]; by rewrite E.
  - intros E. apply Ec. rewrite <- E. symmetry. apply Hev.
  - eapply milestones_same; [exact Em|]. apply Hok.
  - exact Eo.
Qed.

Lemma safe_finish db db' k r r' f :
  wf db → DB.runs db !! k = Some r →
  run_evolves r r' → finished_shape r r' →
  DB.runs db' = DB.runs (with_run k r' db) →
  attempts_step k (with_run k r' db) db' →
  attempts_of k db' = map f (attempts_of k db) →
  (∀ a, Attempt.attempt_no (f a) = Attempt.attempt_no a) →
  Forall closed (attempts_of k db') →
  wf db' ∧ evolves db db'.
Proof.
  intros Hwf Hr Hev Hsh Er Hs Ea Hf Hc.
  pose proof (wf_history _ Hwf k r Hr) as (Hn & _ & Hst).
  eapply safe_with_run; eauto using finished_run_ok, wf_run.
  - destruct Hsh as [Ht _]. unfold active. by rewrite Ht.
  - rewrite Ea in Hc |- *. destruct Hsh as (_ & Ew & _ & _ & _ & Es & _ & _).
    apply history_closed; auto. by rewrite Es.
Qed.

(** Finishing a run whose attempts are all closed already. *)
Lemma safe_finish_closed db db' k r r' :
  wf db → DB.runs db !! k = Some r → run_evolves r r' → finished_shape r r' →
  Run.worker_id r = None → core db' = core (with_run k r' db) →
  wf db' ∧ evolves db db'.
Proof.
  intros Hwf Hr Hev Hsh Ew Ec. pose proof (wf_history _ Hwf k r Hr) as Hh.
  assert (Ea : attempts_of k db' = attempts_of k db) by exact (core_attempts_of k _ _ Ec).
  eapply (safe_finish db db' k r r' id); eauto using core_runs, core_attempts_step.
  - by rewrite map_id.
  - rewrite Ea. eauto using history_unowned.
Qed.

(** Finishing a run and closing whatever attempt it left open. *)
Lemma safe_finish_close db db1 k r r' o now et em :
  wf db → DB.runs db !! k = Some r → run_evolves r r' → finished_shape r r' →
  core db1 = core (with_run k r' db) →
  wf (close_open_attempts k o now et em db1).2
  ∧ evolves db (close_open_attempts k o now et em db1).2.
Proof.
  intros Hwf Hr Hev Hsh Ec.
  destruct (close_open_attempts_step k o now et em db1) as [Hs Hm].
  assert (Ea : attempts_of k db1 = attempts_of k db) by exact (core_attempts_of k _ _ Ec).
  rewrite Ea in Hm. eapply safe_finish; eauto.
  - rewrite <- (core_runs _ _ Ec). done.
  - eapply attempts_step_trans; [|exact Hs]. by apply core_attempts_step.
  - intros a. unfold close_if_open. by case_match.
  - rewrite Hm. apply close_if_open_closed. intros a Ha. by eapply attempts_of_run.
Qed.

(** Finishing an owned run and its attempt. *)
Lemma safe_finish_owned db db1 k r r' w o now et em :
  wf db → DB.runs db !! k = Some r → run_evolves r r' → finished_shape r r' →
  Run.worker_id r = Some w → core db1 = core (with_run k r' db) →
  ∃ db', finish_open_attempt k (Some w) o now et em db1 = (Ret tt, db')
    ∧ wf db' ∧ evolves db db'.
Proof.
  intros Hwf Hr Hev Hsh Ew Ec. pose proof (wf_history _ Hwf k r Hr) as Hh.
  assert (Ea : attempts_of k db1 = attempts_of k db) by exact (core_attempts_of k _ _ Ec).
  destruct (history_owned _ _ _ Hh Ew) as (h0 & a & E & Hc & Ho & Haw).
  destruct (finish_open_attempt_owned k w o now et em h0 a db1) as (db' & Em & Hs & Er & Eh);
    [|congruence|done..|].
  { unfold core in Ec. injection Ec as _ -> _. by apply wf_attempt_ids. }
  exists db'. split; [done|].
  eapply (safe_finish db db' k r r' (λ b, if attempt_open b then finish_attempt o et em now b else b));
    eauto.
  - rewrite Er. by apply core_runs.
  - eapply attempts_step_trans; [|exact Hs]. by apply core_attempts_step.
  - rewrite Eh, E, map_app. simpl. rewrite Ho. f_equal. symmetry. apply map_id_in.
    intros b Hb. eapply Forall_forall in Hc; [|exact Hb]. unfold closed in Hc. by rewrite Hc.
  - intros b. by case_match.
  - rewrite Eh. apply Forall_app. split; [done|]. by repeat constructor.
Qed.

(** * Cancellation is safe *)

(** Asking a run that has started to stop. *)
Definition cancel_requested_of (r r' : AgentRun) : Prop :=
  Run.status r' = CancelRequested
  ∧ Run.worker_id r' = Run.worker_id r ∧ Run.heartbeat_at r' = Run.heartbeat_at r
  ∧ Run.lease_expires_at r' = Run.lease_expires_at r
  ∧ Run.started_at r' = Run.started_at r ∧ Run.finished_at r' = Run.finished_at r
  ∧ Run.runtime_cleanup_pending r' = Run.runtime_cleanup_pending r
  ∧ milestones r' = milestones r.

Definition unstarted (r : AgentRun) : bool :=
  bool_decide (Run.status r = Pending) && bool_decide (Run.worker_id r = None)
  && bool_decide (Run.started_at r = None).

Lemma unstarted_true r :
  unstarted r = true ↔
  Run.status r = Pending ∧ Run.worker_id r = None ∧ Run.started_at r = None.
Proof. unfold unstarted. rewrite !andb_true_iff, !bool_decide_eq_true. tauto. Qed.

Lemma started_when_active r :
  run_ok r → active r = true → unstarted r = false → is_Some (Run.started_at r).
Proof.
  intros Hok Ha Hu. pose proof (ok_lease _ Hok) as Hl. unfold active in Ha. apply negb_true_iff, is_terminal_false in Ha.
  unfold lease_shape in Hl. destruct Ha as [E|[E|E]]; rewrite E in Hl; [|apply Hl..].
  destruct (Run.started_at r) eqn:Es; [by eexists|].
  exfalso. apply (not_true_iff_false (unstarted r)); [done|].
  apply unstarted_true. repeat split; auto. apply Hl.
Qed.

Lemma safe_cancel_requested db k r r' :
  wf db → DB.runs db !! k = Some r → active r = true → unstarted r = false →
  run_evolves r r' → cancel_requested_of r r' →
  wf (put_run r' db).2 ∧ evolves db (put_run r' db).2.
Proof.
  intros Hwf Hr Ha Hu Hev (Es & Ew & Eh & El & Est & Ef & Ec & Em).
  pose proof (wf_run _ Hwf k r Hr) as Hok.
  pose proof (started_when_active r Hok Ha Hu) as Hstart.
  destruct Hok as [Osh Ole Ocl Omi Oou]. pose proof (ev_identity _ _ Hev) as Hi.
  eapply safe_put_run; eauto.
  - split.
    + by eapply nonterminal_shape_identity.
    + unfold lease_shape in *. rewrite Es, Ew, Eh, El, Est, Ef, Ec.
      unfold active in Ha. apply negb_true_iff, is_terminal_false in Ha.
      split; [done|]. destruct Ha as [E|[E|E]]; rewrite E in Ole.
      * destruct Ole as (? & ? & ? & ?). auto.
      * destruct Ole as (? & ? & ? & ? & ? & ?). split; [done|]. right. auto.
      * apply Ole.
    + rewrite Ec. intros E. apply Ocl. rewrite <- E. symmetry. apply Hi.
    + by eapply milestones_same.
    + by rewrite Es.
  - unfold history_ok. rewrite Ew, Eh, El, Est. done.
Qed.

(** The moves of a cancellation. *)
Lemma cancelled_unstarted_moves r r' :
  unstarted r = true → Run.status r' = Cancelled → moves (phase_of r) (phase_of r').
Proof.
  intros (E & _ & _)%unstarted_true E'. unfold phase_of. rewrite E, E'.
  apply rtc_once. constructor. auto.
Qed.

Lemma cancel_requested_moves r r' :
  run_ok r → active r = true → unstarted r = false → cancel_requested_of r r' →
  moves (phase_of r) (phase_of r').
Proof.
  intros Hok Ha Hu (Es & Ew & _ & El & _).
  destruct (started_when_active r Hok Ha Hu) as [t Est].
  pose proof (ok_lease _ Hok) as Hl. unfold lease_shape in Hl.
  unfold active in Ha. apply negb_true_iff, is_terminal_false in Ha.
  unfold phase_of. rewrite Es, Ew, El. destruct Ha as [E|[E|E]]; rewrite E in *.
  - destruct Hl as (-> & _ & -> & _). rewrite Est. apply rtc_once. constructor.
  - apply rtc_once. constructor.
  - apply rtc_refl.
Qed.

Lemma safe_request_cancel_locked db r now :
  wf db → DB.runs db !! Run.id r = Some r →
  wf (request_cancel_locked r now db).2 ∧ evolves db (request_cancel_locked r now db).2.
Proof.
  intros Hwf Hr. unfold request_cancel_locked.
  destruct (is_terminal (Run.status r)) eqn:Ht; [safe_done|].
  fold (unstarted r). destruct (unstarted r) eqn:Hu.
  - pose proof Hu as (Es & Ew & Est)%unstarted_true.
    pose proof (wf_run _ Hwf _ r Hr) as [_ Ole _ _ _].
    unfold lease_shape in Ole. rewrite Es in Ole.
    m_unfold. set (r' := r <| Run.status := _ |> <| Run.error_type := _ |> <| Run.error_message := _ |>
      <| Run.finished_at := _ |> <| Run.updated_at := _ |> <| Run.runtime_cleanup_pending := _ |>).
    assert (Hev : run_evolves r r').
    { pose proof (cancelled_unstarted_moves r r' Hu eq_refl). unfold r' in *. solve_evolves. done. }
    rewrite (put_run_with (Run.id r) r) by (done || apply Hev).
    destruct (project_input_delivery_status_core r' (with_run (Run.id r) r' db))
      as (db' & -> & Ec).
    eapply safe_finish_closed; eauto. destruct Ole as (? & ? & ? & ?).
    by repeat split.
  - assert (Ha : active r = true) by (unfold active; by rewrite Ht).
    m_unfold. set (r' := r <| Run.status := _ |> <| Run.updated_at := _ |>).
    assert (Hc : cancel_requested_of r r') by (by repeat split).
    pose proof (cancel_requested_moves r r' (wf_run _ Hwf _ r Hr) Ha Hu Hc).
    eapply safe_cancel_requested; eauto. unfold r' in *. solve_evolves. done.
Qed.

Lemma safe_cancel_child db r now :
  wf db → DB.runs db !! Run.id r = Some r → active r = true →
  wf (cancel_child now r db).2 ∧ evolves db (cancel_child now r db).2.
Proof.
  intros Hwf Hr Ha. unfold cancel_child. cbv zeta.
  set (c := r <| Run.error_type := _ |> <| Run.error_message := _ |>).
  fold (unstarted c). change (unstarted c) with (unstarted r).
  assert (Ht : is_terminal (Run.status r) = false) by (by apply negb_true_iff).
  destruct (unstarted r) eqn:Hu.
  - pose proof Hu as (Es & Ew & Est)%unstarted_true.
    m_unfold. set (r' := _ <| Run.updated_at := _ |>).
    assert (Hev : run_evolves r r').
    { pose proof (cancelled_unstarted_moves r r' Hu eq_refl). unfold r', c in *. solve_evolves. done. }
    pose proof (ok_cleanup _ (wf_run _ Hwf _ r Hr)).
    rewrite (put_run_with (Run.id r) r) by (done || apply Hev).
    destruct (project_input_delivery_status_core r' (with_run (Run.id r) r' db))
      as (db' & -> & Ec).
    eapply safe_finish_close; eauto. by repeat split.
  - m_unfold. set (r' := c <| Run.status := _ |> <| Run.updated_at := _ |>).
    assert (Hc : cancel_requested_of r r') by (by repeat split).
    pose proof (cancel_requested_moves r r' (wf_run _ Hwf _ r Hr) Ha Hu Hc).
    eapply safe_cancel_requested; eauto. unfold r', c in *. solve_evolves. done.
Qed.

(** The row [cancel_child] leaves. *)
Definition cancelled_child (now : datetime) (r : AgentRun) : AgentRun :=
  let r := r <| Run.error_type := Some "execution_tree_closed" |>
             <| Run.error_message := Some tree_closed_message |> in
  if unstarted r
  then r <| Run.status := Cancelled |> <| Run.finished_at := Some now |>
         <| Run.worker_id := None |> <| Run.heartbeat_at := None |>
         <| Run.lease_expires_at := None |> <| Run.updated_at := Some now |>
  else r <| Run.status := CancelRequested |> <| Run.updated_at := Some now |>.

Lemma cancel_child_spec now r db :
  ∃ db', cancel_child now r db = (Ret [(Run.id r, Run.conversation_thread_id r)], db')
    ∧ DB.runs db' = <[Run.id r := cancelled_child now r]> (DB.runs db)
    ∧ DB.run_scopes db' = DB.run_scopes db.
Proof.
  unfold cancel_child, cancelled_child, put_run. cbv zeta. fold (unstarted r).
  set (c := r <| Run.error_type := _ |> <| Run.error_message := _ |>).
  fold (unstarted c). destruct (unstarted c); m_unfold; [|eexists; repeat split; reflexivity].
  set (c' := c <| Run.status := _ |> <| Run.finished_at := _ |> <| Run.worker_id := _ |>
    <| Run.heartbeat_at := _ |> <| Run.lease_expires_at := _ |> <| Run.updated_at := _ |>).
  unfold project_input_delivery_status.
  destruct (Run.input_message_id c'), (RUN_STATUS_TO_DELIVERY_STATUS (Run.status c'));
    eexists; repeat split; reflexivity.
Qed.

Lemma cancelled_child_id now r : Run.id (cancelled_child now r) = Run.id r.
Proof. unfold cancelled_child. cbv zeta. by case_match. Qed.

Lemma safe_cancel_level now l : ∀ seen db,
  wf db →
  (∀ c, c ∈ l → Run.id c ∉ seen → DB.runs db !! Run.id c = Some c ∧ active c = true) →
  wf (cancel_level now l seen db).2 ∧ evolves db (cancel_level now l seen db).2.
Proof.
  induction l as [|c l IH]; intros seen db Hwf Hl; simpl; [safe_done|].
  case_bool_decide as Hc.
  { apply IH; [done|]. intros d Hd. apply Hl. by right. }
  destruct (Hl c) as [Hr Ha]; [by left|done|].
  destruct (safe_cancel_child db c now Hwf Hr Ha) as [Hwf1 Hev1].
  destruct (cancel_child_spec now c db) as (db1 & E & Er & _).
  unfold mbind, M_bind. rewrite E in *. simpl in Hwf1, Hev1.
  destruct (IH (Run.id c :: seen) db1 Hwf1) as [Hwf2 Hev2].
  { intros d Hd Hns. apply not_elem_of_cons in Hns as [Hne Hns].
    rewrite Er, lookup_insert_ne by done. apply Hl; [by right|done]. }
  destruct (cancel_level now l (Run.id c :: seen) db1) as [[a|e] db2]; simpl in *.
  - split; [done|]. by etrans.
  - split; [done|]. by etrans.
Qed.

Lemma elem_of_tree_level root sk ids ps db c :
  c ∈ sort_by run_asc (select (is_tree_child root sk ids ps) (DB.runs db)) ↔
  is_tree_child root sk ids ps c = true ∧ ∃ k, DB.runs db !! k = Some c.
Proof. by rewrite elem_of_sort_by, elem_of_select. Qed.

Lemma safe_cancel_levels fuel root sk ids now : ∀ ps seen,
  safe (cancel_levels fuel root sk ids now ps seen).
Proof.
  induction fuel as [|fuel IH]; intros ps seen; simpl; [apply safe_ret|].
  case_bool_decide; [apply safe_ret|]. intros db Hwf. apply safe_at_gets, safe_at_bind.
  - apply safe_cancel_level; [done|].
    intros c Hc _. apply elem_of_tree_level in Hc as [Hc [k Hk]].
    rewrite (wf_key _ Hwf k c Hk). split; [done|].
    unfold is_tree_child in Hc. by apply andb_true_iff in Hc as [_ ?].
  - intros a db1 _ Hwf1. apply (safe_bind _ _ (IH a.2.*1 a.1)); [|done].
    intros b. apply safe_ret.
Qed.

Lemma safe_cancel_descendants root now :
  safe (cancel_active_execution_tree_descendants root now).
Proof.
  unfold cancel_active_execution_tree_descendants. case_bool_decide; [apply safe_ret|].
  apply safe_bind; [apply safe_gets|]. intros sk.
  apply safe_bind; [apply safe_gets|]. intros ids.
  apply safe_bind; [apply safe_gets|]. intros fuel. apply safe_cancel_levels.
Qed.

Lemma safe_request_cancel_execution_tree k u b now :
  safe (request_cancel_execution_tree k u b now).
Proof.
  intros db Hwf. unfold request_cancel_execution_tree, lock_run_for_user, get_run_for_user.
  unfold get_run. m_unfold.
  destruct (DB.runs db !! k) as [r|] eqn:Hr; [|safe_done].
  case_bool_decide; [|safe_done].
  pose proof (wf_key _ Hwf k r Hr) as Hid. subst k.
  apply (safe_at_bind db (request_cancel_locked r now)).
  { by apply safe_request_cancel_locked. }
  intros r' db1 _ Hwf1. destruct b; [|by apply safe_ret].
  apply (safe_bind (cancel_active_execution_tree_descendants r' now)); [|intros; apply safe_ret|done].
  apply safe_cancel_descendants.
Qed.

(** * Terminal states are entered safely *)

Lemma lease_live_owned r now :
  run_ok r → lease_live (Run.lease_expires_at r) now = true → is_Some (Run.worker_id r).
Proof.
  intros [_ Hl _ _ _] Hlive. unfold lease_shape in Hl.
  destruct (Run.lease_expires_at r) eqn:E; [|done].
  destruct (Run.status r); intuition congruence.
Qed.

(** The row a worker leaves when its run ends. *)
Definition terminal_run (status : RunStatus) (et em : option string) (usage : option json)
    (now : datetime) (r : AgentRun) : AgentRun :=
  r <| Run.status := status |> <| Run.error_type := et |> <| Run.error_message := em |>
    <| Run.token_usage := json_or_empty (default (JObj []) usage) |>
    <| Run.finished_at := Some now |> <| Run.updated_at := Some now |>
    <| Run.worker_id := None |> <| Run.heartbeat_at := None |>
    <| Run.lease_expires_at := None |>
    <| Run.runtime_cleanup_pending := negb (bool_decide (Run.run_type r = Subagent)) |>.

Lemma terminal_run_moves s et em u now r :
  is_terminal s = true → active r = true →
  (Run.status r = Pending → s ∈ [Failed; Cancelled]) →
  (Run.status r = CancelRequested → s = Cancelled) →
  (Run.status r = Running → s ≠ Cancelled) →
  moves (phase_of r) (phase_of (terminal_run s et em u now r)).
Proof.
  intros Hs Ha Hp Hc Hr. apply rtc_once.
  rewrite (phase_done (terminal_run _ _ _ _ _ _)) by done.
  change (Run.status (terminal_run s et em u now r)) with s. unfold phase_of.
  apply negb_true_iff, is_terminal_false in Ha as [E|[E|E]]; rewrite E.
  - specialize (Hp E). rewrite !elem_of_cons, elem_of_nil in Hp. constructor. tauto.
  - specialize (Hr E). apply is_terminal_true in Hs. constructor. tauto.
  - rewrite (Hc E). constructor.
Qed.

Lemma terminal_run_evolves s et em u now r :
  active r = true → moves (phase_of r) (phase_of (terminal_run s et em u now r)) →
  run_evolves r (terminal_run s et em u now r).
Proof.
  intros Ha Hs. assert (Ht : is_terminal (Run.status r) = false) by (by apply negb_true_iff).
  unfold terminal_run in *. solve_evolves. done.
Qed.

Lemma terminal_run_finished s et em u now r :
  is_terminal s = true → (s = Completed → is_Some (Run.output_message_id r)) →
  finished_shape r (terminal_run s et em u now r).
Proof.
  intros Hs Ho. repeat split; [done|by eexists| |done]. intros E. unfold terminal_run. row_simpl.
  by rewrite bool_decide_eq_true_2.
Qed.

(** The guards of [set_terminal_status] let the owner, or nobody's run, through. *)
Lemma terminal_guard r wo now :
  run_ok r → active r = true →
  bool_decide (Run.status r ∈ LEASED_RUN_STATUSES)
    && (negb (bool_decide (Run.worker_id r = wo))
        || negb (lease_live (Run.lease_expires_at r) now)) = false →
  Run.worker_id r = None ∨ ∃ w, Run.worker_id r = Some w ∧ wo = Some w.
Proof.
  intros Hok Ha Hg. apply andb_false_iff in Hg as [Hs|Hg].
  - left. apply bool_decide_eq_false in Hs.
    apply negb_true_iff, is_terminal_false in Ha as [E|[E|E]].
    + pose proof (ok_lease _ Hok) as Hl. unfold lease_shape in Hl. rewrite E in Hl. apply Hl.
    + exfalso. apply Hs. rewrite E. by left.
    + exfalso. apply Hs. rewrite E. right. by left.
  - apply orb_false_iff in Hg as [Hw Hl]. apply negb_false_iff in Hw, Hl.
    apply bool_decide_eq_true in Hw. destruct (lease_live_owned _ _ Hok Hl) as [w Ew].
    right. exists w. split; congruence.
Qed.

Lemma finish_attempt_tail db db1 k r r' wo o now et em :
  wf db → DB.runs db !! k = Some r → run_evolves r r' → finished_shape r r' →
  (Run.worker_id r = None ∨ ∃ w, Run.worker_id r = Some w ∧ wo = Some w) →
  core db1 = core (with_run k r' db) →
  ∃ db', finish_open_attempt k wo o now et em db1 = (Ret tt, db') ∧ wf db' ∧ evolves db db'.
Proof.
  intros Hwf Hr Hev Hsh [Ew|(w & Ew & ->)] Ec; [|by eapply safe_finish_owned].
  exists db1. split; [|by eapply safe_finish_closed].
  apply finish_open_attempt_closed.
  rewrite (core_attempts_of k _ _ Ec). by eapply history_unowned; [apply (wf_history _ Hwf)|].
Qed.

Lemma terminal_unowned db k r :
  wf db → DB.runs db !! k = Some r → is_terminal (Run.status r) = true →
  Run.worker_id r = None ∧ Run.heartbeat_at r = None ∧ Run.lease_expires_at r = None.
Proof.
  intros Hwf Hr Ht. pose proof (ok_lease _ (wf_run _ Hwf k r Hr)) as Hl. unfold lease_shape in Hl.
  apply is_terminal_true in Ht as [E|[E|[E|E]]]; rewrite E in Hl; repeat split; apply Hl.
Qed.

(** The assistant message a completed run must have produced. *)
Definition matching_output (db : Database) (r : AgentRun) : Prop :=
  ∃ i m, Run.output_message_id r = Some i ∧ DB.messages db !! i = Some m
    ∧ Some (Msg.conversation_id m) = Run.conversation_id r
    ∧ Msg.run_id m = Some (Run.id r) ∧ Msg.request_id m = Some (Run.request_id r)
    ∧ Msg.role m = "assistant".

Lemma output_missing_spec s r db :
  ∃ b, output_missing s r db = (Ret b, db)
    ∧ (b = false ↔ (s = Completed → matching_output db r)).
Proof.
  unfold output_missing, get_matching_output_message, matching_output. m_unfold.
  case_bool_decide as Hs; [|exists false; split; [done|]; tauto].
  destruct (Run.output_message_id r) as [i|] eqn:Ei.
  2: { exists true. split; [done|]. split; [done|]. intros H. by destruct (H Hs) as (? & ? & ? & _). }
  destruct (DB.messages db !! i) as [m|] eqn:Em.
  2: { exists true. split; [done|]. split; [done|]. intros H.
       destruct (H Hs) as (? & ? & [= <-] & ? & _). congruence. }
  destruct (_ && _) eqn:Hg.
  - exists false. split; [done|]. split; [|done]. intros _ _. bool_hyps.
    exists i, m. destruct Hg as [[[? ?] ?] ?]. done.
  - exists true. split; [done|]. split; [done|]. intros H.
    destruct (H Hs) as (i' & m' & [= <-] & Em' & E1 & E2 & E3 & E4). simplify_eq.
    rewrite !bool_decide_eq_true_2 in Hg by done. done.
Qed.

Lemma safe_set_terminal_status k s et em u wo now :
  safe (set_terminal_status k s et em u wo now).
Proof.
  intros db Hwf. unfold set_terminal_status.
  destruct (is_terminal s) eqn:Hs; [|safe_done]. cbn [negb].
  unfold lock_run, get_run. m_unfold.
  destruct (DB.runs db !! k) as [r|] eqn:Hr; [|safe_done].
  destruct (is_terminal (Run.status r)) eqn:Ht.
  { destruct (terminal_unowned db k r Hwf Hr Ht) as (-> & -> & ->). safe_done. }
  assert (Ha : active r = true) by (unfold active; by rewrite Ht).
  destruct (bool_decide (Run.status r = Pending) && _) eqn:Hpe; [safe_done|].
  destruct (bool_decide (Run.status r ∈ _) && _) eqn:Hg; [safe_done|].
  apply (terminal_guard r wo now (wf_run _ Hwf k r Hr) Ha) in Hg.
  destruct (bool_decide (Run.status r = CancelRequested) && _) eqn:Hcr; [safe_done|].
  destruct (bool_decide (Run.status r = Running) && _) eqn:Hru; [safe_done|].
  destruct (output_missing_spec s r db) as (b & -> & Hb). destruct b; [safe_done|].
  assert (Hout : s = Completed → is_Some (Run.output_message_id r)).
  { intros E. destruct (proj1 Hb eq_refl E) as (i & _ & Ei & _). eauto. }
  assert (Hmv : moves (phase_of r) (phase_of (terminal_run s et em u now r))).
  { apply terminal_run_moves; [done|done|..]; intros E; rewrite E in *; simpl in *; bool_hyps.
    - apply Hpe.
    - done.
    - done. }
  fold (terminal_run s et em u now r).
  pose proof (terminal_run_evolves s et em u now r Ha Hmv) as Hev.
  pose proof (terminal_run_finished s et em u now r Hs Hout) as Hsh.
  set (r' := terminal_run s et em u now r) in *.
  rewrite (put_run_with k r) by (done || apply Hev).
  destruct (project_input_delivery_status_core r' (with_run k r' db)) as (db1 & -> & Ec1).
  destruct (close_running_audits_core (Run.id r') (audit_status_of s) now
    (bool_decide (s = Interrupted)) db1) as (db2 & -> & Ec2).
  change (Run.id r') with (Run.id r). rewrite (wf_key _ Hwf k r Hr).
  destruct (finish_attempt_tail db db2 k r r' wo (OutcomeStatus s) now et em)
    as (db' & -> & H'); try done. by rewrite Ec2.
Qed.

(** * Reconciliation is safe *)

Lemma fail_run_evolves et em b now r :
  active r = true → run_evolves r (fail_run et em b now r).
Proof.
  intros Ha. assert (Ht : is_terminal (Run.status r) = false) by (by apply negb_true_iff).
  unfold fail_run. solve_evolves. apply rtc_once. unfold phase_of. row_simpl.
  apply is_terminal_false in Ht as [E|[E|E]]; rewrite E; constructor; auto.
Qed.

Lemma fail_run_finished et em b now r :
  (Run.run_type r = Subagent → b = false) → finished_shape r (fail_run et em b now r).
Proof. intros Hb. repeat split; [by eexists|exact Hb|done]. Qed.

(** Failing a run without its owner, as both reconcilers do. *)
Lemma safe_fail_run db k r et em b s o now aet aem :
  wf db → DB.runs db !! k = Some r → active r = true →
  (Run.run_type r = Subagent → b = false) →
  let r' := fail_run et em b now r in
  ∃ db1 db2,
    put_run r' db = (Ret tt, with_run k r' db)
    ∧ project_input_delivery_status r' (with_run k r' db) = (Ret tt, db1)
    ∧ close_running_audits k s now false db1 = (Ret tt, db2)
    ∧ DB.runs db2 = <[k := r']> (DB.runs db)
    ∧ wf (close_open_attempts k o now aet aem db2).2
    ∧ evolves db (close_open_attempts k o now aet aem db2).2.
Proof.
  intros Hwf Hr Ha Hb r'. pose proof (fail_run_evolves et em b now r Ha) as Hev.
  destruct (project_input_delivery_status_core r' (with_run k r' db)) as (db1 & E1 & Ec1).
  destruct (close_running_audits_core k s now false db1) as (db2 & E2 & Ec2).
  exists db1, db2. split; [by apply (put_run_with k r); [..|apply Hev]|].
  split; [done|]. split; [done|].
  split; [by rewrite (core_runs _ _ Ec2), (core_runs _ _ Ec1)|].
  eapply safe_finish_close; eauto; [by apply fail_run_finished|by rewrite Ec2].
Qed.

Lemma safe_reconcile_one now k : safe (reconcile_one now k).
Proof.
  intros db Hwf. unfold reconcile_one, lock_run, get_run. m_unfold.
  destruct (DB.runs db !! k) as [r|] eqn:Hr; [|safe_done].
  destruct (is_terminal (Run.status r)) eqn:Ht; [safe_done|].
  assert (Ha : active r = true) by (unfold active; by rewrite Ht).
  set (b := negb (bool_decide (Run.run_type r = Subagent))).
  set (r' := fail_run _ _ b now r).
  destruct (safe_fail_run db k r "worker_lease_expired"
    "执行 worker 的 lease 已过期；本次运行结果未知，需按 at-least-once 语义检查副作用。" b ExecAbandoned LeaseExpired now
    (Some "worker_lease_expired") (Some "执行 worker 的 lease 已过期；本次运行结果未知。"))
    as (db1 & db2 & E0 & E1 & E2 & Er & Hwf3 & Hev3); try done.
  { intros E. unfold b. by rewrite bool_decide_eq_true_2. }
  fold r' in E0, E1. rewrite E0, E1. change (Run.id r') with (Run.id r).
  rewrite (wf_key _ Hwf k r Hr), E2.
  destruct (close_open_attempts k LeaseExpired now _ _ db2) as [[[]|e] db3]; [|done].
  simpl in *. destruct (safe_cancel_descendants r' now db3 Hwf3) as [Hwf4 Hev4].
  destruct (cancel_active_execution_tree_descendants r' now db3) as [[d|e] db4];
    simpl in *; (split; [done|by etrans]).
Qed.

Lemma safe_reconcile_expired_leases locked now : safe (reconcile_expired_leases locked now).
Proof.
  unfold reconcile_expired_leases. apply safe_bind; [apply safe_gets|]. intros found.
  apply safe_bind; [|intros; apply safe_ret]. apply safe_for_each. intros k.
  apply safe_reconcile_one.
Qed.

(** The storage migration visits each active run once. *)
Lemma fail_one_spec now k r db :
  wf db → DB.runs db !! k = Some r → active r = true →
  ∃ db', fail_one_for_storage_migration now k db = (Ret [k], db')
    ∧ DB.runs db' = <[k := fail_run "storage_migration"
        "存储升级已停止旧运行环境；本次运行未完成" false now r]> (DB.runs db)
    ∧ wf db' ∧ evolves db db'.
Proof.
  intros Hwf Hr Ha.
  destruct (safe_fail_run db k r "storage_migration" "存储升级已停止旧运行环境；本次运行未完成" false
    ExecAbandoned (OutcomeStatus Failed) now (Some "storage_migration")
    (Some "存储升级已停止旧运行环境；本次运行未完成")) as (db1 & db2 & E0 & E1 & E2 & Er & Hwf3 & Hev3);
    try done.
  set (r' := fail_run _ _ false now r) in *.
  exists (close_open_attempts k (OutcomeStatus Failed) now (Some "storage_migration")
    (Some "存储升级已停止旧运行环境；本次运行未完成") db2).2.
  split; [|split; [|done]].
  - unfold fail_one_for_storage_migration, lock_run, get_run. m_unfold. rewrite Hr.
    fold r'. rewrite E0, E1. change (Run.id r') with (Run.id r).
    rewrite (wf_key _ Hwf k r Hr), E2. done.
  - exact Er.
Qed.

Lemma safe_fail_each now l : ∀ db,
  wf db → NoDup l → (∀ k, k ∈ l → ∃ r, DB.runs db !! k = Some r ∧ active r = true) →
  safe_at db (for_each (fail_one_for_storage_migration now) l).
Proof.
  induction l as [|k l IH]; intros db Hwf Hnd Hl; simpl; [by apply safe_ret|].
  apply NoDup_cons in Hnd as [Hk Hnd]. destruct (Hl k) as (r & Hr & Ha); [by left|].
  destruct (fail_one_spec now k r db Hwf Hr Ha) as (db' & E & Er & Hwf' & Hev').
  apply safe_at_bind; [unfold safe_at; by rewrite E|].
  intros out db1 E1 _. rewrite E in E1. injection E1 as <- <-.
  apply safe_at_bind; [|intros; by apply safe_ret].
  apply IH; [done|done|]. intros j Hj. rewrite Er.
  rewrite lookup_insert_ne by (by intros ->). apply Hl. by right.
Qed.

Lemma NoDup_selected_ids p db :
  wf db → NoDup (map Run.id (sort_by run_asc (select p (DB.runs db)))).
Proof.
  intros Hwf. change (map Run.id ?l) with (Run.id <$> l). rewrite sort_by_perm.
  unfold select, rows.
  assert (Hk : ∀ k r, (k, r) ∈ map_to_list (DB.runs db) → Run.id r = k).
  { intros k r Hin. apply (wf_key _ Hwf). by apply elem_of_map_to_list. }
  pose proof (NoDup_fst_map_to_list (DB.runs db)) as Hnd.
  induction (map_to_list (DB.runs db)) as [|[k r] l IH]; [constructor|].
  rewrite fmap_cons, NoDup_cons in Hnd. destruct Hnd as [Hn Hnd]. simpl.
  assert (IH' := IH (λ k r Hin, Hk k r (list_elem_of_further _ _ _ Hin)) Hnd).
  case_match; [|done]. rewrite fmap_cons, NoDup_cons. split; [|done].
  rewrite list_elem_of_fmap. intros (q & Eq & Hq). apply list_elem_of_In, filter_In in Hq as [Hq _].
  apply list_elem_of_In, list_elem_of_fmap in Hq as ([j q'] & -> & Hin). simpl in *.
  apply Hn. apply list_elem_of_fmap. exists (j, q'). split; [|done]. simpl.
  rewrite <- (Hk j q') by (by right). rewrite <- (Hk k r) by (by left). done.
Qed.

Lemma safe_fail_nonterminal now : safe (fail_nonterminal_for_storage_migration now).
Proof.
  intros db Hwf. unfold fail_nonterminal_for_storage_migration. apply safe_at_gets.
  apply safe_fail_each; [done|by apply NoDup_selected_ids|].
  intros k Hk. apply list_elem_of_fmap in Hk as (r & -> & Hr).
  apply elem_of_sort_by, elem_of_select in Hr as [Ha [j Hj]].
  exists r. by rewrite (wf_key _ Hwf j r Hj).
Qed.

(** * Creating a run is safe *)

Lemma insert_run_inv r db :
  (∃ c, insert_run r db = (Raise (IntegrityError c), db))
  ∨ (insert_run r db = (Ret tt, with_run (Run.id r) r db)
     ∧ nonterminal_shape r = true ∧ DB.runs db !! Run.id r = None
     ∧ (∀ k o, DB.runs db !! k = Some o → Run.request_id o ≠ Run.request_id r)
     ∧ (active r = true → ∀ k o, DB.runs db !! k = Some o → active o = true →
          thread_key o ≠ thread_key r)).
Proof.
  unfold insert_run. m_unfold. destruct (nonterminal_shape r) eqn:Hs; [|left; eauto]. cbn [negb].
  case_bool_decide as Hk; [left; eauto|].
  destruct (any _ (DB.runs db)) eqn:Hq; [left; eauto|].
  destruct (active r && _) eqn:Hu; [left; eauto|]. right. split; [done|]. split; [done|].
  split; [by apply eq_None_not_Some|]. rewrite any_false in Hq. split.
  - intros k o Ho. specialize (Hq k o Ho). by apply bool_decide_eq_false in Hq.
  - intros Ha k o Ho Hoa E. rewrite Ha in Hu. cbn [andb] in Hu. rewrite any_false in Hu.
    specialize (Hu k o Ho). rewrite Hoa in Hu. cbn [andb] in Hu.
    by apply bool_decide_eq_false in Hu.
Qed.

Lemma safe_insert_new r db :
  wf db → Run.status r = Pending → run_ok r → Run.worker_id r = None →
  safe_at db (insert_run r).
Proof.
  intros Hwf Hst Hok Hw.
  destruct (insert_run_inv r db) as [[c E]|(E & Hs & Hn & Hq & Hu)];
    unfold safe_at; rewrite E; [safe_done|]. simpl.
  assert (Ha : active r = true) by (unfold active; by rewrite Hst).
  assert (Hnoatt : attempts_of (Run.id r) db = []).
  { destruct (attempts_of (Run.id r) db) as [|a l] eqn:Ea; [done|].
    assert (Hin : a ∈ attempts_of (Run.id r) db) by (rewrite Ea; by left).
    apply elem_of_filter_attempt in Hin as [Hr Hin].
    apply (wf_attempt_run _ Hwf) in Hin as [q Hq']. congruence. }
  destruct Hwf as [K R H O I X Q U]. split; [split|split]; try done.
  all: try (intros k1 k2 q1 q2 H1 H2; simpl in H1, H2; revert H1 H2; unfold with_run; row_simpl;
    rewrite !lookup_insert_Some; intros [[<- <-]|[? H1]] [[<- <-]|[? H2]]; try done; eauto).
  - intros k q Hk. unfold with_run in Hk. revert Hk. row_simpl.
    rewrite lookup_insert_Some. intros [[<- <-]|[? ?]]; auto.
  - intros k q Hk. unfold with_run in Hk. revert Hk. row_simpl.
    rewrite lookup_insert_Some. intros [[<- <-]|[? ?]]; eauto.
  - intros k q Hk. rewrite with_run_attempts. unfold with_run in Hk. revert Hk. row_simpl.
    rewrite lookup_insert_Some. intros [[<- <-]|[? ?]]; [|eauto].
    rewrite Hnoatt. split; [done|]. by rewrite Hw.
  - intros a Hin. unfold with_run. row_simpl. rewrite lookup_insert_is_Some'. right. by apply O.
  - intros E1. exfalso. by eapply Hq.
  - intros E1. exfalso. by eapply Hq.
  - intros _ ? E1. exfalso. by eapply Hu.
  - intros ? _ E1. exfalso. by eapply Hu.
  - intros k q Hk. exists q. split; [|reflexivity]. unfold with_run. row_simpl.
    rewrite lookup_insert_ne; [done|]. congruence.
Qed.

Lemma safe_create_run i t rs ag u q pl so ch ex om ci cb rel rt im now :
  safe (create_run i t rs ag u q pl so ch ex om ci cb rel rt im now).
Proof.
  intros db Hwf. unfold create_run. cbv zeta.
  match goal with |- context [insert_run ?x] => set (r := x) end.
  apply (safe_at_bind db (insert_run r)); [|intros; by apply safe_ret].
  destruct (nonterminal_shape r) eqn:Hs.
  - by apply safe_insert_new.
  - unfold safe_at, insert_run. m_unfold. rewrite Hs. safe_done.
Qed.

(** The end of [_release_runtime_if_idle]: the fence of a run is lifted. *)
Definition clear_cleanup (k : string) : M Database unit :=
  run ← lock_run k;
  match run with
  | None => mret tt
  | Some r => put_run (r <| Run.runtime_cleanup_pending := false |>)
  end.

Lemma safe_clear_cleanup k : safe (clear_cleanup k).
Proof.
  intros db Hwf. unfold clear_cleanup. safe_load k r Hr.
  pose proof (wf_run _ Hwf k r Hr) as [Osh Ole Ocl Omi Oou].
  eapply safe_put_run; eauto; [solve_evolves|].
  split; try done. unfold lease_shape in *. row_simpl.
  destruct (Run.status r); intuition auto.
Qed.
