(* ===== verification/RunLease.v ===== *)
(** The run state machine: the steps the services take on the run tables, the
    databases they can reach, and what the lease protocol guarantees there. *)

From stdpp Require Import prelude gmap strings list fin_maps relations.
From Stdlib Require Import ZArith Lia.
From S2P Require Import Prelude Schema RunSpec RunRepo RunInv RunSafe.

(** * Steps and reachable databases *)

(** One repository call by any process; [step_other] is any change of the tables
    the run repository does not own. *)
Inductive step (db : Database) : Database → Prop :=
  | step_create i t rs ag u q pl so ch ex om ci cb rel rt im now :
      step db (create_run i t rs ag u q pl so ch ex om ci cb rel rt im now db).2
  | step_mark_running k w n now : step db (mark_running k w n now db).2
  | step_renew_lease k w n now : step db (renew_lease k w n now db).2
  | step_release_lease k w now : step db (release_lease_for_retry k w now db).2
  | step_langfuse k t w now : step db (set_langfuse_trace_id k t w now db).2
  | step_output k m w now : step db (set_output_message k m w now db).2
  | step_manifest k m f w now : step db (record_run_manifest k m f w now db).2
  | step_prepared k w o now : step db (record_prepared k w o now db).2
  | step_first_request k w o now : step db (record_first_model_request k w o now db).2
  | step_first_output k w o now : step db (record_first_output k w o now db).2
  | step_terminal k s et em u w now : step db (set_terminal_status k s et em u w now db).2
  | step_cancel_tree k u b now : step db (request_cancel_execution_tree k u b now db).2
  | step_cancel_descendants r now :
      step db (cancel_active_execution_tree_descendants r now db).2
  | step_reconcile locked now : step db (reconcile_expired_leases locked now db).2
  | step_migration now : step db (fail_nonterminal_for_storage_migration now db).2
  | step_cleanup k : step db (clear_cleanup k db).2
  | step_other db' : core db' = core db → step db db'.

Definition empty_database : Database :=
  DB.mk ∅ [] ∅ ∅ ∅ ∅ ∅ ∅ ∅ 1 1 1.

Definition reachable (db : Database) : Prop := rtc step empty_database db.

Lemma wf_empty : wf empty_database.
Proof. split; simpl; try set_solver. constructor. Qed.

Lemma step_safe db db' : step db db' → wf db → wf db' ∧ evolves db db'.
Proof.
  destruct 1; intros Hwf.
  - by apply safe_create_run.
  - by apply safe_mark_running.
  - by apply safe_renew_lease.
  - by apply safe_release_lease_for_retry.
  - by apply safe_set_langfuse_trace_id.
  - by apply safe_set_output_message.
  - by apply safe_record_run_manifest.
  - by apply safe_record_prepared.
  - by apply safe_record_first_model_request.
  - by apply safe_record_first_output.
  - by apply safe_set_terminal_status.
  - by apply safe_request_cancel_execution_tree.
  - by apply safe_cancel_descendants.
  - by apply safe_reconcile_expired_leases.
  - by apply safe_fail_nonterminal.
  - by apply safe_clear_cleanup.
  - eauto using wf_core, evolves_core.
Qed.

Lemma steps_safe db db' : rtc step db db' → wf db → wf db' ∧ evolves db db'.
Proof.
  induction 1 as [db|db1 db2 db3 H1 _ IH]; intros Hwf; [done|].
  destruct (step_safe _ _ H1 Hwf) as [Hwf2 Hev2]. destruct (IH Hwf2) as [Hwf3 Hev3].
  split; [done|]. by etrans.
Qed.

Lemma reachable_is_wf db : reachable db → wf db.
Proof. intros H. apply (steps_safe _ _ H), wf_empty. Qed.

(** * A run that was created and claimed *)

Definition demo_created : Database :=
  (create_run "r1" "t1" None "main" "u1" "q1" (JObj []) "chat" "web" None (JObj []) (Some 7%Z)
     None None Chat (Some 11%Z) 1000 empty_database).2.

Definition demo_claimed : Database := (mark_running "r1" "w1" 120 2000 demo_created).2.

Definition demo_failed : Database :=
  (set_terminal_status "r1" Failed (Some "boom") None None (Some "w1") 3000 demo_claimed).2.

Lemma demo_created_reachable : reachable demo_created.
Proof. apply rtc_once, step_create. Qed.

Lemma demo_claimed_reachable : reachable demo_claimed.
Proof. eapply rtc_r; [exact demo_created_reachable|apply step_mark_running]. Qed.

Lemma demo_failed_reachable : reachable demo_failed.
Proof. eapply rtc_r; [exact demo_claimed_reachable|apply step_terminal]. Qed.

(** * The invariant and the life of a run *)

(** C1: in every database the services can reach, the row of each run satisfies
    the check constraint, its lease columns and timestamps fit its status, its
    attempts are numbered 1, 2, .. with an open one exactly while a worker owns
    the run, its milestones are ordered, request ids are unique and a thread has
    at most one active run. *)
Theorem reachable_invariant db : reachable db → wf db.
Proof. apply reachable_is_wf. Qed.

Lemma reachable_invariant_witness : reachable demo_claimed ∧ wf demo_claimed.
Proof.
  split; [exact demo_claimed_reachable|].
  apply (reachable_invariant demo_claimed). exact demo_claimed_reachable.
Defined.

(** C2: every step of the services moves each run along the abstract life cycle
    of [RunSpec] and keeps its identity. *)
Theorem step_refines_lifecycle db db' k r :
  reachable db → step db db' → DB.runs db !! k = Some r →
  ∃ r', DB.runs db' !! k = Some r' ∧ same_identity r r' ∧ moves (phase_of r) (phase_of r').
Proof.
  intros Hreach Hs Hr. destruct (step_safe _ _ Hs (reachable_is_wf _ Hreach)) as [_ [He _]].
  destruct (He k r Hr) as (r' & Hr' & Hev). exists r'. destruct Hev; auto.
Qed.

Lemma step_refines_lifecycle_witness :
  ∃ r r', DB.runs demo_created !! "r1" = Some r ∧ DB.runs demo_claimed !! "r1" = Some r'
    ∧ phase_of r = Waiting true ∧ phase_of r' = Held (Some "w1") (Some 120002000%Z)
    ∧ ∃ r'', DB.runs demo_claimed !! "r1" = Some r''
        ∧ same_identity r r'' ∧ moves (phase_of r) (phase_of r'').
Proof.
  eexists _, _. split; [vm_compute; reflexivity|]. split; [vm_compute; reflexivity|].
  split; [reflexivity|]. split; [reflexivity|].
  eapply (step_refines_lifecycle demo_created demo_claimed "r1");
    [exact demo_created_reachable|apply step_mark_running|vm_compute; reflexivity].
Defined.

(** C3: once a run is terminal its status, finish time, error, token usage and
    output stay what they are, whatever happens later. *)
Theorem terminal_runs_are_final db db' k r :
  reachable db → rtc step db db' → DB.runs db !! k = Some r →
  is_terminal (Run.status r) = true →
  ∃ r', DB.runs db' !! k = Some r' ∧ terminal_facts r' = terminal_facts r.
Proof.
  intros Hreach Hs Hr Ht. destruct (steps_safe _ _ Hs (reachable_is_wf _ Hreach)) as [_ [He _]].
  destruct (He k r Hr) as (r' & Hr' & Hev). exists r'. split; [done|]. by apply Hev.
Qed.

Lemma terminal_runs_are_final_witness :
  ∃ r, DB.runs demo_failed !! "r1" = Some r ∧ is_terminal (Run.status r) = true
    ∧ ∃ r', DB.runs (mark_running "r1" "w2" 120 9000 demo_failed).2 !! "r1" = Some r'
        ∧ terminal_facts r' = terminal_facts r.
Proof.
  eexists. split; [vm_compute; reflexivity|]. split; [reflexivity|].
  eapply (terminal_runs_are_final demo_failed); [exact demo_failed_reachable| | |reflexivity].
  - apply rtc_once, step_mark_running.
  - vm_compute. reflexivity.
Defined.

(** C4: a cancel request is never forgotten: from then on the run is waiting to
    stop, cancelled, or failed because its owner was lost. *)
Theorem cancel_request_is_kept db db' k r :
  reachable db → rtc step db db' → DB.runs db !! k = Some r →
  Run.status r = CancelRequested →
  ∃ r', DB.runs db' !! k = Some r'
    ∧ (Run.status r' = CancelRequested ∨ Run.status r' = Cancelled ∨ Run.status r' = Failed).
Proof.
  intros Hreach Hs Hr Hst. destruct (steps_safe _ _ Hs (reachable_is_wf _ Hreach)) as [_ [He _]].
  destruct (He k r Hr) as (r' & Hr' & Hev). exists r'. split; [done|].
  pose proof (stopping_stops _ _ (ev_phase _ _ Hev)) as Hstop.
  unfold phase_of in Hstop. rewrite Hst in Hstop. specialize (Hstop I).
  destruct (Run.status r'); simpl in Hstop; intuition congruence.
Qed.

Definition demo_stopping : Database :=
  (request_cancel_execution_tree "r1" "u1" false 2500 demo_claimed).2.

Lemma cancel_request_is_kept_witness :
  ∃ r, DB.runs demo_stopping !! "r1" = Some r ∧ Run.status r = CancelRequested
    ∧ ∃ r', DB.runs (set_terminal_status "r1" Completed None None None (Some "w1") 2600
                       demo_stopping).2 !! "r1" = Some r'
        ∧ (Run.status r' = CancelRequested ∨ Run.status r' = Cancelled ∨ Run.status r' = Failed).
Proof.
  eexists. split; [vm_compute; reflexivity|]. split; [reflexivity|].
  eapply (cancel_request_is_kept demo_stopping); 
    [|apply rtc_once, step_terminal|vm_compute; reflexivity|reflexivity].
  eapply rtc_r; [exact demo_claimed_reachable|apply step_cancel_tree].
Defined.

(** What was recorded once stays: the start, the milestones, the manifest, and
    every finished attempt with its outcome. *)
Theorem facts_are_write_once db db' :
  reachable db → rtc step db db' →
  (∀ k r, DB.runs db !! k = Some r → ∃ r', DB.runs db' !! k = Some r'
     ∧ write_once (Run.started_at r) (Run.started_at r')
     ∧ write_once (Run.prepared_at r) (Run.prepared_at r')
     ∧ write_once (Run.first_model_request_at r) (Run.first_model_request_at r')
     ∧ write_once (Run.first_output_at r) (Run.first_output_at r')
     ∧ (is_Some (Run.manifest_fingerprint r) →
        Run.manifest r' = Run.manifest r
        ∧ Run.manifest_fingerprint r' = Run.manifest_fingerprint r))
  ∧ (∀ a, a ∈ DB.attempts db → closed a → a ∈ DB.attempts db').
Proof.
  intros Hreach Hs. destruct (steps_safe _ _ Hs (reachable_is_wf _ Hreach)) as [_ [He Ha]].
  split; [|exact Ha]. intros k r Hr. destruct (He k r Hr) as (r' & Hr' & [_ _ _ ? ? ? ? Hm]).
  exists r'. do 5 (split; [done|]). intros Hf.
  specialize (Hm Hf). split; congruence.
Qed.

Lemma facts_are_write_once_witness :
  reachable demo_claimed ∧ (∀ a, a ∈ DB.attempts demo_claimed → closed a → a ∈ DB.attempts demo_failed).
Proof.
  split; [exact demo_claimed_reachable|].
  apply (facts_are_write_once demo_claimed demo_failed); [exact demo_claimed_reachable|].
  apply rtc_once, step_terminal.
Defined.

(** A thread has at most one run that is not terminal. *)
Theorem one_active_run_per_thread db k1 k2 r1 r2 :
  reachable db → DB.runs db !! k1 = Some r1 → DB.runs db !! k2 = Some r2 →
  active r1 = true → active r2 = true → thread_key r1 = thread_key r2 → r1 = r2.
Proof.
  intros Hreach H1 H2 A1 A2 E.
  pose proof (wf_active _ (reachable_is_wf _ Hreach) k1 k2 r1 r2 H1 H2 A1 A2 E) as ->. congruence.
Qed.

Lemma one_active_run_per_thread_witness :
  ∃ r, DB.runs demo_claimed !! "r1" = Some r ∧ active r = true ∧ r = r.
Proof.
  eexists. split; [vm_compute; reflexivity|]. split; [reflexivity|].
  eapply (one_active_run_per_thread demo_claimed "r1" "r1");
    [exact demo_claimed_reachable|vm_compute; reflexivity|vm_compute; reflexivity|
     reflexivity|reflexivity|reflexivity].
Defined.

(** * Exclusive ownership *)

Definition held_by (r : AgentRun) (w : string) (now : datetime) : Prop :=
  Run.status r ∈ LEASED_RUN_STATUSES ∧ Run.worker_id r = Some w
  ∧ lease_live (Run.lease_expires_at r) now = true.

Lemma held_not_terminal r w now : held_by r w now → is_terminal (Run.status r) = false.
Proof. intros (Hs & _). by apply leased_status in Hs as [-> | ->]. Qed.

Lemma held_other_owner r w v now :
  held_by r w now → v ≠ w →
  owns_lease r v now = false ∧ bool_decide (Run.worker_id r = Some v) = false.
Proof.
  intros (_ & Hw & _) Hne. unfold owns_lease. rewrite Hw.
  assert (bool_decide (Some w = Some v) = false) as -> by (apply bool_decide_eq_false; congruence).
  by rewrite andb_false_r.
Qed.

(** C5: while a worker holds a live lease, no other worker can claim, renew,
    release or finish the run or write its output; every such call leaves the
    database as it was. *)
Theorem live_lease_is_exclusive db k r w v n m s et em u now :
  DB.runs db !! k = Some r → held_by r w now → v ≠ w → blank v = false → (0 < n)%Z →
  is_terminal s = true →
  mark_running k v n now db = (Ret (Some r, false), db)
  ∧ renew_lease k v n now db = (Ret false, db)
  ∧ release_lease_for_retry k v now db = (Ret false, db)
  ∧ set_terminal_status k s et em u (Some v) now db = (Ret (Some r, false), db)
  ∧ (∃ e, set_output_message k m v now db = (Raise e, db)).
Proof.
  intros Hr Hh Hne Hb Hn Hs. destruct (held_other_owner r w v now Hh Hne) as [Ho Hv].
  pose proof (held_not_terminal _ _ _ Hh) as Ht. destruct Hh as (Hst & Hw & Hl).
  assert (Hn' : (n <=? 0)%Z = false) by (apply Z.leb_gt; lia).
  assert (Hp : bool_decide (Run.status r = Pending) = false).
  { apply bool_decide_eq_false. by apply leased_status in Hst as [-> | ->]. }
  assert (Hu : bool_decide (Run.worker_id r = None) = false).
  { apply bool_decide_eq_false. congruence. }
  assert (Hls : bool_decide (Run.status r ∈ LEASED_RUN_STATUSES) = true).
  { by apply bool_decide_eq_true. }
  repeat split.
  - unfold mark_running, lock_run, get_run. m_unfold. rewrite Hb, Hn', Hr, Ht, Hp, Hu, Hls, Hv.
    rewrite andb_false_r. simpl. by destruct (Run.runtime_cleanup_pending r).
  - unfold renew_lease, lock_run, get_run. m_unfold. rewrite Hb, Hn', Hr, Hls, Hv. done.
  - unfold release_lease_for_retry, lock_run, get_run. m_unfold. by rewrite Hr, Ho.
  - unfold set_terminal_status, lock_run, get_run. m_unfold. rewrite Hs. cbn [negb].
    by rewrite Hr, Ht, Hp, Hls, Hv.
  - unfold set_output_message, lock_run, get_run, require_lease_owner. m_unfold.
    rewrite Hb, Hr, Ho. eauto.
Qed.

Lemma live_lease_is_exclusive_witness :
  ∃ r, DB.runs demo_claimed !! "r1" = Some r
    ∧ mark_running "r1" "w2" 120 3000 demo_claimed = (Ret (Some r, false), demo_claimed).
Proof.
  eexists. split; [vm_compute; reflexivity|].
  refine (proj1 (live_lease_is_exclusive demo_claimed "r1" _ "w1" "w2" 120 5 Failed None None
    None 3000 _ _ _ _ _ _)); [vm_compute; reflexivity| |done|reflexivity|lia|reflexivity].
  split; [by left|]. split; reflexivity.
Defined.

(** * Taking the lease *)

(** Claiming a waiting run succeeds, makes the caller its owner until the lease
    it asked for runs out, and opens the next attempt of the run; nothing else in
    the run tables changes. *)
Theorem claim_acquires db k r w n now :
  wf db → DB.runs db !! k = Some r → Run.status r = Pending →
  Run.runtime_cleanup_pending r = false → blank w = false → (0 < n)%Z →
  ∃ r' db' a, mark_running k w n now db = (Ret (Some r', true), db')
    ∧ DB.runs db' = <[k := r']> (DB.runs db)
    ∧ Run.status r' = Running ∧ held_by r' w now
    ∧ Run.lease_expires_at r' = Some (now + seconds n)%Z
    ∧ Run.started_at r' = Some (or_else (Run.started_at r) now)
    ∧ attempts_of k db' = attempts_of k db ++ [a]
    ∧ Attempt.attempt_no a = Z.of_nat (S (length (attempts_of k db)))
    ∧ Attempt.worker_id a = w ∧ Attempt.started_at a = now ∧ attempt_open a = true
    ∧ (∀ j, j ≠ k → attempts_of j db' = attempts_of j db).
Proof.
  intros Hwf Hr Hst Hc Hb Hn.
  pose proof (wf_history _ Hwf k r Hr) as Hh.
  pose proof (ok_lease _ (wf_run _ Hwf k r Hr)) as Hl. unfold lease_shape in Hl. rewrite Hst in Hl.
  destruct Hl as (Hw & _). pose proof (history_unowned _ _ Hh Hw) as Hcl.
  set (e := Some (now + seconds n)%Z).
  set (r' := r <| Run.status := Running |> <| Run.worker_id := Some w |>
    <| Run.heartbeat_at := Some now |> <| Run.lease_expires_at := e |>
    <| Run.started_at := Some (or_else (Run.started_at r) now) |>
    <| Run.updated_at := Some now |>).
  set (db2 := (close_open_attempts k LeaseExpired now (Some "worker_lease_expired")
    (Some "执行占有人在取得新所有权前已失联。") (with_run k r' db)).2).
  destruct (close_open_attempts_step k LeaseExpired now (Some "worker_lease_expired")
    (Some "执行占有人在取得新所有权前已失联。") (with_run k r' db)) as [Hs1 Hm1]. fold db2 in Hs1, Hm1.
  assert (E2 : attempts_of k db2 = attempts_of k db).
  { rewrite Hm1. apply map_id_in. intros b Hin. unfold close_if_open.
    eapply Forall_forall in Hcl; [|exact Hin]. unfold closed in Hcl. by rewrite Hcl, andb_false_r. }
  exists r', (add_attempt k (max_attempt_no (attempts_of k db2) + 1) w now e db2).2.
  destruct (add_attempt_step k (max_attempt_no (attempts_of k db2) + 1) w now e db2)
    as [Hs2 (a & Ea & En & Eo & Ew & Ele & Ehb & Est)].
  destruct Hh as (Hnum & _).
  assert (Hn' : (n <=? 0)%Z = false) by (apply Z.leb_gt; lia).
  exists a. split; [|split; [done|]].
  - unfold mark_running, lock_run, get_run. m_unfold. rewrite Hb, Hn', Hr, Hst, Hc.
    rewrite bool_decide_eq_true_2 by done. cbn [is_terminal orb negb andb].
    change (is_terminal Pending) with false. cbv beta iota. fold e. fold r'.
    rewrite (put_run_with k r) by (done || by repeat split).
    change (Run.id r') with (Run.id r). by rewrite (wf_key _ Hwf k r Hr).
  - split; [done|]. split.
    { split; [by left|]. split; [done|]. apply Z.ltb_lt. unfold seconds. lia. }
    do 2 (split; [done|]). split; [by rewrite Ea, E2|].
    split; [by rewrite En, E2, max_attempt_no_numbered by done; lia|].
    do 3 (split; [done|]).
    intros j Hj. by rewrite (as_other _ _ _ Hs2), (as_other _ _ _ Hs1).
Qed.

Lemma demo_created_row :
  ∃ r, DB.runs demo_created !! "r1" = Some r ∧ Run.status r = Pending
    ∧ Run.runtime_cleanup_pending r = false.
Proof. eexists. split; [vm_compute; reflexivity|]. by split. Qed.

Lemma claim_acquires_witness :
  ∃ r r' db' a, DB.runs demo_created !! "r1" = Some r
    ∧ mark_running "r1" "w1" 120 2000 demo_created = (Ret (Some r', true), db')
    ∧ attempts_of "r1" db' = attempts_of "r1" demo_created ++ [a].
Proof.
  destruct demo_created_row as (r & Hr & Hs & Hc).
  destruct (claim_acquires demo_created "r1" r "w1" 120 2000
    (reachable_is_wf _ demo_created_reachable) Hr Hs Hc eq_refl eq_refl)
    as (r' & db' & a & E & _ & _ & _ & _ & _ & Ea & _).
  exists r, r', db', a. split; [exact Hr|]. split; [exact E|exact Ea].
Defined.

(** Renewing succeeds exactly for the worker that holds a live lease; it moves
    the expiry and changes neither the owner nor the status. *)
Theorem renew_only_by_live_owner db k r w n now :
  wf db → DB.runs db !! k = Some r → blank w = false → (0 < n)%Z →
  (held_by r w now →
     ∃ r' db', renew_lease k w n now db = (Ret true, db')
       ∧ DB.runs db' = <[k := r']> (DB.runs db)
       ∧ Run.status r' = Run.status r ∧ Run.worker_id r' = Some w
       ∧ Run.lease_expires_at r' = Some (now + seconds n)%Z)
  ∧ (¬ held_by r w now → renew_lease k w n now db = (Ret false, db)).
Proof.
  intros Hwf Hr Hb Hn. assert (Hn' : (n <=? 0)%Z = false) by (apply Z.leb_gt; lia).
  set (r' := r <| Run.heartbeat_at := Some now |>
    <| Run.lease_expires_at := Some (now + seconds n)%Z |> <| Run.updated_at := Some now |>).
  split.
  - intros (Hs & Hw & Hl). unfold renew_lease, lock_run, get_run. m_unfold.
    rewrite Hb, Hn', Hr, Hw, Hl, !bool_decide_eq_true_2 by done. cbn [negb orb]. fold r'.
    rewrite (put_run_with k r) by (done || by repeat split).
    destruct (history_owned _ _ _ (wf_history _ Hwf k r Hr) Hw) as (h0 & a & E & Hc & Ho & Haw).
    rewrite (get_open_attempt_owned k w h0 a) by done.
    exists r'. eexists. split; [reflexivity|]. by repeat split.
  - intros Hnot. unfold renew_lease, lock_run, get_run. m_unfold. rewrite Hb, Hn', Hr.
    destruct (_ || _) eqn:Hg; [done|]. exfalso. apply Hnot.
    apply orb_false_iff in Hg as [[Hs Hw]%orb_false_iff Hl].
    apply negb_false_iff, bool_decide_eq_true in Hs, Hw. apply negb_false_iff in Hl.
    by split.
Qed.

Lemma renew_only_by_live_owner_witness :
  ∃ r, DB.runs demo_claimed !! "r1" = Some r
    ∧ renew_lease "r1" "w1" 120 200000000 demo_claimed = (Ret false, demo_claimed).
Proof.
  eexists. split; [vm_compute; reflexivity|].
  refine (proj2 (renew_only_by_live_owner demo_claimed "r1" _ "w1" 120 200000000 _ _ _ _) _).
  - apply reachable_is_wf, demo_claimed_reachable.
  - vm_compute. reflexivity.
  - reflexivity.
  - lia.
  - intros (_ & _ & H). discriminate H.
Defined.

(** * Finishing a run *)

(** What an accepted [set_terminal_status] found and did. *)
Lemma set_terminal_accepted k s et em u wo now db ro db' :
  wf db → set_terminal_status k s et em u wo now db = (Ret (ro, true), db') →
  ∃ r, DB.runs db !! k = Some r ∧ is_terminal s = true ∧ active r = true
    ∧ (Run.status r = Pending ∧ wo = None ∧ s ∈ [Failed; Cancelled]
       ∨ ∃ w, wo = Some w ∧ held_by r w now)
    ∧ (Run.status r = CancelRequested → s = Cancelled)
    ∧ (Run.status r = Running → s ≠ Cancelled)
    ∧ (s = Completed → matching_output db r)
    ∧ ro = Some (terminal_run s et em u now r)
    ∧ ∃ db1 db2,
        project_input_delivery_status (terminal_run s et em u now r)
          (with_run k (terminal_run s et em u now r) db) = (Ret tt, db1)
        ∧ close_running_audits k (audit_status_of s) now (bool_decide (s = Interrupted)) db1
          = (Ret tt, db2)
        ∧ finish_open_attempt k wo (OutcomeStatus s) now et em db2 = (Ret tt, db').
Proof.
  intros Hwf. unfold set_terminal_status. destruct (is_terminal s) eqn:Hs; [|done]. cbn [negb].
  unfold lock_run, get_run. m_unfold. destruct (DB.runs db !! k) as [r|] eqn:Hr; [|done].
  destruct (is_terminal (Run.status r)) eqn:Ht; [by destruct (_ || _)|].
  assert (Ha : active r = true) by (unfold active; by rewrite Ht).
  destruct (bool_decide (Run.status r = Pending) && _) eqn:Hpe; [done|].
  destruct (bool_decide (Run.status r ∈ _) && _) eqn:Hg; [done|].
  destruct (bool_decide (Run.status r = CancelRequested) && _) eqn:Hcr; [done|].
  destruct (bool_decide (Run.status r = Running) && _) eqn:Hru; [done|].
  destruct (output_missing_spec s r db) as (b & -> & Hb). destruct b; [done|].
  fold (terminal_run s et em u now r). set (r' := terminal_run s et em u now r).
  assert (Hi : same_identity r r') by (by repeat split).
  rewrite (put_run_with k r) by done. change (Run.id r') with (Run.id r).
  rewrite (wf_key _ Hwf k r Hr).
  destruct (project_input_delivery_status_core r' (with_run k r' db)) as (db1 & E1 & Ec1).
  destruct (close_running_audits_core k (audit_status_of s) now (bool_decide (s = Interrupted))
    db1) as (db2 & E2 & Ec2).
  rewrite E1, E2. destruct (finish_open_attempt k wo _ now et em db2) as [[[]|e] db3] eqn:E3;
    [|done]. intros [= <- <-]. exists r. do 3 (split; [done|]). split.
  { clear Hb. destruct (bool_decide (Run.status r = Pending)) eqn:Hp; bool_hyps.
    - left. destruct Hpe as [?|Hpe]; [done|]. bool_hyps. tauto.
    - right. clear Hpe. apply negb_true_iff, is_terminal_false in Ha.
      assert (Hl : Run.status r ∈ LEASED_RUN_STATUSES) by (apply leased_status; tauto).
      destruct Hg as [?|[Hw Hlive]]; [done|].
      destruct (lease_live_owned _ _ (wf_run _ Hwf k r Hr) Hlive) as [w Ew].
      exists w. split; [congruence|]. by split. }
  split. { intros E. rewrite E in Hcr. simpl in Hcr. by bool_hyps. }
  split. { intros E. rewrite E in Hru. simpl in Hru. by bool_hyps. }
  split; [by apply Hb|]. split; [done|]. eauto 6.
Qed.

(** A run is finished only by the worker that holds a live lease on it, or,
    while nobody has claimed it, by the service that fails or cancels it; a run
    that was asked to stop can only end cancelled, a running one cannot; a
    completed run has an assistant message of the same conversation, run and
    request.  The run loses its owner and its open attempt gets the outcome. *)
Theorem finish_needs_owner_and_output k s et em u wo now db ro db' :
  wf db → set_terminal_status k s et em u wo now db = (Ret (ro, true), db') →
  ∃ r, DB.runs db !! k = Some r ∧ active r = true
    ∧ (Run.status r = Pending ∧ wo = None ∧ s ∈ [Failed; Cancelled]
       ∨ ∃ w, wo = Some w ∧ held_by r w now)
    ∧ (Run.status r = CancelRequested → s = Cancelled)
    ∧ (Run.status r = Running → s ≠ Cancelled)
    ∧ (s = Completed → matching_output db r)
    ∧ DB.runs db' = <[k := terminal_run s et em u now r]> (DB.runs db)
    ∧ (∀ w, wo = Some w → ∃ h0 a, attempts_of k db = h0 ++ [a] ∧ Attempt.worker_id a = w
         ∧ attempts_of k db' = h0 ++ [finish_attempt (OutcomeStatus s) et em now a]).
Proof.
  intros Hwf H. apply set_terminal_accepted in H; [|done].
  destruct H as (r & Hr & _ & Ha & Hg & Hc & Hrun & Ho & _ & db1 & db2 & E1 & E2 & E3).
  set (r' := terminal_run s et em u now r) in *.
  destruct (project_input_delivery_status_core r' (with_run k r' db)) as (d1 & F1 & C1).
  destruct (close_running_audits_core k (audit_status_of s) now (bool_decide (s = Interrupted)) db1)
    as (d2 & F2 & C2).
  rewrite F1 in E1. injection E1 as ->. rewrite F2 in E2. injection E2 as ->.
  assert (Ec : core db2 = core (with_run k r' db)) by (by rewrite C2).
  exists r. do 6 (split; [done|]).
  destruct Hg as [(Hst & -> & Hs)|(w & -> & Hst & Hw & Hl)].
  - split; [|by intros w [=]]. rewrite finish_open_attempt_closed in E3.
    + injection E3 as <-. exact (core_runs _ _ Ec).
    + rewrite (core_attempts_of k _ _ Ec). pose proof (ok_lease _ (wf_run _ Hwf k r Hr)) as Hl.
      unfold lease_shape in Hl. rewrite Hst in Hl.
      eapply history_unowned; [apply (wf_history _ Hwf k r Hr)|apply Hl].
  - destruct (history_owned _ _ _ (wf_history _ Hwf k r Hr) Hw) as (h0 & a & E & Hcl & Hop & Haw).
    destruct (finish_open_attempt_owned k w (OutcomeStatus s) now et em h0 a db2)
      as (d3 & F3 & _ & Er & Ea); try done.
    { unfold core in Ec. injection Ec as _ -> _. by apply wf_attempt_ids. }
    { by rewrite (core_attempts_of k _ _ Ec). }
    rewrite F3 in E3. injection E3 as <-. split; [rewrite Er; exact (core_runs _ _ Ec)|].
    intros w' [= <-]. eauto 6.
Qed.

Lemma finish_needs_owner_and_output_witness :
  ∃ ro db' r, set_terminal_status "r1" Failed (Some "boom") None None (Some "w1") 3000 demo_claimed
      = (Ret (ro, true), db')
    ∧ DB.runs demo_claimed !! "r1" = Some r ∧ active r = true.
Proof.
  assert (H : ∃ ro, set_terminal_status "r1" Failed (Some "boom") None None (Some "w1") 3000
    demo_claimed = (Ret (ro, true), demo_failed)) by (eexists; vm_compute; reflexivity).
  destruct H as [ro H].
  destruct (finish_needs_owner_and_output _ _ _ _ _ _ _ _ _ _
    (reachable_is_wf _ demo_claimed_reachable) H) as (r & Hr & Ha & _).
  exists ro, demo_failed, r. split; [exact H|]. split; [exact Hr|exact Ha].
Defined.

Lemma delivery_projected r db db1 i m d :
  project_input_delivery_status r db = (Ret tt, db1) → DB.messages db1 !! i = Some m →
  Run.input_message_id r = Some (Msg.id m) →
  RUN_STATUS_TO_DELIVERY_STATUS (Run.status r) = Some d → Msg.delivery_status m = d.
Proof.
  unfold project_input_delivery_status. intros E Hm Hi Hd. rewrite Hi, Hd in E.
  injection E as <-. revert Hm. row_simpl. rewrite lookup_update_where.
  intros (m0 & _ & E)%fmap_Some. cbn beta in E.
  destruct (Z.eqb_spec (Msg.id m0) (Msg.id m)) as [_|Hne]; [by rewrite E|]. congruence.
Qed.

(** Finishing a run closes every model and tool audit row it left running and
    projects the outcome onto the message that asked for it. *)
Theorem finish_closes_audits k s et em u wo now db ro db' i m :
  reachable db → set_terminal_status k s et em u wo now db = (Ret (ro, true), db') →
  DB.messages db' !! i = Some m →
  (Msg.run_id m = Some k → Msg.message_type m ∈ AUDIT_MESSAGE_TYPES →
     Msg.execution_status m ≠ Some ExecRunning)
  ∧ (∀ r d, DB.runs db !! k = Some r → Run.input_message_id r = Some (Msg.id m) →
       RUN_STATUS_TO_DELIVERY_STATUS s = Some d → Msg.delivery_status m = d).
Proof.
  intros Hreach H Hm. apply set_terminal_accepted in H; [|by apply reachable_is_wf].
  destruct H as (r & Hr & _ & _ & _ & _ & _ & _ & _ & db1 & db2 & E1 & E2 & E3).
  assert (E : DB.messages db' = DB.messages db2).
  { revert E3. unfold finish_open_attempt, get_open_attempt, put_attempt. m_unfold.
    destruct (head _); by intros [= <-]. }
  rewrite E in Hm. unfold close_running_audits in E2. m_unfold.
  assert (E2' : DB.messages db2 = update_where (λ m0, bool_decide (Msg.run_id m0 = Some k)
      && bool_decide (Msg.message_type m0 ∈ AUDIT_MESSAGE_TYPES)
      && bool_decide (Msg.execution_status m0 = Some ExecRunning))
    (λ m0, m0 <| Msg.execution_status := Some (audit_status_of s) |>
              <| Msg.finished_at := Some (or_else (Msg.finished_at m0) now) |>) (DB.messages db1)).
  { revert E2. destruct (negb _ && negb _); by intros [= <-]. }
  rewrite E2', lookup_update_where in Hm.
  apply fmap_Some in Hm as (m1 & Hm1 & ->). cbn beta.
  assert (Hdel : ∀ r0 d, DB.runs db !! k = Some r0 → Run.input_message_id r0 = Some (Msg.id m1) →
    RUN_STATUS_TO_DELIVERY_STATUS s = Some d → Msg.delivery_status m1 = d).
  { intros r0 d Hr0 Hi Hd. simplify_eq. eapply delivery_projected; eauto. }
  destruct (bool_decide (Msg.run_id m1 = Some k) && _ && _) eqn:Hg.
  - split; [intros _ _; by destruct s|exact Hdel].
  - split; [|exact Hdel]. intros Hk Ht Hx. rewrite Hk, Hx, !bool_decide_eq_true_2 in Hg by done. done.
Qed.

(** A run whose input and output messages are in the database. *)
Definition demo_input : Message :=
  Msg.mk 11 7 "user" "hello" "text" None None None (Some "r1") (Some "q1") "dispatched"
    None None None None None None.
Definition demo_output : Message :=
  Msg.mk 12 7 "assistant" "hi" "text" None None None (Some "r1") (Some "q1") "complete"
    None None None None None None.
Definition demo_audit : Message :=
  Msg.mk 13 7 "tool" "" "tool_audit" None None None (Some "r1") (Some "q1") "complete"
    (Some "op") None None None None (Some ExecRunning).
Definition demo_answered : Database :=
  (set_output_message "r1" 12 "w1" 2500 (demo_claimed <| DB.messages :=
     <[11%Z := demo_input]> (<[12%Z := demo_output]> {[13%Z := demo_audit]}) |>)).2.

Lemma core_set_messages f db : core (db <| DB.messages ::= f |>) = core db.
Proof. done. Qed.

Lemma demo_answered_reachable : reachable demo_answered.
Proof.
  eapply rtc_r; [|apply step_output].
  eapply rtc_r; [exact demo_claimed_reachable|]. apply step_other, core_set_messages.
Qed.

Lemma finish_closes_audits_witness :
  ∃ ro db' m, set_terminal_status "r1" Completed None None None (Some "w1") 3000 demo_answered
      = (Ret (ro, true), db')
    ∧ DB.messages db' !! 13%Z = Some m ∧ Msg.execution_status m ≠ Some ExecRunning.
Proof.
  assert (H : ∃ ro db' m,
    set_terminal_status "r1" Completed None None None (Some "w1") 3000 demo_answered
      = (Ret (ro, true), db')
    ∧ DB.messages db' !! 13%Z = Some m
    ∧ Msg.run_id m = Some "r1" ∧ Msg.message_type m ∈ AUDIT_MESSAGE_TYPES).
  { eexists _, _, _. split; [vm_compute; reflexivity|]. split; [vm_compute; reflexivity|].
    split; [reflexivity|]. right. by left. }
  destruct H as (ro & db' & m & E & Hm & Hk & Ht). exists ro, db', m.
  split; [exact E|]. split; [exact Hm|].
  exact (proj1 (finish_closes_audits _ _ _ _ _ _ _ _ _ _ _ _ demo_answered_reachable E Hm) Hk Ht).
Defined.
