(* ===== verification/RunTree.v ===== *)
(** Closing an execution tree and reconciling lost owners: the breadth-first walk
    of [cancel_active_execution_tree_descendants] reaches every active descendant
    within its fuel, and [reconcile_expired_leases] ends every run whose owner is
    lost. *)

From stdpp Require Import prelude gmap strings list fin_maps relations.
From Stdlib Require Import ZArith Lia.
From S2P Require Import Prelude Schema RunSpec RunRepo RunInv RunSafe RunLease.

(** * The walk returns *)

Lemma cancel_level_ret now l : ∀ seen db, ∃ out db', cancel_level now l seen db = (Ret out, db').
Proof.
  induction l as [|c l IH]; intros seen db; simpl; [by eexists _, _|].
  case_bool_decide; [apply IH|]. unfold mbind, M_bind.
  destruct (cancel_child_spec now c db) as (db1 & -> & _).
  destruct (IH (Run.id c :: seen) db1) as (out & db2 & ->). by eexists _, _.
Qed.

Lemma cancel_levels_ret fuel root sk ids now : ∀ ps seen db,
  ∃ out db', cancel_levels fuel root sk ids now ps seen db = (Ret out, db').
Proof.
  induction fuel as [|fuel IH]; intros ps seen db; simpl; [by eexists _, _|].
  case_bool_decide; [by eexists _, _|]. unfold mbind, M_bind, gets.
  edestruct (cancel_level_ret now) as (out & db1 & ->).
  destruct (IH out.2.*1 out.1 db1) as (rest & db2 & ->). by eexists _, _.
Qed.

Lemma cancel_descendants_ret root now db :
  ∃ out db', cancel_active_execution_tree_descendants root now db = (Ret out, db').
Proof.
  unfold cancel_active_execution_tree_descendants. case_bool_decide; [by eexists _, _|].
  unfold mbind, M_bind, gets. apply cancel_levels_ret.
Qed.

(** * Reconciliation *)

Lemma reconcile_one_spec now k db :
  wf db → ∃ out db', reconcile_one now k db = (Ret out, db')
    ∧ (∀ r, DB.runs db !! k = Some r →
         ∃ r', DB.runs db' !! k = Some r' ∧ is_terminal (Run.status r') = true).
Proof.
  intros Hwf. unfold reconcile_one, lock_run, get_run. m_unfold.
  destruct (DB.runs db !! k) as [r|] eqn:Hr; [|eexists _, _; split; [done|by intros ? [=]]].
  destruct (is_terminal (Run.status r)) eqn:Ht.
  { eexists _, _. split; [done|]. intros ? [= <-]. eauto. }
  assert (Ha : active r = true) by (unfold active; by rewrite Ht).
  set (b := negb (bool_decide (Run.run_type r = Subagent))).
  set (r' := fail_run _ _ b now r).
  destruct (safe_fail_run db k r "worker_lease_expired"
    "执行 worker 的 lease 已过期；本次运行结果未知，需按 at-least-once 语义检查副作用。" b ExecAbandoned LeaseExpired now
    (Some "worker_lease_expired") (Some "执行 worker 的 lease 已过期；本次运行结果未知。"))
    as (db1 & db2 & E0 & E1 & E2 & Er & Hwf3 & Hev3); try done.
  { intros E. unfold b. by rewrite bool_decide_eq_true_2. }
  fold r' in E0, E1, Er. rewrite E0, E1. change (Run.id r') with (Run.id r).
  rewrite (wf_key _ Hwf k r Hr), E2.
  destruct (close_open_attempts k LeaseExpired now (Some "worker_lease_expired")
    (Some "执行 worker 的 lease 已过期；本次运行结果未知。") db2) as [[[]|e] db3] eqn:E3; [|done].
  assert (Er3 : DB.runs db3 = DB.runs db2).
  { revert E3. unfold close_open_attempts, modify. by intros [= <-]. }
  destruct (cancel_descendants_ret r' now db3) as (ds & db4 & E4). rewrite E4.
  eexists _, _. split; [done|]. intros r0 [= <-].
  destruct (safe_cancel_descendants r' now db3 Hwf3) as [_ [Hev4 _]]. rewrite E4 in Hev4.
  destruct (Hev4 k r') as (r4 & Hr4 & Hev); [by rewrite Er3, Er, lookup_insert_eq|].
  exists r4. split; [done|]. pose proof (ev_terminal _ _ Hev eq_refl) as Hf.
  unfold terminal_facts in Hf. injection Hf as -> _ _ _ _ _. done.
Qed.

Lemma evolves_terminal db db' k :
  evolves db db' →
  (∃ r, DB.runs db !! k = Some r ∧ is_terminal (Run.status r) = true) →
  ∃ r, DB.runs db' !! k = Some r ∧ is_terminal (Run.status r) = true.
Proof.
  intros [He _] (r & Hr & Ht). destruct (He k r Hr) as (r' & Hr' & Hev). exists r'.
  split; [done|]. pose proof (ev_terminal _ _ Hev Ht) as Hf. unfold terminal_facts in Hf.
  by injection Hf as -> _ _ _ _ _.
Qed.

Lemma reconcile_each now l : ∀ db,
  wf db → ∃ out db', for_each (reconcile_one now) l db = (Ret out, db') ∧ evolves db db'
    ∧ (∀ k r, k ∈ l → DB.runs db !! k = Some r →
         ∃ r', DB.runs db' !! k = Some r' ∧ is_terminal (Run.status r') = true).
Proof.
  induction l as [|k l IH]; intros db Hwf; simpl.
  { eexists _, _. split; [done|]. split; [reflexivity|]. set_solver. }
  destruct (reconcile_one_spec now k db Hwf) as (o1 & db1 & E1 & H1).
  destruct (safe_reconcile_one now k db Hwf) as [Hwf1 Hev1]. rewrite E1 in Hwf1, Hev1.
  destruct (IH db1 Hwf1) as (o2 & db2 & E2 & Hev2 & H2).
  unfold mbind, M_bind. rewrite E1, E2. eexists _, _. split; [done|].
  split; [by etrans|]. intros j r Hj Hr. destruct (decide (j = k)) as [->|Hne].
  - eapply evolves_terminal; eauto.
  - apply elem_of_cons in Hj as [?|Hj]; [done|].
    destruct Hev1 as [He _]. destruct (He j r Hr) as (r1 & Hr1 & _). eauto.
Qed.

(** The run has ended. *)
Definition ended (db : Database) (k : string) : Prop :=
  ∃ r, DB.runs db !! k = Some r ∧ is_terminal (Run.status r) = true.

(** C6: one reconciliation ends every run whose owner is lost: a running run, or one
    asked to stop, whose lease ran out, and one asked to stop that nobody owns any
    more; only runs another transaction has locked are left for the next pass. *)
Theorem reconcile_ends_lost_owners locked now db k r :
  wf db → DB.runs db !! k = Some r → lost_owner now r = true → k ∉ locked →
  ∃ out db', reconcile_expired_leases locked now db = (Ret out, db') ∧ ended db' k.
Proof.
  intros Hwf Hr Hl Hk. unfold reconcile_expired_leases, mbind, M_bind, gets.
  edestruct (reconcile_each now) as (out & db' & -> & _ & H); [exact Hwf|].
  destruct (H k r) as (r' & Hr' & Ht); [|done|eexists _, db'; split; [done|by exists r']].
  pose proof (wf_key _ Hwf k r Hr) as <-. apply list_elem_of_fmap. exists r.
  split; [done|]. apply elem_of_sort_by, elem_of_select.
  rewrite Hl, bool_decide_eq_false_2 by done. eauto.
Qed.

Lemma reconcile_ends_lost_owners_witness :
  ∃ r, DB.runs demo_claimed !! "r1" = Some r ∧ lost_owner 200000000 r = true
    ∧ ∃ out db', reconcile_expired_leases ∅ 200000000 demo_claimed = (Ret out, db')
      ∧ ended db' "r1".
Proof.
  eexists. split; [vm_compute; reflexivity|]. split; [reflexivity|].
  eapply (reconcile_ends_lost_owners ∅ 200000000 demo_claimed "r1");
    [apply reachable_is_wf, demo_claimed_reachable|vm_compute; reflexivity|reflexivity|].
  apply not_elem_of_empty.
Defined.

(** * The execution tree *)

(** The active descendants of [root] in a database: runs of the same user and
    sandbox scope, created by the root or by another descendant. *)
Inductive descendant (db : Database) (root : AgentRun) (sk : string) (ids : list string)
    : string → Prop :=
  | descendant_child k r :
      DB.runs db !! k = Some r → is_tree_child root sk ids [Run.id root] r = true →
      descendant db root sk ids k
  | descendant_next p k r :
      descendant db root sk ids p →
      DB.runs db !! k = Some r → is_tree_child root sk ids [p] r = true →
      descendant db root sk ids k.

Definition stopped_or_stopping (r : AgentRun) : Prop :=
  Run.status r = CancelRequested ∨ Run.status r = Cancelled.

Lemma cancelled_child_status now c : stopped_or_stopping (cancelled_child now c).
Proof.
  unfold stopped_or_stopping, cancelled_child. cbv zeta. case_match; [by right|by left].
Qed.

Lemma cancel_level_spec now l : ∀ seen db,
  ∃ seen' out db', cancel_level now l seen db = (Ret (seen', out), db')
    ∧ (∀ k, k ∈ seen' ↔ k ∈ seen ∨ k ∈ (out.*1))
    ∧ (∀ k, k ∈ (out.*1) ↔ k ∉ seen ∧ k ∈ map Run.id l)
    ∧ (∀ k, k ∉ (out.*1) → DB.runs db' !! k = DB.runs db !! k)
    ∧ (∀ k, k ∈ (out.*1) → ∃ c, c ∈ l ∧ Run.id c = k
         ∧ DB.runs db' !! k = Some (cancelled_child now c))
    ∧ length seen' = (length seen + length out)%nat
    ∧ (NoDup seen → NoDup seen').
Proof.
  induction l as [|c l IH]; intros seen db; simpl.
  { exists seen, [], db. split; [done|]. split; [set_solver|]. split; [set_solver|].
    split; [done|]. split; [set_solver|]. split; [simpl; lia|done]. }
  case_bool_decide as Hc.
  { destruct (IH seen db) as (seen' & out & db' & E & H1 & H2 & H3 & H4 & H5 & H6).
    exists seen', out, db'. split; [done|]. split; [done|]. split; [|split; [done|split; [|done]]].
    - intros k. rewrite H2, elem_of_cons. split; [tauto|]. intros [Hn [->|Hk]]; [done|auto].
    - intros k Hk. destruct (H4 k Hk) as (d & ? & ?). exists d. split; [by right|done]. }
  unfold mbind, M_bind. destruct (cancel_child_spec now c db) as (db1 & -> & Er & _).
  destruct (IH (Run.id c :: seen) db1) as (seen' & out & db' & -> & H1 & H2 & H3 & H4 & H5 & H6).
  eexists seen', (_ :: out), db'. split; [reflexivity|]. cbn [fmap list_fmap fst map].
  split; [|split; [|split; [|split; [|split]]]].
  - intros k. rewrite H1, !elem_of_cons. tauto.
  - intros k. rewrite !elem_of_cons, H2, elem_of_cons.
    destruct (decide (k = Run.id c)) as [->|]; tauto.
  - intros k [Hne Hk]%not_elem_of_cons. rewrite H3, Er, lookup_insert_ne; auto.
  - intros k [->|Hk]%elem_of_cons.
    + exists c. split; [by left|]. split; [done|]. rewrite H3, Er, lookup_insert_eq; [done|].
      rewrite H2. set_solver.
    + destruct (H4 k Hk) as (d & ? & ?). exists d. split; [by right|done].
  - simpl in *. lia.
  - intros Hnd. apply H6. by constructor.
Qed.

Section walk.
Context (db0 : Database) (Hwf : wf db0) (root : AgentRun) (sk : string) (ids : list string).
Context (now : datetime).

Local Definition child_of (p k : string) : Prop :=
  ∃ r, DB.runs db0 !! k = Some r ∧ is_tree_child root sk ids [p] r = true.

(** Where the loop stands: the runs in [seen] are dealt with, the others are as
    they were, and children not yet seen have a parent in [ps]. *)
Record walk_inv (ps seen : list string) (db : Database) : Prop := {
  wi_key : ∀ k r, DB.runs db !! k = Some r → Run.id r = k;
  wi_same : ∀ k, k ∉ seen → DB.runs db !! k = DB.runs db0 !! k;
  wi_seen : ∀ k, k ∈ seen → descendant db0 root sk ids k
    ∧ ∃ r, DB.runs db !! k = Some r ∧ stopped_or_stopping r;
  wi_front : ∀ p k, p = Run.id root ∨ p ∈ seen → p ∉ ps → child_of p k → k ∈ seen;
  wi_parents : ∀ p, p ∈ ps → p = Run.id root ∨ p ∈ seen;
  wi_nodup : NoDup seen
}.

Lemma is_tree_child_parent ps r :
  is_tree_child root sk ids ps r = true ↔
  ∃ p, p ∈ ps ∧ is_tree_child root sk ids [p] r = true.
Proof.
  unfold is_tree_child. destruct (Run.created_by_run_id r) as [p|]; [|by split; [|intros (? & _ & ?)]].
  rewrite !andb_true_iff, bool_decide_eq_true. split.
  - intros [[[Hp ?] ?] ?]. exists p. split; [done|].
    rewrite !andb_true_iff, bool_decide_eq_true. set_solver.
  - intros (q & Hq & H). rewrite !andb_true_iff, bool_decide_eq_true in H.
    destruct H as [[[H%list_elem_of_singleton ?] ?] ?]. by subst.
Qed.

Lemma seen_bounded seen db ps :
  walk_inv ps seen db → (length seen ≤ size (DB.runs db0))%nat.
Proof.
  intros [_ _ Hs _ _ Hnd]. rewrite <- (size_dom (D := gset string)).
  rewrite <- (size_list_to_set (C := gset string)) by exact Hnd.
  apply subseteq_size. intros k Hk. apply elem_of_list_to_set in Hk.
  apply elem_of_dom. destruct (Hs k Hk) as [Hd _]. inversion Hd; eauto.
Qed.

Lemma walk_level ps seen db seen' out db' :
  walk_inv ps seen db →
  cancel_level now (sort_by run_asc (select (is_tree_child root sk ids ps) (DB.runs db)))
    seen db = (Ret (seen', out), db') →
  walk_inv (out.*1) seen' db' ∧ length seen' = (length seen + length out)%nat.
Proof.
  intros [Hkey Hsame Hseen Hfront Hpar Hnd] E. set (l := sort_by _ _) in E.
  destruct (cancel_level_spec now l seen db)
    as (s1 & o1 & d1 & E1 & H1 & H2 & H3 & H4 & H5 & H6).
  rewrite E in E1. injection E1 as <- <- <-. split; [|done].
  assert (Hnew : ∀ k, k ∈ (out.*1) ↔ k ∉ seen ∧ ∃ p, p ∈ ps ∧ child_of p k).
  { intros k. rewrite H2. split; intros [Hn Hk]; (split; [done|]).
    - apply list_elem_of_fmap in Hk as (c & -> & Hc).
      apply elem_of_tree_level in Hc as [Hc [j Hj]].
      apply is_tree_child_parent in Hc as (p & Hp & Hc). exists p. split; [done|].
      exists c. split; [|done]. rewrite <- Hsame by done. by rewrite (Hkey j c Hj).
    - destruct Hk as (p & Hp & r & Hr & Hc). apply list_elem_of_fmap. exists r.
      split; [by rewrite (wf_key _ Hwf k r Hr)|]. apply elem_of_tree_level. split.
      + apply is_tree_child_parent. eauto.
      + exists k. by rewrite Hsame. }
  split.
  - intros k r Hr. destruct (decide (k ∈ (out.*1))) as [Hk|Hk].
    + destruct (H4 k Hk) as (c & _ & <- & Ec). rewrite Ec in Hr. injection Hr as <-.
      apply cancelled_child_id.
    + rewrite H3 in Hr by done. by apply Hkey.
  - intros k Hk. rewrite H1 in Hk. rewrite H3 by tauto. apply Hsame. tauto.
  - intros k Hk. apply H1 in Hk as [Hk|Hk].
    + rewrite H3 by (rewrite H2; tauto). by apply Hseen.
    + split.
      * apply Hnew in Hk as (_ & p & Hp & r & Hr & Hc).
        destruct (Hpar p Hp) as [->|Hps]; [by eapply descendant_child|].
        eapply descendant_next; [by apply Hseen|done|done].
      * destruct (H4 k Hk) as (c & _ & _ & Ec). eexists. split; [done|].
        apply cancelled_child_status.
  - intros p k Hp Hpo Hc. apply H1.
    assert (Hp' : p = Run.id root ∨ p ∈ seen).
    { destruct Hp as [?|Hp]; [by left|]. apply H1 in Hp as [?|?]; [by right|done]. }
    destruct (decide (k ∈ seen)) as [?|Hk]; [by left|]. right. apply Hnew.
    split; [done|]. destruct (decide (p ∈ ps)) as [?|Hps]; [eauto|].
    exfalso. apply Hk. eauto.
  - intros p Hp. right. apply H1. by right.
  - auto.
Qed.

(** With fuel for every run not yet seen, the walk ends with all of them seen. *)
Lemma walk_complete fuel : ∀ ps seen db out db',
  walk_inv ps seen db →
  (ps = [] ∨ size (DB.runs db0) < fuel + length seen)%nat →
  cancel_levels fuel root sk ids now ps seen db = (Ret out, db') →
  ∃ seen', walk_inv [] seen' db' ∧ (∀ k, k ∈ seen' ↔ k ∈ seen ∨ k ∈ (out.*1)).
Proof.
  induction fuel as [|fuel IH]; intros ps seen db out db' Hinv Hfuel; simpl.
  { intros [= <- <-]. exists seen. split; [|set_solver].
    destruct Hfuel as [->|Hf]; [done|]. pose proof (seen_bounded _ _ _ Hinv). lia. }
  case_bool_decide as Hps.
  { intros [= <- <-]. exists seen. subst. split; [done|set_solver]. }
  unfold mbind, M_bind, gets.
  destruct (cancel_level_ret now (sort_by run_asc
    (select (is_tree_child root sk ids ps) (DB.runs db))) seen db) as ([seen1 o1] & db1 & E1).
  rewrite E1. destruct (walk_level _ _ _ _ _ _ Hinv E1) as [Hinv1 Hlen].
  cbn [fst snd]. destruct (cancel_levels_ret fuel root sk ids now (o1.*1) seen1 db1)
    as (o2 & db2 & E2). rewrite E2. intros [= <- <-].
  destruct (IH (o1.*1) seen1 db1 o2 db2 Hinv1) as (seen' & Hinv' & Hs'); [|done|].
  { destruct Hfuel as [?|Hf]; [done|]. destruct o1; [by left|]. right. simpl in Hlen. lia. }
  exists seen'. split; [done|]. intros k. rewrite Hs', fmap_app, elem_of_app.
  destruct (cancel_level_spec now (sort_by run_asc
    (select (is_tree_child root sk ids ps) (DB.runs db))) seen db)
    as (s2 & o3 & d2 & E3 & H1 & _). rewrite E1 in E3. injection E3 as <- <- <-.
  rewrite H1. tauto.
Qed.

Lemma walk_start : walk_inv [Run.id root] [] db0.
Proof.
  split.
  - apply (wf_key _ Hwf).
  - done.
  - intros k Hk. by apply elem_of_nil in Hk.
  - intros p k [->|Hp] Hne; [|by apply elem_of_nil in Hp].
    exfalso. apply Hne. by left.
  - intros p ->%list_elem_of_singleton. by left.
  - constructor.
Qed.

Lemma walk_all_seen seen db k :
  walk_inv [] seen db → descendant db0 root sk ids k → k ∈ seen.
Proof.
  intros Hinv. induction 1 as [k r Hr Hc|p k r Hp IH Hr Hc];
    (eapply (wi_front _ _ _ Hinv); [|apply not_elem_of_nil|by exists r]); auto.
Qed.
End walk.

(** C7: cancelling the descendants of a finished or cancelled top-level run reaches
    exactly its active descendants: each is cancelled or asked to stop and is
    reported, and no other run is touched. *)
Theorem cancel_descendants_complete db root now :
  wf db → Run.run_type root ≠ Subagent →
  let sk := root_scope_key root db in
  let ids := map Scope.run_id
    (select (λ s, bool_decide (Scope.scope_key s = sk)) (DB.run_scopes db)) in
  ∃ out db', cancel_active_execution_tree_descendants root now db = (Ret out, db')
    ∧ ∀ k, (descendant db root sk ids k →
              k ∈ (out.*1) ∧ ∃ r, DB.runs db' !! k = Some r ∧ stopped_or_stopping r)
         ∧ (¬ descendant db root sk ids k →
              k ∉ (out.*1) ∧ DB.runs db' !! k = DB.runs db !! k).
Proof.
  intros Hwf Hroot sk ids. destruct (cancel_descendants_ret root now db) as (out & db' & E).
  exists out, db'. split; [done|]. revert E. unfold cancel_active_execution_tree_descendants.
  rewrite bool_decide_eq_false_2 by done. unfold mbind, M_bind, gets, list_scope_run_ids.
  fold sk ids. intros E.
  destruct (walk_complete db Hwf root sk ids now (S (size (DB.runs db))) _ _ _ _ _
    (walk_start db Hwf root sk ids) ltac:(right; simpl; lia) E) as (seen & Hinv & Hs).
  assert (Hout : ∀ k, k ∈ seen ↔ k ∈ (out.*1)) by (intros k; rewrite Hs; set_solver).
  intros k. split.
  - intros Hd. pose proof (walk_all_seen _ _ _ _ _ _ _ Hinv Hd) as Hk.
    split; [by apply Hout|]. by apply (wi_seen _ _ _ _ _ _ _ Hinv).
  - intros Hn. assert (Hk : k ∉ seen).
    { intros Hk. apply Hn. by apply (wi_seen _ _ _ _ _ _ _ Hinv). }
    split; [by rewrite <- Hout|]. by apply (wi_same _ _ _ _ _ _ _ Hinv).
Qed.

(** A running run with a subagent run in its sandbox scope. *)
Definition demo_tree : Database :=
  (create_run "r2" "t1c" (Some "t1") "helper" "u1" "q2" (JObj []) "agent" "web" None (JObj [])
     (Some 8%Z) (Some "r1") (Some 1%Z) Subagent None 2500 demo_claimed).2.

Lemma demo_tree_wf : wf demo_tree.
Proof.
  apply reachable_is_wf. eapply rtc_r; [exact demo_claimed_reachable|apply step_create].
Qed.

Lemma cancel_descendants_complete_witness :
  ∃ root out db', DB.runs demo_tree !! "r1" = Some root
    ∧ cancel_active_execution_tree_descendants root 4000 demo_tree = (Ret out, db')
    ∧ "r2" ∈ (out.*1).
Proof.
  assert (H : ∃ root child, DB.runs demo_tree !! "r1" = Some root
    ∧ Run.run_type root = Chat ∧ Run.id root = "r1"
    ∧ DB.runs demo_tree !! "r2" = Some child
    ∧ is_tree_child root (root_scope_key root demo_tree) (map Scope.run_id
        (select (λ s, bool_decide (Scope.scope_key s = root_scope_key root demo_tree))
           (DB.run_scopes demo_tree))) ["r1"] child = true).
  { eexists _, _. split; [vm_compute; reflexivity|]. split; [reflexivity|]. split; [reflexivity|].
    split; vm_compute; reflexivity. }
  destruct H as (root & child & Hroot & Ht & Hid & Hchild & Hc).
  assert (Hne : Run.run_type root ≠ Subagent) by congruence.
  destruct (cancel_descendants_complete demo_tree root 4000 demo_tree_wf Hne)
    as (out & db' & E & H).
  exists root, out, db'. split; [exact Hroot|]. split; [exact E|].
  apply (H "r2"). eapply descendant_child; [exact Hchild|]. rewrite Hid. exact Hc.
Defined.
