(* ===== verification/Requests.v ===== *)
(** [AgentRunRequestRepository] ([repositories/agent_run_request_repository.py]), the
    scope mapping of [run_scope_service.py] and the Workdir binding of
    [workdir_service.py]: what the request queue reads and writes. *)

From stdpp Require Import prelude gmap strings list fin_maps.
From Stdlib Require Import ZArith Lia.
From S2P Require Import Prelude Schema RunRepo.

(** * Queries *)

(** [request_id] is unique, so the table is keyed by it. *)
Definition get_by_request_id (request_id : string) : M Database (option AgentRunRequest) :=
  gets (λ db, DB.run_requests db !! request_id).

Definition lock_by_request_id := get_by_request_id.

Definition is_steer (r : AgentRunRequest) : bool := bool_decide (Req.queue_policy r = "steer").

(** [(created_at, id)] in lexicographic order. *)
Definition created_before (a b : AgentRunRequest) : bool :=
  (Req.created_at a <? Req.created_at b)%Z
  || ((Req.created_at a =? Req.created_at b)%Z && (Req.id a <? Req.id b)%Z).

(** [ORDER BY (queue_policy != 'steer') ASC, created_at ASC, id ASC]. *)
Definition queue_leb (a b : AgentRunRequest) : bool :=
  if Bool.eqb (is_steer a) (is_steer b) then negb (created_before b a) else is_steer a.

Definition queued_for_thread (uid agent_slug thread_id : string) (r : AgentRunRequest) : bool :=
  bool_decide (Req.uid r = uid) && bool_decide (Req.agent_slug r = agent_slug)
  && bool_decide (Req.conversation_thread_id r = thread_id)
  && bool_decide (Req.status r = Queued).

Definition queued_for_thread_query (uid agent_slug thread_id : string) (db : Database)
    : list AgentRunRequest :=
  sort_by queue_leb (select (queued_for_thread uid agent_slug thread_id) (DB.run_requests db)).

Definition get_pending_steer (uid agent_slug thread_id : string)
    : M Database (option AgentRunRequest) :=
  found ← gets (λ db, select (λ r, queued_for_thread uid agent_slug thread_id r && is_steer r)
                  (DB.run_requests db));
  scalar_one_or_none found.

Definition get_queue_head (uid agent_slug thread_id : string)
    : M Database (option AgentRunRequest) :=
  gets (λ db, head (queued_for_thread_query uid agent_slug thread_id db)).

Definition list_queued (uid agent_slug thread_id : string) : M Database (list AgentRunRequest) :=
  gets (queued_for_thread_query uid agent_slug thread_id).

Definition get_queue_position_for (request : AgentRunRequest) : M Database nat :=
  if negb (bool_decide (Req.status request = Queued)) then mret 0
  else if is_steer request then mret 1
  else
    count ← gets (λ db, length (select (λ r,
      queued_for_thread (Req.uid request) (Req.agent_slug request)
        (Req.conversation_thread_id request) r
      && (is_steer r || (negb (is_steer r) && created_before r request))) (DB.run_requests db)));
    mret (count + 1).

Definition get_queue_position (request_id : string) : M Database nat :=
  request ← get_by_request_id request_id;
  match request with
  | None => mret 0
  | Some request => get_queue_position_for request
  end.

(** * Writes *)

Definition put_request (r : AgentRunRequest) : M Database unit :=
  modify (λ db, db <| DB.run_requests ::= <[Req.request_id r := r]> |>).

(** [create] with a fresh value of the id sequence; the unique request id. *)
Definition create_request (request_id uid agent_slug thread_id source channel : string)
    (external_id : option string) (origin_metadata : json) (queue_policy : string)
    (input_message_id : Z) (input_payload : json) (status : RequestStatus) (now : datetime)
    : M Database AgentRunRequest :=
  requests ← gets DB.run_requests;
  id ← gets DB.next_request_id;
  if bool_decide (is_Some (requests !! request_id))
  then raise (IntegrityError "ix_agent_run_requests_request_id")
  else
    let request := {|
      Req.id := id;
      Req.request_id := request_id;
      Req.uid := uid;
      Req.agent_slug := agent_slug;
      Req.conversation_thread_id := thread_id;
      Req.source := source;
      Req.channel := channel;
      Req.external_id := external_id;
      Req.origin_metadata := json_or_empty origin_metadata;
      Req.queue_policy := queue_policy;
      Req.status := status;
      Req.input_message_id := input_message_id;
      Req.dispatched_run_id := None;
      Req.input_payload := json_or_empty input_payload;
      Req.error_message := None;
      Req.created_at := now;
      Req.dispatched_at := None;
      Req.updated_at := now |} in
    _ ← modify (λ db, db <| DB.next_request_id ::= Z.succ |>);
    _ ← put_request request;
    mret request.

Definition mark_dispatched (request_id run_id : string) (now : datetime)
    : M Database (option AgentRunRequest) :=
  request ← lock_by_request_id request_id;
  match request with
  | None => mret None
  | Some request =>
      if negb (bool_decide (Req.status request = Queued)) then mret None
      else
        let request := request <| Req.status := Dispatched |>
                               <| Req.dispatched_run_id := Some run_id |>
                               <| Req.dispatched_at := Some now |>
                               <| Req.updated_at := now |> in
        _ ← put_request request;
        mret (Some request)
  end.

(** * The execution scope of a run *)

(** [str(run.runtime_scope_id or run.conversation_thread_id or "")]. *)
Definition resolve_run_scope_key (run : option AgentRun) : M Database string :=
  match run with
  | None => mret ""
  | Some run =>
      mapped ← (if bool_decide (Run.id run = "") then mret None else get_scope (Run.id run));
      mret (match mapped with
            | Some s =>
                if bool_decide (Scope.scope_key s = "")
                then if bool_decide (Run.runtime_scope_id run = "")
                     then Run.conversation_thread_id run else Run.runtime_scope_id run
                else Scope.scope_key s
            | None =>
                if bool_decide (Run.runtime_scope_id run = "")
                then Run.conversation_thread_id run else Run.runtime_scope_id run
            end)
  end.

Definition upsert_scope (run_id scope_key : string) (now : datetime) : M Database unit :=
  row ← get_scope run_id;
  modify (λ db, db <| DB.run_scopes ::= <[run_id := match row with
    | None => {| Scope.run_id := run_id; Scope.scope_key := scope_key; Scope.created_at := now |}
    | Some row => row <| Scope.scope_key := scope_key |>
    end]> |>).

Definition bind_run_scope (run_id scope_key conversation_thread_id : string) (now : datetime)
    : M Database unit :=
  let key := strip scope_key in
  let thread := strip conversation_thread_id in
  if bool_decide (key = "") || bool_decide (key = thread) then mret tt
  else upsert_scope run_id key now.

Definition inherit_run_scope (parent_run : option AgentRun) (child_run_id child_thread_id : string)
    (now : datetime) : M Database unit :=
  key ← resolve_run_scope_key parent_run;
  bind_run_scope child_run_id key child_thread_id now.

(** * The Workdir of a conversation *)

Record WorkdirBinding := {
  wb_conversation_id : Z;
  wb_thread_id : string;
  wb_uid : string;
  wb_project_id : string;
  wb_workdir_path : string;
  wb_directory_mode : string
}.

Definition materialize_managed (b : WorkdirBinding) : bool :=
  bool_decide (wb_directory_mode b = "managed").

Definition workdir_binding_from_project (conversation : Conversation) (uid : string)
    (project : option Project) : M Database WorkdirBinding :=
  match project with
  | None => raise (RuntimeError "Conversation 绑定的 Project 不存在")
  | Some project =>
      if bool_decide (Conv.project_id conversation = "") || bool_decide (Proj.id project = "")
         || negb (bool_decide (Proj.id project = Conv.project_id conversation))
      then raise (RuntimeError "Conversation 与 Project 绑定不一致")
      else if negb (bool_decide (Proj.uid project = uid))
      then raise (RuntimeError "Project 不属于当前用户")
      else if bool_decide (Conv.thread_id conversation = "")
      then raise (RuntimeError "Conversation 缺少 thread_id")
      else if bool_decide (Proj.workdir_path project = "")
              || negb (bool_decide (Proj.directory_mode project ∈ ["managed"; "linked"]))
      then raise (RuntimeError "Project Workdir 绑定无效")
      else mret {| wb_conversation_id := Conv.id conversation;
                   wb_thread_id := Conv.thread_id conversation;
                   wb_uid := uid;
                   wb_project_id := Proj.id project;
                   wb_workdir_path := Proj.workdir_path project;
                   wb_directory_mode := Proj.directory_mode project |}
  end.

(** [ProjectRepository.get_for_user]. *)
Definition get_project_for_user (project_id uid : string) : M Database (option Project) :=
  gets (λ db, match DB.projects db !! project_id with
              | Some p => if bool_decide (Proj.uid p = uid) then Some p else None
              | None => None
              end).

Definition resolve_conversation_workdir_binding (conversation : Conversation) (uid : string)
    (project : option Project) : M Database WorkdirBinding :=
  resolved ← (match project with
              | Some _ => mret project
              | None => get_project_for_user (Conv.project_id conversation) uid
              end);
  workdir_binding_from_project conversation uid resolved.

(** [thread_id] is unique among conversations. *)
Definition get_conversation_by_thread_id (thread_id : string)
    : M Database (option Conversation) :=
  found ← gets (λ db, select (λ c, bool_decide (Conv.thread_id c = thread_id))
                  (DB.conversations db));
  scalar_one_or_none found.

Definition lock_conversation_by_thread_id := get_conversation_by_thread_id.

(** * The order of the queue *)

Lemma created_before_spec a b :
  created_before a b = true ↔
  (Req.created_at a < Req.created_at b
   ∨ Req.created_at a = Req.created_at b ∧ Req.id a < Req.id b)%Z.
Proof.
  unfold created_before. rewrite orb_true_iff, andb_true_iff, !Z.ltb_lt, Z.eqb_eq. tauto.
Qed.

Lemma created_before_false a b :
  created_before a b = false ↔
  (Req.created_at b < Req.created_at a
   ∨ Req.created_at a = Req.created_at b ∧ Req.id b ≤ Req.id a)%Z.
Proof. rewrite <- not_true_iff_false, created_before_spec. lia. Qed.

Lemma queue_leb_total a b : queue_leb a b = true ∨ queue_leb b a = true.
Proof.
  unfold queue_leb. destruct (is_steer a), (is_steer b); simpl; auto;
    rewrite !negb_true_iff, !created_before_false; lia.
Qed.

Lemma queue_leb_trans a b c :
  queue_leb a b = true → queue_leb b c = true → queue_leb a c = true.
Proof.
  unfold queue_leb. destruct (is_steer a), (is_steer b), (is_steer c); simpl; try done;
    rewrite !negb_true_iff, !created_before_false; lia.
Qed.
