(* ===== verification/Queue.v ===== *)
(** The request queue of a thread ([services/agent_request_queue_service.py]): FIFO
    dispatch with a steer lane, cancellation, the derived queue state.

    Each service function runs in one transaction.  The functions that decide
    about a thread lock its conversation row first, so they are serialised per
    thread; they are atomic here.  The sandbox policy that names the execution
    scope of a new run is an interface ([DispatchScope]), which
    [SandboxScope.v] implements. *)

From stdpp Require Import prelude gmap strings list fin_maps relations.
From Stdlib Require Import ZArith Lia Sorting.Sorted.
From S2P Require Import Prelude Schema RunSpec RunRepo RunInv RunSafe RunLease Requests.

(** [resolve_dispatch_runtime_scope] reads the agent's and the project's policy and
    writes nothing. *)
Class DispatchScope := {
  resolve_dispatch_runtime_scope :
    string → string → string → string → M Database string;
  scope_read_only uid slug project thread db :
    (resolve_dispatch_runtime_scope uid slug project thread db).2 = db
}.

(** * Data *)

Record DispatchResult := {
  dr_request_id : string;
  dr_run_id : string;
  dr_workdir_binding : WorkdirBinding
}.

Inductive QueueStatus := QIdle | QRunning | QInterrupted | QPaused | QReady.

#[global] Instance QueueStatus_eq_dec : EqDecision QueueStatus.
Proof. solve_decision. Defined.

Record QueueMeta := {
  paused_reason : option RunStatus;
  blocking_run_id : option string;
  can_continue : bool
}.

Definition no_meta : QueueMeta := {|
  paused_reason := None; blocking_run_id := None; can_continue := false |}.

Definition SUPPORTED_QUEUE_POLICIES : list string := ["enqueue"; "reject"; "steer"].
Definition NOT_IMPLEMENTED_QUEUE_POLICIES : list string := ["guided"; "bridge"].
Definition REQUEST_TERMINAL_STATUSES : list RequestStatus := [ReqCancelled; ReqRejected; ReqFailed].

Definition validate_queue_policy (queue_policy : string) : M Database string :=
  if bool_decide (queue_policy ∈ NOT_IMPLEMENTED_QUEUE_POLICIES)
  then raise (HTTPException 422 "not_implemented_queue_policy")
  else if negb (bool_decide (queue_policy ∈ SUPPORTED_QUEUE_POLICIES))
  then raise (HTTPException 422 "unsupported_queue_policy")
  else mret queue_policy.

Definition queue_conflict (code : string) : exn := HTTPException 409 code.

Record RequestView := {
  v_request_id : string;
  v_status : RequestStatus;
  v_queue_policy : string;
  v_queue_position : option nat;
  v_message_id : Z;
  v_run_id : option string;
  v_thread_id : string
}.

(** The URLs of the response are formatted from [v_run_id], [v_request_id] and
    [v_status]. *)
Definition request_view (request : AgentRunRequest) : M Database RequestView :=
  position ← (if bool_decide (Req.status request = Queued)
              then p ← get_queue_position (Req.request_id request); mret (Some p)
              else mret None);
  mret {| v_request_id := Req.request_id request;
          v_status := Req.status request;
          v_queue_policy := Req.queue_policy request;
          v_queue_position := position;
          v_message_id := Req.input_message_id request;
          v_run_id := Req.dispatched_run_id request;
          v_thread_id := Req.conversation_thread_id request |}.

(** * Guards *)

Definition conversation_matches (conversation : option Conversation) (uid agent_slug : string)
    : bool :=
  match conversation with
  | None => false
  | Some c =>
      bool_decide (Conv.uid c = uid) && negb (bool_decide (Conv.status c = "deleted"))
      && bool_decide (Conv.agent_id c = agent_slug)
  end.

Definition get_thread_conversation (uid agent_slug thread_id : string)
    : M Database Conversation :=
  conversation ← get_conversation_by_thread_id thread_id;
  match conversation with
  | Some c =>
      if conversation_matches conversation uid agent_slug then mret c
      else raise (HTTPException 404 "对话线程不存在")
  | None => raise (HTTPException 404 "对话线程不存在")
  end.

Definition is_steerable_message_run (run : AgentRun) : M Database bool :=
  if negb (bool_decide (Run.status run = Running)) || negb (bool_decide (Run.run_type run = Chat))
  then mret false
  else
    request ← get_by_request_id (Run.request_id run);
    mret (match request with
          | None => false
          | Some r => bool_decide (Req.source r ∈ ["chat"; "channel"])
          end).

Definition get_queue_state (uid agent_slug thread_id : string) (head : option AgentRunRequest)
    : M Database (QueueStatus * QueueMeta) :=
  match head with
  | None => mret (QIdle, no_meta)
  | Some head =>
      active_run ← get_active_run_by_runtime_scope_for_user thread_id uid;
      match active_run with
      | Some _ => mret (QRunning, no_meta)
      | None =>
          latest_run ← get_latest_chat_or_resume_run uid agent_slug thread_id;
          match latest_run with
          | None => mret (QReady, no_meta)
          | Some latest =>
              if bool_decide (Run.status latest = Interrupted)
              then mret (QInterrupted, {| paused_reason := None;
                           blocking_run_id := Some (Run.id latest); can_continue := false |})
              else if bool_decide (Run.status latest ∈ [Failed; Cancelled])
              then match Run.finished_at latest with
                   | None => raise (RuntimeError "Terminal run is missing finished_at")
                   | Some finished_at =>
                       if (Req.created_at head <=? finished_at)%Z
                       then mret (QPaused, {| paused_reason := Some (Run.status latest);
                              blocking_run_id := Some (Run.id latest); can_continue := true |})
                       else mret (QReady, no_meta)
                   end
              else mret (QReady, no_meta)
          end
      end
  end.

(** * Dispatch *)

Section dispatch.
Context `{DispatchScope}.

(** The body of the savepoint. *)
Definition create_dispatched_run (head : AgentRunRequest) (binding : WorkdirBinding)
    (run_id scope_key : string) (now : datetime) : M Database unit :=
  _ ← create_run run_id (Req.conversation_thread_id head) (Some (Req.conversation_thread_id head))
        (Req.agent_slug head) (Req.uid head) (Req.request_id head)
        (json_or_empty (Req.input_payload head)) (Req.source head) (Req.channel head)
        (Req.external_id head) (Req.origin_metadata head) (Some (wb_conversation_id binding))
        None None Chat (Some (Req.input_message_id head)) now;
  _ ← bind_run_scope run_id scope_key (Req.conversation_thread_id head) now;
  _ ← modify (λ db, db <| DB.messages ::= alter
        (λ m, m <| Msg.run_id := Some run_id |> <| Msg.delivery_status := "dispatched" |>)
        (Req.input_message_id head) |>);
  _ ← mark_dispatched (Req.request_id head) run_id now;
  mret tt.

(** [run_id] is the fresh UUID of the new run. *)
Definition dispatch_locked_head (head : AgentRunRequest) (binding : WorkdirBinding)
    (run_id : string) (now : datetime) : M Database (option DispatchResult) :=
  scope_key ← resolve_dispatch_runtime_scope (Req.uid head) (Req.agent_slug head)
                (wb_project_id binding) (Req.conversation_thread_id head);
  catch_integrity
    (_ ← atomic (create_dispatched_run head binding run_id scope_key now);
     mret (Some {| dr_request_id := Req.request_id head; dr_run_id := run_id;
                   dr_workdir_binding := binding |}))
    (λ constraint_name,
       if negb (bool_decide (constraint_name = "uq_agent_runs_one_active_per_thread"))
       then raise (IntegrityError constraint_name)
       else mret None).

Definition dispatch_ready_head (uid agent_slug thread_id : string) (binding : WorkdirBinding)
    (expected_request_id : option string) (run_id : string) (now : datetime)
    : M Database (option DispatchResult) :=
  head ← get_queue_head uid agent_slug thread_id;
  match head with
  | None => mret None
  | Some head =>
      if match expected_request_id with
         | None => false
         | Some i => negb (bool_decide (Req.request_id head = i))
         end
      then mret None
      else
        state ← get_queue_state uid agent_slug thread_id (Some head);
        if negb (bool_decide (state.1 = QReady)) then mret None
        else dispatch_locked_head head binding run_id now
  end.

(** The transaction of [dispatch_next_request]; the run it returns is enqueued
    after the commit. *)
Definition dispatch_next_request (uid agent_slug thread_id run_id : string) (now : datetime)
    : M Database (option string) :=
  atomic (
    conversation ← lock_conversation_by_thread_id thread_id;
    match conversation with
    | None => mret None
    | Some c =>
        if negb (conversation_matches (Some c) uid agent_slug) then mret None
        else
          binding ← resolve_conversation_workdir_binding c uid None;
          active_run ← get_active_run_by_thread_for_user agent_slug thread_id uid;
          match active_run with
          | Some run =>
              mret (if bool_decide (Run.status run = Pending) then Some (Run.id run) else None)
          | None =>
              dispatch ← dispatch_ready_head uid agent_slug thread_id binding None run_id now;
              mret (dr_run_id <$> dispatch)
          end
    end).

Definition continue_thread_queue (uid agent_slug thread_id run_id : string) (now : datetime)
    : M Database DispatchResult :=
  conversation ← get_thread_conversation uid agent_slug thread_id;
  head ← get_queue_head uid agent_slug thread_id;
  match head with
  | None => raise (queue_conflict "queue_empty")
  | Some head =>
      state ← get_queue_state uid agent_slug thread_id (Some head);
      if bool_decide (state.1 = QRunning) then raise (queue_conflict "run_active")
      else if bool_decide (state.1 = QInterrupted) then raise (queue_conflict "run_interrupted")
      else if negb (bool_decide (state.1 = QPaused)) then raise (queue_conflict "queue_not_paused")
      else
        binding ← resolve_conversation_workdir_binding conversation uid None;
        dispatched ← dispatch_locked_head head binding run_id now;
        match dispatched with
        | Some d => mret d
        | None =>
            active_run ← get_active_run_by_thread_for_user agent_slug thread_id uid;
            match active_run with
            | Some _ => raise (queue_conflict "run_active")
            | None => raise (queue_conflict "queue_not_paused")
            end
        end
  end.

(** The threads [recover_pending_dispatches] tries again. *)
Definition recover_scopes (db : Database) : list (string * string * string) :=
  remove_dups
    (map (λ r, (Run.uid r, Run.agent_slug r, Run.conversation_thread_id r))
       (select (λ r, bool_decide (Run.status r = Pending)) (DB.runs db))
     ++ map (λ r, (Req.uid r, Req.agent_slug r, Req.conversation_thread_id r))
       (select (λ r, bool_decide (Req.status r = Queued)) (DB.run_requests db))).

(** One transaction per scope, in the order [gather] commits them; an exception
    of one is logged and does not reach the others.  [fresh] names the new runs. *)
Fixpoint recover_each (fresh : string * string * string → string) (now : datetime)
    (scopes : list (string * string * string)) : M Database (list string) :=
  match scopes with
  | [] => mret []
  | scope :: scopes => λ db,
      let '(uid, agent_slug, thread_id) := scope in
      match dispatch_next_request uid agent_slug thread_id (fresh scope) now db with
      | (Ret (Some run_id), db') =>
          (rest ← recover_each fresh now scopes; mret (run_id :: rest)) db'
      | (_, db') => recover_each fresh now scopes db'
      end
  end.

Definition recover_pending_dispatches (fresh : string * string * string → string)
    (now : datetime) : M Database (list string) :=
  scopes ← gets recover_scopes;
  recover_each fresh now scopes.

End dispatch.

(** * Steering and cancelling a queued request *)

Definition steer_queued_request (request_id current_uid : string) (now : datetime)
    : M Database RequestView :=
  existing ← get_by_request_id request_id;
  match existing with
  | None => raise (HTTPException 404 "request_not_found")
  | Some existing =>
      if negb (bool_decide (Req.uid existing = current_uid))
      then raise (HTTPException 404 "request_not_found")
      else
        _ ← get_thread_conversation (Req.uid existing) (Req.agent_slug existing)
              (Req.conversation_thread_id existing);
        request ← lock_by_request_id request_id;
        match request with
        | None => raise (HTTPException 404 "request_not_found")
        | Some request =>
            if negb (bool_decide (Req.uid request = current_uid))
            then raise (HTTPException 404 "request_not_found")
            else if is_steer request && bool_decide (Req.status request = Queued)
            then request_view request
            else if negb (bool_decide (Req.status request = Queued))
                    || negb (bool_decide (Req.queue_policy request = "enqueue"))
                    || negb (bool_decide (Req.source request = "chat"))
            then raise (queue_conflict "request_not_queued")
            else
              pending_steer ← get_pending_steer (Req.uid request) (Req.agent_slug request)
                                (Req.conversation_thread_id request);
              if match pending_steer with
                 | None => false
                 | Some p => negb (bool_decide (Req.request_id p = request_id))
                 end
              then raise (queue_conflict "steer_already_pending")
              else
                active_run ← get_active_run_by_thread_for_user (Req.agent_slug request)
                               (Req.conversation_thread_id request) (Req.uid request);
                steerable ← (match active_run with
                             | None => mret false
                             | Some run => is_steerable_message_run run
                             end);
                if negb steerable then raise (queue_conflict "run_not_steerable")
                else
                  let request := request <| Req.queue_policy := "steer" |>
                                         <| Req.updated_at := now |> in
                  _ ← put_request request;
                  request_view request
        end
  end.

Definition should_end_run_for_steer (run_id : string) : M Database bool :=
  run ← get_run run_id;
  match run with
  | None => mret false
  | Some run =>
      steerable ← is_steerable_message_run run;
      if negb steerable then mret false
      else
        request ← get_pending_steer (Run.uid run) (Run.agent_slug run)
                    (Run.conversation_thread_id run);
        mret (negb (bool_decide (request = None)))
  end.

Definition cancel_queued_request (request_id current_uid : string) (now : datetime)
    : M Database RequestStatus :=
  existing ← get_by_request_id request_id;
  match existing with
  | None => raise (HTTPException 404 "请求不存在")
  | Some existing =>
      if negb (bool_decide (Req.uid existing = current_uid))
      then raise (HTTPException 404 "请求不存在")
      else
        _ ← get_thread_conversation (Req.uid existing) (Req.agent_slug existing)
              (Req.conversation_thread_id existing);
        request ← lock_by_request_id request_id;
        match request with
        | None => raise (HTTPException 404 "请求不存在")
        | Some request =>
            if negb (bool_decide (Req.uid request = current_uid))
            then raise (HTTPException 404 "请求不存在")
            else if bool_decide (Req.status request = Dispatched)
            then raise (HTTPException 409 "request_already_dispatched")
            else if bool_decide (Req.status request ∈ REQUEST_TERMINAL_STATUSES)
            then mret (Req.status request)
            else
              active_run ← (if is_steer request
                            then get_active_run_by_thread_for_user (Req.agent_slug request)
                                   (Req.conversation_thread_id request) (Req.uid request)
                            else mret None);
              match active_run with
              | Some _ => raise (queue_conflict "steer_in_progress")
              | None =>
                  _ ← put_request (request <| Req.status := ReqCancelled |>
                                           <| Req.updated_at := now |>);
                  mret ReqCancelled
              end
        end
  end.

(** * Reading the queue *)

Definition get_request (request_id uid : string) : M Database (option AgentRunRequest) :=
  request ← get_by_request_id request_id;
  mret (match request with
        | Some r => if bool_decide (Req.uid r = uid) then Some r else None
        | None => None
        end).

(** The requests with their content and 1-based position, and the queue state. *)
Definition get_thread_queue_snapshot (uid agent_slug thread_id : string)
    : M Database (list (AgentRunRequest * string * nat) * (QueueStatus * QueueMeta)) :=
  _ ← get_thread_conversation uid agent_slug thread_id;
  items ← list_queued uid agent_slug thread_id;
  messages ← gets DB.messages;
  state ← get_queue_state uid agent_slug thread_id (head items);
  mret (imap (λ i r, (r, match messages !! Req.input_message_id r with
                         | Some m => Msg.content m
                         | None => ""
                         end, S i)) items, state).

(** One poll of [stream_request_events]: the event to send, the position now
    known to the client, and whether the stream ends. *)
Inductive StreamEvent :=
  | EvError
  | EvRunCreated (run_id : option string)
  | EvTerminal (status : RequestStatus)
  | EvPosition (position : nat).

Definition poll_request (request_id uid : string) (last_position : Z)
    : M Database (option StreamEvent * Z * bool) :=
  request ← get_by_request_id request_id;
  match request with
  | None => mret (Some EvError, last_position, true)
  | Some request =>
      if negb (bool_decide (Req.uid request = uid)) then mret (Some EvError, last_position, true)
      else if bool_decide (Req.status request = Dispatched)
      then mret (Some (EvRunCreated (Req.dispatched_run_id request)), last_position, true)
      else if bool_decide (Req.status request ∈ REQUEST_TERMINAL_STATUSES)
      then mret (Some (EvTerminal (Req.status request)), last_position, true)
      else
        position ← get_queue_position_for request;
        if (Z.of_nat position =? last_position)%Z then mret (None, last_position, false)
        else mret (Some (EvPosition position), Z.of_nat position, false)
  end.
