(* ===== verification/QueueSpec.v ===== *)
(** What the request queue guarantees: the order in which requests leave it, the
    position a client is shown, what a dispatch does, and the life of a request. *)

From stdpp Require Import prelude gmap strings list fin_maps relations.
From Stdlib Require Import ZArith Lia Sorting.Sorted.
From S2P Require Import Prelude Schema RunSpec RunRepo RunInv RunSafe RunLease Requests Queue.

(** * The invariant of the requests table *)

Definition same_thread (a b : AgentRunRequest) : Prop :=
  Req.uid a = Req.uid b ∧ Req.agent_slug a = Req.agent_slug b
  ∧ Req.conversation_thread_id a = Req.conversation_thread_id b.

(** A dispatched request names the run that executes it. *)
Definition dispatched_ok (db : Database) (r : AgentRunRequest) : Prop :=
  Req.status r = Dispatched → ∃ k run, Req.dispatched_run_id r = Some k
    ∧ DB.runs db !! k = Some run ∧ Run.request_id run = Req.request_id r
    ∧ Run.conversation_thread_id run = Req.conversation_thread_id r
    ∧ Run.uid run = Req.uid r.

Record qwf (db : Database) : Prop := {
  qwf_key : ∀ k r, DB.run_requests db !! k = Some r → Req.request_id r = k;
  qwf_ids : ∀ k1 k2 r1 r2, DB.run_requests db !! k1 = Some r1 →
    DB.run_requests db !! k2 = Some r2 → Req.id r1 = Req.id r2 → k1 = k2;
  qwf_next : ∀ k r, DB.run_requests db !! k = Some r → (Req.id r < DB.next_request_id db)%Z;
  qwf_steer : ∀ k1 k2 r1 r2, DB.run_requests db !! k1 = Some r1 →
    DB.run_requests db !! k2 = Some r2 → Req.status r1 = Queued → Req.status r2 = Queued →
    is_steer r1 = true → is_steer r2 = true → same_thread r1 r2 → k1 = k2;
  qwf_dispatched : ∀ k r, DB.run_requests db !! k = Some r → dispatched_ok db r
}.

Lemma queued_for_thread_spec u s t r :
  queued_for_thread u s t r = true ↔
  Req.uid r = u ∧ Req.agent_slug r = s ∧ Req.conversation_thread_id r = t
  ∧ Req.status r = Queued.
Proof. unfold queued_for_thread. rewrite !andb_true_iff, !bool_decide_eq_true. tauto. Qed.

Lemma elem_of_queue u s t db r :
  r ∈ queued_for_thread_query u s t db ↔
  queued_for_thread u s t r = true ∧ ∃ k, DB.run_requests db !! k = Some r.
Proof. unfold queued_for_thread_query. by rewrite elem_of_sort_by, elem_of_select. Qed.

(** * Order *)

(** [a] is served before [b]. *)
Definition served_before (a b : AgentRunRequest) : Prop :=
  (is_steer a = true ∧ is_steer b = false)
  ∨ (is_steer a = is_steer b ∧ created_before a b = true).

Lemma queue_leb_served a b :
  queue_leb a b = true → Req.id a ≠ Req.id b → served_before a b.
Proof.
  unfold queue_leb, served_before. intros Hle Hne.
  destruct (is_steer a), (is_steer b); simpl in *; auto; try done.
  all: right; split; [done|]; rewrite negb_true_iff, created_before_false in Hle;
    apply created_before_spec; lia.
Qed.

Lemma served_before_asym a b : served_before a b → served_before b a → False.
Proof.
  unfold served_before. intros [[Ha Hb]|[E Hc]] [[Hb' Ha']|[E' Hc']]; try congruence.
  rewrite created_before_spec in Hc, Hc'. lia.
Qed.

Definition is_first (db : Database) (u s t : string) (h : AgentRunRequest) : Prop :=
  queued_for_thread u s t h = true
  ∧ DB.run_requests db !! Req.request_id h = Some h
  ∧ ∀ k r, DB.run_requests db !! k = Some r → queued_for_thread u s t r = true →
      r = h ∨ served_before h r.

Lemma queue_head_first db u s t :
  qwf db →
  match get_queue_head u s t db with
  | (Ret (Some h), db') => db' = db ∧ is_first db u s t h
  | (Ret None, db') =>
      db' = db ∧ ∀ k r, DB.run_requests db !! k = Some r → queued_for_thread u s t r = false
  | (Raise _, _) => False
  end.
Proof.
  intros Hq. unfold get_queue_head, gets.
  destruct (queued_for_thread_query u s t db) as [|h l] eqn:E; simpl.
  - split; [done|]. intros k r Hr. destruct (queued_for_thread u s t r) eqn:Hf; [|done].
    assert (Hin : r ∈ queued_for_thread_query u s t db) by (apply elem_of_queue; eauto).
    rewrite E in Hin. by apply elem_of_nil in Hin.
  - split; [done|].
    assert (Hh : h ∈ queued_for_thread_query u s t db) by (rewrite E; by left).
    apply elem_of_queue in Hh as [Hf [k Hk]]. split; [done|].
    pose proof (qwf_key _ Hq k h Hk) as Ek. subst k. split; [done|].
    intros j r Hr Hfr. destruct (decide (Req.id h = Req.id r)) as [Ei|Hne].
    + left. pose proof (qwf_ids _ Hq _ _ _ _ Hk Hr Ei) as <-. congruence.
    + right. apply queue_leb_served; [|done].
      eapply sort_by_head_least; [apply queue_leb_total|apply queue_leb_trans|exact E|].
      apply elem_of_select. eauto.
Qed.

(** The head of a thread's queue is a queued request of the thread that is
    served before every other one: a steer request first, then by creation time
    and id; the queue has no head exactly when nothing is queued. *)
Theorem queue_head_is_first db u s t :
  qwf db →
  match get_queue_head u s t db with
  | (Ret (Some h), db') => db' = db ∧ is_first db u s t h
  | (Ret None, db') =>
      db' = db ∧ ∀ k r, DB.run_requests db !! k = Some r → queued_for_thread u s t r = false
  | (Raise _, _) => False
  end.
Proof. apply queue_head_first. Qed.

(** * Position *)

Lemma NoDup_queue db u s t : qwf db → NoDup (queued_for_thread_query u s t db).
Proof.
  intros Hq. unfold queued_for_thread_query. rewrite sort_by_perm. apply NoDup_select.
  intros k1 k2 r H1 H2. rewrite <- (qwf_key _ Hq k1 r H1). by apply (qwf_key _ Hq).
Qed.

Lemma filter_perm {A} (p : A → bool) (l l' : list A) :
  l ≡ₚ l' → List.filter p l ≡ₚ List.filter p l'.
Proof.
  induction 1; simpl; repeat case_match; auto; [by apply Permutation_swap|by etrans].
Qed.

Lemma length_filter_split {A} (p : A → bool) l1 l2 :
  (∀ x, x ∈ l1 → p x = true) → (∀ x, x ∈ l2 → p x = false) →
  length (List.filter p (l1 ++ l2)) = length l1.
Proof.
  intros H1 H2. rewrite List.filter_app, length_app.
  assert (E1 : List.filter p l1 = l1).
  { clear H2. induction l1 as [|x l1 IH]; [done|]. simpl.
    rewrite H1 by (by left). f_equal. apply IH. intros y Hy. apply H1. by right. }
  assert (E2 : List.filter p l2 = []).
  { clear H1 E1. induction l2 as [|x l2 IH]; [done|]. simpl.
    rewrite H2 by (by left). apply IH. intros y Hy. apply H2. by right. }
  rewrite E1, E2. simpl. lia.
Qed.

Lemma filter_andb {A} (p q : A → bool) l :
  List.filter (λ x, p x && q x) l = List.filter q (List.filter p l).
Proof.
  induction l as [|x l IH]; [done|]. simpl. destruct (p x); simpl; [|done].
  by rewrite IH.
Qed.

(** A sorted queue around one of its requests. *)
Lemma queue_around db u s t l1 r l2 :
  qwf db → queued_for_thread_query u s t db = l1 ++ r :: l2 →
  (∀ x, x ∈ l1 → x = r ∨ served_before x r) ∧ (∀ x, x ∈ l2 → x = r ∨ served_before r x).
Proof.
  intros Hq E.
  assert (Hne : ∀ x, x ∈ l1 ∨ x ∈ l2 → x = r ∨ Req.id x ≠ Req.id r).
  { intros x Hx. destruct (decide (Req.id x = Req.id r)) as [Ei|]; [left|by right].
    assert (Hxq : x ∈ queued_for_thread_query u s t db) by (rewrite E; set_solver).
    assert (Hrq : r ∈ queued_for_thread_query u s t db) by (rewrite E; set_solver).
    apply elem_of_queue in Hxq as [_ [k1 Hk1]]. apply elem_of_queue in Hrq as [_ [k2 Hk2]].
    pose proof (qwf_ids _ Hq _ _ _ _ Hk1 Hk2 Ei) as <-. congruence. }
  pose proof (sort_by_sorted queue_leb queue_leb_total queue_leb_trans
    (select (queued_for_thread u s t) (DB.run_requests db))) as Hs.
  fold (queued_for_thread_query u s t db) in Hs. rewrite E in Hs. split.
  - intros x Hx. destruct (Hne x (or_introl Hx)) as [->|Hi]; [by left|right].
    apply queue_leb_served; [|done].
    clear E Hne. induction l1 as [|y l1 IH]; [by apply elem_of_nil in Hx|].
    inversion Hs as [|? ? Hs' Hall]; subst. apply elem_of_cons in Hx as [->|Hx]; [|auto].
    eapply Forall_forall in Hall; [exact Hall|]. set_solver.
  - intros x Hx. destruct (Hne x (or_intror Hx)) as [->|Hi]; [by left|right].
    apply queue_leb_served; [|congruence].
    clear E Hne. induction l1 as [|y l1 IH]; inversion Hs as [|? ? Hs' Hall]; subst; [|auto].
    eapply Forall_forall in Hall; [exact Hall|done].
Qed.

Lemma created_before_irrefl r : created_before r r = false.
Proof. apply created_before_false. lia. Qed.

(** The position a client is shown is the place of its request in the queue,
    counted from 1. *)
Theorem queue_position_is_rank db u s t l1 r l2 :
  qwf db → queued_for_thread_query u s t db = l1 ++ r :: l2 →
  get_queue_position_for r db = (Ret (S (length l1)), db).
Proof.
  intros Hq E. destruct (queue_around db u s t l1 r l2 Hq E) as [Hbefore Hafter].
  assert (Hr : r ∈ queued_for_thread_query u s t db) by (rewrite E; set_solver).
  apply elem_of_queue in Hr as [Hf [k Hk]].
  pose proof Hf as (Eu & Es & Et & Hst)%queued_for_thread_spec.
  assert (Hdup : ∀ x, x ∈ l1 ++ r :: l2 → is_steer x = true → is_steer r = true → x = r).
  { intros x Hx Sx Sr. rewrite <- E in Hx. apply elem_of_queue in Hx as [Hfx [j Hj]].
    apply queued_for_thread_spec in Hfx as (? & ? & ? & ?).
    assert (j = k) as -> by (eapply (qwf_steer _ Hq j k x r); eauto;
      unfold same_thread; repeat split; congruence). congruence. }
  assert (Hnd : NoDup (l1 ++ r :: l2)).
  { rewrite <- E. apply NoDup_queue; done. }
  unfold get_queue_position_for. rewrite bool_decide_eq_true_2 by done. cbn [negb].
  destruct (is_steer r) eqn:Hsr.
  - assert (l1 = []) as ->; [|done]. destruct l1 as [|x l1]; [done|]. exfalso.
    destruct (Hbefore x) as [->|[[Sx Sr]|[Es' _]]]; [by left| |congruence|].
    + apply NoDup_cons in Hnd as [Hn _]. apply Hn. set_solver.
    + assert (x = r) as -> by (apply Hdup; [set_solver|congruence|done]).
      apply NoDup_cons in Hnd as [Hn _]. apply Hn. set_solver.
  - m_unfold. f_equal. f_equal. rewrite Eu, Es, Et.
    unfold select. rewrite (filter_andb (queued_for_thread u s t)).
    assert (P : List.filter (queued_for_thread u s t) (rows (DB.run_requests db))
      ≡ₚ l1 ++ r :: l2).
    { rewrite <- E. unfold queued_for_thread_query, select. by rewrite sort_by_perm. }
    rewrite (Permutation_length (filter_perm _ _ _ P)).
    rewrite length_filter_split; [lia|..].
    + intros x Hx. destruct (Hbefore x Hx) as [->|[[-> _]|[-> ->]]]; [|done|by rewrite Hsr].
      exfalso. apply NoDup_app in Hnd as (_ & Hn & _). apply (Hn r Hx). by left.
    + intros x [->|Hx]%elem_of_cons; [by rewrite Hsr, created_before_irrefl|].
      destruct (Hafter x Hx) as [->|[[Sr _]|[Es' Hc]]];
        [by rewrite Hsr, created_before_irrefl|congruence|].
      rewrite <- Es', Hsr. simpl. apply created_before_false.
      apply created_before_spec in Hc. lia.
Qed.

(** * Dispatching the head *)

Section dispatch.
Context `{DispatchScope}.

(** The run a dispatch creates for [head]. *)
Definition dispatched_run (head : AgentRunRequest) (binding : WorkdirBinding) (run_id : string)
    (run : AgentRun) : Prop :=
  Run.id run = run_id ∧ Run.status run = Pending ∧ Run.run_type run = Chat
  ∧ Run.request_id run = Req.request_id head ∧ Run.uid run = Req.uid head
  ∧ Run.agent_slug run = Req.agent_slug head
  ∧ Run.conversation_thread_id run = Req.conversation_thread_id head
  ∧ Run.input_message_id run = Some (Req.input_message_id head)
  ∧ Run.conversation_id run = Some (wb_conversation_id binding).

(** The tables a dispatch may write besides [runs]. *)
Definition dispatched_request (head : AgentRunRequest) (run_id : string) (now : datetime)
    : AgentRunRequest :=
  head <| Req.status := Dispatched |> <| Req.dispatched_run_id := Some run_id |>
       <| Req.dispatched_at := Some now |> <| Req.updated_at := now |>.

Definition dispatched_to (head : AgentRunRequest) (binding : WorkdirBinding) (run_id : string)
    (now : datetime) (db db' : Database) : Prop :=
  DB.runs db !! run_id = None
  ∧ (∃ run, dispatched_run head binding run_id run ∧ DB.runs db' = <[run_id := run]> (DB.runs db))
  ∧ (∀ k o, DB.runs db !! k = Some o → active o = true →
       thread_key o ≠ (Req.uid head, Req.agent_slug head, Req.conversation_thread_id head))
  ∧ DB.run_requests db'
    = <[Req.request_id head := dispatched_request head run_id now]> (DB.run_requests db)
  ∧ (∀ m, DB.messages db !! Req.input_message_id head = Some m →
       DB.messages db' !! Req.input_message_id head
       = Some (m <| Msg.run_id := Some run_id |> <| Msg.delivery_status := "dispatched" |>))
  ∧ DB.attempts db' = DB.attempts db ∧ DB.next_request_id db' = DB.next_request_id db
  ∧ DB.conversations db' = DB.conversations db.

Lemma bind_run_scope_spec k sk t now db :
  ∃ db', bind_run_scope k sk t now db = (Ret tt, db') ∧ core db' = core db
    ∧ DB.run_requests db' = DB.run_requests db ∧ DB.messages db' = DB.messages db
    ∧ DB.next_request_id db' = DB.next_request_id db ∧ DB.conversations db' = DB.conversations db.
Proof.
  unfold bind_run_scope. destruct (_ || _); [by exists db|].
  unfold upsert_scope, get_scope. m_unfold. eexists. split; [reflexivity|]. by repeat split.
Qed.

Lemma create_dispatched_run_spec head binding run_id sk now db :
  DB.run_requests db !! Req.request_id head = Some head → Req.status head = Queued →
  match create_dispatched_run head binding run_id sk now db with
  | (Ret _, db') => dispatched_to head binding run_id now db db'
  | (Raise e, _) => ∃ c, e = IntegrityError c
  end.
Proof.
  intros Hh Hst. unfold create_dispatched_run, create_run. cbv zeta.
  match goal with |- context [insert_run ?x] => set (r := x) end.
  destruct (insert_run_inv r db) as [[c E]|(E & Hs & Hn & Hq & Hu)];
    unfold mbind, M_bind at 1; m_unfold; rewrite E; [by exists c|].
  change (Run.id r) with run_id. set (db1 := with_run run_id r db).
  destruct (bind_run_scope_spec run_id sk (Req.conversation_thread_id head) now db1)
    as (db2 & -> & Ec & Er & Em & En & Eco).
  unfold mark_dispatched, lock_by_request_id, get_by_request_id. m_unfold. row_simpl.
  rewrite Er. change (DB.run_requests db1) with (DB.run_requests db).
  rewrite Hh, bool_decide_eq_true_2 by done. cbn [negb].
  change (put_request _ ?x) with (Ret tt, x <| DB.run_requests ::=
    <[Req.request_id head := dispatched_request head run_id now]> |>).
  cbn iota. injection Ec as Ec1 Ec2 Ec3.
  split; [exact Hn|]. split.
  { exists r. split; [by repeat split|]. row_simpl. by rewrite Ec1. }
  split; [intros k o; by apply Hu|].
  row_simpl. split; [by rewrite Er|]. split.
  { intros m Hm. rewrite Em. change (DB.messages db1) with (DB.messages db).
    by rewrite lookup_alter_eq, Hm. }
  split; [by rewrite Ec2|]. split; [by rewrite En|by rewrite Eco].
Qed.

Lemma dispatch_head_spec head binding run_id now db :
  DB.run_requests db !! Req.request_id head = Some head → Req.status head = Queued →
  match dispatch_locked_head head binding run_id now db with
  | (Ret (Some d), db') =>
      dr_request_id d = Req.request_id head ∧ dr_run_id d = run_id
      ∧ dispatched_to head binding run_id now db db'
  | (_, db') => db' = db
  end.
Proof.
  intros Hh Hst. unfold dispatch_locked_head, mbind, M_bind at 1.
  pose proof (scope_read_only (Req.uid head) (Req.agent_slug head) (wb_project_id binding)
    (Req.conversation_thread_id head) db) as Hro.
  destruct (resolve_dispatch_runtime_scope _ _ _ _ db) as [[sk|e] db0]; simpl in Hro;
    subst db0; [|done].
  pose proof (create_dispatched_run_spec head binding run_id sk now db Hh Hst) as Hs.
  unfold catch_integrity, atomic. m_unfold.
  destruct (create_dispatched_run head binding run_id sk now db) as [[[]|e] db'].
  - split; [done|]. split; [done|exact Hs].
  - destruct Hs as [c ->]. by destruct (negb _).
Qed.

(** Dispatching the locked head of a queue either creates one pending run with
    the request's identity, on a thread that had no active run, marks exactly that
    request dispatched to it and its message delivered, or changes nothing. *)
Theorem dispatch_head_outcome head binding run_id now db :
  DB.run_requests db !! Req.request_id head = Some head → Req.status head = Queued →
  match dispatch_locked_head head binding run_id now db with
  | (Ret (Some d), db') =>
      dr_request_id d = Req.request_id head ∧ dr_run_id d = run_id
      ∧ dispatched_to head binding run_id now db db'
  | (_, db') => db' = db
  end.
Proof. apply dispatch_head_spec. Qed.
End dispatch.

(** * The thread is ready when a request is dispatched *)

Lemma head_none {A} (l : list A) : head l = None ↔ l = [].
Proof. by destruct l. Qed.

Lemma selected_none {A} (leb : A → A → bool) p (m : gmap string A) :
  head (sort_by leb (select p m)) = None ↔ ∀ k a, m !! k = Some a → p a = false.
Proof.
  rewrite head_none. split.
  - intros E k a Ha. destruct (p a) eqn:Hp; [|done].
    assert (Hin : a ∈ sort_by leb (select p m)) by (apply elem_of_sort_by, elem_of_select; eauto).
    rewrite E in Hin. by apply elem_of_nil in Hin.
  - intros Hall. destruct (sort_by leb (select p m)) as [|a l] eqn:E; [done|].
    assert (Hin : a ∈ sort_by leb (select p m)) by (rewrite E; by left).
    apply elem_of_sort_by, elem_of_select in Hin as [Hp [k Hk]].
    by rewrite (Hall k a Hk) in Hp.
Qed.

(** The thread is idle: its sandbox scope holds no run that is active or waits for
    cleanup. *)
Definition scope_idle (db : Database) (uid thread_id : string) : Prop :=
  ∀ k r, DB.runs db !! k = Some r → Run.uid r = uid → Run.runtime_scope_id r = thread_id →
    active r = false ∧ Run.runtime_cleanup_pending r = false.

(** The newest chat or resume run of the thread neither waits for the user nor was
    stopped after [head] was queued. *)
Definition not_blocked (db : Database) (uid agent_slug thread_id : string)
    (head : AgentRunRequest) : Prop :=
  ∀ latest, get_latest_chat_or_resume_run uid agent_slug thread_id db = (Ret (Some latest), db) →
    Run.status latest ≠ Interrupted
    ∧ (Run.status latest = Failed ∨ Run.status latest = Cancelled →
       ∃ f, Run.finished_at latest = Some f ∧ (f < Req.created_at head)%Z).

Lemma get_queue_state_pure u s t h db :
  (get_queue_state u s t h db).2 = db.
Proof.
  unfold get_queue_state, get_active_run_by_runtime_scope_for_user,
    get_latest_chat_or_resume_run. m_unfold. repeat case_match; simplify_eq/=; done.
Qed.

Lemma latest_run_pure u s t db :
  ∃ o, get_latest_chat_or_resume_run u s t db = (Ret o, db).
Proof. unfold get_latest_chat_or_resume_run, gets. eauto. Qed.

Lemma queue_state_ready u s t h db m db' :
  get_queue_state u s t (Some h) db = (Ret (QReady, m), db') →
  scope_idle db u t ∧ not_blocked db u s t h.
Proof.
  unfold get_queue_state, get_active_run_by_runtime_scope_for_user. m_unfold.
  destruct (head _) as [a|] eqn:Ha; [by intros [= ? ?]|].
  intros Hst. split.
  - intros k r Hr Hu Ht. rewrite selected_none in Ha. specialize (Ha k r Hr).
    rewrite Ht, Hu, !bool_decide_eq_true_2 in Ha by done. simpl in Ha.
    by apply orb_false_iff in Ha.
  - unfold not_blocked. intros latest El. rewrite El in Hst. revert Hst.
    case_bool_decide as Hi; [done|]. intros Hst. split; [done|]. intros Hf.
    rewrite bool_decide_eq_true_2 in Hst by (destruct Hf as [-> | ->]; set_solver).
    destruct (Run.finished_at latest) as [f|]; [|done]. exists f. split; [done|].
    destruct (Z.leb_spec (Req.created_at h) f); [done|]. lia.
Qed.

Section ready.
Context `{DispatchScope}.

Lemma dispatch_ready_head_inv u s t binding expected run_id now db d db' :
  qwf db → dispatch_ready_head u s t binding expected run_id now db = (Ret (Some d), db') →
  ∃ h, get_queue_head u s t db = (Ret (Some h), db)
    ∧ (∀ i, expected = Some i → Req.request_id h = i)
    ∧ scope_idle db u t ∧ not_blocked db u s t h
    ∧ dispatched_to h binding run_id now db db'
    ∧ dr_request_id d = Req.request_id h ∧ dr_run_id d = run_id.
Proof.
  intros Hq. unfold dispatch_ready_head, mbind, M_bind.
  pose proof (queue_head_first db u s t Hq) as Hh.
  destruct (get_queue_head u s t db) as [[[h|]|e] db1]; [|done|done].
  destruct Hh as (-> & Hf & Hk & _). intros Hd.
  assert (Hexp : ∀ i, expected = Some i → Req.request_id h = i).
  { intros i ->. revert Hd. case_bool_decide; [done|]. done. }
  assert (Hd' : (let (o, s') := get_queue_state u s t (Some h) db in
    match o with
    | Ret a => (if negb (bool_decide (a.1 = QReady)) then mret None
                else dispatch_locked_head h binding run_id now) s'
    | Raise e => (Raise e, s')
    end) = (Ret (Some d), db')).
  { destruct expected as [i|]; [|exact Hd]. revert Hd. by rewrite (Hexp i eq_refl), bool_decide_eq_true_2. }
  clear Hd. pose proof (get_queue_state_pure u s t (Some h) db) as Hp.
  destruct (get_queue_state u s t (Some h) db) as [[[q m]|e] db2] eqn:Est; [|done].
  simpl in Hp. subst db2. destruct (decide (q = QReady)) as [->|Hne].
  2: { rewrite bool_decide_eq_false_2 in Hd' by done. done. }
  rewrite bool_decide_eq_true_2 in Hd' by done. cbn [negb] in Hd'.
  destruct (queue_state_ready _ _ _ _ _ _ _ Est) as [Hidle Hnb].
  apply queued_for_thread_spec in Hf as (_ & _ & _ & Hst).
  pose proof (dispatch_head_spec h binding run_id now db Hk Hst) as Hspec.
  rewrite Hd' in Hspec. destruct Hspec as (Er & Ed & Hto).
  exists h. auto 8.
Qed.
End ready.

(** * Dispatching the next request of a thread *)

Section next.
Context `{DispatchScope}.

Lemma dispatch_next_inv u s t run_id now db k db' :
  qwf db → dispatch_next_request u s t run_id now db = (Ret (Some k), db') →
  (db' = db ∧ ∃ run, get_active_run_by_thread_for_user s t u db = (Ret (Some run), db)
     ∧ Run.id run = k ∧ Run.status run = Pending)
  ∨ (k = run_id ∧ get_active_run_by_thread_for_user s t u db = (Ret None, db)
     ∧ ∃ h binding, get_queue_head u s t db = (Ret (Some h), db)
       ∧ scope_idle db u t ∧ not_blocked db u s t h ∧ dispatched_to h binding run_id now db db').
Proof.
  intros Hq. unfold dispatch_next_request, atomic, lock_conversation_by_thread_id. m_unfold.
  assert (Hc : (get_conversation_by_thread_id t db).2 = db).
  { unfold get_conversation_by_thread_id, scalar_one_or_none. m_unfold. by repeat case_match. }
  destruct (get_conversation_by_thread_id t db) as [[[c|]|e] db1]; simpl in Hc; subst db1;
    [|done|done].
  destruct (conversation_matches (Some c) u s); [|done]. cbn [negb].
  assert (Hb : (resolve_conversation_workdir_binding c u None db).2 = db).
  { unfold resolve_conversation_workdir_binding, workdir_binding_from_project,
      get_project_for_user. m_unfold. by repeat case_match. }
  destruct (resolve_conversation_workdir_binding c u None db) as [[b|e] db1];
    simpl in Hb; subst db1; [|done].
  destruct (get_active_run_by_thread_for_user s t u db) as [[[run|]|e] db1] eqn:Ea; [| |done].
  - assert (db1 = db) as -> by (revert Ea; unfold get_active_run_by_thread_for_user, gets; by intros [= _ ->]).
    case_bool_decide as Hp; [|done]. intros [= <- <-]. left. eauto.
  - assert (db1 = db) as -> by (revert Ea; unfold get_active_run_by_thread_for_user, gets; by intros [= _ ->]).
    destruct (dispatch_ready_head u s t b None run_id now db) as [[[d|]|e] db2] eqn:Ed;
      [|done|done]. cbn. intros [= <- <-]. right.
    destruct (dispatch_ready_head_inv _ _ _ _ _ _ _ _ _ _ Hq Ed)
      as (h & Hh & _ & Hidle & Hnb & Hto & _ & <-). split; [done|]. eauto 8.
Qed.

(** The run handed to the worker queue is either the thread's own active run,
    still waiting to be claimed, or a new run for the first request of the thread's
    queue, created while neither the thread nor its sandbox scope held an active
    run or a pending cleanup and the last run had not left the queue waiting for
    the user. *)
Theorem dispatch_next_only_when_ready u s t run_id now db k db' :
  qwf db → dispatch_next_request u s t run_id now db = (Ret (Some k), db') →
  (db' = db ∧ ∃ run, get_active_run_by_thread_for_user s t u db = (Ret (Some run), db)
     ∧ Run.id run = k ∧ Run.status run = Pending)
  ∨ (k = run_id ∧ get_active_run_by_thread_for_user s t u db = (Ret None, db)
     ∧ ∃ h binding, is_first db u s t h
       ∧ scope_idle db u t ∧ not_blocked db u s t h ∧ dispatched_to h binding run_id now db db').
Proof.
  intros Hq Hd. destruct (dispatch_next_inv _ _ _ _ _ _ _ _ Hq Hd)
    as [Hl|(Ek & Ea & h & b & Hh & Hr)]; [by left|right].
  split; [done|]. split; [done|]. exists h, b. split; [|done].
  pose proof (queue_head_first db u s t Hq) as Hf. rewrite Hh in Hf. apply Hf.
Qed.
End next.

(** * The life of a request *)

(** What identifies a request and where it came from. *)
Definition request_identity (r : AgentRunRequest) :=
  (Req.id r, Req.request_id r, Req.uid r, Req.agent_slug r, Req.conversation_thread_id r,
   Req.source r, Req.channel r, Req.external_id r, Req.input_message_id r, Req.created_at r).

(** A request keeps its identity, and once it left the queue it is frozen. *)
Definition request_evolves (r r' : AgentRunRequest) : Prop :=
  request_identity r' = request_identity r ∧ (Req.status r ≠ Queued → r' = r).

Definition requests_evolve (db db' : Database) : Prop :=
  ∀ k r, DB.run_requests db !! k = Some r →
    ∃ r', DB.run_requests db' !! k = Some r' ∧ request_evolves r r'.

Definition runs_kept (db db' : Database) : Prop :=
  ∀ k r, DB.runs db !! k = Some r → ∃ r', DB.runs db' !! k = Some r'
    ∧ Run.request_id r' = Run.request_id r
    ∧ Run.conversation_thread_id r' = Run.conversation_thread_id r ∧ Run.uid r' = Run.uid r.

#[global] Instance request_evolves_refl : Reflexive request_evolves.
Proof. intros r. by split. Qed.

#[global] Instance requests_evolve_refl : Reflexive requests_evolve.
Proof. intros db k r Hr. exists r. split; [done|]. reflexivity. Qed.

#[global] Instance requests_evolve_trans : Transitive requests_evolve.
Proof.
  intros db1 db2 db3 H1 H2 k r Hr. destruct (H1 k r Hr) as (r2 & Hr2 & E2 & S2).
  destruct (H2 k r2 Hr2) as (r3 & Hr3 & E3 & S3). exists r3. split; [done|]. split; [congruence|].
  intros N. specialize (S2 N). subst r2. auto.
Qed.

Lemma dispatched_ok_kept db db' r : runs_kept db db' → dispatched_ok db r → dispatched_ok db' r.
Proof.
  intros Hk Hd Hs. destruct (Hd Hs) as (k & run & E & Hr & E1 & E2 & E3).
  destruct (Hk k run Hr) as (run' & Hr' & F1 & F2 & F3). exists k, run'. repeat split; congruence.
Qed.

Lemma evolves_runs_kept db db' : evolves db db' → runs_kept db db'.
Proof.
  intros [He _] k r Hr. destruct (He k r Hr) as (r' & Hr' & [Hi _ _ _ _ _ _ _]).
  exists r'. unfold same_identity in Hi. tauto.
Qed.

(** Replacing one queued request. *)
Lemma qwf_put db db' r r' :
  qwf db → DB.run_requests db !! Req.request_id r = Some r → Req.status r = Queued →
  request_identity r' = request_identity r →
  DB.run_requests db' = <[Req.request_id r := r']> (DB.run_requests db) →
  DB.next_request_id db' = DB.next_request_id db → runs_kept db db' →
  dispatched_ok db' r' →
  (Req.status r' = Queued → is_steer r' = true → ∀ k o, DB.run_requests db !! k = Some o →
     Req.status o = Queued → is_steer o = true → same_thread o r → k = Req.request_id r) →
  qwf db' ∧ requests_evolve db db'.
Proof.
  intros [Hkey Hids Hnext Hsteer Hdis] Hr Hst Hid Er En Hkept Hok Hns.
  unfold request_identity in Hid.
  assert (Hl : ∀ k o, DB.run_requests db' !! k = Some o →
    (k = Req.request_id r ∧ o = r') ∨ (k ≠ Req.request_id r ∧ DB.run_requests db !! k = Some o)).
  { intros k o. rewrite Er, lookup_insert_Some. intros [[<- <-]|[? ?]]; auto. }
  assert (Hl2 : ∀ k o, DB.run_requests db' !! k = Some o → ∃ o0, DB.run_requests db !! k = Some o0
    ∧ Req.id o0 = Req.id o ∧ Req.request_id o0 = Req.request_id o ∧ same_thread o0 o).
  { intros k o Ho. apply Hl in Ho as [[-> ->]|[_ Ho]]; [exists r|exists o];
      unfold same_thread; repeat split; congruence. }
  split; [split|].
  - intros k o Ho. destruct (Hl2 k o Ho) as (o0 & Ho0 & _ & <- & _). by apply Hkey.
  - intros k1 k2 o1 o2 H1 H2 E. destruct (Hl2 _ _ H1) as (p1 & ? & ? & ?).
    destruct (Hl2 _ _ H2) as (p2 & ? & ? & ?). eapply Hids; eauto. congruence.
  - intros k o Ho. rewrite En. destruct (Hl2 k o Ho) as (o0 & Ho0 & <- & _). by eapply Hnext.
  - intros k1 k2 o1 o2 H1 H2 Q1 Q2 S1 S2 T.
    apply Hl in H1 as [[-> ->]|[N1 H1]]; apply Hl in H2 as [[-> ->]|[N2 H2]]; auto.
    + symmetry. eapply Hns; eauto. unfold same_thread in *. intuition congruence.
    + eapply Hns; eauto. unfold same_thread in *. intuition congruence.
    + eapply Hsteer; eauto.
  - intros k o Ho. apply Hl in Ho as [[-> ->]|[_ Ho]]; [done|].
    eapply dispatched_ok_kept; eauto.
  - intros k o Ho. rewrite Er. destruct (decide (k = Req.request_id r)) as [->|Hne].
    + exists r'. rewrite lookup_insert_eq. split; [done|].
      rewrite Hr in Ho. injection Ho as <-. split; [exact Hid|congruence].
    + exists o. rewrite lookup_insert_ne by done. split; [done|]. reflexivity.
Qed.

Lemma qwf_same db db' :
  qwf db → DB.run_requests db' = DB.run_requests db →
  DB.next_request_id db' = DB.next_request_id db → runs_kept db db' →
  qwf db' ∧ requests_evolve db db'.
Proof.
  intros [Hkey Hids Hnext Hsteer Hdis] Er En Hk. split; [split|]; rewrite ?Er, ?En; auto.
  - intros k r Hr. eapply dispatched_ok_kept; eauto.
  - intros k r Hr. rewrite Er. exists r. split; [done|]. reflexivity.
Qed.

(** * Steps of the queue *)

Section steps.
Context `{DispatchScope}.

(** A call of a queue service, the submission of a request (a steer request is
    accepted only when none is pending), or a change made by the run services. *)
Inductive qstep (db : Database) : Database → Prop :=
  | q_submit i u s t so ch ex om policy m pl st now :
      (policy = "steer" → get_pending_steer u s t db = (Ret None, db)) →
      st = Queued ∨ st = ReqRejected →
      qstep db (create_request i u s t so ch ex om policy m pl st now db).2
  | q_dispatch u s t k now : qstep db (dispatch_next_request u s t k now db).2
  | q_continue u s t k now : qstep db (atomic (continue_thread_queue u s t k now) db).2
  | q_steer i u now : qstep db (steer_queued_request i u now db).2
  | q_cancel i u now : qstep db (cancel_queued_request i u now db).2
  | q_runs db' : evolves db db' → DB.run_requests db' = DB.run_requests db →
      DB.next_request_id db' = DB.next_request_id db → qstep db db'.

Definition qsafe (db db' : Database) : Prop := qwf db' ∧ requests_evolve db db'.

Lemma qsafe_refl db : qwf db → qsafe db db.
Proof. intros Hq. split; [done|]. reflexivity. Qed.

Lemma request_view_pure r db : (request_view r db).2 = db.
Proof.
  unfold request_view, get_queue_position, get_by_request_id, get_queue_position_for. m_unfold.
  repeat case_match; simplify_eq/=; done.
Qed.

Lemma no_pending_steer u s t db :
  get_pending_steer u s t db = (Ret None, db) →
  ∀ k r, DB.run_requests db !! k = Some r → queued_for_thread u s t r = true → is_steer r = false.
Proof.
  unfold get_pending_steer, scalar_one_or_none. m_unfold. intros E k r Hr Hf.
  destruct (is_steer r) eqn:Hs; [|done]. exfalso.
  assert (Hin : r ∈ select (λ r, queued_for_thread u s t r && is_steer r) (DB.run_requests db)).
  { apply elem_of_select. rewrite Hf, Hs. eauto. }
  destruct (select _ _) as [|a [|b l]]; [by apply elem_of_nil in Hin|done|done].
Qed.

Lemma create_request_qsafe i u s t so ch ex om policy m pl st now db :
  qwf db → (policy = "steer" → get_pending_steer u s t db = (Ret None, db)) →
  st = Queued ∨ st = ReqRejected →
  qsafe db (create_request i u s t so ch ex om policy m pl st now db).2.
Proof.
  intros Hq Hsteer Hst. unfold create_request. m_unfold.
  case_bool_decide as Hi; [by apply qsafe_refl|]. apply eq_None_not_Some in Hi. cbv zeta.
  match goal with |- context [put_request ?x] => set (r := x) end. unfold put_request, modify.
  change (Req.request_id r) with i. cbn [snd].
  assert (Hpend : Req.status r = Queued → is_steer r = true →
    ∀ k o, DB.run_requests db !! k = Some o → Req.status o = Queued → same_thread o r →
      is_steer o = false).
  { intros _ Hsr k o Ho Hqo (E1 & E2 & E3). eapply (no_pending_steer u s t); [|exact Ho|].
    - apply Hsteer. by apply bool_decide_eq_true in Hsr.
    - apply queued_for_thread_spec. auto. }
  destruct Hq as [Hkey Hids Hnext Hst' Hdis].
  set (db' := _ <| DB.run_requests ::= _ |>).
  assert (Er : DB.run_requests db' = <[i := r]> (DB.run_requests db)) by done.
  assert (En : DB.next_request_id db' = Z.succ (DB.next_request_id db)) by done.
  assert (Hlt : ∀ k o, DB.run_requests db !! k = Some o → Req.id o ≠ Req.id r).
  { intros k o Ho E. apply Hnext in Ho. rewrite E in Ho. change (Req.id r) with (DB.next_request_id db) in Ho. lia. }
  split; [split|].
  - intros k o. rewrite Er, lookup_insert_Some. intros [[<- <-]|[_ Ho]]; [done|by apply Hkey].
  - intros k1 k2 o1 o2. rewrite Er, !lookup_insert_Some.
    intros [[<- <-]|[_ H1]] [[<- <-]|[_ H2]] E; auto; [|exfalso; by eapply Hlt|by eapply Hids].
    exfalso. by eapply Hlt.
  - intros k o. rewrite Er, En, lookup_insert_Some. intros [[<- <-]|[_ Ho]].
    + change (Req.id r) with (DB.next_request_id db). lia.
    + apply Hnext in Ho. lia.
  - intros k1 k2 o1 o2. rewrite Er, !lookup_insert_Some.
    intros [[<- <-]|[_ H1]] [[<- <-]|[_ H2]] Q1 Q2 S1 S2 T; auto; [| |by eapply Hst'].
    + exfalso. rewrite (Hpend Q1 S1 _ _ H2 Q2) in S2; [done|]. unfold same_thread in *. intuition congruence.
    + exfalso. rewrite (Hpend Q2 S2 _ _ H1 Q1) in S1; [done|]. unfold same_thread in *. intuition congruence.
  - intros k o. rewrite Er, lookup_insert_Some. intros [[<- <-]|[_ Ho]].
    + intros E. change (Req.status r) with st in E. destruct Hst; congruence.
    + apply (dispatched_ok_kept db); [intros j q Hj; by exists q|eauto].
  - intros k o Ho. rewrite Er. exists o. rewrite lookup_insert_ne; [split; [done|reflexivity]|].
    congruence.
Qed.

Lemma dispatched_to_qsafe h binding k now db db' :
  qwf db → DB.run_requests db !! Req.request_id h = Some h → Req.status h = Queued →
  dispatched_to h binding k now db db' → qsafe db db'.
Proof.
  intros Hq Hh Hst (Hn & (run & Hrun & Er) & _ & Eq & _ & _ & En & _).
  destruct Hrun as (Hid & Hrs & _ & Hreq & Hu & _ & Ht & _).
  eapply (qwf_put db db' h (dispatched_request h k now)); auto.
  - intros j r Hr. exists r. rewrite Er, lookup_insert_ne by congruence. auto.
  - intros _. exists k, run. split; [done|]. rewrite Er, lookup_insert_eq. auto.
  - done.
Qed.

(** A dispatch that creates no run changes nothing. *)
Definition unchanged_unless {A} (db : Database) (res : outcome (option A) * Database) : Prop :=
  match res with
  | (Ret (Some _), _) => True
  | (_, db') => db' = db
  end.

Lemma dispatch_ready_head_unchanged u s t b expected k now db :
  qwf db → unchanged_unless db (dispatch_ready_head u s t b expected k now db).
Proof.
  intros Hq. unfold dispatch_ready_head. m_unfold.
  pose proof (queue_head_first db u s t Hq) as Hh.
  destruct (get_queue_head u s t db) as [[[h|]|e] db1]; [|by destruct Hh as [-> _]|done].
  destruct Hh as (-> & Hf & Hk & _). apply queued_for_thread_spec in Hf as (_ & _ & _ & Hst).
  destruct (match expected with None => false | Some i => _ end); [done|].
  pose proof (get_queue_state_pure u s t (Some h) db) as Hp.
  destruct (get_queue_state u s t (Some h) db) as [[[q m]|e] db2]; simpl in Hp; subst db2; [|done].
  destruct (negb _); [done|].
  pose proof (dispatch_head_spec h b k now db Hk Hst) as Hspec.
  by destruct (dispatch_locked_head h b k now db) as [[[d|]|e] db'].
Qed.

Lemma conversation_pure t db : (get_conversation_by_thread_id t db).2 = db.
Proof.
  unfold get_conversation_by_thread_id, scalar_one_or_none. m_unfold. by repeat case_match.
Qed.

Lemma binding_pure c u db : (resolve_conversation_workdir_binding c u None db).2 = db.
Proof.
  unfold resolve_conversation_workdir_binding, workdir_binding_from_project,
    get_project_for_user. m_unfold. by repeat case_match.
Qed.

Lemma dispatch_next_unchanged u s t k now db :
  qwf db → unchanged_unless db (dispatch_next_request u s t k now db).
Proof.
  intros Hq. unfold dispatch_next_request, atomic, lock_conversation_by_thread_id. m_unfold.
  pose proof (conversation_pure t db) as Hc.
  destruct (get_conversation_by_thread_id t db) as [[[c|]|e] db1]; simpl in Hc; subst db1;
    [|done|done].
  destruct (conversation_matches (Some c) u s); [|done]. cbn [negb].
  pose proof (binding_pure c u db) as Hb.
  destruct (resolve_conversation_workdir_binding c u None db) as [[b|e] db1];
    simpl in Hb; subst db1; [|done].
  unfold get_active_run_by_thread_for_user, gets.
  destruct (head _) as [run|]; [by case_bool_decide|].
  pose proof (dispatch_ready_head_unchanged u s t b None k now db Hq) as Hun.
  by destruct (dispatch_ready_head u s t b None k now db) as [[[d|]|e] db2].
Qed.

Lemma dispatch_next_qsafe u s t k now db :
  qwf db → qsafe db (dispatch_next_request u s t k now db).2.
Proof.
  intros Hq. pose proof (dispatch_next_unchanged u s t k now db Hq) as Hun.
  destruct (dispatch_next_request u s t k now db) as [[[i|]|e] db'] eqn:E; simpl in *;
    [|subst; by apply qsafe_refl..].
  destruct (dispatch_next_inv _ _ _ _ _ _ _ _ Hq E)
    as [[-> _]|(_ & _ & h & b & Hh & _ & _ & Hto)]; [by apply qsafe_refl|].
  pose proof (queue_head_first db u s t Hq) as Hf. rewrite Hh in Hf.
  destruct Hf as (_ & Hf & Hk & _). apply queued_for_thread_spec in Hf as (_ & _ & _ & Hst).
  by eapply dispatched_to_qsafe.
Qed.

Lemma thread_conversation_pure u s t db : (get_thread_conversation u s t db).2 = db.
Proof.
  unfold get_thread_conversation. m_unfold. pose proof (conversation_pure t db) as Hc.
  destruct (get_conversation_by_thread_id t db) as [[[c|]|e] db1]; simpl in *; try done.
  by case_match.
Qed.

Lemma continue_qsafe u s t k now db :
  qwf db → qsafe db (atomic (continue_thread_queue u s t k now) db).2.
Proof.
  intros Hq. unfold atomic.
  destruct (continue_thread_queue u s t k now db) as [[d|e] db'] eqn:E;
    [|by apply qsafe_refl]. simpl. revert E. unfold continue_thread_queue. m_unfold.
  pose proof (thread_conversation_pure u s t db) as Hc.
  destruct (get_thread_conversation u s t db) as [[c|e] db1]; simpl in Hc; subst db1; [|done].
  pose proof (queue_head_first db u s t Hq) as Hh.
  destruct (get_queue_head u s t db) as [[[h|]|e] db1]; [|done|done].
  destruct Hh as (-> & Hf & Hk & _). apply queued_for_thread_spec in Hf as (_ & _ & _ & Hst).
  pose proof (get_queue_state_pure u s t (Some h) db) as Hp.
  destruct (get_queue_state u s t (Some h) db) as [[[q m]|e] db2]; simpl in Hp; subst db2; [|done].
  do 2 (case_bool_decide; [done|]). cbn [fst negb].
  destruct (bool_decide (q = QPaused)); [|done]. cbn [negb].
  pose proof (binding_pure c u db) as Hb.
  destruct (resolve_conversation_workdir_binding c u None db) as [[b|e] db1];
    simpl in Hb; subst db1; [|done].
  pose proof (dispatch_head_spec h b k now db Hk Hst) as Hspec.
  destruct (dispatch_locked_head h b k now db) as [[[d'|]|e] db2];
    [|unfold get_active_run_by_thread_for_user, gets; by destruct (head _)|done].
  intros [= _ <-]. destruct Hspec as (_ & _ & Hto). by eapply dispatched_to_qsafe.
Qed.

Lemma steerable_pure r db : (is_steerable_message_run r db).2 = db.
Proof. unfold is_steerable_message_run, get_by_request_id. m_unfold. by case_match. Qed.

Lemma pending_steer_pure u s t db : (get_pending_steer u s t db).2 = db.
Proof. unfold get_pending_steer, scalar_one_or_none. m_unfold. by repeat case_match. Qed.

(** No steer but [r] itself is pending, when [steer_queued_request] promotes [r]. *)
Lemma pending_steer_other u s t db p r :
  get_pending_steer u s t db = (Ret p, db) →
  match p with None => True | Some p => Req.request_id p = Req.request_id r end →
  ∀ k o, DB.run_requests db !! k = Some o → queued_for_thread u s t o = true →
    is_steer o = true → Req.request_id o = Req.request_id r.
Proof.
  unfold get_pending_steer, scalar_one_or_none. m_unfold. intros E Hp k o Ho Hf Hs.
  assert (Hin : o ∈ select (λ r, queued_for_thread u s t r && is_steer r) (DB.run_requests db)).
  { apply elem_of_select. rewrite Hf, Hs. eauto. }
  destruct (select _ _) as [|a [|b l]]; [by apply elem_of_nil in Hin| |done].
  injection E as <-. apply list_elem_of_singleton in Hin as ->. done.
Qed.

Lemma steer_qsafe i u now db : qwf db → qsafe db (steer_queued_request i u now db).2.
Proof.
  intros Hq. pose proof (qsafe_refl db Hq) as Hrefl.
  unfold steer_queued_request, lock_by_request_id, get_by_request_id. m_unfold.
  destruct (DB.run_requests db !! i) as [r|] eqn:Hr; [|done].
  destruct (bool_decide (Req.uid r = u)) eqn:Hu; [|done]. cbn [negb].
  pose proof (thread_conversation_pure (Req.uid r) (Req.agent_slug r)
    (Req.conversation_thread_id r) db) as Hc.
  destruct (get_thread_conversation _ _ _ db) as [[c|e] db1]; simpl in Hc; subst db1; [|done].
  rewrite Hr, Hu. cbn [negb].
  destruct (is_steer r && _).
  { by rewrite request_view_pure. }
  destruct (bool_decide (Req.status r = Queued)) eqn:Hst; [|done].
  destruct (negb true || _ || _); [done|]. apply bool_decide_eq_true in Hst.
  pose proof (pending_steer_pure (Req.uid r) (Req.agent_slug r) (Req.conversation_thread_id r) db)
    as Hp.
  destruct (get_pending_steer _ _ _ db) as [[p|e] db1] eqn:Ep; simpl in Hp; subst db1; [|done].
  destruct (match p with None => false | Some _ => _ end) eqn:Hother; [done|].
  unfold get_active_run_by_thread_for_user, gets.
  destruct (head _) as [run|]; [|done].
  pose proof (steerable_pure run db) as Hs.
  destruct (is_steerable_message_run run db) as [[b|e] db1]; simpl in Hs; subst db1; [|done].
  destruct b; [|done]. cbn [negb]. unfold put_request, modify.
  rewrite request_view_pure. pose proof (qwf_key _ Hq i r Hr) as <-.
  eapply (qwf_put db _ r (r <| Req.queue_policy := "steer" |> <| Req.updated_at := now |>)); auto.
  - intros j q Hj. by exists q.
  - intros E. change (Req.status r = Dispatched) in E. congruence.
  - intros _ _ k o Ho Hqo So (E1 & E2 & E3). rewrite <- (qwf_key _ Hq k o Ho).
    eapply (pending_steer_other _ _ _ _ _ _ Ep); [|exact Ho| |done].
    + destruct p as [p|]; [|done]. by apply negb_false_iff, bool_decide_eq_true in Hother.
    + apply queued_for_thread_spec. auto.
Qed.

Lemma cancel_qsafe i u now db : qwf db → qsafe db (cancel_queued_request i u now db).2.
Proof.
  intros Hq. pose proof (qsafe_refl db Hq) as Hrefl.
  unfold cancel_queued_request, lock_by_request_id, get_by_request_id. m_unfold.
  destruct (DB.run_requests db !! i) as [r|] eqn:Hr; [|done].
  destruct (bool_decide (Req.uid r = u)) eqn:Hu; [|done]. cbn [negb].
  pose proof (thread_conversation_pure (Req.uid r) (Req.agent_slug r)
    (Req.conversation_thread_id r) db) as Hc.
  destruct (get_thread_conversation _ _ _ db) as [[c|e] db1]; simpl in Hc; subst db1; [|done].
  rewrite Hr, Hu. cbn [negb].
  destruct (bool_decide (Req.status r = Dispatched)) eqn:Hd; [done|].
  destruct (bool_decide (Req.status r ∈ REQUEST_TERMINAL_STATUSES)) eqn:Ht; [done|].
  assert (Hst : Req.status r = Queued).
  { apply bool_decide_eq_false in Hd, Ht. unfold REQUEST_TERMINAL_STATUSES in Ht.
    rewrite !elem_of_cons in Ht. destruct (Req.status r); tauto. }
  assert (Hput : qsafe db (db <| DB.run_requests ::= <[Req.request_id r :=
    r <| Req.status := ReqCancelled |> <| Req.updated_at := now |>]> |>)).
  { pose proof (qwf_key _ Hq i r Hr) as <-.
    eapply (qwf_put db _ r (r <| Req.status := ReqCancelled |> <| Req.updated_at := now |>)); auto.
    - intros j q Hj. by exists q.
    - done.
    - done. }
  destruct (is_steer r); [|exact Hput].
  unfold get_active_run_by_thread_for_user, gets. destruct (head _) as [run|]; [done|exact Hput].
Qed.

(** C10: whatever the queue services do, a thread has at most one pending steer
    request, a dispatched request names the run created for it, every request keeps
    its identity, and one that left the queue is never changed again. *)
Theorem queue_steps_keep_requests db db' :
  qwf db → qstep db db' →
  qwf db' ∧ ∀ k r, DB.run_requests db !! k = Some r →
    ∃ r', DB.run_requests db' !! k = Some r' ∧ request_evolves r r'.
Proof.
  intros Hq. destruct 1.
  - by apply create_request_qsafe.
  - by apply dispatch_next_qsafe.
  - by apply continue_qsafe.
  - by apply steer_qsafe.
  - by apply cancel_qsafe.
  - apply qwf_same; auto. by apply evolves_runs_kept.
Qed.
End steps.

(** * A thread with an ordinary and a steer request *)

#[local] Instance shared_scope : DispatchScope := {|
  resolve_dispatch_runtime_scope := λ _ _ _ thread_id, mret thread_id;
  scope_read_only := λ _ _ _ _ _, eq_refl
|}.

Definition demo_thread : Database :=
  empty_database
    <| DB.conversations := {[7%Z := Conv.mk 7 "t1" "u1" "main" "active" "p1" None]} |>
    <| DB.projects := {["p1" := Proj.mk "p1" "u1" "work" "managed" "active"]} |>
    <| DB.messages := {[11%Z := demo_input]} |>.

Definition demo_enqueued : Database :=
  (create_request "q1" "u1" "main" "t1" "chat" "web" None (JObj []) "enqueue" 11 (JObj [])
     Queued 100 demo_thread).2.

Definition demo_queue : Database :=
  (create_request "q2" "u1" "main" "t1" "chat" "web" None (JObj []) "steer" 12 (JObj [])
     Queued 200 demo_enqueued).2.

Lemma demo_thread_qwf : qwf demo_thread.
Proof. split; intros *; intros H; done. Qed.

Lemma demo_enqueued_qwf : qwf demo_enqueued.
Proof. apply create_request_qsafe; [exact demo_thread_qwf|done|by left]. Qed.

Lemma demo_queue_qwf : qwf demo_queue.
Proof.
  apply create_request_qsafe; [exact demo_enqueued_qwf| |by left]. intros _. reflexivity.
Qed.

Lemma queue_head_is_first_witness :
  ∃ h, get_queue_head "u1" "main" "t1" demo_queue = (Ret (Some h), demo_queue)
    ∧ Req.request_id h = "q2" ∧ is_first demo_queue "u1" "main" "t1" h.
Proof.
  assert (H : ∃ h, get_queue_head "u1" "main" "t1" demo_queue = (Ret (Some h), demo_queue)
    ∧ Req.request_id h = "q2").
  { eexists. split; [reflexivity|reflexivity]. }
  destruct H as (h & E & Hid). exists h. split; [exact E|]. split; [exact Hid|].
  pose proof (queue_head_is_first demo_queue "u1" "main" "t1" demo_queue_qwf) as H.
  rewrite E in H. exact (proj2 H).
Defined.

Lemma queue_position_is_rank_witness :
  ∃ r, DB.run_requests demo_queue !! "q1" = Some r
    ∧ get_queue_position_for r demo_queue = (Ret 2, demo_queue).
Proof.
  assert (H : ∃ s r, DB.run_requests demo_queue !! "q1" = Some r
    ∧ queued_for_thread_query "u1" "main" "t1" demo_queue = [s] ++ r :: []).
  { eexists _, _. split; reflexivity. }
  destruct H as (s & r & Hr & E). exists r. split; [exact Hr|].
  exact (queue_position_is_rank demo_queue "u1" "main" "t1" [s] r [] demo_queue_qwf E).
Defined.

Lemma dispatch_head_outcome_witness :
  ∃ h d db', DB.run_requests demo_enqueued !! "q1" = Some h
    ∧ dispatch_locked_head h {| wb_conversation_id := 7; wb_thread_id := "t1"; wb_uid := "u1";
        wb_project_id := "p1"; wb_workdir_path := "work"; wb_directory_mode := "managed" |}
        "r1" 300 demo_enqueued = (Ret (Some d), db')
    ∧ dr_run_id d = "r1".
Proof.
  assert (H : ∃ h d db', DB.run_requests demo_enqueued !! "q1" = Some h
    ∧ Req.request_id h = "q1" ∧ Req.status h = Queued
    ∧ dispatch_locked_head h {| wb_conversation_id := 7; wb_thread_id := "t1"; wb_uid := "u1";
        wb_project_id := "p1"; wb_workdir_path := "work"; wb_directory_mode := "managed" |}
        "r1" 300 demo_enqueued = (Ret (Some d), db')).
  { eexists _, _, _. split; [reflexivity|]. split; [reflexivity|]. split; reflexivity. }
  destruct H as (h & d & db' & Hh & Hid & Hst & E). exists h, d, db'.
  split; [exact Hh|]. split; [exact E|].
  assert (Hh' : DB.run_requests demo_enqueued !! Req.request_id h = Some h) by (by rewrite Hid).
  pose proof (dispatch_head_outcome h {| wb_conversation_id := 7; wb_thread_id := "t1";
    wb_uid := "u1"; wb_project_id := "p1"; wb_workdir_path := "work";
    wb_directory_mode := "managed" |} "r1" 300 demo_enqueued Hh' Hst) as H.
  rewrite E in H. apply H.
Defined.

Lemma dispatch_next_only_when_ready_witness :
  ∃ db' h binding, dispatch_next_request "u1" "main" "t1" "r1" 300 demo_queue
      = (Ret (Some "r1"), db')
    ∧ is_first demo_queue "u1" "main" "t1" h ∧ dispatched_to h binding "r1" 300 demo_queue db'.
Proof.
  assert (H : ∃ db', dispatch_next_request "u1" "main" "t1" "r1" 300 demo_queue
    = (Ret (Some "r1"), db')) by (eexists; reflexivity).
  destruct H as [db' E].
  destruct (dispatch_next_only_when_ready _ _ _ _ _ _ _ _ demo_queue_qwf E)
    as [(_ & run & Hrun & _)|(_ & _ & h & b & Hf & _ & _ & Hto)]; [discriminate Hrun|].
  exists db', h, b. split; [exact E|]. split; [exact Hf|exact Hto].
Defined.

Lemma queue_steps_keep_requests_witness :
  qwf demo_queue ∧ qwf (steer_queued_request "q1" "u1" 300 demo_enqueued).2.
Proof.
  split; [exact demo_queue_qwf|].
  apply (queue_steps_keep_requests demo_enqueued); [exact demo_enqueued_qwf|apply q_steer].
Defined.
