(* ===== verification/Submission.v ===== *)
(** Submitting a request ([services/agent_request_service.py]): the idempotent entry of every
    message into the queue of its thread, with the parts of agent_run_service.py,
    conversation_repository.py and project_agent_service.py it calls.

    [submit_agent_request] is one transaction.  The conversation row is locked before the queue
    is read, so the submissions of a thread are serialised.  The agents a user sees, their
    backends, bindings and models are read through the interface [AgentCatalog].  A
    conversation's title and statistics are not kept. *)

From stdpp Require Import prelude gmap strings list fin_maps.
From Stdlib Require Import ZArith Lia.
From S2P Require Import Prelude Schema RunRepo Requests Queue.

(** * Inputs *)

Record RunOrigin := {
  origin_source : string;
  origin_channel : string;
  origin_external_id : option string;
  origin_metadata : list (string * json)
}.

(** [raw_message] is the dump of the LangChain message, when there is one. *)
Record AgentRunInputMessage := {
  im_content : string;
  im_message_type : string;
  im_image_content : option string;
  im_raw_message : option json
}.

Record AgentRequestInput := {
  ri_agent_slug : string;
  ri_thread_id : string;
  ri_request_id : string;
  ri_input_message : AgentRunInputMessage;
  ri_origin : RunOrigin;
  ri_request_metadata : json;
  ri_model_spec : option string;
  ri_tool_approval_mode : option string;
  ri_queue_policy : string;
  ri_create_conversation : bool;
  ri_conversation_project_id : option string
}.

(** What a submission asks of the agent and project services.  Creating an implicit project
    writes projects only. *)
Class AgentCatalog := {
  get_visible_main_agent : string → string → option string;
  agent_backend_known : string → bool;
  list_project_ids_for_agent : string → list string;
  configured_model : string → string → option string;
  configured_tool_approval_mode : string → string → option string;
  chat_model_known : string → bool;
  default_model : string;
  create_implicit_project : string → M Database Project;
  implicit_project_frame uid db :
    ∃ projects, (create_implicit_project uid db).2 = db <| DB.projects := projects |>
}.

(** * The configuration of a run *)

Section config.
Context `{AgentCatalog}.

Definition usable_text (v : option json) : option string :=
  match v with
  | Some (JStr s) => if blank s then None else Some (strip s)
  | _ => None
  end.

Definition resolve_agent_run_model_spec (requested_model : option json)
    (configured : option string) : M Database string :=
  let model_spec := match usable_text requested_model with
                    | Some m => m
                    | None => match usable_text (JStr <$> configured) with
                              | Some m => m
                              | None => strip default_model
                              end
                    end in
  if chat_model_known model_spec then mret model_spec
  else raise (HTTPException 422 "chat_model_not_found").

Definition TOOL_APPROVAL_MODES : list string := ["default"; "always_trust"].

Definition resolve_agent_run_tool_approval_mode (requested_mode configured_mode : option string)
    : M Database string :=
  let source := match requested_mode with
                | Some m => m
                | None => if falsy_str configured_mode then "default" else default "" configured_mode
                end in
  let mode := strip source in
  if bool_decide (mode ∈ TOOL_APPROVAL_MODES) then mret mode
  else raise (HTTPException 422 "不支持的 tool_approval_mode").

Definition resolve_agent_run_config (model_spec : option json) (tool_approval_mode : option string)
    (agent_slug project_id : string) : M Database (string * string) :=
  model ← resolve_agent_run_model_spec model_spec (configured_model agent_slug project_id);
  mode ← resolve_agent_run_tool_approval_mode tool_approval_mode
           (configured_tool_approval_mode agent_slug project_id);
  mret (model, mode).

(** [ensure_agent_project_scope], with its denial as the HTTP error. *)
Definition require_agent_project_scope (agent_slug project_id : string) : M Database unit :=
  let bound_project_ids := list_project_ids_for_agent agent_slug in
  if bool_decide (bound_project_ids = []) || bool_decide (project_id ∈ bound_project_ids)
  then mret tt
  else raise (HTTPException 403 "该智能体属于其他项目，不能在当前会话使用").
End config.

(** * The input message *)

Definition truthy_get (key : string) (v : json) : option json :=
  match jget key v with
  | Some x => if truthy x then Some x else None
  | None => None
  end.

Definition set_some (key : string) (value : option json) (v : json) : json :=
  match value with Some x => jset key x v | None => v end.

Definition build_message_metadata (request_id source : string) (message : AgentRunInputMessage)
    (meta : json) : json :=
  let metadata := JObj [("request_id", JStr request_id)] in
  let metadata := if bool_decide (source = "") then metadata
                  else jset "source" (JStr source) metadata in
  let metadata := set_some "channel" (truthy_get "channel" meta) metadata in
  let metadata := set_some "raw_message"
    (match im_raw_message message with
     | Some raw => if truthy raw then Some raw else None
     | None => None
     end) metadata in
  let metadata := set_some "attachment_file_ids" (truthy_get "attachment_file_ids" meta) metadata in
  let metadata := match jget "agent_invocation_meta" meta with
                  | Some (JObj l) => jset "agent_invocation_meta" (JObj l) metadata
                  | _ => metadata
                  end in
  match jget "tool_approval_mode" meta with
  | None | Some JNull => metadata
  | Some mode => jset "tool_approval_mode" mode metadata
  end.

(** [create_agent_run_input_message]: a user message of the conversation. *)
Definition create_agent_run_input_message (conversation_id : Z) (request_id : string)
    (message : AgentRunInputMessage) (metadata : json) (delivery_status : string)
    (now : datetime) : M Database Message :=
  id ← gets DB.next_message_id;
  conversation ← gets (λ db, DB.conversations db !! conversation_id);
  if bool_decide (conversation = None) then raise (IntegrityError "messages_conversation_id_fkey")
  else
    let row := {|
      Msg.id := id; Msg.conversation_id := conversation_id; Msg.role := "user";
      Msg.content := im_content message; Msg.message_type := im_message_type message;
      Msg.created_at := Some now; Msg.extra_metadata := Some metadata;
      Msg.image_content := im_image_content message; Msg.run_id := None;
      Msg.request_id := Some request_id; Msg.delivery_status := delivery_status;
      Msg.operation_id := None; Msg.started_at := None; Msg.finished_at := None;
      Msg.duration_ms := None; Msg.sequence := None; Msg.execution_status := None |} in
    _ ← modify (λ db, db <| DB.next_message_id ::= Z.succ |>);
    _ ← put_message row;
    mret row.

(** * Attachments and conversation metadata *)

Definition put_conversation_metadata (conversation_id : Z) (metadata : json) : M Database unit :=
  modify (λ db, db <| DB.conversations ::=
    alter (λ c, c <| Conv.extra_metadata := Some metadata |>) conversation_id |>).

(** [dict(conversation.extra_metadata or {})]. *)
Definition conversation_metadata (c : Conversation) : json :=
  json_or_empty (default JNull (Conv.extra_metadata c)).

(** On the row as the session holds it. *)
Definition set_model_spec (conversation_id : Z) (model_spec : string) : M Database unit :=
  conversation ← gets (λ db, DB.conversations db !! conversation_id);
  match conversation with
  | None => mret tt
  | Some c => put_conversation_metadata conversation_id
                (jset "model_spec" (JStr model_spec) (conversation_metadata c))
  end.

Definition is_dict (v : json) : bool := match v with JObj _ => true | _ => false end.

(** [_ensure_metadata]: the metadata and its attachments. *)
Definition ensure_metadata (c : Conversation) : M Database (json * list json) :=
  let metadata := conversation_metadata c in
  attachments ← (match jget "attachments" metadata with
                 | None => mret []
                 | Some (JArr l) => mret (List.filter is_dict l)
                 | Some (JObj _) | Some (JStr _) => mret []
                 | Some _ => raise (TypeError "object is not iterable")
                 end);
  mret (jset "attachments" (JArr attachments) metadata, attachments).

Definition hashable (v : option json) : bool :=
  match v with Some (JArr _) | Some (JObj _) => false | _ => true end.

Definition names_file (file_ids : list string) (item : json) : bool :=
  match jget "file_id" item with
  | Some (JStr s) => bool_decide (s ∈ file_ids)
  | _ => false
  end.

(** An attachment the request takes: one of its files that no request has. *)
Definition taken (file_ids : list string) (item : json) : bool :=
  names_file file_ids item
  && negb (match jget "request_id" item with Some r => truthy r | None => false end).

Definition has_request (request_id : string) (item : json) : bool :=
  match jget "request_id" item with
  | Some (JStr s) => bool_decide (s = request_id)
  | _ => false
  end.

Definition bind_attachments_to_request (conversation_id : Z) (request_id : string)
    (file_ids : list string) : M Database (list json) :=
  conversation ← gets (λ db, DB.conversations db !! conversation_id);
  match conversation with
  | None => mret []
  | Some c =>
      let file_id_set := List.filter (λ s, negb (bool_decide (s = ""))) (map strip file_ids) in
      if bool_decide (request_id = "") || bool_decide (file_id_set = []) then mret []
      else
        found ← ensure_metadata c;
        let '(metadata, attachments) := found in
        if negb (forallb (λ item, hashable (jget "file_id" item)) attachments)
        then raise (TypeError "unhashable type")
        else
          let bound := map (λ item, if taken file_id_set item
                                    then jset "request_id" (JStr request_id) item else item)
                         attachments in
          _ ← (if existsb (taken file_id_set) attachments
               then put_conversation_metadata conversation_id
                      (jset "attachments" (JArr bound) metadata)
               else mret tt);
          mret (List.filter (has_request request_id) bound)
  end.

(** * Persisting a request *)

Section submission.
Context `{DispatchScope} `{AgentCatalog} (container_text : json → string).

Fixpoint distinct_ids (seen : list string) (values : list json) : list string :=
  match values with
  | [] => []
  | v :: values =>
      let current := strip (str_of container_text v) in
      if bool_decide (current = "") || bool_decide (current ∈ seen) then distinct_ids seen values
      else current :: distinct_ids (current :: seen) values
  end.

Definition normalize_attachment_file_ids (value : option json) : list string :=
  match value with
  | Some (JArr l) => distinct_ids [] l
  | _ => []
  end.

(** The scope a request identifier is bound to. *)
Definition request_scope (r : AgentRunRequest) :=
  (Req.uid r, Req.agent_slug r, Req.conversation_thread_id r, Req.source r, Req.channel r,
   Req.external_id r).

Definition input_scope (input : AgentRequestInput) (uid : string) :=
  (uid, ri_agent_slug input, ri_thread_id input, origin_source (ri_origin input),
   origin_channel (ri_origin input), origin_external_id (ri_origin input)).

Definition validate_request_scope (r : AgentRunRequest) (input : AgentRequestInput)
    (uid : string) : M Database unit :=
  if bool_decide (request_scope r = input_scope input uid) then mret tt
  else raise (queue_conflict "request_id_conflict").

(** [existing_request] inside [_persist_request]. *)
Definition existing_request (input : AgentRequestInput) (uid : string)
    (binding : option WorkdirBinding) : M Database (option AgentRunRequest) :=
  if match binding with
     | Some b => negb (bool_decide (wb_uid b = uid))
                 || negb (bool_decide (wb_thread_id b = ri_thread_id input))
     | None => false
     end
  then raise (RuntimeError "传入的 Workdir 绑定与请求作用域不一致")
  else
    existing ← get_by_request_id (ri_request_id input);
    match existing with
    | None => mret None
    | Some r => _ ← validate_request_scope r input uid; mret (Some r)
    end.

Definition conversation_binding (conversation : Conversation) (uid : string)
    (binding : option WorkdirBinding) : M Database WorkdirBinding :=
  match binding with
  | None => resolve_conversation_workdir_binding conversation uid None
  | Some b =>
      if bool_decide (wb_uid b = uid)
         && bool_decide (wb_conversation_id b = Conv.id conversation)
         && bool_decide (wb_thread_id b = Conv.thread_id conversation)
         && bool_decide (wb_project_id b = Conv.project_id conversation)
      then mret b
      else raise (RuntimeError "传入的 Workdir 绑定与 Conversation 不一致")
  end.

(** The checks that need no write: the thread may take the request. *)
Definition check_thread_accepts (policy uid agent_slug thread_id : string)
    (active_run : option AgentRun) : M Database unit :=
  latest_run ← get_latest_chat_or_resume_run uid agent_slug thread_id;
  if match latest_run with
     | Some r => bool_decide (Run.status r = Interrupted)
     | None => false
     end
  then raise (queue_conflict "run_interrupted")
  else if negb (bool_decide (policy = "steer")) then mret tt
  else
    steerable ← (match active_run with
                 | Some run => is_steerable_message_run run
                 | None => mret true
                 end);
    if negb steerable then raise (queue_conflict "run_not_steerable")
    else
      pending ← get_pending_steer uid agent_slug thread_id;
      match pending with
      | Some _ => raise (queue_conflict "steer_already_pending")
      | None => mret tt
      end.

(** The model and the payload of a request that may be dispatched. *)
Definition resolve_input_payload (input : AgentRequestInput) (conversation : Conversation)
    : M Database (string * json) :=
  let requested := match usable_text (JStr <$> ri_model_spec input) with
                   | Some _ => JStr <$> ri_model_spec input
                   | None => jget "model_spec" (conversation_metadata conversation)
                   end in
  config ← resolve_agent_run_config requested (ri_tool_approval_mode input) (ri_agent_slug input)
             (Conv.project_id conversation);
  mret (config.1, JObj [("model_spec", JStr config.1); ("tool_approval_mode", JStr config.2)]).

Definition bind_request_attachments (conversation : Conversation) (request_id : string)
    (file_ids : list string) : M Database unit :=
  if bool_decide (file_ids = []) then mret tt
  else
    bound ← bind_attachments_to_request (Conv.id conversation) request_id file_ids;
    let bound_ids := map (λ item, str_of container_text (default JNull (jget "file_id" item))) bound in
    if forallb (λ f, bool_decide (f ∈ bound_ids)) file_ids then mret tt
    else raise (HTTPException 422 "附件不存在、已被使用或已被删除").

(** The savepoint: attachments, message and request. *)
Definition insert_request (input : AgentRequestInput) (uid policy : string)
    (conversation : Conversation) (rejected : bool) (input_payload : json) (now : datetime)
    : M Database AgentRunRequest :=
  let meta := ri_request_metadata input in
  let origin := ri_origin input in
  let file_ids := normalize_attachment_file_ids (jget "attachment_file_ids" meta) in
  _ ← (if rejected then mret tt
       else bind_request_attachments conversation (ri_request_id input) file_ids);
  message ← create_agent_run_input_message (Conv.id conversation) (ri_request_id input)
    (ri_input_message input)
    (build_message_metadata (ri_request_id input) (origin_source origin) (ri_input_message input) meta)
    (if rejected then "rejected" else "queued") now;
  create_request (ri_request_id input) uid (ri_agent_slug input) (ri_thread_id input)
    (origin_source origin) (origin_channel origin) (origin_external_id origin)
    (JObj (origin_metadata origin)) policy (Msg.id message) input_payload
    (if rejected then ReqRejected else Queued) now.

(** A request that asked to be rejected unless it runs at once, and did not run. *)
Definition reject_request (request_id : string) (now : datetime) : M Database unit :=
  request ← get_by_request_id request_id;
  match request with
  | None => mret tt
  | Some r =>
      _ ← put_request (r <| Req.status := ReqRejected |> <| Req.input_payload := JObj [] |>
                         <| Req.updated_at := now |>);
      modify (λ db, db <| DB.messages ::=
        alter (λ m, m <| Msg.delivery_status := "rejected" |>) (Req.input_message_id r) |>)
  end.

(** What happens after the savepoint: dispatching the head of the queue. *)
Definition dispatch_after_insert (input : AgentRequestInput) (uid policy : string)
    (conversation : Conversation) (binding : WorkdirBinding) (model_spec run_id : string)
    (now : datetime) : M Database (option DispatchResult) :=
  let request_id := ri_request_id input in
  let reject := bool_decide (policy = "reject") in
  _ ← (if reject then mret tt else set_model_spec (Conv.id conversation) model_spec);
  dispatched ← dispatch_ready_head uid (ri_agent_slug input) (ri_thread_id input) binding
                 (if reject then Some request_id else None) run_id now;
  if match dispatched with
     | Some d => bool_decide (dr_request_id d = request_id)
     | None => false
     end
  then _ ← (if reject then set_model_spec (Conv.id conversation) model_spec else mret tt);
       mret dispatched
  else _ ← (if reject then reject_request request_id now else mret tt);
       mret dispatched.

(** The request as the session holds it at the end. *)
Definition current_request (request : AgentRunRequest) : M Database AgentRunRequest :=
  row ← get_by_request_id (Req.request_id request);
  mret (default request row).

Definition persist_request (input : AgentRequestInput) (uid : string)
    (workdir_binding : option WorkdirBinding) (run_id : string) (now : datetime)
    : M Database (AgentRunRequest * option DispatchResult) :=
  let agent_slug := ri_agent_slug input in
  let thread_id := ri_thread_id input in
  policy ← validate_queue_policy (ri_queue_policy input);
  if bool_decide (policy = "steer")
     && negb (bool_decide (origin_source (ri_origin input) ∈ ["chat"; "channel"]))
  then raise (HTTPException 422 "queue_policy 'steer' 仅支持主会话 Chat/Channel")
  else
    replay ← existing_request input uid workdir_binding;
    match replay with
    | Some r => mret (r, None)
    | None =>
        conversation ← get_thread_conversation uid agent_slug thread_id;
        binding ← conversation_binding conversation uid workdir_binding;
        replay ← existing_request input uid (Some binding);
        match replay with
        | Some r => mret (r, None)
        | None =>
            existing_requests ← list_queued uid agent_slug thread_id;
            active_run ← get_active_run_by_thread_for_user agent_slug thread_id uid;
            _ ← check_thread_accepts policy uid agent_slug thread_id active_run;
            let rejected := bool_decide (policy = "reject")
              && (negb (bool_decide (active_run = None)) || negb (bool_decide (existing_requests = []))) in
            payload ← (if rejected then mret ("", JObj []) else resolve_input_payload input conversation);
            inserted ← catch_integrity
              (r ← atomic (insert_request input uid policy conversation rejected payload.2 now);
               mret (r, true))
              (λ constraint_name,
                 replay ← existing_request input uid (Some binding);
                 match replay with
                 | Some r => mret (r, false)
                 | None => raise (IntegrityError constraint_name)
                 end);
            let '(request, created) := inserted in
            if negb created || rejected then mret (request, None)
            else
              dispatched ← dispatch_after_insert input uid policy conversation binding payload.1
                             run_id now;
              request ← current_request request;
              mret (request, dispatched)
        end
    end.

(** * Submitting *)

Inductive SubmitResponse :=
  | RequestResponse (view : RequestView)
  | RunResponse (run : AgentRun).

Definition strip_external_id (external_id : option string) : option string :=
  match external_id with
  | Some e => if blank e then None else Some (strip e)
  | None => None
  end.

Definition check_origin (origin : RunOrigin) : M Database unit :=
  if blank (origin_source origin) || blank (origin_channel origin)
  then raise (HTTPException 422 "Run origin source/channel 不能为空")
  else if (32 <? Z.of_nat (String.length (origin_source origin)))%Z
  then raise (HTTPException 422 "Run origin source 不能超过 32 个字符")
  else if (32 <? Z.of_nat (String.length (origin_channel origin)))%Z
  then raise (HTTPException 422 "Run origin channel 不能超过 32 个字符")
  else mret tt.

Definition with_origin (origin : RunOrigin) (input : AgentRequestInput) : AgentRequestInput := {|
  ri_agent_slug := ri_agent_slug input;
  ri_thread_id := ri_thread_id input;
  ri_request_id := ri_request_id input;
  ri_input_message := ri_input_message input;
  ri_origin := origin;
  ri_request_metadata := ri_request_metadata input;
  ri_model_spec := ri_model_spec input;
  ri_tool_approval_mode := ri_tool_approval_mode input;
  ri_queue_policy := ri_queue_policy input;
  ri_create_conversation := ri_create_conversation input;
  ri_conversation_project_id := ri_conversation_project_id input
|}.

Definition with_request_metadata (meta : json) (input : AgentRequestInput) : AgentRequestInput := {|
  ri_agent_slug := ri_agent_slug input;
  ri_thread_id := ri_thread_id input;
  ri_request_id := ri_request_id input;
  ri_input_message := ri_input_message input;
  ri_origin := ri_origin input;
  ri_request_metadata := meta;
  ri_model_spec := ri_model_spec input;
  ri_tool_approval_mode := ri_tool_approval_mode input;
  ri_queue_policy := ri_queue_policy input;
  ri_create_conversation := ri_create_conversation input;
  ri_conversation_project_id := ri_conversation_project_id input
|}.

(** [ProjectRepository.lock_active_for_user]. *)
Definition lock_active_for_user (project_id uid : string) : M Database (option Project) :=
  gets (λ db, p ← DB.projects db !! project_id;
              if bool_decide (Proj.uid p = uid) && bool_decide (Proj.status p = "active")
              then Some p else None).

(** [ConversationRepository.add_conversation]: [fresh_id] is the next value of the sequence and
    [fresh_thread] the UUID of a conversation without a thread id. *)
Definition add_conversation (fresh_id : Z) (fresh_thread uid agent_id thread_id project_id : string)
    (metadata : json) : M Database Conversation :=
  let row := {|
    Conv.id := fresh_id;
    Conv.thread_id := if bool_decide (thread_id = "") then fresh_thread else thread_id;
    Conv.uid := uid; Conv.agent_id := agent_id; Conv.status := "active";
    Conv.project_id := project_id;
    Conv.extra_metadata := Some (jset "attachments" (JArr []) metadata) |} in
  conversations ← gets DB.conversations;
  project ← get_project_for_user project_id uid;
  if bool_decide (is_Some (conversations !! fresh_id)) then raise (IntegrityError "conversations_pkey")
  else if any (λ c, bool_decide (Conv.thread_id c = Conv.thread_id row)) conversations
  then raise (IntegrityError "ix_conversations_thread_id")
  else if bool_decide (project = None) then raise (IntegrityError "fk_conversations_project_uid")
  else
    _ ← modify (λ db, db <| DB.conversations ::= <[fresh_id := row]> |>);
    mret row.

Definition conversation_project (input : AgentRequestInput) (uid : string) : M Database Project :=
  match ri_conversation_project_id input with
  | Some i =>
      if bool_decide (i = "") then create_implicit_project uid
      else
        project ← lock_active_for_user i uid;
        match project with
        | Some p => mret p
        | None => raise (HTTPException 404 "Project 不存在或不可访问")
        end
  | None => create_implicit_project uid
  end.

Definition origin_keys : list string := ["source"; "channel"; "external_id"].

Definition strip_origin (origin : RunOrigin) : RunOrigin := {|
  origin_source := origin_source origin;
  origin_channel := origin_channel origin;
  origin_external_id := strip_external_id (origin_external_id origin);
  origin_metadata := List.filter (λ kv, negb (bool_decide (kv.1 ∈ origin_keys)))
                       (origin_metadata origin)
|}.

(** The thread's conversation, created when the entry asks for it.  A conflict means that
    another transaction created it; its project is then read again from the row. *)
Definition locate_conversation (input : AgentRequestInput) (agent_slug uid : string)
    (fresh_id : Z) (fresh_thread : string) : M Database (Conversation * option Project) :=
  found ← get_conversation_by_thread_id (ri_thread_id input);
  match found with
  | Some c => mret (c, None)
  | None =>
      if negb (ri_create_conversation input) then raise (HTTPException 404 "对话线程不存在")
      else
        let origin := ri_origin input in
        let metadata := jset "channel" (JStr (origin_channel origin))
          (jset "source" (JStr (origin_source origin)) (JObj (origin_metadata origin))) in
        catch_integrity
          (atomic (
             project ← conversation_project input uid;
             conversation ← add_conversation fresh_id fresh_thread uid agent_slug
                              (ri_thread_id input) (Proj.id project) metadata;
             mret (conversation, Some project)))
          (λ constraint_name,
             found ← get_conversation_by_thread_id (ri_thread_id input);
             match found with
             | Some c => mret (c, None)
             | None => raise (IntegrityError constraint_name)
             end)
  end.

Definition setdefault (metadata : json) (kv : string * json) : json :=
  match jget kv.1 metadata with
  | Some _ => metadata
  | None => jset kv.1 kv.2 metadata
  end.

Definition merged_request_metadata (input : AgentRequestInput) : json :=
  let origin := ri_origin input in
  fold_left setdefault (origin_metadata origin)
    (jset "channel" (JStr (origin_channel origin)) (json_or_empty (ri_request_metadata input))).

(** A request that was submitted before. *)
Definition replay_request (input : AgentRequestInput) (agent_slug uid : string)
    (request : AgentRunRequest) : M Database RequestView :=
  _ ← validate_request_scope request input uid;
  conversation ← get_conversation_by_thread_id (Req.conversation_thread_id request);
  match conversation with
  | Some c =>
      if negb (conversation_matches (Some c) uid (ri_agent_slug input))
      then raise (HTTPException 404 "对话线程不存在")
      else
        project ← get_project_for_user (Conv.project_id c) uid;
        if match project with
           | Some p => negb (bool_decide (Proj.status p = "active"))
           | None => true
           end
        then raise (HTTPException 404 "Project 不存在或不可访问")
        else
          _ ← require_agent_project_scope agent_slug (Conv.project_id c);
          request_view request
  | None => raise (HTTPException 404 "对话线程不存在")
  end.

(** A run without a request that has the request's identifier. *)
Definition replay_run (input : AgentRequestInput) (agent_slug uid : string) (run : AgentRun)
    : M Database AgentRun :=
  if negb (bool_decide (Run.uid run = uid))
     || negb (bool_decide (Run.agent_slug run = agent_slug))
     || negb (bool_decide (Run.run_type run = Chat))
     || (negb (bool_decide (ri_thread_id input = ""))
         && negb (bool_decide (Run.conversation_thread_id run = ri_thread_id input)))
  then raise (HTTPException 409 "request_id 冲突")
  else mret run.

(** A request that was never seen. *)
Definition submit_new (input : AgentRequestInput) (agent_slug uid : string) (fresh_id : Z)
    (fresh_thread run_id : string) (now : datetime) : M Database (RequestView * option DispatchResult) :=
  if negb (agent_backend_known agent_slug) then raise (HTTPException 404 "智能体后端不存在")
  else
    located ← locate_conversation input agent_slug uid fresh_id fresh_thread;
    let '(conversation, project) := located in
    _ ← require_agent_project_scope agent_slug (Conv.project_id conversation);
    binding ← resolve_conversation_workdir_binding conversation uid
      (match project with
       | Some p => if bool_decide (Proj.id p = Conv.project_id conversation) then project else None
       | None => None
       end);
    persisted ← persist_request (with_request_metadata (merged_request_metadata input) input) uid
                  (Some binding) run_id now;
    view ← request_view persisted.1;
    mret (view, persisted.2).

(** The response, and the dispatched run that is enqueued after the commit. *)
Definition submit_agent_request (input : AgentRequestInput) (uid : string) (fresh_id : Z)
    (fresh_thread run_id : string) (now : datetime)
    : M Database (SubmitResponse * option DispatchResult) :=
  atomic (
    _ ← check_origin (ri_origin input);
    match get_visible_main_agent (ri_agent_slug input) uid with
    | None => raise (HTTPException 404 "智能体不存在")
    | Some agent_slug =>
        let input := with_origin (strip_origin (ri_origin input)) input in
        existing ← get_by_request_id (ri_request_id input);
        match existing with
        | Some request =>
            view ← replay_request input agent_slug uid request;
            mret (RequestResponse view, None)
        | None =>
            existing_run ← get_run_by_request_id (ri_request_id input);
            match existing_run with
            | Some run =>
                run ← replay_run input agent_slug uid run;
                mret (RunResponse run, None)
            | None =>
                submitted ← submit_new input agent_slug uid fresh_id fresh_thread run_id now;
                mret (RequestResponse submitted.1, submitted.2)
            end
        end
    end).
End submission.
