(* ===== verification/SubmissionSpec.v ===== *)
(** What submitting a request guarantees: a request identifier is used once, a new request is
    queued, dispatched or rejected as its policy says, and the tables of the queue and of the
    runs keep their invariants. *)

From stdpp Require Import prelude gmap strings list fin_maps relations.
From Stdlib Require Import ZArith Lia.
From S2P Require Import Prelude Schema RunSpec RunRepo RunInv RunSafe RunLease Requests Queue.
From S2P Require Import QueueSpec Submission.

(** * Reads, and writes beside the runs and the queue *)

(** Runs, attempts and requests; a [quiet] function leaves them alone, a [reads] function
    leaves everything alone. *)
Definition aside (db : Database) :=
  (core db, DB.run_requests db, DB.next_request_id db).

Abbreviation quiet := (keeps aside).
Abbreviation reads := (keeps (λ db : Database, db)).

Lemma aside_core db db' : aside db' = aside db → core db' = core db.
Proof. unfold aside. congruence. Qed.

Lemma aside_requests db db' : aside db' = aside db → DB.run_requests db' = DB.run_requests db.
Proof. unfold aside. congruence. Qed.

Lemma aside_qsafe db db' : qwf db → aside db' = aside db → qsafe db db'.
Proof.
  unfold aside. intros Q [= E1 E2 E3]. apply qwf_same; [done|congruence|congruence|].
  intros k r Hr. exists r. by rewrite E1.
Qed.

Lemma safe_quiet {A} (m : M Database A) : quiet m → safe m.
Proof. intros Q. apply safe_core. intros db. by apply aside_core, Q. Qed.

Section reads.
Context {X : Type} (f : Database → X).
Implicit Types c : Conversation.

Lemma validate_policy_keeps p : keeps f (validate_queue_policy p).
Proof. unfold validate_queue_policy. quietly. Qed.
Lemma conversation_keeps t : keeps f (get_conversation_by_thread_id t).
Proof. apply keeps_pure, conversation_pure. Qed.
Lemma thread_conversation_keeps u s t : keeps f (get_thread_conversation u s t).
Proof. apply keeps_pure. apply thread_conversation_pure. Qed.
Lemma request_view_keeps r : keeps f (request_view r).
Proof. apply keeps_pure, request_view_pure. Qed.
Lemma steerable_keeps r : keeps f (is_steerable_message_run r).
Proof. apply keeps_pure, steerable_pure. Qed.
Lemma pending_steer_keeps u s t : keeps f (get_pending_steer u s t).
Proof. apply keeps_pure, pending_steer_pure. Qed.
Lemma get_request_keeps i : keeps f (get_by_request_id i).
Proof. done. Qed.
Lemma project_keeps p u : keeps f (get_project_for_user p u).
Proof. done. Qed.
Lemma run_by_request_keeps i : keeps f (get_run_by_request_id i).
Proof. unfold get_run_by_request_id, scalar_one_or_none. quietly. Qed.
Lemma latest_run_keeps u s t : keeps f (get_latest_chat_or_resume_run u s t).
Proof. done. Qed.
Lemma workdir_keeps c u p : keeps f (workdir_binding_from_project c u p).
Proof. unfold workdir_binding_from_project. quietly. Qed.
Lemma validate_scope_keeps r i u : keeps f (validate_request_scope r i u).
Proof. unfold validate_request_scope. quietly. Qed.
Lemma check_origin_keeps o : keeps f (check_origin o).
Proof. unfold check_origin. quietly. Qed.
Lemma replay_run_keeps i s u r : keeps f (replay_run i s u r).
Proof. unfold replay_run. quietly. Qed.
End reads.
#[export] Hint Resolve validate_policy_keeps conversation_keeps thread_conversation_keeps
  request_view_keeps steerable_keeps pending_steer_keeps get_request_keeps project_keeps
  run_by_request_keeps latest_run_keeps workdir_keeps validate_scope_keeps check_origin_keeps
  replay_run_keeps : quiet.

Lemma binding_quiet c u p : quiet (resolve_conversation_workdir_binding c u p).
Proof. unfold resolve_conversation_workdir_binding. quietly. Qed.
#[export] Hint Resolve binding_quiet : quiet.

Section submission.
Context `{DispatchScope} `{AgentCatalog} (container_text : json → string).

Lemma config_quiet m o s p : quiet (resolve_agent_run_config m o s p).
Proof.
  unfold resolve_agent_run_config, resolve_agent_run_model_spec,
    resolve_agent_run_tool_approval_mode. cbv zeta. quietly.
Qed.

Lemma project_scope_keeps {X} (f : Database → X) s p : keeps f (require_agent_project_scope s p).
Proof. unfold require_agent_project_scope. cbv zeta. quietly. Qed.
Hint Resolve project_scope_keeps : quiet.

Lemma replay_request_keeps {X} (f : Database → X) i s u r : keeps f (replay_request i s u r).
Proof. unfold replay_request. quietly. Qed.

Lemma set_metadata_quiet c v : quiet (put_conversation_metadata c v).
Proof. by apply keeps_modify. Qed.
Hint Resolve config_quiet set_metadata_quiet : quiet.

Lemma set_model_spec_quiet c v : quiet (set_model_spec c v).
Proof. unfold set_model_spec. quietly. Qed.

Lemma attachments_quiet c i fs : quiet (bind_attachments_to_request c i fs).
Proof. unfold bind_attachments_to_request, ensure_metadata. cbv zeta. quietly. Qed.

Hint Resolve set_model_spec_quiet attachments_quiet : quiet.

Lemma existing_quiet i u b : quiet (existing_request i u b).
Proof. unfold existing_request. quietly. Qed.

Lemma conversation_binding_quiet c u b : quiet (conversation_binding c u b).
Proof. unfold conversation_binding. quietly. Qed.

Lemma thread_accepts_quiet p u s t a : quiet (check_thread_accepts p u s t a).
Proof. unfold check_thread_accepts. quietly. Qed.

Lemma payload_quiet i c : quiet (resolve_input_payload i c).
Proof. unfold resolve_input_payload. cbv zeta. quietly. Qed.

Lemma request_attachments_quiet c i fs : quiet (bind_request_attachments container_text c i fs).
Proof. unfold bind_request_attachments. cbv zeta. quietly. Qed.

Lemma input_message_quiet c i m md d now : quiet (create_agent_run_input_message c i m md d now).
Proof.
  unfold create_agent_run_input_message, put_message. cbv zeta. quietly; by apply keeps_modify.
Qed.
Hint Resolve existing_quiet conversation_binding_quiet thread_accepts_quiet payload_quiet
  request_attachments_quiet input_message_quiet : quiet.

Lemma current_quiet r : quiet (current_request r).
Proof. unfold current_request. quietly. Qed.

Lemma implicit_project_quiet u : quiet (create_implicit_project u).
Proof. intros db. destruct (implicit_project_frame u db) as [p ->]. done. Qed.
Hint Resolve implicit_project_quiet : quiet.

Lemma conversation_project_quiet i u : quiet (conversation_project i u).
Proof. unfold conversation_project, lock_active_for_user. quietly. Qed.

Lemma add_conversation_quiet f ft u a t p md : quiet (add_conversation f ft u a t p md).
Proof. unfold add_conversation. cbv zeta. quietly; by apply keeps_modify. Qed.
Hint Resolve current_quiet replay_request_keeps conversation_project_quiet
  add_conversation_quiet : quiet.

Lemma locate_quiet i s u f ft : quiet (locate_conversation i s u f ft).
Proof. unfold locate_conversation. cbv zeta. quietly. Qed.
End submission.
#[export] Hint Resolve config_quiet project_scope_keeps set_metadata_quiet set_model_spec_quiet
  attachments_quiet existing_quiet conversation_binding_quiet
  thread_accepts_quiet payload_quiet request_attachments_quiet input_message_quiet current_quiet
  replay_request_keeps implicit_project_quiet
  conversation_project_quiet add_conversation_quiet locate_quiet : quiet.

(** * Inversions *)

Section inversions.
Context `{DispatchScope} `{AgentCatalog} (container_text : json → string).

Lemma validate_policy_inv p db a db' :
  validate_queue_policy p db = (Ret a, db') → a = p ∧ db' = db.
Proof. unfold validate_queue_policy, raise. repeat case_match; by intros [= <- <-]. Qed.

Lemma validate_scope_inv r i u db a db' :
  validate_request_scope r i u db = (Ret a, db') → request_scope r = input_scope i u ∧ db' = db.
Proof. unfold validate_request_scope, raise. case_bool_decide; by intros [= _ <-]. Qed.

Lemma existing_inv i u b db o db' :
  existing_request i u b db = (Ret o, db') →
  db' = db ∧ o = DB.run_requests db !! ri_request_id i
  ∧ ∀ r, o = Some r → request_scope r = input_scope i u.
Proof.
  unfold existing_request, raise. intros E.
  destruct (match b with Some _ => _ | None => _ end); [done|].
  unfold get_by_request_id in E. run E. injection R as <- <-.
  destruct (DB.run_requests db !! ri_request_id i) as [r|]; [|injection E as <- <-; done].
  run E. injection E as <- <-. apply validate_scope_inv in R as [Es ->].
  split; [done|]. split; [done|]. by intros ? [= <-].
Qed.

Lemma pending_none u s t db db' :
  DB.run_requests db' = DB.run_requests db →
  get_pending_steer u s t db = (Ret None, db) → get_pending_steer u s t db' = (Ret None, db').
Proof.
  intros E. unfold get_pending_steer, scalar_one_or_none, raise. m_unfold. rewrite E.
  by destruct (select _ _) as [|a [|b l]].
Qed.

Lemma thread_accepts_inv p u s t a db x db' :
  check_thread_accepts p u s t a db = (Ret x, db') →
  p = "steer" → get_pending_steer u s t db = (Ret None, db).
Proof.
  unfold check_thread_accepts, raise. intros E ->. run E. injection R as <- <-.
  destruct (match _ with Some r => _ | None => false end); [done|].
  rewrite bool_decide_eq_true_2 in E by done. cbn [negb] in E. run E.
  assert (s1 = db) as ->.
  { destruct a as [run|]; [|by injection R].
    pose proof (steerable_pure run db) as P. by rewrite R in P. }
  destruct a0; [|done]. cbn [negb] in E. run E.
  pose proof (pending_steer_pure u s t db) as P. rewrite R0 in P. simpl in P. subst s1.
  by destruct a0.
Qed.

(** The row [create] inserts. *)
Definition created_as (i u s t so ch : string) (ex : option string) (p : string) (m : Z) (pl : json)
    (st : RequestStatus) (r : AgentRunRequest) : Prop :=
  Req.request_id r = i ∧ request_scope r = (u, s, t, so, ch, ex) ∧ Req.queue_policy r = p
  ∧ Req.status r = st ∧ Req.input_message_id r = m ∧ Req.input_payload r = json_or_empty pl.

Lemma create_request_inv i u s t so ch ex om p m pl st now db r db' :
  create_request i u s t so ch ex om p m pl st now db = (Ret r, db') →
  DB.run_requests db !! i = None ∧ created_as i u s t so ch ex p m pl st r
  ∧ DB.run_requests db' = <[i := r]> (DB.run_requests db)
  ∧ DB.messages db' = DB.messages db ∧ core db' = core db.
Proof.
  unfold create_request, put_request, raise. intros E. run E. injection R as <- <-.
  run E. injection R as <- <-. case_bool_decide as N; [done|]. cbv zeta in E.
  run E. injection R as <- <-. run E. injection R as <- <-. injection E as <- <-.
  split; [by apply eq_None_not_Some|]. done.
Qed.

Lemma input_message_inv c i m md d now db row db' :
  create_agent_run_input_message c i m md d now db = (Ret row, db') →
  aside db' = aside db ∧ DB.messages db' !! Msg.id row = Some row ∧ Msg.delivery_status row = d.
Proof.
  intros E. split; [by eapply (keeps_inv aside); [apply input_message_quiet|]|].
  unfold create_agent_run_input_message, put_message, raise in E.
  run E. injection R as <- <-. run E. injection R as <- <-. case_bool_decide; [done|].
  cbv zeta in E. run E. injection R as <- <-. run E. injection R as <- <-. injection E as <- <-.
  split; [|done]. row_simpl. by rewrite lookup_insert_eq.
Qed.

Lemma insert_request_inv i u p c rej pl now db r db' :
  insert_request container_text i u p c rej pl now db = (Ret r, db') →
  ∃ db0 row, aside db0 = aside db ∧ DB.messages db0 !! Msg.id row = Some row
    ∧ Msg.delivery_status row = (if rej then "rejected" else "queued")
    ∧ create_request (ri_request_id i) u (ri_agent_slug i) (ri_thread_id i)
        (origin_source (ri_origin i)) (origin_channel (ri_origin i))
        (origin_external_id (ri_origin i)) (JObj (origin_metadata (ri_origin i))) p (Msg.id row) pl
        (if rej then ReqRejected else Queued) now db0 = (Ret r, db').
Proof.
  unfold insert_request. cbv zeta. intros E. run E. run E.
  apply input_message_inv in R0 as (A & M & D). exists s0, a0. split; [|done].
  rewrite A. eapply (keeps_inv aside); [|exact R]. destruct rej; auto with quiet.
Qed.

(** The paths of [persist_request]: a replay, or one insertion and what follows it. *)
Definition inserted (i : AgentRequestInput) (u : string) (c : Conversation) (rej : bool)
    (pl : json) (now : datetime) (db : Database) (r : AgentRunRequest) (db1 : Database) : Prop :=
  ∃ db0, aside db0 = aside db
    ∧ (ri_queue_policy i = "steer" →
         get_pending_steer u (ri_agent_slug i) (ri_thread_id i) db0 = (Ret None, db0))
    ∧ insert_request container_text i u (ri_queue_policy i) c rej pl now db0 = (Ret r, db1).

Lemma persist_inv i u b run_id now db r d db' :
  persist_request container_text i u b run_id now db = (Ret (r, d), db') →
  (DB.run_requests db !! ri_request_id i = Some r ∧ d = None ∧ aside db' = aside db)
  ∨ ∃ c wb rej pl r0 db1, inserted i u c rej pl.2 now db r0 db1
      ∧ ((rej = true ∧ ri_queue_policy i = "reject" ∧ pl = ("", JObj [])
          ∧ r = r0 ∧ d = None ∧ db' = db1)
         ∨ (rej = false ∧ ∃ db2,
              dispatch_after_insert i u (ri_queue_policy i) c wb pl.1 run_id now db1 = (Ret d, db2)
              ∧ current_request r0 db2 = (Ret r, db'))).
Proof.
  unfold persist_request. cbv zeta. intros E. run E. apply validate_policy_inv in R as [-> ->].
  destruct (_ && negb _); [done|]. run E. apply existing_inv in R as (-> & -> & _).
  destruct (DB.run_requests db !! ri_request_id i) as [old|] eqn:Old.
  { injection E as <- <- <-. by left. }
  run E. apply (keeps_inv aside) in R; [|auto with quiet]. run E. apply (keeps_inv aside) in R0; [|auto with quiet].
  run E. apply existing_inv in R1 as (-> & -> & _).
  assert (A1 : aside s0 = aside db) by congruence.
  rewrite (aside_requests _ _ A1), Old in E.
  run E. injection R1 as <- <-. run E. injection R1 as <- <-.
  run E. pose proof (thread_accepts_inv _ _ _ _ _ _ _ _ R1) as St.
  apply (keeps_inv aside) in R1; [|auto with quiet].
  set (rej := bool_decide (ri_queue_policy i = "reject") && _) in E.
  assert (Prej : rej = true → ri_queue_policy i = "reject").
  { unfold rej. intros [Hr _]%andb_true_iff. by apply bool_decide_eq_true in Hr. }
  clearbody rej. run E. assert (Pl : rej = true → a2 = ("", JObj [])).
  { intros Hr. rewrite Hr in R2. by injection R2. }
  apply (keeps_inv aside) in R2; [|destruct rej; auto with quiet].
  assert (A2 : aside s3 = aside db) by congruence.
  assert (St2 : ri_queue_policy i = "steer" →
    get_pending_steer u (ri_agent_slug i) (ri_thread_id i) s3 = (Ret None, s3)).
  { intros P. apply (pending_none _ _ _ s0); [by apply aside_requests; congruence|auto]. }
  apply bind_inv in E as ([r0 created] & db1 & C & E). unfold catch_integrity in C.
  destruct (insert_request container_text i u (ri_queue_policy i) a rej a2.2 now s3)
    as [[r1|e] db1'] eqn:I; unfold atomic, mbind, M_bind in C; rewrite I in C.
  - injection C as <- <- <-. right. exists a, a0, rej, a2, r1, db1'.
    split; [by exists s3|]. cbn [negb orb] in E. destruct rej.
    + left. injection E as <- <- <-. auto 8.
    + right. split; [done|]. run E. run E. injection E as <- <- <-. eauto.
  - left. destruct e; try done.
    destruct (existing_request i u (Some a0) s3) as [[o|e] db2] eqn:X; [|done].
    apply existing_inv in X as (-> & -> & _).
    rewrite (aside_requests _ _ A2), Old in C. done.
Qed.

(** * After the insertion *)

Lemma set_model_spec_inv c v db a db' :
  set_model_spec c v db = (Ret a, db') → aside db' = aside db ∧ DB.messages db' = DB.messages db.
Proof.
  unfold set_model_spec, put_conversation_metadata. intros E. run E. injection R as <- <-.
  case_match; by injection E as _ <-.
Qed.

Definition rejected_request (r : AgentRunRequest) (now : datetime) : AgentRunRequest :=
  r <| Req.status := ReqRejected |> <| Req.input_payload := JObj [] |> <| Req.updated_at := now |>.

Lemma reject_request_inv k r now db a db' :
  qwf db → DB.run_requests db !! k = Some r → Req.status r = Queued →
  reject_request k now db = (Ret a, db') →
  qsafe db db' ∧ DB.run_requests db' !! k = Some (rejected_request r now)
  ∧ ∀ m, DB.messages db !! Req.input_message_id r = Some m →
      DB.messages db' !! Req.input_message_id r = Some (m <| Msg.delivery_status := "rejected" |>).
Proof.
  intros Hq Hr St. pose proof (qwf_key _ Hq _ _ Hr) as Ek.
  unfold reject_request, get_by_request_id, put_request. intros E. run E. injection R as <- <-.
  rewrite Hr in E. run E. injection R as _ <-. injection E as _ <-. fold (rejected_request r now).
  change (Req.request_id _) with (Req.request_id r). split; [|split].
  - eapply (qwf_put db _ r (rejected_request r now)); auto; try done; [by rewrite Ek|].
    intros j q Hj. by exists q.
  - row_simpl. rewrite Ek. by rewrite lookup_insert_eq.
  - intros m Hm. row_simpl. by rewrite lookup_alter_eq, Hm.
Qed.

(** A dispatch of [h] to the run [run_id], as the tables show it. *)
Definition dispatch_shown (h : AgentRunRequest) (run_id : string) (now : datetime)
    (db db' : Database) : Prop :=
  DB.runs db !! run_id = None
  ∧ (∃ run, DB.runs db' !! run_id = Some run ∧ Run.status run = Pending
       ∧ Run.request_id run = Req.request_id h ∧ Run.uid run = Req.uid h
       ∧ Run.agent_slug run = Req.agent_slug h
       ∧ Run.conversation_thread_id run = Req.conversation_thread_id h)
  ∧ DB.run_requests db'
    = <[Req.request_id h := dispatched_request h run_id now]> (DB.run_requests db)
  ∧ ∀ m, DB.messages db !! Req.input_message_id h = Some m →
      DB.messages db' !! Req.input_message_id h
      = Some (m <| Msg.run_id := Some run_id |> <| Msg.delivery_status := "dispatched" |>).

Lemma dispatched_to_shown h b k now db db' :
  dispatched_to h b k now db db' → dispatch_shown h k now db db'.
Proof.
  intros (N & (run & Hr & Er) & _ & Eq & Em & _). split; [done|]. split; [|done].
  exists run. rewrite Er, lookup_insert_eq. unfold dispatched_run in Hr. intuition congruence.
Qed.

Lemma dispatch_shown_aside h k now db db1 db2 db3 :
  aside db1 = aside db → DB.messages db1 = DB.messages db →
  aside db3 = aside db2 → DB.messages db3 = DB.messages db2 →
  dispatch_shown h k now db1 db2 → dispatch_shown h k now db db3.
Proof.
  unfold aside, dispatch_shown. intros [= E1 _ _ E2 _] M1 [= F1 _ _ F2 _] M2.
  by rewrite <- E1, <- E2, <- M1, F1, F2, M2.
Qed.

Definition after_insert (i : AgentRequestInput) (u p run_id : string) (r : AgentRunRequest)
    (now : datetime) (d : option DispatchResult) (db db' : Database) : Prop :=
  match d with
  | Some x => ∃ h, dr_run_id x = run_id ∧ dr_request_id x = Req.request_id h
      ∧ is_first db u (ri_agent_slug i) (ri_thread_id i) h
      ∧ (p = "reject" → Req.request_id h = ri_request_id i) ∧ dispatch_shown h run_id now db db'
  | None =>
      if bool_decide (p = "reject")
      then DB.run_requests db' !! ri_request_id i = Some (rejected_request r now)
           ∧ ∀ m, DB.messages db !! Req.input_message_id r = Some m →
               DB.messages db' !! Req.input_message_id r
               = Some (m <| Msg.delivery_status := "rejected" |>)
      else DB.run_requests db' = DB.run_requests db
  end.

Lemma is_first_requests db db' u s t h :
  DB.run_requests db' = DB.run_requests db → is_first db' u s t h → is_first db u s t h.
Proof. unfold is_first. by intros ->. Qed.

#[global] Instance qsafe_trans : Transitive qsafe.
Proof.
  intros a b c [Qb Eb] [Qc Ec]. split; [done|]. intros k r Hr.
  destruct (Eb k r Hr) as (r1 & H1 & I1 & F1). destruct (Ec k r1 H1) as (r2 & H2 & I2 & F2).
  exists r2. split; [done|]. split; [congruence|]. intros N. specialize (F1 N) as ->. by apply F2.
Qed.

Lemma ready_head_qsafe u s t b e k now db d db' :
  qwf db → dispatch_ready_head u s t b e k now db = (Ret d, db') → qsafe db db'.
Proof.
  intros Hq E. destruct d as [x|].
  - destruct (dispatch_ready_head_inv _ _ _ _ _ _ _ _ _ _ Hq E) as (h & Hh & _ & _ & _ & Hto & _).
    pose proof (queue_head_first db u s t Hq) as Hf. rewrite Hh in Hf.
    destruct Hf as (_ & Hf & Hk & _). apply queued_for_thread_spec in Hf as (_ & _ & _ & Hst).
    by eapply dispatched_to_qsafe.
  - pose proof (dispatch_ready_head_unchanged u s t b e k now db Hq) as U. rewrite E in U.
    simpl in U. subst. by apply qsafe_refl.
Qed.

Lemma dispatch_after_inv i u p c wb model run_id now r d db db' :
  qwf db → DB.run_requests db !! ri_request_id i = Some r → Req.status r = Queued →
  dispatch_after_insert i u p c wb model run_id now db = (Ret d, db') →
  qsafe db db' ∧ after_insert i u p run_id r now d db db'.
Proof.
  intros Hq Hr St. unfold dispatch_after_insert. cbv zeta. intros E.
  run E. assert (A1 : aside s1 = aside db ∧ DB.messages s1 = DB.messages db).
  { case_bool_decide; [by injection R as _ <-|by eapply set_model_spec_inv]. }
  clear R. destruct A1 as [A1 M1]. assert (Q1 : qsafe db s1) by (by apply aside_qsafe).
  pose proof (aside_requests _ _ A1) as R1. destruct Q1 as [Hq1 Ev1].
  run E. pose proof (ready_head_qsafe _ _ _ _ _ _ _ _ _ _ Hq1 R) as Q2.
  destruct a0 as [x|].
  - destruct (dispatch_ready_head_inv _ _ _ _ _ _ _ _ _ _ Hq1 R)
      as (h & Hh & Hex & _ & _ & Hto & Ex & Ek).
    pose proof (queue_head_first s1 u (ri_agent_slug i) (ri_thread_id i) Hq1) as Hf.
    rewrite Hh in Hf. destruct Hf as [_ Hf].
    assert (Hrej : p = "reject" → Req.request_id h = ri_request_id i).
    { intros ->. apply Hex. by rewrite bool_decide_eq_true_2. }
    assert (A2 : d = Some x ∧ aside db' = aside s0 ∧ DB.messages db' = DB.messages s0).
    { destruct (bool_decide (dr_request_id x = _)) eqn:D.
      - run E. injection E as <- <-. split; [done|].
        case_bool_decide; [by eapply set_model_spec_inv|by injection R0 as _ <-].
      - run E. injection E as <- <-. split; [done|]. case_bool_decide as P; [|by injection R0 as _ <-].
        exfalso. apply bool_decide_eq_false in D. apply D. rewrite Ex. auto. }
    destruct A2 as (-> & A2 & M2). split.
    + etrans; [by split|]. etrans; [exact Q2|]. apply aside_qsafe; [by apply Q2|done].
    + exists h. split; [done|]. split; [done|]. split; [by eapply is_first_requests|]. split; [done|].
      apply (dispatch_shown_aside h run_id now db s1 s0 db'); auto. by eapply dispatched_to_shown.
  - pose proof (dispatch_ready_head_unchanged u (ri_agent_slug i) (ri_thread_id i) wb
      (if bool_decide (p = "reject") then Some (ri_request_id i) else None) run_id now s1 Hq1) as U.
    rewrite R in U. simpl in U. subst s0. run E. injection E as <- <-.
    unfold after_insert. case_bool_decide as P.
    + rewrite <- R1 in Hr. destruct (reject_request_inv _ _ _ _ _ _ Hq1 Hr St R0) as (Q3 & Hr3 & Hm).
      split; [etrans; [by split|done]|]. rewrite M1 in Hm. done.
    + injection R0 as _ <-. split; [by split|done].
Qed.
End inversions.
