(* ===== verification/SubmissionProps.v ===== *)
(** The submission properties: the outcome of a submission, its effect on the run and queue
    tables, and that submitting again changes nothing. *)

From stdpp Require Import prelude gmap strings list fin_maps relations.
From Stdlib Require Import ZArith Lia.
From S2P Require Import Prelude Schema RunSpec RunRepo RunInv RunSafe RunLease Requests Queue.
From S2P Require Import QueueSpec Submission SubmissionSpec.

(** * The run tables stay well formed *)

Lemma safe_atomic {A} (m : M Database A) : safe m → safe (atomic m).
Proof.
  intros Hm db Hwf. unfold atomic. pose proof (Hm db Hwf) as S.
  destruct (m db) as [[a|e] db1]; [done|]. split; [done|reflexivity].
Qed.

Lemma safe_catch {A} (m : M Database A) h :
  safe m → (∀ c, safe (h c)) → safe (catch_integrity m h).
Proof.
  intros Hm Hh db Hwf. unfold catch_integrity. destruct (Hm db Hwf) as [W E].
  destruct (m db) as [[a|e] db1]; [done|]. simpl in W, E. destruct e; try done.
  destruct (Hh constraint_name db1 W). split; [done|]. by etrans.
Qed.
#[export] Hint Resolve safe_atomic safe_catch safe_create_run : safe.

Lemma safe_create_request i u s t so ch ex om p m pl st now :
  safe (create_request i u s t so ch ex om p m pl st now).
Proof. apply safe_core. intros db. unfold create_request. m_unfold. by case_match. Qed.

Lemma safe_mark_dispatched i k now : safe (mark_dispatched i k now).
Proof.
  apply safe_core. intros db. unfold mark_dispatched, lock_by_request_id, get_by_request_id, put_request.
  m_unfold. by repeat case_match.
Qed.

Lemma safe_bind_scope k sk t now : safe (bind_run_scope k sk t now).
Proof.
  apply safe_core. intros db. destruct (bind_run_scope_spec k sk t now db) as (db' & -> & E & _).
  exact E.
Qed.

Lemma safe_reject i now : safe (reject_request i now).
Proof.
  apply safe_core. intros db. unfold reject_request, get_by_request_id, put_request. m_unfold.
  by repeat case_match.
Qed.

Lemma safe_modify_core (f : Database → Database) : (∀ db, core (f db) = core db) → safe (modify f).
Proof. intros E. by apply safe_core. Qed.
#[export] Hint Resolve safe_create_request safe_mark_dispatched safe_bind_scope safe_reject : safe.

Ltac safely :=
  repeat first [ progress (intros; cbv beta)
               | solve [eauto 1 with safe | apply safe_quiet; eauto 1 with quiet
                       | by apply safe_modify_core]
               | apply safe_bind | apply safe_atomic | apply safe_catch | case_match ].

Section submission.
Context `{DispatchScope} `{AgentCatalog} (container_text : json → string).

Lemma scope_reads u s p t : reads (resolve_dispatch_runtime_scope u s p t).
Proof. intros db. apply scope_read_only. Qed.

Lemma safe_dispatch_head h b k now : safe (dispatch_locked_head h b k now).
Proof.
  unfold dispatch_locked_head, create_dispatched_run. apply safe_bind.
  - apply safe_core. intros db. by rewrite scope_read_only.
  - safely.
Qed.
Hint Resolve safe_dispatch_head : safe.

Lemma safe_ready_head u s t b e k now : safe (dispatch_ready_head u s t b e k now).
Proof.
  unfold dispatch_ready_head. safely.
Qed.
Hint Resolve safe_ready_head : safe.

Lemma safe_insert_request i u p c rej pl now :
  safe (insert_request container_text i u p c rej pl now).
Proof. unfold insert_request. cbv zeta. safely. Qed.

Lemma safe_dispatch_after i u p c wb m k now : safe (dispatch_after_insert i u p c wb m k now).
Proof. unfold dispatch_after_insert. cbv zeta. safely. Qed.
Hint Resolve safe_insert_request safe_dispatch_after : safe.

Lemma safe_persist i u b k now : safe (persist_request container_text i u b k now).
Proof. unfold persist_request. cbv zeta. safely. Qed.
Hint Resolve safe_persist : safe.

Lemma safe_submit i u f ft k now : safe (submit_agent_request container_text i u f ft k now).
Proof. unfold submit_agent_request, submit_new. cbv zeta. safely. Qed.

(** * What a new request becomes *)

(** [r] is the new request after the submission, [d] the dispatch of the same transaction. *)
Definition submission_result (i : AgentRequestInput) (u run_id : string) (db db' : Database)
    (r : AgentRunRequest) (d : option DispatchResult) : Prop :=
  DB.run_requests db' !! ri_request_id i = Some r
  ∧ request_scope r = input_scope i u ∧ Req.queue_policy r = ri_queue_policy i
  ∧ match Req.status r with
    | Queued => ri_queue_policy i ≠ "reject"
        ∧ ∀ x, d = Some x → dr_request_id x ≠ ri_request_id i
    | Dispatched => ∃ x m, d = Some x ∧ dr_request_id x = ri_request_id i
        ∧ Req.dispatched_run_id r = Some run_id
        ∧ DB.messages db' !! Req.input_message_id r = Some m
        ∧ Msg.delivery_status m = "dispatched" ∧ Msg.run_id m = Some run_id
    | ReqRejected => ri_queue_policy i = "reject" ∧ d = None ∧ Req.input_payload r = JObj []
        ∧ ∃ m, DB.messages db' !! Req.input_message_id r = Some m
            ∧ Msg.delivery_status m = "rejected"
    | _ => False
    end
  ∧ ∀ x, d = Some x → dr_run_id x = run_id ∧ DB.runs db !! run_id = None
      ∧ ∃ run, DB.runs db' !! run_id = Some run ∧ Run.status run = Pending
          ∧ Run.request_id run = dr_request_id x ∧ Run.uid run = u
          ∧ Run.agent_slug run = ri_agent_slug i
          ∧ Run.conversation_thread_id run = ri_thread_id i.

Lemma current_inv r db r' db' :
  current_request r db = (Ret r', db') →
  db' = db ∧ r' = default r (DB.run_requests db !! Req.request_id r).
Proof.
  unfold current_request, get_by_request_id. intros E. run E. injection R as <- <-.
  by injection E as <- <-.
Qed.

Lemma aside_runs db db' : aside db' = aside db → DB.runs db' = DB.runs db.
Proof. unfold aside, core. congruence. Qed.

Lemma inserted_spec i u c rej pl now db r db1 :
  qwf db → inserted container_text i u c rej pl now db r db1 →
  qsafe db db1 ∧ DB.runs db1 = DB.runs db ∧ DB.run_requests db1 !! ri_request_id i = Some r
  ∧ request_scope r = input_scope i u ∧ Req.queue_policy r = ri_queue_policy i
  ∧ Req.status r = (if rej then ReqRejected else Queued) ∧ Req.input_payload r = json_or_empty pl
  ∧ Req.request_id r = ri_request_id i
  ∧ ∃ m, DB.messages db1 !! Req.input_message_id r = Some m
      ∧ Msg.delivery_status m = (if rej then "rejected" else "queued").
Proof.
  intros Hq (db0 & A & St & I). apply insert_request_inv in I as (db2 & row & A2 & M & D & C).
  assert (A3 : aside db2 = aside db) by congruence.
  pose proof (aside_qsafe _ _ Hq A3) as Q2.
  pose proof (create_request_qsafe (ri_request_id i) u (ri_agent_slug i) (ri_thread_id i)
    (origin_source (ri_origin i)) (origin_channel (ri_origin i)) (origin_external_id (ri_origin i))
    (JObj (origin_metadata (ri_origin i))) (ri_queue_policy i) (Msg.id row) pl
    (if rej then ReqRejected else Queued) now db2 (proj1 Q2)) as Q3.
  rewrite C in Q3. cbn [snd] in Q3.
  apply create_request_inv in C as (N & (E1 & E2 & E3 & E4 & E5 & E6) & Er & Em & Ec).
  split; [|split].
  - etrans; [exact Q2|]. apply Q3; [|destruct rej; auto].
    intros P. apply (pending_none _ _ _ db0); [|auto]. by apply aside_requests.
  - unfold core in Ec. injection Ec as -> _ _. by apply aside_runs.
  - rewrite Er, lookup_insert_eq. repeat split; try done. exists row. by rewrite E5, Em.
Qed.

Lemma persist_new i u b run_id now db r d db' :
  qwf db → DB.run_requests db !! ri_request_id i = None →
  persist_request container_text i u b run_id now db = (Ret (r, d), db') →
  qsafe db db' ∧ submission_result i u run_id db db' r d.
Proof.
  intros Hq N E. apply persist_inv in E as [(Old & _)|(c & wb & rej & pl & r0 & db1 & I & P)];
    [congruence|].
  destruct (inserted_spec _ _ _ _ _ _ _ _ _ Hq I) as (Q & Er & Hr & Es & Ep & St & Pl & Ei & m & M & D).
  destruct P as [(-> & Rj & -> & -> & -> & ->)|(-> & db2 & A & C)].
  - split; [done|]. unfold submission_result. rewrite St, Pl.
    split; [done|]. split; [done|]. split; [done|]. split; [|done].
    split; [done|]. split; [done|]. split; [done|]. by exists m.
  - apply current_inv in C as [-> ->].
    destruct (dispatch_after_inv _ _ _ _ _ _ _ _ _ _ _ _ (proj1 Q) Hr St A) as [Q2 After].
    split; [by etrans|]. rewrite Ei. clear A. destruct d as [x|]; simpl in After.
    + destruct After as (h & Ek & Ex & (Hf & Hh & _) & Rj & (Nr & (run & H1 & H2 & H3 & H4 & H5 & H6) & Eq & Em)).
      apply queued_for_thread_spec in Hf as (F1 & F2 & F3 & F4).
      assert (Last : ∀ y, Some x = Some y → dr_run_id y = run_id ∧ DB.runs db !! run_id = None
        ∧ ∃ run, DB.runs db2 !! run_id = Some run ∧ Run.status run = Pending
            ∧ Run.request_id run = dr_request_id y ∧ Run.uid run = u
            ∧ Run.agent_slug run = ri_agent_slug i
            ∧ Run.conversation_thread_id run = ri_thread_id i).
      { intros y [= <-]. rewrite <- Er. split; [done|]. split; [done|]. exists run. intuition congruence. }
      unfold submission_result. rewrite Eq.
      destruct (decide (Req.request_id h = ri_request_id i)) as [Eh|Nh].
      * assert (h = r0) as -> by congruence. rewrite Eh, lookup_insert_eq. cbn [from_option id].
        split; [done|]. split; [done|]. split; [done|]. split; [|done].
        simpl. exists x. specialize (Em m M). eexists. split; [done|]. split; [congruence|].
        split; [done|]. split; [exact Em|]. done.
      * rewrite lookup_insert_ne, Hr by done. cbn [from_option id]. rewrite St.
        split; [done|]. split; [done|]. split; [done|]. split; [|done].
        split; [by intros P; apply Nh, Rj|]. intros y [= <-]. congruence.
    + unfold submission_result. case_bool_decide as P.
      * destruct After as [Eq Em]. rewrite Eq. cbn [from_option id].
        split; [done|]. split; [done|]. split; [done|]. split; [|done].
        simpl. split; [done|]. split; [done|]. split; [done|]. eexists. split; [by apply Em|done].
      * rewrite After, Hr. cbn [from_option id]. rewrite St. by repeat split.
Qed.

(** * The outcome of a submission *)

Lemma view_inv r db v db' :
  request_view r db = (Ret v, db') →
  v_request_id v = Req.request_id r ∧ v_status v = Req.status r
  ∧ v_run_id v = Req.dispatched_run_id r ∧ v_thread_id v = Req.conversation_thread_id r.
Proof. unfold request_view. intros E. run E. by injection E as <- _. Qed.

Lemma replay_request_inv i s u r db v db' :
  replay_request i s u r db = (Ret v, db') →
  request_scope r = input_scope i u ∧ v_request_id v = Req.request_id r
  ∧ v_status v = Req.status r ∧ v_run_id v = Req.dispatched_run_id r.
Proof.
  unfold replay_request, raise. intros E. run E. apply validate_scope_inv in R as [Es ->].
  run E. destruct a0 as [c|]; [|done]. destruct (negb _); [done|]. run E.
  destruct (match a0 with Some _ => _ | None => true end); [done|]. run E.
  by apply view_inv in E as (-> & -> & -> & _).
Qed.

Lemma run_by_request_inv i db r db' :
  get_run_by_request_id i db = (Ret (Some r), db') → Run.request_id r = i.
Proof.
  unfold get_run_by_request_id, scalar_one_or_none, raise. intros E. run E. injection R as <- <-.
  destruct (select _ _) as [|x [|y l]] eqn:S; try done. injection E as -> _.
  assert (In : r ∈ select (λ r, bool_decide (Run.request_id r = i)) (DB.runs db)) by (rewrite S; by left).
  apply elem_of_select in In as [In _]. by apply bool_decide_eq_true in In.
Qed.

Lemma replay_run_inv i s u r db a db' :
  replay_run i s u r db = (Ret a, db') → a = r ∧ Run.uid r = u.
Proof.
  unfold replay_run, raise. destruct (_ || _) eqn:G; [done|]. intros [= <- _].
  apply orb_false_iff in G as [G _]. apply orb_false_iff in G as [G _].
  apply orb_false_iff in G as [G _]. split; [done|].
  by apply negb_false_iff, bool_decide_eq_true in G.
Qed.

(** The state a read returns is the one it was given. *)
Ltac unread R :=
  match type of R with
  | _ ?db = (Ret _, ?db1) =>
      assert (db1 = db) as -> by (apply (keeps_inv (λ db, db)) in R; [done|eauto using replay_request_keeps with quiet])
  end.

(** The input with the origin as it is stored. *)
Definition stored_input (i : AgentRequestInput) : AgentRequestInput :=
  with_origin (strip_origin (ri_origin i)) i.

(** The three paths of a submission that returns. *)
Lemma submit_inv i u f ft k now db resp d db' :
  submit_agent_request container_text i u f ft k now db = (Ret (resp, d), db') →
  (∃ r s view, DB.run_requests db !! ri_request_id i = Some r ∧ resp = RequestResponse view
     ∧ d = None ∧ db' = db ∧ replay_request (stored_input i) s u r db = (Ret view, db))
  ∨ (DB.run_requests db !! ri_request_id i = None
     ∧ ((∃ run, resp = RunResponse run ∧ d = None ∧ db' = db
           ∧ get_run_by_request_id (ri_request_id i) db = (Ret (Some run), db) ∧ Run.uid run = u)
        ∨ ∃ view s, resp = RequestResponse view
            ∧ get_run_by_request_id (ri_request_id i) db = (Ret None, db)
            ∧ submit_new container_text (stored_input i) s u f ft k now db = (Ret (view, d), db'))).
Proof.
  unfold submit_agent_request, atomic. fold (stored_input i). intros E.
  match type of E with context [?m db] => destruct (m db) as [[p|e] db1] eqn:B end; [|done].
  injection E as -> ->. run B.
  unread R.
  destruct (get_visible_main_agent _ _) as [s|]; [|done]. cbv zeta in B.
  fold (stored_input i) in B. run B. injection R0 as <- <-.
  change (ri_request_id (stored_input i)) with (ri_request_id i) in *.
  destruct (DB.run_requests db !! ri_request_id i) as [r|] eqn:Hr.
  - run B. unread R0.
    injection B as <- <- <-. left. by exists r, s, a0.
  - run B. unread R0.
    right. split; [done|]. destruct a0 as [old|]; run B.
    + unread R1.
      injection B as <- <- <-. left.
      apply replay_run_inv in R1 as [-> U]. by exists old.
    + injection B as <- <- <-. right. destruct a0 as [view d]. eauto 6.
Qed.

Lemma submit_new_inv i s u f ft k now db view d db' :
  qwf db → DB.run_requests db !! ri_request_id i = None →
  submit_new container_text i s u f ft k now db = (Ret (view, d), db') →
  qsafe db db' ∧ ∃ r, submission_result i u k db db' r d
    ∧ v_request_id view = ri_request_id i ∧ v_status view = Req.status r
    ∧ v_run_id view = Req.dispatched_run_id r.
Proof.
  intros Hq N. unfold submit_new. destruct (negb _); [done|]. intros E. run E.
  apply (keeps_inv aside) in R; [|auto with quiet]. destruct a as [c p].
  run E. apply (keeps_inv aside) in R0; [|auto with quiet].
  run E. apply (keeps_inv aside) in R1; [|auto with quiet].
  assert (A : aside s2 = aside db) by congruence. run E. destruct a1 as [r d1]. run E.
  injection E as -> -> ->. cbn [fst snd] in *.
  pose proof (aside_qsafe _ _ Hq A) as Q1.
  assert (N1 : DB.run_requests s2 !! ri_request_id i = None) by (by rewrite (aside_requests _ _ A)).
  apply persist_new in R2 as [Q2 (Hr & Es & Ep & St & Run)]; [|apply Q1|exact N1].
  unread R3.
  apply view_inv in R3 as (V1 & V2 & V3 & _). split; [by etrans|]. exists r. split.
  - split; [done|]. split; [done|]. split; [done|]. split; [done|].
    by rewrite <- (aside_runs _ _ A).
  - rewrite V1. split; [|done]. apply (qwf_key _ (proj1 Q2)) in Hr. exact Hr.
Qed.

Lemma submit_raise_unchanged i u f ft k now db e db' :
  submit_agent_request container_text i u f ft k now db = (Raise e, db') → db' = db.
Proof.
  unfold submit_agent_request, atomic. intros E.
  match type of E with context [?m db] => destruct (m db) as [[p|e'] db1] end; [done|].
  by injection E as _ <-.
Qed.

Lemma submit_qsafe i u f ft k now db resp d db' :
  qwf db → submit_agent_request container_text i u f ft k now db = (Ret (resp, d), db') →
  qsafe db db'.
Proof.
  intros Hq E. apply submit_inv in E as [(r & s & view & Hr & -> & -> & -> & R)
    |[N [(run & -> & -> & -> & G & U)|(view & s & -> & _ & S)]]].
  1-2: by apply qsafe_refl. by apply submit_new_inv in S as [Q _].
Qed.

(** A submission, however it ends. *)
Lemma submit_keeps i u f ft k now db :
  qwf db → wf db →
  let db' := (submit_agent_request container_text i u f ft k now db).2 in
  qwf db' ∧ requests_evolve db db' ∧ wf db' ∧ evolves db db'.
Proof.
  intros Hq Hwf. cbv zeta. pose proof (safe_submit i u f ft k now db Hwf) as [W Ev].
  assert (Q : qsafe db (submit_agent_request container_text i u f ft k now db).2); [|by destruct Q].
  destruct (submit_agent_request container_text i u f ft k now db) as [[[resp d]|e] db'] eqn:E.
  - by eapply submit_qsafe.
  - apply submit_raise_unchanged in E as ->. by apply qsafe_refl.
Qed.

(** After a submission that returns its identifier belongs to a request or to a run. *)
Lemma submit_recorded i u f ft k now db resp d db' :
  qwf db → wf db → submit_agent_request container_text i u f ft k now db = (Ret (resp, d), db') →
  is_Some (DB.run_requests db' !! ri_request_id i)
  ∨ ∃ key run, DB.runs db' !! key = Some run ∧ Run.request_id run = ri_request_id i.
Proof.
  intros Hq Hwf E. apply submit_inv in E as [(r & s & view & Hr & _ & _ & -> & R)
    |[N [(run & _ & _ & -> & G & U)|(view & s & _ & _ & S)]]].
  - left. eauto.
  - right. pose proof (run_by_request_inv _ _ _ _ G) as I.
    unfold get_run_by_request_id, scalar_one_or_none, raise in G. run G. injection R as <- <-.
    destruct (select _ _) as [|x [|y l]] eqn:Sel; try done. injection G as ->.
    assert (In : run ∈ select (λ r, bool_decide (Run.request_id r = ri_request_id i)) (DB.runs db))
      by (rewrite Sel; by left).
    apply elem_of_select in In as [_ [key Hk]]. eauto.
  - left. apply submit_new_inv in S as (_ & r & (Hr & _) & _); [|done|done]. eauto.
Qed.

(** C8: a submission that returns keeps the invariants of the queue and of the run tables, and
    changes no other request but by dispatching the head of the queue.  Under a request
    identifier that exists it only reads and answers with that request, which must have the same
    user, agent, thread and origin; under one that only a run has it answers with the run.  A new
    identifier becomes one request of its scope: dispatched to the new pending run, with its
    message delivered; or queued, never under the policy [reject]; or rejected, only under that
    policy and with its message.  The only run ever started is a pending one of the same thread. *)
Theorem submission_outcome i u f ft k now db resp d db' :
  qwf db → wf db →
  submit_agent_request container_text i u f ft k now db = (Ret (resp, d), db') →
  qwf db' ∧ requests_evolve db db' ∧ wf db' ∧ evolves db db'
  ∧ match DB.run_requests db !! ri_request_id i with
    | Some r => db' = db ∧ d = None ∧ request_scope r = input_scope (stored_input i) u
        ∧ ∃ view, resp = RequestResponse view ∧ v_request_id view = Req.request_id r
            ∧ v_status view = Req.status r
    | None =>
        (∃ run, resp = RunResponse run ∧ d = None ∧ db' = db
           ∧ Run.request_id run = ri_request_id i ∧ Run.uid run = u)
        ∨ ∃ view r, resp = RequestResponse view ∧ v_request_id view = ri_request_id i
            ∧ v_status view = Req.status r
            ∧ submission_result (stored_input i) u k db db' r d
    end.
Proof.
  intros Hq Hwf E. pose proof (submit_keeps i u f ft k now db Hq Hwf) as K. rewrite E in K.
  destruct K as (Q1 & Q2 & W1 & W2). do 4 (split; [done|]).
  apply submit_inv in E as [(r & s & view & Hr & -> & -> & -> & R)
    |[N [(run & -> & -> & -> & G & U)|(view & s & -> & _ & S)]]].
  - rewrite Hr. apply replay_request_inv in R as (Es & V1 & V2 & _). eauto 8.
  - rewrite N. left. exists run. apply run_by_request_inv in G. auto.
  - rewrite N. right. apply submit_new_inv in S as (_ & r & S & V1 & V2 & _); [|done|done].
    by exists view, r.
Qed.

(** The two answers are about the same request, or the same run, in the same state. *)
Definition same_answer (resp resp2 : SubmitResponse) : Prop :=
  match resp, resp2 with
  | RequestResponse v, RequestResponse v2 =>
      v_request_id v2 = v_request_id v ∧ v_status v2 = v_status v ∧ v_run_id v2 = v_run_id v
  | RunResponse run, RunResponse run2 => run2 = run
  | _, _ => False
  end.

End submission.

(** * Witnesses: a chat message on an idle thread *)

#[local] Instance demo_scope : DispatchScope := {|
  resolve_dispatch_runtime_scope := λ _ _ _ thread_id, mret thread_id;
  scope_read_only := λ _ _ _ _ _, eq_refl
|}.

#[local, refine] Instance demo_catalog : AgentCatalog := {|
  get_visible_main_agent slug _ := Some slug;
  agent_backend_known _ := true;
  list_project_ids_for_agent _ := [];
  configured_model _ _ := None;
  configured_tool_approval_mode _ _ := None;
  chat_model_known m := bool_decide (m = "m1");
  default_model := "m1";
  create_implicit_project _ := raise (RuntimeError "no project")
|}.
Proof. intros uid db. exists (DB.projects db). by destruct db. Defined.

Definition demo_request (policy : string) : AgentRequestInput := {|
  ri_agent_slug := "main"; ri_thread_id := "t1"; ri_request_id := "q9";
  ri_input_message := {| im_content := "hi"; im_message_type := "text";
                         im_image_content := None; im_raw_message := None |};
  ri_origin := {| origin_source := "chat"; origin_channel := "web"; origin_external_id := None;
                  origin_metadata := [] |};
  ri_request_metadata := JNull; ri_model_spec := None; ri_tool_approval_mode := None;
  ri_queue_policy := policy; ri_create_conversation := false; ri_conversation_project_id := None |}.

#[local] Abbreviation demo_submit policy :=
  (submit_agent_request (λ _, "") (demo_request policy) "u1" 9 "t9" "r9" 500).

Lemma demo_thread_wf : wf demo_thread.
Proof. apply (wf_core empty_database); [reflexivity|exact wf_empty]. Qed.

(** On the idle thread the request runs at once; behind a queued request it waits, and under
    [reject] it is turned down. *)
Definition demo_status (policy : string) (db : Database) : option RequestStatus :=
  Req.status <$> (DB.run_requests (demo_submit policy db).2 !! "q9").

Example demo_runs_at_once : demo_status "reject" demo_thread = Some Dispatched.
Proof. vm_compute. reflexivity. Qed.

Example demo_waits : demo_status "enqueue" demo_enqueued = Some Queued.
Proof. vm_compute. reflexivity. Qed.

Example demo_rejected : demo_status "reject" demo_enqueued = Some ReqRejected.
Proof. vm_compute. reflexivity. Qed.

Definition response_of (res : outcome (SubmitResponse * option DispatchResult) * Database)
    : option (RequestView * option DispatchResult) :=
  match res with
  | (Ret (RequestResponse view, d), _) => Some (view, d)
  | _ => None
  end.

Lemma demo_dispatched :
  (λ p, v_status p.1) <$> response_of (demo_submit "reject" demo_thread) = Some Dispatched.
Proof. vm_compute. reflexivity. Qed.

Lemma submission_outcome_witness :
  ∃ view d db', demo_submit "reject" demo_thread = (Ret (RequestResponse view, d), db')
    ∧ v_request_id view = "q9" ∧ v_status view = Dispatched ∧ wf db' ∧ qwf db'.
Proof.
  pose proof demo_dispatched as V.
  destruct (demo_submit "reject" demo_thread) as [[[[view|run] d]|e] db'] eqn:E; try discriminate V.
  exists view, d, db'. split; [reflexivity|].
  destruct (submission_outcome (λ _, "") (demo_request "reject") "u1" 9 "t9" "r9" 500 demo_thread
    (RequestResponse view) d db' demo_thread_qwf demo_thread_wf E) as (Q & _ & W & _ & O).
  assert (N : DB.run_requests demo_thread !! ri_request_id (demo_request "reject") = None)
    by reflexivity.
  rewrite N in O.
  destruct O as [(run & F & _)|(view' & r & F & I & _)]; [discriminate F|].
  injection F as <-. split; [exact I|]. injection V as V. split; [exact V|]. split; [exact W|exact Q].
Defined.

Lemma demo_enqueues :
  (λ p, v_status p.1) <$> response_of (demo_submit "enqueue" demo_enqueued) = Some Queued.
Proof. vm_compute. reflexivity. Qed.

