(* ===== verification/SandboxScope.v ===== *)
(** Sandbox policies and scopes: [agents/backends/sandbox/policy.py], [SandboxScope] of
    [agents/backends/sandbox/provider.py] and the policy resolution of
    [services/sandbox_lifecycle_service.py], which implements [DispatchScope]. *)

From stdpp Require Import prelude gmap strings list fin_maps.
From Stdlib Require Import ZArith Lia.
From S2P Require Import Prelude Schema RunRepo Requests Queue.

(** * Results that may raise *)

Abbreviation result A := (outcome A).

#[global] Instance outcome_ret : MRet outcome := λ A a, Ret a.
#[global] Instance outcome_bind : MBind outcome := λ A B k m,
  match m with
  | Ret a => k a
  | Raise e => Raise e
  end.

(** * Policies *)

Inductive SandboxMode := Shared | Dedicated.
Inductive SandboxLifecycle := Ephemeral | Persistent | Resident.
Inductive ResumePolicy := Auto | Confirm.

#[global] Instance SandboxLifecycle_eq_dec : EqDecision SandboxLifecycle.
Proof. solve_decision. Defined.

Record SandboxPolicy := {
  mode : SandboxMode;
  lifecycle : SandboxLifecycle;
  resume_policy : ResumePolicy;
  idle_suspend_seconds : option Z
}.

Definition is_dedicated (p : SandboxPolicy) : bool :=
  match mode p with Dedicated => true | Shared => false end.

Definition provisioner_idle_timeout (p : SandboxPolicy) : option Z :=
  match lifecycle p with
  | Resident => Some 0%Z
  | _ => idle_suspend_seconds p
  end.

(** [str.lower()] on code points below 256. *)
Definition lower_char (c : Ascii.ascii) : Ascii.ascii :=
  let n := Ascii.N_of_ascii c in
  if ((65 <=? n) && (n <=? 90))%N || ((192 <=? n) && (n <=? 222) && negb (n =? 215))%N
  then Ascii.ascii_of_N (n + 32) else c.

Fixpoint lower (s : string) : string :=
  match s with
  | EmptyString => EmptyString
  | String c s => String (lower_char c) (lower s)
  end.

(** [_normalize_choice]: [choices] pairs the allowed values with their meaning. *)
Definition normalize_choice {A} (value : option json) (choices : list (string * A)) (default : A)
    : result A :=
  match value with
  | None | Some JNull => Ret default
  | Some (JStr s) =>
      match List.find (λ c, bool_decide (c.1 = lower (strip s))) choices with
      | Some c => Ret c.2
      | None => Raise (ValueError "must be one of the allowed values")
      end
  | Some _ => Raise (ValueError "must be one of the allowed values")
  end.

(** [merged.update(project_block)]: later bindings win ([assoc_last]). *)
Definition merge_sandbox_config (agent_block project_block : option json) : json :=
  match agent_block, project_block with
  | Some (JObj a), Some (JObj p) => JObj (a ++ p)
  | Some (JObj a), _ => JObj a
  | _, Some (JObj p) => JObj p
  | _, _ => JObj []
  end.

Definition idle_seconds (value : option json) : result (option Z) :=
  match value with
  | None | Some JNull => Ret None
  | Some (JInt n) =>
      if (n <? 0)%Z
      then Raise (ValueError "sandbox.idle_suspend_seconds must be a non-negative integer")
      else Ret (Some n)
  | Some _ => Raise (ValueError "sandbox.idle_suspend_seconds must be a non-negative integer")
  end.

Definition parse_sandbox_policy (raw : json) : result SandboxPolicy :=
  mode ← normalize_choice (jget "mode" raw) [("shared", Shared); ("dedicated", Dedicated)] Shared;
  lifecycle ← normalize_choice (jget "lifecycle" raw)
    [("ephemeral", Ephemeral); ("persistent", Persistent); ("resident", Resident)] Ephemeral;
  let lifecycle := match mode with Shared => Ephemeral | Dedicated => lifecycle end in
  resume_policy ← normalize_choice (jget "resume_policy" raw)
    [("auto", Auto); ("confirm", Confirm)] Auto;
  idle ← idle_seconds (jget "idle_suspend_seconds" raw);
  mret {| mode := mode; lifecycle := lifecycle; resume_policy := resume_policy;
          idle_suspend_seconds := idle |}.

Definition resolve_sandbox_policy (agent_block project_block : option json)
    : result SandboxPolicy :=
  parse_sandbox_policy (merge_sandbox_config agent_block project_block).

(** * Scopes *)

Inductive SandboxScope :=
  | ThreadScope (uid thread_id : string)
  | AgentProjectScope (uid agent_slug project_id : string).

Definition validate (s : SandboxScope) : result SandboxScope :=
  match s with
  | ThreadScope uid thread_id =>
      if bool_decide (uid = "") then Raise (ValueError "sandbox scope uid is required")
      else if bool_decide (thread_id = "")
      then Raise (ValueError "sandbox thread scope requires thread_id")
      else Ret s
  | AgentProjectScope uid agent_slug project_id =>
      if bool_decide (uid = "") then Raise (ValueError "sandbox scope uid is required")
      else if bool_decide (agent_slug = "") || bool_decide (project_id = "")
      then Raise (ValueError "sandbox agent_project scope requires agent_slug and project_id")
      else Ret s
  end.

Definition thread_scope (uid thread_id : string) : result SandboxScope :=
  validate (ThreadScope (strip uid) (strip thread_id)).

Definition agent_project (uid agent_slug project_id : string) : result SandboxScope :=
  validate (AgentProjectScope (strip uid) (strip agent_slug) (strip project_id)).

Definition cache_key (s : SandboxScope) : string :=
  match s with
  | ThreadScope uid thread_id => uid +:+ "::" +:+ thread_id
  | AgentProjectScope uid agent_slug project_id =>
      "agent-project:" +:+ uid +:+ ":" +:+ agent_slug +:+ ":" +:+ project_id
  end.

Definition colon : Ascii.ascii := Ascii.ascii_of_N 58.

(** [s.partition(c)] at the first occurrence of a character. *)
Fixpoint cut (c : Ascii.ascii) (s : string) : option (string * string) :=
  match s with
  | EmptyString => None
  | String d s =>
      if bool_decide (d = c) then Some ("", s)
      else (λ p, (String d p.1, p.2)) <$> cut c s
  end.

(** [s.partition("::")]. *)
Fixpoint cut_double_colon (s : string) : option (string * string) :=
  match s with
  | EmptyString => None
  | String c s' =>
      match s' with
      | String d s'' =>
          if bool_decide (c = colon) && bool_decide (d = colon) then Some ("", s'')
          else (λ p, (String c p.1, p.2)) <$> cut_double_colon s'
      | EmptyString => None
      end
  end.

(** [raw.startswith("agent-project:")], with the rest of [raw]. *)
Fixpoint drop_prefix (p s : string) : option string :=
  match p, s with
  | EmptyString, _ => Some s
  | String c p, String d s => if bool_decide (c = d) then drop_prefix p s else None
  | String _ _, EmptyString => None
  end.

(** [raw.split(":", 3)] has four parts when three colons are left to cut. *)
Definition from_cache_key (raw : string) : result SandboxScope :=
  match drop_prefix "agent-project:" raw with
  | Some rest =>
      match cut colon rest with
      | None => Raise (ValueError "invalid agent-project scope key")
      | Some (uid, rest) =>
          match cut colon rest with
          | None => Raise (ValueError "invalid agent-project scope key")
          | Some (agent_slug, project_id) => agent_project uid agent_slug project_id
          end
      end
  | None =>
      match cut_double_colon raw with
      | None => Raise (ValueError "invalid thread scope key")
      | Some (uid, thread_id) => thread_scope uid thread_id
      end
  end.

Definition from_runtime_scope (uid runtime_scope_id : string) : result SandboxScope :=
  let runtime_id := strip runtime_scope_id in
  match drop_prefix "agent-project:" runtime_id with
  | Some _ => from_cache_key runtime_id
  | None => thread_scope uid runtime_id
  end.

(** [sandbox_scope_from_key]: only a dedicated scope has one. *)
Definition sandbox_scope_from_key (scope_key : string) : result (option SandboxScope) :=
  let runtime_scope_id := strip scope_key in
  match drop_prefix "agent-project:" runtime_scope_id with
  | None => Ret None
  | Some _ => s ← from_cache_key runtime_scope_id; mret (Some s)
  end.

Definition runtime_scope_for_policy (uid agent_slug project_id thread_id : string)
    (policy : SandboxPolicy) : result string :=
  if negb (is_dedicated policy) then Ret thread_id
  else s ← agent_project uid agent_slug project_id; mret (cache_key s).

(** * Resolution for a dispatch

    [agent_configs] and [project_overrides] are the JSON columns
    [Agent.config_json] and [ProjectAgent.config_overrides]. *)

Section resolve.
Context (agent_configs : string → option json) (project_overrides : string → string → option json).

Definition resolve_agent_sandbox_policy (agent_slug project_id : string) : result SandboxPolicy :=
  let agent_block := agent_configs agent_slug ≫= jget "sandbox" in
  let project_block :=
    if bool_decide (project_id = "") then None
    else match project_overrides project_id agent_slug ≫= jget "sandbox" with
         | Some (JObj l) => Some (JObj l)
         | _ => None
         end in
  resolve_sandbox_policy agent_block project_block.

Definition dispatch_runtime_scope (uid agent_slug project_id thread_id : string)
    : result string :=
  policy ← resolve_agent_sandbox_policy agent_slug project_id;
  runtime_scope_for_policy uid agent_slug project_id thread_id policy.

Definition lift {A} (r : result A) : M Database A := λ db, (r, db).

#[global] Instance policy_dispatch_scope : DispatchScope := {|
  resolve_dispatch_runtime_scope := λ uid agent_slug project_id thread_id,
    lift (dispatch_runtime_scope uid agent_slug project_id thread_id);
  scope_read_only := λ _ _ _ _ _, eq_refl
|}.
End resolve.

(** * Cache keys *)

Fixpoint has_char (c : Ascii.ascii) (s : string) : bool :=
  match s with
  | EmptyString => false
  | String d s => bool_decide (d = c) || has_char c s
  end.

Lemma cut_app c s t : has_char c s = false → cut c (s +:+ String c t) = Some (s, t).
Proof.
  induction s as [|d s IH]; simpl; [by rewrite bool_decide_eq_true_2|].
  intros [Hd Hs]%orb_false_iff. rewrite Hd, (IH Hs). done.
Qed.

Lemma cut_colon_app s t : has_char colon s = false → cut colon (s +:+ ":" +:+ t) = Some (s, t).
Proof. apply cut_app. Qed.

Lemma drop_prefix_app p s : drop_prefix p (p +:+ s) = Some s.
Proof. induction p as [|c p IH]; simpl; [done|]. by rewrite bool_decide_eq_true_2. Qed.

Lemma cut_double_colon_app s t :
  has_char colon s = false → cut_double_colon (s +:+ "::" +:+ t) = Some (s, t).
Proof.
  induction s as [|d s IH]; [done|]. intros [Hd Hs]%orb_false_iff. specialize (IH Hs).
  change (String d s +:+ "::" +:+ t) with (String d (s +:+ "::" +:+ t)).
  destruct (s +:+ "::" +:+ t) as [|e u] eqn:E; [by destruct s|].
  change (cut_double_colon (String d (String e u))) with
    (if bool_decide (d = colon) && bool_decide (e = colon) then Some ("", u)
     else (λ p, (String d p.1, p.2)) <$> cut_double_colon (String e u)).
  by rewrite Hd, IH.
Qed.

(** A scope as its constructors build it. *)
Definition scope_ok (s : SandboxScope) : Prop :=
  match s with
  | ThreadScope uid thread_id =>
      strip uid = uid ∧ strip thread_id = thread_id ∧ uid ≠ "" ∧ thread_id ≠ ""
  | AgentProjectScope uid agent_slug project_id =>
      strip uid = uid ∧ strip agent_slug = agent_slug ∧ strip project_id = project_id
      ∧ uid ≠ "" ∧ agent_slug ≠ "" ∧ project_id ≠ ""
  end.

Lemma validate_ok s : scope_ok s → validate s = Ret s.
Proof. destruct s; simpl; intros H; repeat case_bool_decide; tauto. Qed.

Lemma agent_project_ok u a p s : agent_project u a p = Ret s → scope_ok s.
Proof.
  unfold agent_project. simpl. intros H. repeat case_bool_decide; simplify_eq/=.
  rewrite !strip_idem. tauto.
Qed.

Lemma thread_scope_ok u t s : thread_scope u t = Ret s → scope_ok s.
Proof.
  unfold thread_scope. simpl. intros H. repeat case_bool_decide; simplify_eq/=.
  rewrite !strip_idem. tauto.
Qed.

(** No separator inside the parts that come before the last one. *)
Definition unambiguous (s : SandboxScope) : Prop :=
  match s with
  | ThreadScope uid _ => has_char colon uid = false ∧ uid ≠ "agent-project"
  | AgentProjectScope uid agent_slug _ =>
      has_char colon uid = false ∧ has_char colon agent_slug = false
  end.

Lemma drop_prefix_some p s rest : drop_prefix p s = Some rest → s = p +:+ rest.
Proof.
  revert s. induction p as [|c p IH]; intros s; [by intros [= ->]|].
  destruct s as [|d s]; simpl; [done|]. case_bool_decide; [|done].
  intros E. subst d. by rewrite (IH s E).
Qed.

(** A thread key is not mistaken for a dedicated one. *)
Lemma thread_key_prefix u t :
  has_char colon u = false → u ≠ "agent-project" →
  drop_prefix "agent-project:" (u +:+ "::" +:+ t) = None.
Proof.
  intros Hu Hne. destruct (drop_prefix "agent-project:" (u +:+ "::" +:+ t)) as [rest|] eqn:E;
    [|done]. exfalso. apply drop_prefix_some in E. apply Hne.
  assert (H1 : cut colon (u +:+ "::" +:+ t) = Some (u, ":" +:+ t)) by (by apply cut_app).
  assert (H2 : cut colon ("agent-project:" +:+ rest) = Some ("agent-project", rest)).
  { by apply (cut_app colon "agent-project"). }
  rewrite E in H1. rewrite H1 in H2. by injection H2.
Qed.

Lemma roundtrip s :
  scope_ok s → unambiguous s → from_cache_key (cache_key s) = Ret s.
Proof.
  intros Hok Hu. pose proof (validate_ok s Hok) as Hv.
  destruct s as [u t|u a p]; simpl in *.
  - destruct Hu as [Hu Hne]. destruct Hok as (Eu & Et & _). unfold from_cache_key.
    rewrite thread_key_prefix, cut_double_colon_app by done.
    unfold thread_scope. by rewrite Eu, Et.
  - destruct Hu as [Hu Ha]. destruct Hok as (Eu & Ea & Ep & _). unfold from_cache_key.
    rewrite (drop_prefix_app "agent-project:"), (cut_colon_app u) by done.
    rewrite (cut_colon_app a) by done.
    unfold agent_project. by rewrite Eu, Ea, Ep.
Qed.



(** * What a dispatch resolves to *)

(** The mode a configuration block asks for. *)
Definition requested_mode (block : json) : option json := jget "mode" block.

Lemma assoc_last_app k l1 l2 :
  assoc_last k (l1 ++ l2) = match assoc_last k l2 with Some v => Some v | None => assoc_last k l1 end.
Proof.
  induction l1 as [|[j v] l1 IH]; simpl; [by destruct (assoc_last k l2)|].
  rewrite IH. by destruct (assoc_last k l2).
Qed.

(** A key of the project block overrides the same key of the agent block. *)
Lemma merge_override k a p :
  jget k (merge_sandbox_config (Some (JObj a)) (Some (JObj p)))
  = match jget k (JObj p) with Some v => Some v | None => jget k (JObj a) end.
Proof. apply assoc_last_app. Qed.

Lemma idle_seconds_nonneg v n : idle_seconds v = Ret (Some n) → (0 ≤ n)%Z.
Proof.
  destruct v as [[| |z| | | |]|]; simpl; try done.
  destruct (Z.ltb_spec z 0); [done|]. by intros [= <-].
Qed.



(** The execution scope of a dispatched run is its thread, unless the policy is
    dedicated; then it is the key of the (user, agent, project) sandbox, which
    reads back as that sandbox. *)
Theorem dispatch_scope_identifies_sandbox configs overrides uid slug project thread k :
  dispatch_runtime_scope configs overrides uid slug project thread = Ret k →
  ∃ pol, resolve_agent_sandbox_policy configs overrides slug project = Ret pol
    ∧ (is_dedicated pol = false ∧ k = thread
       ∨ is_dedicated pol = true ∧ ∃ s, agent_project uid slug project = Ret s
           ∧ k = cache_key s ∧ (unambiguous s → from_cache_key k = Ret s)).
Proof.
  unfold dispatch_runtime_scope, runtime_scope_for_policy, mbind, outcome_bind.
  destruct (resolve_agent_sandbox_policy configs overrides slug project) as [pol|e]; [|done].
  intros E. exists pol. split; [done|].
  destruct (is_dedicated pol); cbn [negb] in E; [right|left; by injection E].
  split; [done|]. destruct (agent_project uid slug project) as [s|e] eqn:Es; [|done].
  injection E as <-. exists s. split; [done|]. split; [done|].
  apply roundtrip. by eapply agent_project_ok.
Qed.

Lemma dispatch_scope_identifies_sandbox_witness :
  ∃ pol, resolve_agent_sandbox_policy
      (λ _, Some (JObj [("sandbox", JObj [("mode", JStr "dedicated")])])) (λ _ _, None) "main" "p1"
      = Ret pol
    ∧ is_dedicated pol = true.
Proof.
  destruct (dispatch_scope_identifies_sandbox
    (λ _, Some (JObj [("sandbox", JObj [("mode", JStr "dedicated")])])) (λ _ _, None)
    "u1" "main" "p1" "t1" "agent-project:u1:main:p1" eq_refl)
    as (pol & E & [[_ Hk]|[Hd _]]); [discriminate Hk|].
  exists pol. split; [exact E|exact Hd].
Defined.
