(* ===== verification/PyTime.v ===== *)
(** [datetime.fromisoformat] and [isoformat(timespec="microseconds")] of aware datetimes.

    The extended formats are read: a date, any separator, hours with optional minutes, seconds and
    fraction, and [Z] or an offset; the basic and the week formats are read as errors. *)

From stdpp Require Import prelude strings list.
From Stdlib Require Import ZArith Lia Ascii.
From S2P Require Import Prelude PyLib.
Local Open Scope string_scope.
Local Open Scope Z_scope.

(** * Reading *)

Definition digit_of (c : ascii) : option Z :=
  let n := Z.of_N (N_of_ascii c) - 48 in if (0 <=? n) && (n <=? 9) then Some n else None.

(** Exactly [n] digits. *)
Fixpoint digits (n : nat) (acc : Z) (s : string) : option (Z * string) :=
  match n with
  | O => Some (acc, s)
  | S n =>
      match s with
      | String c s => d ← digit_of c; digits n (10 * acc + d) s
      | EmptyString => None
      end
  end.

Definition expect (c : ascii) (s : string) : option string :=
  match s with
  | String d s => if Ascii.eqb d c then Some s else None
  | EmptyString => None
  end.

(** Further digits of a fraction: [n] more count. *)
Fixpoint fraction (n : nat) (acc : Z) (s : string) : Z * string :=
  match s with
  | String c s' =>
      match digit_of c, n with
      | Some d, S n => fraction n (10 * acc + d) s'
      | Some _, O => fraction O acc s'
      | None, _ => (acc * 10 ^ Z.of_nat n, s)
      end
  | EmptyString => (acc * 10 ^ Z.of_nat n, s)
  end.

Record clock := { hour : Z; minute : Z; second : Z; micro : Z }.

Definition micros (c : clock) : Z :=
  ((hour c * 60 + minute c) * 60 + second c) * 1000000 + micro c.

(** [HH[:MM[:SS[.ffffff]]]]. *)
Definition read_clock (s : string) : option (clock * string) :=
  '(h, s) ← digits 2 0 s;
  match expect ":" s with
  | None => Some ({| hour := h; minute := 0; second := 0; micro := 0 |}, s)
  | Some s =>
      '(m, s) ← digits 2 0 s;
      match expect ":" s with
      | None => Some ({| hour := h; minute := m; second := 0; micro := 0 |}, s)
      | Some s =>
          '(sec, s) ← digits 2 0 s;
          match s with
          | String "."%char (String c s') | String ","%char (String c s') =>
              d ← digit_of c;
              let '(us, s) := fraction 5 d s' in
              Some ({| hour := h; minute := m; second := sec; micro := us |}, s)
          | String "."%char EmptyString | String ","%char EmptyString => None
          | _ => Some ({| hour := h; minute := m; second := sec; micro := 0 |}, s)
          end
      end
  end.

Definition clock_ok (c : clock) : bool := (hour c <? 24) && (minute c <? 60) && (second c <? 60).

(** An offset in microseconds; none for a naive time. *)
Definition read_offset (s : string) : option (option Z) :=
  match s with
  | EmptyString => Some None
  | String "Z"%char EmptyString => Some (Some 0)
  | String sign s =>
      if Ascii.eqb sign "+" || Ascii.eqb sign "-" then
        '(c, rest) ← read_clock s;
        if bool_decide (rest = "") && (micros c <? DAY)
        then Some (Some (if Ascii.eqb sign "-" then - micros c else micros c))
        else None
      else None
  end.

Definition read_date (s : string) : option (Z * string) :=
  '(y, s) ← digits 4 0 s;
  s ← expect "-" s;
  '(m, s) ← digits 2 0 s;
  s ← expect "-" s;
  '(d, s) ← digits 2 0 s;
  if (1 <=? y) && (1 <=? m) && (m <=? 12) && (1 <=? d) && (d <=? days_in_month y m)
  then Some ((ymd2ord y m d - EPOCH_ORDINAL) * DAY, s) else None.

(** [datetime.fromisoformat(s)]: the local time and the offset. *)
Definition fromisoformat (s : string) : option (datetime * option Z) :=
  '(date, s) ← read_date s;
  match s with
  | EmptyString | String _ EmptyString => Some (date, None)
  | String _ s =>
      '(c, s) ← read_clock s;
      offset ← read_offset s;
      if clock_ok c then Some (date + micros c, offset) else None
  end.

(** [t.isoformat(timespec="microseconds")] of a UTC time. *)
Definition isoformat_micros (t : datetime) : string :=
  let '(year, month, day) := ord2ymd (EPOCH_ORDINAL + t / DAY) in
  let us := t mod DAY in
  decimal 4 year ++ "-" ++ decimal 2 month ++ "-" ++ decimal 2 day ++ "T"
  ++ decimal 2 (us / 3600000000) ++ ":" ++ decimal 2 (us / 60000000 mod 60) ++ ":"
  ++ decimal 2 (us / 1000000 mod 60) ++ "." ++ decimal 6 (us mod 1000000) ++ "+00:00".

Example reads_offset :
  fromisoformat "2024-02-29T12:34:56.5+01:30" = Some (1709210096500000, Some 5400000000).
Proof. vm_compute. reflexivity. Qed.

Example reads_no_day : fromisoformat "2023-02-29T00:00:00Z" = None.
Proof. vm_compute. reflexivity. Qed.

(** * Reading what is written *)

Lemma digit_of_digit a : 0 <= a < 10 → digit_of (ascii_of_N (Z.to_N (48 + a))) = Some a.
Proof.
  intros Ha. unfold digit_of. rewrite N_ascii_embedding by lia. rewrite Z2N.id by lia.
  replace (48 + a - 48) with a by lia.
  destruct (Z.leb_spec 0 a), (Z.leb_spec a 9); cbn; lia || done.
Qed.

Lemma digits_decimal n acc z r :
  digits n acc (decimal n z ++ r) = Some (acc * 10 ^ Z.of_nat n + z mod 10 ^ Z.of_nat n, r).
Proof.
  revert acc. induction n as [|n IH]; intros acc.
  { cbn. rewrite Z.mod_1_r. do 2 f_equal. lia. }
  cbn [decimal]. rewrite append_cons. cbn [digits]. rewrite digit_of_digit by (apply Z.mod_pos_bound; lia).
  cbn [mbind option_bind]. rewrite IH. do 2 f_equal.
  assert (P : 0 < 10 ^ Z.of_nat n) by (apply Z.pow_pos_nonneg; lia).
  rewrite Nat2Z.inj_succ, Z.pow_succ_r, (Z.mul_comm 10 (10 ^ _)), Z.rem_mul_r by lia. ring.
Qed.

Lemma digits_decimal_small n z r :
  0 <= z < 10 ^ Z.of_nat n → digits n 0 (decimal n z ++ r) = Some (z, r).
Proof. intros Hz. rewrite digits_decimal, Z.mod_small by done. done. Qed.

Lemma fraction_decimal n acc z r :
  (∀ c s, r = String c s → digit_of c = None) →
  fraction n acc (decimal n z ++ r) = (acc * 10 ^ Z.of_nat n + z mod 10 ^ Z.of_nat n, r).
Proof.
  intros Hr. revert acc. induction n as [|n IH]; intros acc.
  - cbn [decimal]. rewrite append_nil_l, Z.mod_1_r, Z.add_0_r.
    destruct r as [|c s]; cbn [fraction]; [done|]. by rewrite (Hr c s).
  - cbn [decimal]. rewrite append_cons. cbn [fraction]. rewrite digit_of_digit by (apply Z.mod_pos_bound; lia).
    rewrite IH. f_equal.
    assert (P : 0 < 10 ^ Z.of_nat n) by (apply Z.pow_pos_nonneg; lia).
    rewrite Nat2Z.inj_succ, Z.pow_succ_r, (Z.mul_comm 10 (10 ^ _)), Z.rem_mul_r by lia. ring.
Qed.

Lemma fraction_text us r :
  0 <= us < 1000000 → (∀ c r', r = String c r' → digit_of c = None) →
  ∃ c s d, decimal 6 us ++ r = String c s ∧ digit_of c = Some d ∧ fraction 5 d s = (us, r).
Proof.
  intros Hu Hr. eexists _, (decimal 5 us ++ r), _. split; [done|]. split.
  - apply digit_of_digit, Z.mod_pos_bound. lia.
  - rewrite fraction_decimal by done. f_equal. change (10 ^ Z.of_nat 5) with 100000.
    Z.div_mod_to_equations. lia.
Qed.

Lemma read_clock_text h m s us r :
  0 <= h < 100 → 0 <= m < 100 → 0 <= s < 100 → 0 <= us < 1000000 →
  (∀ c r', r = String c r' → digit_of c = None) →
  read_clock (decimal 2 h ++ ":" ++ decimal 2 m ++ ":" ++ decimal 2 s ++ "." ++ decimal 6 us ++ r)
  = Some ({| hour := h; minute := m; second := s; micro := us |}, r).
Proof.
  intros Hh Hm Hs Hu Hr. unfold read_clock.
  rewrite digits_decimal_small by done. cbn [mbind option_bind].
  rewrite append_cons, append_nil_l. cbn [expect]. rewrite Ascii.eqb_refl.
  rewrite digits_decimal_small by done. cbn [mbind option_bind].
  rewrite append_cons, append_nil_l. cbn [expect]. rewrite Ascii.eqb_refl.
  rewrite digits_decimal_small by done. cbn [mbind option_bind].
  destruct (fraction_text us r Hu Hr) as (c & s' & d & -> & Hd & Hf).
  rewrite append_cons, append_nil_l. cbv iota beta. rewrite Hd. cbn [mbind option_bind]. by rewrite Hf.
Qed.

(** The parts of a time of day. *)
Lemma clock_bounds us :
  0 <= us < DAY →
  0 <= us / 3600000000 < 24 ∧ 0 <= us / 60000000 mod 60 < 60 ∧ 0 <= us / 1000000 mod 60 < 60
  ∧ 0 <= us mod 1000000 < 1000000.
Proof. unfold DAY. intros H. Z.div_mod_to_equations. lia. Qed.

(** What [isoformat] writes of a UTC time in the years 1 to 9999, [fromisoformat] reads back. *)
Lemma fromisoformat_isoformat t :
  representable t → fromisoformat (isoformat_micros t) = Some (t, Some 0).
Proof.
  unfold representable, isoformat_micros. pose proof (ord2ymd_back (EPOCH_ORDINAL + t / DAY)) as B.
  destruct (ord2ymd _) as [[y m] d]. destruct B as (B & Hm & Hd & Hl). intros Hy.
  pose proof (Z.mod_pos_bound t DAY ltac:(unfold DAY; lia)) as U.
  pose proof (Z.div_mod t DAY ltac:(unfold DAY; lia)) as D.
  pose proof (clock_bounds (t mod DAY) U) as (B1 & B2 & B3 & B4).
  pose proof (clock_parts (t mod DAY)) as C.
  unfold fromisoformat, read_date.
  rewrite digits_decimal_small by (cbn; lia). cbn [mbind option_bind].
  rewrite append_cons, append_nil_l. cbn [expect]. rewrite Ascii.eqb_refl. cbn [mbind option_bind].
  rewrite digits_decimal_small by (cbn; lia). cbn [mbind option_bind].
  rewrite append_cons, append_nil_l. cbn [expect]. rewrite Ascii.eqb_refl. cbn [mbind option_bind].
  rewrite digits_decimal_small by (cbn; lia). cbn [mbind option_bind].
  assert (G : (1 <=? y) && (1 <=? m) && (m <=? 12) && (1 <=? d) && (d <=? days_in_month y m) = true).
  { rewrite !andb_true_iff, !Z.leb_le. lia. }
  rewrite G. cbn [mbind option_bind]. rewrite append_cons, append_nil_l.
  set (clk := decimal 2 (t mod DAY / 3600000000) ++ _).
  assert (R : read_clock clk = Some ({| hour := t mod DAY / 3600000000;
    minute := t mod DAY / 60000000 mod 60; second := t mod DAY / 1000000 mod 60;
    micro := t mod DAY mod 1000000 |}, "+00:00")).
  { apply read_clock_text; try lia. by intros c r' [= <- _]. }
  destruct clk as [|c clk'] eqn:E; [done|]. rewrite R. cbn [mbind option_bind].
  change (read_offset "+00:00") with (Some (Some 0)). cbn [mbind option_bind].
  unfold clock_ok, micros. cbn [hour minute second micro].
  destruct (Z.ltb_spec (t mod DAY / 3600000000) 24); [|lia].
  destruct (Z.ltb_spec (t mod DAY / 60000000 mod 60) 60); [|lia].
  destruct (Z.ltb_spec (t mod DAY / 1000000 mod 60) 60); [|lia]. cbn [andb].
  do 2 f_equal. rewrite B. unfold EPOCH_ORDINAL in *. lia.
Qed.

(** * Texts in the order of time *)

Lemma ymd2ord_lt y m d y' m' d' :
  1 <= m <= 12 → 1 <= m' <= 12 → 1 <= d → 1 <= d' →
  d <= days_in_month y m → d' <= days_in_month y' m' →
  y < y' ∨ y = y' ∧ (m < m' ∨ m = m' ∧ d < d') → ymd2ord y m d < ymd2ord y' m' d'.
Proof.
  intros Hm Hm' Hd Hd' Hl Hl' H.
  assert (Next : ∀ leap a, 1 <= a <= 11 → month_start leap (a + 1) = month_start leap a + month_length leap a).
  { intros leap a Ha. unfold month_length. destruct (Z.eqb_spec a 12); lia. }
  assert (Mono : ∀ leap k a, (a + Z.of_nat k <= 12) → 1 <= a → month_start leap a <= month_start leap (a + Z.of_nat k)).
  { intros leap k a. revert a.
    induction k as [|k IH]; intros a Hk Ha; [by rewrite Z.add_0_r|].
    etrans; [apply (IH a); lia|]. rewrite Nat2Z.inj_succ, Z.add_succ_r, <- Z.add_1_r.
    rewrite Next by lia. assert (0 <= month_length leap (a + Z.of_nat k)); [|lia].
    assert (Q : ∃ j, a + Z.of_nat k = j ∧ 1 <= j <= 11) by (eexists; split; [done|lia]).
    destruct Q as (j & -> & Hj).
    assert (U : upto 11 (λ j, 0 <=? month_length leap j) 1 = true) by (destruct leap; done).
    apply Z.leb_le. apply (upto_spec _ _ _ U j). lia. }
  unfold ymd2ord, days_in_month in *. destruct H as [H|[<- [H|[<- H]]]]; [| |lia].
  - assert (E : days_before_year y + (if is_leap y then 366 else 365) <= days_before_year y').
    { unfold is_leap, days_before_year. cbv zeta.
      destruct (Z.eqb_spec (y mod 4) 0), (Z.eqb_spec (y mod 100) 0), (Z.eqb_spec (y mod 400) 0);
        cbn [andb orb negb]; Z.div_mod_to_equations; lia. }
    assert (L : month_start (is_leap y) m + d <= if is_leap y then 366 else 365).
    { destruct (Z.eq_dec m 12) as [->|N].
      - change (d <= 31) in Hl. clear -Hl.
        destruct (is_leap y); [change (month_start true 12) with 335|change (month_start false 12) with 334]; lia.
      - transitivity (month_start (is_leap y) (m + 1)); [rewrite Next by lia; lia|].
        pose proof (month_start_bound (is_leap y) (m + 1) ltac:(lia)). destruct (is_leap y); lia. }
    pose proof (month_start_bound (is_leap y') m' Hm'). lia.
  - pose proof (Mono (is_leap y) (Z.to_nat (m' - m - 1)) (m + 1) ltac:(lia) ltac:(lia)) as P.
    rewrite Z2Nat.id in P by lia. replace (m + 1 + (m' - m - 1)) with m' in P by lia.
    rewrite Next in P by lia. lia.
Qed.

Lemma str_leb_cons c s d t :
  str_leb (String c s) (String d t)
  = ((N_of_ascii c <? N_of_ascii d)%N || ((N_of_ascii c =? N_of_ascii d)%N && str_leb s t)).
Proof. cbn [str_leb]. by destruct (_ <? _)%N, (_ =? _)%N. Qed.

(** Numbers of the same width compare as numbers. *)
Lemma str_leb_digits n z z' r r' :
  let a := z mod 10 ^ Z.of_nat n in
  let b := z' mod 10 ^ Z.of_nat n in
  str_leb (decimal n z ++ r) (decimal n z' ++ r') = (a <? b) || ((a =? b) && str_leb r r').
Proof.
  cbn zeta. revert r r'. induction n as [|n IH]; intros r r'.
  { by rewrite !Z.mod_1_r. }
  cbn [decimal]. rewrite !append_cons, str_leb_cons, IH.
  assert (P : 0 < 10 ^ Z.of_nat n) by (apply Z.pow_pos_nonneg; lia).
  rewrite Nat2Z.inj_succ, Z.pow_succ_r, (Z.mul_comm 10 (10 ^ _)), !Z.rem_mul_r by lia.
  set (P10 := 10 ^ Z.of_nat n) in *.
  pose proof (Z.mod_pos_bound z P10 P) as L. pose proof (Z.mod_pos_bound z' P10 P) as L'.
  pose proof (Z.mod_pos_bound (z / P10) 10 ltac:(lia)) as T.
  pose proof (Z.mod_pos_bound (z' / P10) 10 ltac:(lia)) as T'.
  generalize dependent (z mod P10). generalize dependent (z' mod P10).
  generalize dependent ((z / P10) mod 10). generalize dependent ((z' / P10) mod 10).
  intros t' Ht' t Ht l' Hl' l Hl. rewrite !N_ascii_embedding by lia.
  destruct (N.ltb_spec (Z.to_N (48 + t)) (Z.to_N (48 + t'))); cbn [orb].
  { destruct (Z.ltb_spec (l + P10 * t) (l' + P10 * t')); [done|nia]. }
  destruct (N.eqb_spec (Z.to_N (48 + t)) (Z.to_N (48 + t'))); cbn [andb].
  - assert (t = t') as <- by lia.
    destruct (Z.ltb_spec l l'), (Z.ltb_spec (l + P10 * t) (l' + P10 * t)); try lia.
    cbn [orb]. by destruct (Z.eqb_spec l l'), (Z.eqb_spec (l + P10 * t) (l' + P10 * t)); try lia.
  - destruct (Z.ltb_spec (l + P10 * t) (l' + P10 * t')); [nia|].
    destruct (Z.eqb_spec (l + P10 * t) (l' + P10 * t')); [nia|done].
Qed.

Lemma str_leb_decimal n z z' r r' :
  0 <= z < 10 ^ Z.of_nat n → 0 <= z' < 10 ^ Z.of_nat n →
  str_leb (decimal n z ++ r) (decimal n z' ++ r') = (z <? z') || ((z =? z') && str_leb r r').
Proof. intros Hz Hz'. rewrite str_leb_digits. by rewrite !Z.mod_small. Qed.

Lemma str_leb_same s r r' : str_leb (s ++ r) (s ++ r') = str_leb r r'.
Proof.
  induction s as [|c s IH]; [done|]. rewrite !append_cons, str_leb_cons, IH.
  by rewrite N.ltb_irrefl, N.eqb_refl.
Qed.

Lemma str_leb_refl s : str_leb s s = true.
Proof. by destruct (str_leb_total s s). Qed.

(** Between the years 1 and 9999 the texts of times compare as the times. *)
Lemma isoformat_micros_ordered t t' :
  representable t → representable t' →
  str_leb (isoformat_micros t) (isoformat_micros t') = (t <=? t').
Proof.
  unfold representable, isoformat_micros.
  pose proof (ord2ymd_back (EPOCH_ORDINAL + t / DAY)) as B.
  pose proof (ord2ymd_back (EPOCH_ORDINAL + t' / DAY)) as B'.
  destruct (ord2ymd (EPOCH_ORDINAL + t / DAY)) as [[y m] d].
  destruct (ord2ymd (EPOCH_ORDINAL + t' / DAY)) as [[y' m'] d'].
  destruct B as (B & Hm & Hd & Hl). destruct B' as (B' & Hm' & Hd' & Hl'). intros Hy Hy'.
  pose proof (Z.mod_pos_bound t DAY ltac:(unfold DAY; lia)) as U.
  pose proof (Z.mod_pos_bound t' DAY ltac:(unfold DAY; lia)) as U'.
  pose proof (Z.div_mod t DAY ltac:(unfold DAY; lia)) as D.
  pose proof (Z.div_mod t' DAY ltac:(unfold DAY; lia)) as D'.
  pose proof (clock_bounds (t mod DAY) U) as (B1 & B2 & B3 & B4).
  pose proof (clock_bounds (t' mod DAY) U') as (B1' & B2' & B3' & B4').
  pose proof (clock_parts (t mod DAY)) as C. pose proof (clock_parts (t' mod DAY)) as C'.
  repeat (rewrite str_leb_decimal by (cbn; lia); rewrite ?str_leb_same). rewrite str_leb_refl.
  pose proof (ymd2ord_lt y m d y' m' d' Hm Hm' (proj1 Hd) (proj1 Hd') Hl Hl') as O.
  pose proof (ymd2ord_lt y' m' d' y m d Hm' Hm (proj1 Hd') (proj1 Hd) Hl' Hl) as O'.
  assert (Oe : y = y' ∧ m = m' ∧ d = d' → EPOCH_ORDINAL + t / DAY = EPOCH_ORDINAL + t' / DAY).
  { intros (-> & -> & ->). congruence. }
  rewrite B, B' in O, O'. clear B B' Hl Hl' Hy Hy' Hm Hm' Hd Hd'. unfold DAY in *.
  revert D D' U U' O O' Oe B1 B2 B3 B4 B1' B2' B3' B4' C C'.
  generalize (t mod 86400000000) (t' mod 86400000000) (t / 86400000000) (t' / 86400000000).
  intros us us' n n'.
  generalize (us / 3600000000) (us / 60000000 mod 60) (us / 1000000 mod 60) (us mod 1000000)
    (us' / 3600000000) (us' / 60000000 mod 60) (us' / 1000000 mod 60) (us' mod 1000000).
  intros h i s f h' i' s' f' D D' U U' O O' Oe B1 B2 B3 B4 B1' B2' B3' B4' C C'.
  apply eq_true_iff_eq. rewrite Z.leb_le.
  repeat rewrite ?orb_true_iff, ?andb_true_iff, ?Z.ltb_lt, ?Z.eqb_eq.
  lia.
Qed.
