(* ===== verification/PyJson.v ===== *)
(** [json.loads], over texts of characters below 256, and that it reads what [dumps] writes of an
    object of texts.

    An escape of a character from 256 on is read as an error. *)

From stdpp Require Import prelude strings list pretty.
From Stdlib Require Import ZArith Lia Ascii.
From S2P Require Import Prelude PyLib PyTime SandboxScope.
Local Open Scope string_scope.
Local Open Scope Z_scope.

(** * Tokens *)

Definition json_space (c : ascii) : bool :=
  Ascii.eqb c " " || Ascii.eqb c "009" || Ascii.eqb c "010" || Ascii.eqb c "013".

Fixpoint skip_space (s : string) : string :=
  match s with
  | String c s' => if json_space c then skip_space s' else s
  | EmptyString => s
  end.

Definition hex_of (c : ascii) : option Z :=
  let n := Z.of_N (N_of_ascii c) in
  if (48 <=? n) && (n <=? 57) then Some (n - 48)
  else if (97 <=? n) && (n <=? 102) then Some (n - 87)
  else if (65 <=? n) && (n <=? 70) then Some (n - 55)
  else None.

(** The character after a backslash, but for [u]. *)
Definition simple_escape (c : ascii) : option ascii :=
  match c with
  | "034"%char => Some "034"%char
  | "092"%char => Some "092"%char
  | "/"%char => Some "/"%char
  | "b"%char => Some "008"%char
  | "f"%char => Some "012"%char
  | "n"%char => Some "010"%char
  | "r"%char => Some "013"%char
  | "t"%char => Some "009"%char
  | _ => None
  end.

Definition before (c : ascii) (r : option (string * string)) : option (string * string) :=
  '(t, rest) ← r; Some (String c t, rest).

(** What follows an opening quote: the text and the rest after the closing quote. *)
Fixpoint read_chars (s : string) : option (string * string) :=
  match s with
  | EmptyString => None
  | String c s =>
      if Ascii.eqb c dquote then Some ("", s)
      else if Ascii.eqb c backslash then
        match s with
        | EmptyString => None
        | String e s =>
            if Ascii.eqb e "u" then
              match s with
              | String a (String b (String h (String l s))) =>
                  a ← hex_of a; b ← hex_of b; h ← hex_of h; l ← hex_of l;
                  if (a =? 0) && (b =? 0) then before (ascii_of_N (Z.to_N (16 * h + l))) (read_chars s)
                  else None
              | _ => None
              end
            else d ← simple_escape e; before d (read_chars s)
        end
      else if (N_of_ascii c <? 32)%N then None
      else before c (read_chars s)
  end.

Fixpoint span (p : ascii → bool) (s : string) : string * string :=
  match s with
  | String c s' => if p c then let '(a, b) := span p s' in (String c a, b) else ("", s)
  | EmptyString => ("", "")
  end.

Definition is_digit (c : ascii) : bool := match digit_of c with Some _ => true | None => false end.

(** A sign and the rest. *)
Definition read_sign (signs : list ascii) (s : string) : string * string :=
  match s with
  | String c s' => if existsb (Ascii.eqb c) signs then (String c "", s') else ("", s)
  | EmptyString => ("", s)
  end.

(** A minus, then a single zero or a number without leading zeros. *)
Definition read_integer (s : string) : option (string * string) :=
  let '(sign, s) := read_sign ["-"%char] s in
  match expect "0" s with
  | Some s => Some (sign ++ "0", s)
  | None => let '(ds, s) := span is_digit s in
            if bool_decide (ds = "") then None else Some (sign ++ ds, s)
  end.

(** A point and digits, or nothing. *)
Definition read_fraction (s : string) : string * string :=
  match expect "." s with
  | Some s' =>
      let '(ds, s'') := span is_digit s' in if bool_decide (ds = "") then ("", s) else ("." ++ ds, s'')
  | None => ("", s)
  end.

(** [e], a sign and digits, or nothing. *)
Definition read_exponent (s : string) : string * string :=
  let '(e, s') := read_sign ["e"%char; "E"%char] s in
  if bool_decide (e = "") then ("", s)
  else
    let '(sign, s'') := read_sign ["-"%char; "+"%char] s' in
    let '(ds, rest) := span is_digit s'' in
    if bool_decide (ds = "") then ("", s) else (e ++ sign ++ ds, rest).

Definition integer_value (literal : string) : Z :=
  let '(sign, ds) := read_sign ["-"%char] literal in
  let n := default 0 (fst <$> digits (String.length ds) 0 ds) in
  if bool_decide (sign = "") then n else - n.

Definition read_number (s : string) : option (json * string) :=
  '(i, s) ← read_integer s;
  let '(f, s) := read_fraction s in
  let '(e, s) := read_exponent s in
  Some (if bool_decide (f = "") && bool_decide (e = "") then JInt (integer_value i)
        else JFloat (i ++ f ++ e), s).

Definition words : list (string * json) :=
  [("null", JNull); ("true", JBool true); ("false", JBool false); ("NaN", JFloat "NaN");
   ("Infinity", JFloat "Infinity"); ("-Infinity", JFloat "-Infinity")].

Fixpoint read_word (l : list (string * json)) (s : string) : option (json * string) :=
  match l with
  | [] => None
  | (w, v) :: l => match drop_prefix w s with Some s => Some (v, s) | None => read_word l s end
  end.

(** * Values *)

(** A value, or what follows in a non-empty array or object after some elements. *)
Inductive expected := Value | Elements (l : list json) | Members (l : list (string * json)).

Fixpoint read (fuel : nat) (e : expected) (s : string) : option (json * string) :=
  match fuel with
  | O => None
  | S fuel =>
      match e with
      | Value =>
          match s with
          | String c s' =>
              if Ascii.eqb c dquote then '(t, s) ← read_chars s'; Some (JStr t, s)
              else if Ascii.eqb c "{" then
                let s := skip_space s' in
                match expect "}" s with
                | Some s => Some (JObj [], s)
                | None => read fuel (Members []) s
                end
              else if Ascii.eqb c "[" then
                let s := skip_space s' in
                match expect "]" s with
                | Some s => Some (JArr [], s)
                | None => read fuel (Elements []) s
                end
              else match read_word words s with Some r => Some r | None => read_number s end
          | EmptyString => None
          end
      | Elements l =>
          '(v, s) ← read fuel Value s;
          let s := skip_space s in
          match expect "," s with
          | Some s => read fuel (Elements (l ++ [v])) (skip_space s)
          | None => s ← expect "]" s; Some (JArr (l ++ [v]), s)
          end
      | Members l =>
          s ← expect dquote s;
          '(k, s) ← read_chars s;
          s ← expect ":" (skip_space s);
          '(v, s) ← read fuel Value (skip_space s);
          let l := match jset k v (JObj l) with JObj l => l | _ => l end in
          let s := skip_space s in
          match expect "," s with
          | Some s => read fuel (Members l) (skip_space s)
          | None => s ← expect "}" s; Some (JObj l, s)
          end
      end
  end.

Definition fuel_for (s : string) : nat := 2 * String.length s + 2.

(** [json.loads(s)]; [None] for [JSONDecodeError]. *)
Definition loads (s : string) : option json :=
  '(v, rest) ← read (fuel_for s) Value (skip_space s);
  if bool_decide (skip_space rest = "") then Some v else None.

(** * Enough fuel *)

Local Abbreviation len := String.length.

Lemma skip_space_len s : (len (skip_space s) <= len s)%nat.
Proof. induction s as [|c s IH]; cbn; [done|]. destruct (json_space c); cbn; lia. Qed.

Lemma expect_len c s r : expect c s = Some r → len s = S (len r).
Proof. destruct s as [|d s]; [done|]. cbn. destruct (Ascii.eqb d c); [|done]. by intros [= ->]. Qed.

Lemma span_len p s a b : span p s = (a, b) → (len b <= len s)%nat.
Proof.
  revert a b. induction s as [|c s IH]; intros a b; cbn; [by intros [= <- <-]|].
  destruct (p c); [|by intros [= <- <-]]. destruct (span p s) as [a' b'].
  intros [= <- <-]. specialize (IH _ _ eq_refl). cbn. lia.
Qed.

Lemma read_sign_len signs s a b : read_sign signs s = (a, b) → (len b <= len s)%nat.
Proof.
  destruct s as [|c s]; cbn; [by intros [= <- <-]|].
  destruct (existsb _ _); intros [= <- <-]; cbn; lia.
Qed.

Lemma before_inv c r t rest : before c r = Some (t, rest) → ∃ t', r = Some (t', rest) ∧ t = String c t'.
Proof. destruct r as [[t' r']|]; [|done]. cbn. intros [= <- <-]. eauto. Qed.

Lemma read_chars_len s t r : read_chars s = Some (t, r) → (len r < len s)%nat.
Proof.
  remember (len s) as n eqn:En. assert (Hn : (len s <= n)%nat) by lia.
  cut ((len r < len s)%nat → (len r < n)%nat); [|lia]. intros Cut R. apply Cut. clear Cut En.
  revert s t r Hn R. induction n as [|n IH]; intros [|c s] t r Hn; cbn in Hn; try done; [lia|].
  assert (IH' : ∀ s t r, (len s <= n)%nat → read_chars s = Some (t, r) → (len r < len s)%nat) by eauto.
  clear IH. cbn [read_chars]. destruct (Ascii.eqb c dquote); [intros [= _ <-]; cbn; lia|].
  destruct (Ascii.eqb c backslash).
  - destruct s as [|e s]; [done|]. cbn in Hn. destruct (Ascii.eqb e "u").
    + destruct s as [|a [|b [|h [|l s]]]]; try done. cbn in Hn.
      destruct (hex_of a); [|done]. destruct (hex_of b); [|done]. destruct (hex_of h); [|done].
      destruct (hex_of l); [|done]. cbn [mbind option_bind]. destruct (_ && _); [|done].
      intros (t' & E & _)%before_inv. apply IH' in E; cbn; lia.
    + destruct (simple_escape e); [|done]. cbn [mbind option_bind].
      intros (t' & E & _)%before_inv. apply IH' in E; cbn; lia.
  - destruct (_ <? _)%N; [done|]. intros (t' & E & _)%before_inv. apply IH' in E; cbn; lia.
Qed.

Lemma read_number_len s v r : read_number s = Some (v, r) → (len r <= len s)%nat.
Proof.
  unfold read_number, read_integer, read_fraction, read_exponent.
  destruct (read_sign _ s) as [sg s1] eqn:E1. apply read_sign_len in E1.
  assert (I : ∀ i s2, (match expect "0" s1 with
    | Some s => Some (sg ++ "0", s)
    | None => let '(ds, s) := span is_digit s1 in if bool_decide (ds = "") then None else Some (sg ++ ds, s)
    end = Some (i, s2)) → (len s2 <= len s1)%nat).
  { intros i s2. destruct (expect "0" s1) as [s'|] eqn:X.
    - apply expect_len in X. intros [= _ <-]. lia.
    - destruct (span is_digit s1) as [ds s'] eqn:X'. apply span_len in X'.
      case_bool_decide; [done|]. by intros [= _ <-]. }
  destruct (match expect "0" s1 with Some _ => _ | None => _ end) as [[i s2]|]; [|done].
  specialize (I i s2 eq_refl). cbn [mbind option_bind].
  assert (F : ∀ f s3, (match expect "." s2 with
    | Some s' => let '(ds, s'') := span is_digit s' in if bool_decide (ds = "") then ("", s2) else ("." ++ ds, s'')
    | None => ("", s2) end = (f, s3)) → (len s3 <= len s2)%nat).
  { intros f s3. destruct (expect "." s2) as [s'|] eqn:X; [|by intros [= _ <-]].
    apply expect_len in X. destruct (span is_digit s') as [ds s''] eqn:X'. apply span_len in X'.
    case_bool_decide; intros [= _ <-]; lia. }
  destruct (match expect "." s2 with Some _ => _ | None => _ end) as [f s3].
  specialize (F f s3 eq_refl).
  destruct (read_sign _ s3) as [e s4] eqn:E4. apply read_sign_len in E4.
  case_bool_decide; [intros [= _ <-]; lia|].
  destruct (read_sign _ s4) as [sg' s5] eqn:E5. apply read_sign_len in E5.
  destruct (span is_digit s5) as [ds rest] eqn:E6. apply span_len in E6.
  case_bool_decide; intros [= _ <-]; lia.
Qed.

Lemma drop_prefix_len w s r : drop_prefix w s = Some r → (len r <= len s)%nat.
Proof.
  revert s. induction w as [|c w IH]; intros [|d s]; cbn; try by intros [= <-].
  case_bool_decide; [|done]. intros E%IH. lia.
Qed.

Lemma read_word_len l s v r : read_word l s = Some (v, r) → (len r <= len s)%nat.
Proof.
  induction l as [|[w x] l IH]; cbn; [done|]. destruct (drop_prefix w s) eqn:E; [|done].
  apply drop_prefix_len in E. by intros [= _ <-].
Qed.

Lemma read_len n e s v r : read n e s = Some (v, r) → (len r <= len s)%nat.
Proof.
  revert e s v r. induction n as [|n IH]; intros e s v r; [done|]. cbn [read]. destruct e as [|l|l].
  - destruct s as [|c s]; [done|]. cbn [String.length].
    destruct (Ascii.eqb c dquote).
    { destruct (read_chars s) as [[t s']|] eqn:E; [|done]. apply read_chars_len in E.
      intros [= _ <-]. lia. }
    destruct (Ascii.eqb c "{"); [|destruct (Ascii.eqb c "[")].
    1-2: cbv zeta; pose proof (skip_space_len s); destruct (expect _ (skip_space s)) as [s'|] eqn:E;
      [apply expect_len in E; intros [= _ <-]; lia|intros R%IH; lia].
    destruct (read_word words (String c s)) as [[v' s']|] eqn:E.
    { apply read_word_len in E. cbn in E. by intros [= <- <-]. }
    intros R%read_number_len. done.
  - destruct (read n Value s) as [[v1 s1]|] eqn:R; [|done]. apply IH in R. cbn [mbind option_bind].
    cbv zeta. pose proof (skip_space_len s1). destruct (expect "," _) as [s2|] eqn:E.
    + apply expect_len in E. pose proof (skip_space_len s2). intros R2%IH. lia.
    + destruct (expect "]" _) as [s2|] eqn:E2; [|done]. apply expect_len in E2.
      cbn [mbind option_bind]. intros [= _ <-]. lia.
  - destruct (expect dquote s) as [s1|] eqn:E1; [|done]. apply expect_len in E1. cbn [mbind option_bind].
    destruct (read_chars s1) as [[k s2]|] eqn:E2; [|done]. apply read_chars_len in E2. cbn [mbind option_bind].
    pose proof (skip_space_len s2). destruct (expect ":" _) as [s3|] eqn:E3; [|done].
    apply expect_len in E3. cbn [mbind option_bind]. pose proof (skip_space_len s3).
    destruct (read n Value _) as [[v1 s4]|] eqn:R; [|done]. apply IH in R. cbn [mbind option_bind].
    cbv zeta. pose proof (skip_space_len s4). destruct (expect "," _) as [s5|] eqn:E.
    + apply expect_len in E. pose proof (skip_space_len s5). intros R2%IH. lia.
    + destruct (expect "}" _) as [s5|] eqn:E5; [|done]. apply expect_len in E5.
      cbn [mbind option_bind]. intros [= _ <-]. lia.
Qed.

Definition weight (e : expected) (s : string) : nat :=
  2 * len s + match e with Value => 0 | _ => 1 end.

(** More fuel than the text needs changes nothing: no text is refused for want of fuel. *)
Lemma read_fuel n m e s :
  (weight e s < n)%nat → (weight e s < m)%nat → read n e s = read m e s.
Proof.
  unfold weight. revert m e s. induction n as [|n IH]; intros [|m] e s Hn Hm; try lia.
  cbn [read]. destruct e as [|l|l].
  - destruct s as [|c s]; [done|]. cbn [String.length] in *.
    pose proof (skip_space_len s) as L.
    destruct (Ascii.eqb c dquote); [done|]. destruct (Ascii.eqb c "{"); [|destruct (Ascii.eqb c "["); [|done]].
    all: cbv zeta; destruct (expect _ (skip_space s)); [done|]; apply IH; lia.
  - rewrite (IH m Value s) by lia. destruct (read m Value s) as [[v1 s1]|] eqn:R; [|done].
    apply read_len in R. cbn [mbind option_bind]. cbv zeta. pose proof (skip_space_len s1).
    destruct (expect "," _) as [s2|] eqn:E; [|done]. apply expect_len in E.
    pose proof (skip_space_len s2). apply IH; lia.
  - destruct (expect dquote s) as [s1|] eqn:E1; [|done]. apply expect_len in E1. cbn [mbind option_bind].
    destruct (read_chars s1) as [[k s2]|] eqn:E2; [|done]. apply read_chars_len in E2. cbn [mbind option_bind].
    pose proof (skip_space_len s2). destruct (expect ":" _) as [s3|] eqn:E3; [|done].
    apply expect_len in E3. cbn [mbind option_bind]. pose proof (skip_space_len s3).
    rewrite (IH m Value (skip_space s3)) by lia.
    destruct (read m Value _) as [[v1 s4]|] eqn:R; [|done]. apply read_len in R. cbn [mbind option_bind].
    cbv zeta. pose proof (skip_space_len s4). destruct (expect "," _) as [s5|] eqn:E; [|done].
    apply expect_len in E. pose proof (skip_space_len s5). apply IH; lia.
Qed.

(** * Texts read back *)

(** One character of a JSON text, with [ensure_ascii=True]. *)
Definition ascii_escape_char (c : ascii) : string :=
  if (126 <? N_of_ascii c)%N then String backslash ("u" ++ hex 4 (Z.of_N (N_of_ascii c)))
  else escape_char c.

Fixpoint ascii_escape (s : string) : string :=
  match s with
  | EmptyString => ""
  | String c s => ascii_escape_char c ++ ascii_escape s
  end.

(** [json.dumps(s)] of a text. *)
Definition ascii_dumps_str (s : string) : string := String dquote (ascii_escape s ++ String dquote "").

Lemma read_escaped_char c s : read_chars (ascii_escape_char c ++ s) = before c (read_chars s).
Proof. destruct c as [[] [] [] [] [] [] [] []]; reflexivity. Qed.

Lemma read_escaped t s : read_chars (ascii_escape t ++ String dquote s) = Some (t, s).
Proof.
  induction t as [|c t IH]; [done|]. cbn [ascii_escape].
  rewrite <- append_assoc, read_escaped_char, IH. done.
Qed.

(** The compact text of an object of two texts. *)
Definition dumps_pair (k1 v1 k2 v2 : string) : string :=
  "{" ++ ascii_dumps_str k1 ++ ":" ++ ascii_dumps_str v1 ++ "," ++ ascii_dumps_str k2 ++ ":"
  ++ ascii_dumps_str v2 ++ "}".

Lemma dumps_str_front t r :
  ascii_dumps_str t ++ r = String dquote (ascii_escape t ++ String dquote r).
Proof.
  unfold ascii_dumps_str. rewrite append_cons, <- append_assoc, append_cons. by rewrite append_nil_l.
Qed.

Lemma read_text n t s : read (S n) Value (ascii_dumps_str t ++ s) = Some (JStr t, s).
Proof. rewrite dumps_str_front. cbn [read]. rewrite Ascii.eqb_refl, read_escaped. done. Qed.

(** A member whose value is a text, and what follows it. *)
Lemma read_member n l k v s :
  read (S (S n)) (Members l) (ascii_dumps_str k ++ ":" ++ ascii_dumps_str v ++ s)
  = let l := match jset k (JStr v) (JObj l) with JObj l => l | _ => l end in
    let s := skip_space s in
    match expect "," s with
    | Some s => read (S n) (Members l) (skip_space s)
    | None => s ← expect "}" s; Some (JObj l, s)
    end.
Proof.
  rewrite dumps_str_front. remember (S n) as m eqn:Em. cbn [read expect].
  rewrite Ascii.eqb_refl. cbn [mbind option_bind]. rewrite read_escaped. cbn [mbind option_bind].
  rewrite append_cons, append_nil_l. change (skip_space (String ":" ?x)) with (String ":"%char x).
  cbn [expect]. rewrite Ascii.eqb_refl. cbn [mbind option_bind].
  replace (skip_space (ascii_dumps_str v ++ s)) with (ascii_dumps_str v ++ s)
    by (by rewrite dumps_str_front). subst m. rewrite read_text. done.
Qed.

Lemma loads_pair k1 v1 k2 v2 :
  k1 ≠ k2 → loads (dumps_pair k1 v1 k2 v2) = Some (JObj [(k1, JStr v1); (k2, JStr v2)]).
Proof.
  intros N. unfold loads. set (text := dumps_pair k1 v1 k2 v2).
  assert (F : ∃ n, fuel_for text = S (S (S (S n)))).
  { exists (fuel_for text - 4)%nat. unfold fuel_for, text, dumps_pair. rewrite length_append. cbn. lia. }
  destruct F as [n ->]. unfold text, dumps_pair. rewrite append_cons, append_nil_l.
  change (skip_space (String "{" ?x)) with (String "{"%char x).
  remember (S (S (S n))) as m eqn:Em. cbn [read]. change (Ascii.eqb "{" dquote) with false.
  rewrite Ascii.eqb_refl. cbv zeta. cbv iota.
  set (body := ascii_dumps_str k1 ++ _).
  assert (Hb : skip_space body = body ∧ expect "}" body = None).
  { unfold body. by rewrite dumps_str_front. }
  destruct Hb as [-> ->]. unfold body. subst m. rewrite read_member. cbn [jset existsb app]. cbv zeta.
  rewrite append_cons, append_nil_l. change (skip_space (String "," ?x)) with (String ","%char x).
  cbn [expect]. rewrite Ascii.eqb_refl. set (body2 := ascii_dumps_str k2 ++ _).
  replace (skip_space body2) with body2 by (unfold body2; by rewrite dumps_str_front).
  unfold body2. rewrite read_member. cbn [jset existsb app fst]. rewrite bool_decide_eq_false_2 by done.
  done.
Qed.
