(* ===== verification/Paths.v ===== *)
(** Paths of a user's workspace: [workspace/paths.py] (what is computed from names, not the
    directories it opens) and [agents/backends/paths.py] (the paths of the sandbox).

    Paths are texts; [PurePosixPath] is what the Standard Library of Python makes of them.  The
    clock gives the local time of Shanghai. *)

From stdpp Require Import prelude gmap strings list pretty.
From Stdlib Require Import ZArith Lia Ascii.
From S2P Require Import Prelude PyLib SandboxScope PyTime.
Local Open Scope string_scope.

(** * Pure paths *)

Definition slash : ascii := "/".

Record PurePosixPath := { anchor : string; tail : list string }.

(** Empty parts and dots disappear, [..] stays; two leading slashes are an anchor of their own. *)
Definition pure_path (s : string) : PurePosixPath := {|
  anchor := if String.prefix "//" s && negb (String.prefix "///" s) then "//"
            else if String.prefix "/" s then "/" else "";
  tail := List.filter (λ p, negb (bool_decide (p ∈ [""; "."]))) (split_on slash s) |}.

Definition as_posix (p : PurePosixPath) : string :=
  if bool_decide (anchor p = "") && bool_decide (tail p = []) then "."
  else anchor p ++ str_concat "/" (tail p).

Definition is_absolute (p : PurePosixPath) : bool := negb (bool_decide (anchor p = "")).

Definition path_parts (p : PurePosixPath) : list string :=
  if is_absolute p then anchor p :: tail p else tail p.

(** [s.rstrip("/")]. *)
Fixpoint rstrip_slash (s : string) : string :=
  match s with
  | EmptyString => ""
  | String c s' =>
      let r := rstrip_slash s' in
      if bool_decide (r = "") && Ascii.eqb c slash then "" else String c r
  end.

(** * Names *)

(** [_SAFE_ID_RE], on a text that is stripped. *)
Definition safe_id_char (c : ascii) : bool :=
  let n := N_of_ascii c in
  ((48 <=? n) && (n <=? 57))%N || ((65 <=? n) && (n <=? 90))%N || ((97 <=? n) && (n <=? 122))%N
  || bool_decide (n = 95%N) || bool_decide (n = 45%N).
Definition safe_id (s : string) : bool := negb (bool_decide (s = "")) && all_chars safe_id_char s.

Definition validate_thread_id (thread_id : string) : outcome string :=
  let value := strip thread_id in
  if bool_decide (value = "") then Raise (ValueError "thread_id is required")
  else if negb (safe_id value) then Raise (ValueError "thread_id contains invalid characters")
  else Ret value.

Definition BAD_PARTS : list string := [""; "."; ".."].

Definition normalize_workdir_path (workdir_path : string) : outcome string :=
  let raw := strip workdir_path in
  let pure := pure_path raw in
  if bool_decide (raw = "") || is_absolute pure || occurs (String backslash "") raw || occurs "://" raw
  then Raise (ValueError "workdir_path must be a relative POSIX path")
  else if existsb (λ part, bool_decide (part ∈ BAD_PARTS)) (split_on slash raw)
  then Raise (ValueError "workdir_path contains invalid path components")
  else Ret (as_posix pure).

(** The name of a user's directory under [shared]. *)
Definition workspace_uid_dirname (uid : string) : outcome string :=
  let value := strip uid in
  if bool_decide (value = "") then Raise (ValueError "uid is required")
  else if safe_id value then Ret value
  else Ret ("uid-" ++ sha256_hexdigest value).

(** * Managed directories *)

Definition is_digit (c : ascii) : bool := let n := N_of_ascii c in ((48 <=? n) && (n <=? 57))%N.

(** The value of a hexadecimal digit. *)
Definition hex_value (c : ascii) : option Z :=
  let n := Z.of_N (N_of_ascii c) in
  if is_digit c then Some (n - 48)%Z
  else if ((97 <=? n) && (n <=? 102))%Z then Some (n - 87)%Z
  else if ((65 <=? n) && (n <=? 70))%Z then Some (n - 55)%Z
  else None.

(** [int(s, 16)]: blanks around it, a sign, the prefix [0x], single underscores between digits. *)
Fixpoint hex_digits (acc : Z) (between : bool) (s : string) : option Z :=
  match s with
  | EmptyString => if between then Some acc else None
  | String c s' =>
      if Ascii.eqb c "_" then if between then hex_digits acc false s' else None
      else match hex_value c with
           | Some d => hex_digits (16 * acc + d) true s'
           | None => None
           end
  end.

Definition after_hex_prefix (s : string) : option Z :=
  match s with
  | String "0" (String x rest) =>
      if Ascii.eqb x "x" || Ascii.eqb x "X" then
        match rest with
        | String "_" rest' => hex_digits 0 false rest'
        | _ => hex_digits 0 false rest
        end
      else hex_digits 0 false s
  | _ => hex_digits 0 false s
  end.

Definition int16 (s : string) : option Z :=
  match strip s with
  | String "+" rest => after_hex_prefix rest
  | String "-" rest => Z.opp <$> after_hex_prefix rest
  | s => after_hex_prefix s
  end.

(** [s.strip("{}")]. *)
Definition brace (c : ascii) : bool := Ascii.eqb c "{" || Ascii.eqb c "}".
Fixpoint lstrip_braces (s : string) : string :=
  match s with String c s' => if brace c then lstrip_braces s' else s | EmptyString => "" end.
Fixpoint rstrip_braces (s : string) : string :=
  match s with
  | EmptyString => ""
  | String c s' =>
      let r := rstrip_braces s' in
      if bool_decide (r = "") && brace c then "" else String c r
  end.

(** [uuid.UUID(s)], by its number. *)
Definition uuid_of (s : string) : option Z :=
  let hex := str_replace "uuid:" "" 0 (str_replace "urn:" "" 0 s) in
  let hex := str_replace "-" "" 0 (rstrip_braces (lstrip_braces hex)) in
  if negb (bool_decide (String.length hex = 32)) then None
  else n ← int16 hex; if (0 <=? n)%Z && (n <? 2 ^ 128)%Z then Some n else None.

(** [str(UUID)]. *)
Definition uuid_text (n : Z) : string :=
  hex 8 (Z.shiftr n 96) ++ "-" ++ hex 4 (Z.shiftr n 80) ++ "-" ++ hex 4 (Z.shiftr n 64) ++ "-"
  ++ hex 4 (Z.shiftr n 48) ++ "-" ++ hex 12 n.

(** [n] characters that satisfy [p], and the rest. *)
Fixpoint take_chars (n : nat) (p : ascii → bool) (s : string) : option (string * string) :=
  match n, s with
  | O, _ => Some ("", s)
  | S n', String c s' =>
      if p c then '(a, r) ← take_chars n' p s'; Some (String c a, r) else None
  | S _, EmptyString => None
  end.

Definition lower_hex (c : ascii) : bool :=
  is_digit c || ((97 <=? N_of_ascii c) && (N_of_ascii c <=? 102))%N.

(** An optional suffix: a dash and a number without leading zeros. *)
Definition suffix_matches (s : string) : bool :=
  match s with
  | EmptyString => true
  | String c (String d rest) =>
      Ascii.eqb c "-" && is_digit d && negb (Ascii.eqb d "0") && all_chars is_digit rest
  | _ => false
  end.

(** [_MANAGED_WORKDIR_NAME_RE] and the fields of its timestamp. *)
Definition managed_name (s : string) : option (list Z) :=
  '(year, s) ← digits 4 0 s; s ← expect "-" s;
  '(month, s) ← digits 2 0 s; s ← expect "-" s;
  '(day, s) ← digits 2 0 s; s ← expect "_" s;
  '(hour, s) ← digits 2 0 s; s ← expect "-" s;
  '(minute, s) ← digits 2 0 s; s ← expect "-" s;
  '(second, s) ← digits 2 0 s; s ← expect "_" s;
  '(_, s) ← take_chars 8 lower_hex s;
  if suffix_matches s then Some [year; month; day; hour; minute; second] else None.

(** [strptime] accepts the fields. *)
Definition timestamp_valid (fields : list Z) : bool :=
  match fields with
  | [year; month; day; hour; minute; second] =>
      ((1 <=? year) && (1 <=? month) && (month <=? 12) && (1 <=? day)
       && (day <=? days_in_month year month) && (hour <=? 23) && (minute <=? 59) && (second <=? 59))%Z
  | _ => false
  end.

Definition WORKDIR_PROJECTS_DIR_NAME : string := "projects".

Definition normalize_managed_workdir_path (workdir_path : string) : outcome string :=
  let error := Raise (ValueError "managed workdir_path must use a supported projects/<managed-id>") in
  match normalize_workdir_path workdir_path with
  | Raise _ => error
  | Ret normalized =>
      match path_parts (pure_path normalized) with
      | [projects; workdir_name] =>
          if negb (bool_decide (projects = WORKDIR_PROJECTS_DIR_NAME)) then error
          else
            match uuid_of workdir_name with
            | Some workdir_id => Ret (WORKDIR_PROJECTS_DIR_NAME ++ "/" ++ uuid_text workdir_id)
            | None =>
                match managed_name workdir_name with
                | Some fields =>
                    if timestamp_valid fields then Ret (as_posix (pure_path normalized)) else error
                | None => error
                end
            end
      | _ => error
      end
  end.

(** [strftime("%Y-%m-%d_%H-%M-%S")] of the local time. *)
Definition timestamp_text (local : datetime) : string :=
  let '(year, month, day) := ord2ymd (EPOCH_ORDINAL + local / DAY) in
  let us := (local mod DAY)%Z in
  decimal 4 year ++ "-" ++ decimal 2 month ++ "-" ++ decimal 2 day ++ "_"
  ++ decimal 2 (us / 3600000000) ++ "-" ++ decimal 2 (us / 60000000 mod 60) ++ "-"
  ++ decimal 2 (us / 1000000 mod 60).

Definition candidate_name (base_name : string) (suffix : nat) : string :=
  if bool_decide (suffix = 0) then base_name else base_name ++ "-" ++ pretty suffix.

(** The loop of [allocate_default_user_workdir_path], with fuel; [entry_exists] is
    [_user_workspace_entry_exists]. *)
Fixpoint free_name (fuel : nat) (entry_exists : string → bool) (base_name : string) (suffix : nat)
    : option string :=
  match fuel with
  | O => None
  | S fuel =>
      let name := candidate_name base_name suffix in
      if entry_exists name then free_name fuel entry_exists base_name (S suffix) else Some name
  end.

Definition base_workdir_name (project : Z) (local : datetime) : string :=
  timestamp_text local ++ "_" ++ str_take 8 (uuid_text project).

(** The outer option is the fuel's. *)
Definition allocate_default_user_workdir_path (fuel : nat) (entry_exists : string → bool)
    (project_id : string) (local : datetime) : option (outcome string) :=
  match uuid_of project_id with
  | None => Some (Raise (ValueError "badly formed hexadecimal UUID string"))
  | Some project =>
      name ← free_name fuel entry_exists (base_workdir_name project local) 0;
      Some (Ret (WORKDIR_PROJECTS_DIR_NAME ++ "/" ++ name))
  end.

(** * Paths of the sandbox *)

Definition DEFAULT_VIRTUAL_PATH_PREFIX : string := "/home/gem/user-data".
Definition VIRTUAL_SKILLS_PATH : string := "/home/gem/skills".

(** [env] is SANDBOX_VIRTUAL_PATH_PREFIX. *)
Definition get_virtual_path_prefix (env : option string) : string :=
  let prefix := strip (if falsy_str env then DEFAULT_VIRTUAL_PATH_PREFIX else default "" env) in
  let prefix := if bool_decide (prefix = "") then DEFAULT_VIRTUAL_PATH_PREFIX else prefix in
  if String.prefix "/" prefix then prefix else "/" ++ prefix.

Section runtime.
Context (virtual_path_prefix : string).

(** [VIRTUAL_PATH_PREFIX.rstrip("/")]. *)
Definition runtime_root : string := rstrip_slash virtual_path_prefix.

Definition runtime_workdir_path (workdir_path : string) : outcome string :=
  normalized ← normalize_workdir_path workdir_path;
  Ret (runtime_root ++ "/" ++ normalized).

Definition workdir_runtime_paths (workdir_path : string) : outcome (string * string) :=
  let normalized := rstrip_slash (as_posix (pure_path workdir_path)) in
  if negb (String.prefix (runtime_root ++ "/") normalized)
  then Raise (ValueError "workdir_path must be a Backend runtime path")
  else Ret (normalized ++ "/outputs/large_tool_results", normalized ++ "/outputs/conversation_history").

(** An absolute path of a scope: no [..], no backslash, no scheme. *)
Definition scope_path (raw : string) (error : string) : outcome PurePosixPath :=
  let pure := pure_path raw in
  if negb (is_absolute pure) || bool_decide (".." ∈ path_parts pure)
     || occurs (String backslash "") raw || occurs "://" raw
  then Raise (ValueError error) else Ret pure.

Definition runtime_user_data_path (workspace_path : string) : outcome string :=
  pure ← scope_path (strip workspace_path) "invalid Workspace scope path";
  Ret (if bool_decide (as_posix pure = "/") then runtime_root else runtime_root ++ as_posix pure).

(** [normalized] below [root]. *)
Definition scope_below (root normalized error : string) : outcome string :=
  if bool_decide (normalized = root) then Ret "/"
  else match drop_prefix (root ++ "/") normalized with
       | Some rest => Ret ("/" ++ rest)
       | None => Raise (ValueError error)
       end.

Definition workspace_scope_from_runtime_path (runtime_path : string) : outcome string :=
  scope_below runtime_root (as_posix (pure_path runtime_path)) "runtime path is outside user-data".

Definition runtime_path_for_workdir_scope (workdir_path : string) (path : option string)
    : outcome string :=
  let raw := strip (if falsy_str path then "/" else default "" path) in
  let raw := if bool_decide (raw = "") then "/" else raw in
  pure ← scope_path raw "invalid Workdir scope path";
  normalized ← normalize_workdir_path workdir_path;
  let workspace_root := "/" ++ normalized in
  runtime_user_data_path
    (if bool_decide (as_posix pure = "/") then workspace_root else workspace_root ++ as_posix pure).

Definition workdir_scope_from_runtime_path (workdir_path runtime_path : string) : outcome string :=
  root ← runtime_workdir_path workdir_path;
  scope_below (rstrip_slash root) (as_posix (pure_path runtime_path)) "runtime path is outside the Workdir".

Definition is_runtime_path (path : string) : bool :=
  let normalized := as_posix (pure_path path) in
  existsb (λ root, bool_decide (normalized = root) || String.prefix (root ++ "/") normalized)
    [runtime_root; rstrip_slash VIRTUAL_SKILLS_PATH].
End runtime.
