(* ===== verification/PathProps.v ===== *)
(** What holds of the paths of [Paths.v]: the paths of a Workdir stay below it and map back, an
    allocated Workdir is free and accepted, and the directory of a user is one safe name. *)

From stdpp Require Import prelude gmap strings list pretty fin_sets.
From Stdlib Require Import ZArith Lia Ascii.
From S2P Require Import Prelude PyLib SandboxScope PyTime Paths.
Local Open Scope string_scope.

(** * Parts *)

Definition no_char (c : ascii) (s : string) : Prop := all_chars (λ d, negb (Ascii.eqb d c)) s = true.

Lemma no_char_cons c d s : no_char c (String d s) ↔ d ≠ c ∧ no_char c s.
Proof.
  unfold no_char. cbn. rewrite andb_true_iff, negb_true_iff, Ascii.eqb_neq. done.
Qed.

(** A part of a path: not empty, no dot, no slash. *)
Definition solid (p : string) : Prop := no_char slash p ∧ p ≠ "" ∧ p ≠ ".".
(** A part that stays where it is. *)
Definition plain (p : string) : Prop := solid p ∧ p ≠ "..".

Lemma split_on_ne c s : split_on c s ≠ [].
Proof. destruct s as [|d s]; [done|]. cbn. destruct (Ascii.eqb d c); [done|]. by destruct (split_on c s). Qed.

Lemma split_on_app c a b : split_on c (a ++ String c b) = (split_on c a ++ split_on c b)%list.
Proof.
  induction a as [|d a IH].
  - rewrite append_nil_l. cbn. by rewrite Ascii.eqb_refl.
  - rewrite append_cons. cbn [split_on]. rewrite IH.
    destruct (Ascii.eqb d c); [done|].
    pose proof (split_on_ne c a). by destruct (split_on c a).
Qed.

Lemma split_on_none c s : no_char c s → split_on c s = [s].
Proof.
  induction s as [|d s IH]; [done|]. rewrite no_char_cons. intros [N Hs]. cbn.
  destruct (Ascii.eqb_spec d c); [done|]. by rewrite IH.
Qed.

Lemma split_on_parts c s : Forall (no_char c) (split_on c s).
Proof.
  induction s as [|d s IH]; cbn; [by constructor|].
  destruct (Ascii.eqb_spec d c) as [->|N]; [by constructor|].
  destruct (split_on c s) as [|w ws] eqn:E; [by apply split_on_ne in E|].
  apply Forall_cons in IH as [Hw Hws]. constructor; [|done]. by apply no_char_cons.
Qed.

Lemma split_on_concat l :
  l ≠ [] → Forall (no_char slash) l → split_on slash (str_concat "/" l) = l.
Proof.
  induction l as [|p l IH]; [done|]. intros _ H. apply Forall_cons in H as [Hp Hl].
  destruct l as [|p' l]; [by apply split_on_none|].
  change (str_concat "/" (p :: p' :: l)) with (p ++ String slash (str_concat "/" (p' :: l))).
  by rewrite split_on_app, split_on_none, IH.
Qed.

Lemma concat_split_on s : str_concat "/" (split_on slash s) = s.
Proof.
  induction s as [|d s IH]; [done|]. cbn [split_on]. destruct (Ascii.eqb_spec d slash) as [->|N].
  - destruct (split_on slash s) as [|w ws] eqn:E; [by apply split_on_ne in E|].
    change (str_concat "/" ("" :: w :: ws)) with ("" ++ String slash (str_concat "/" (w :: ws))).
    by rewrite IH, append_nil_l.
  - destruct (split_on slash s) as [|w ws] eqn:E; [by apply split_on_ne in E|].
    destruct ws as [|w' ws].
    + change (str_concat "/" [String d w]) with (String d w). cbn in IH. by rewrite IH.
    + change (str_concat "/" (String d w :: w' :: ws)) with (String d (w ++ String slash (str_concat "/" (w' :: ws)))).
      change (str_concat "/" (w :: w' :: ws)) with (w ++ String slash (str_concat "/" (w' :: ws))) in IH.
      by rewrite IH.
Qed.

(** * Pure paths *)

Lemma tail_join a b : tail (pure_path (a ++ String slash b)) = (tail (pure_path a) ++ tail (pure_path b))%list.
Proof. cbn [pure_path tail]. by rewrite split_on_app, List.filter_app. Qed.

Lemma tail_solid s : Forall solid (tail (pure_path s)).
Proof.
  cbn [pure_path tail]. apply Forall_forall. intros p Hp. apply list_elem_of_In, filter_In in Hp as [Hp E].
  apply negb_true_iff, bool_decide_eq_false in E.
  split; [apply list_elem_of_In in Hp; by eapply Forall_forall in Hp; [|apply split_on_parts]|].
  split; intros ->; apply E; set_solver.
Qed.

Lemma filter_solid l :
  Forall solid l → List.filter (λ p, negb (bool_decide (p ∈ [""; "."]))) l = l.
Proof.
  induction 1 as [|p l (_ & N1 & N2) _ IH]; [done|]. cbn [List.filter].
  rewrite bool_decide_false by set_solver. cbn [negb]. by rewrite IH.
Qed.

Lemma solid_no_slash l : Forall solid l → Forall (no_char slash) l.
Proof. intros H. apply (Forall_impl _ _ _ H). by intros p (? & _). Qed.

Lemma tail_concat l : l ≠ [] → Forall solid l → tail (pure_path (str_concat "/" l)) = l.
Proof.
  intros N H. cbn [pure_path tail]. rewrite split_on_concat by auto using solid_no_slash.
  by apply filter_solid.
Qed.

(** An absolute path of solid parts. *)
Definition rooted (l : list string) : string := "/" ++ str_concat "/" l.

Lemma concat_cons p l : str_concat "/" (p :: l) = p ++ (if decide (l = []) then "" else "/" ++ str_concat "/" l).
Proof. destruct l; [by rewrite append_nil_r|done]. Qed.

Lemma prefix_nil s : String.prefix "" s = true.
Proof. by destruct s. Qed.

Lemma one_slash c s : c ≠ slash → String.prefix "//" (String slash (String c s)) = false.
Proof.
  intros N. change "//" with (String slash (String slash "")).
  rewrite !prefix_cons, (proj2 (Ascii.eqb_neq slash c)) by congruence. apply andb_false_r.
Qed.

Lemma pure_rooted l : Forall solid l → pure_path (rooted l) = {| anchor := "/"; tail := l |}.
Proof.
  intros H. unfold rooted. change ("/" ++ str_concat "/" l) with (String slash (str_concat "/" l)).
  unfold pure_path. f_equal.
  - destruct l as [|p l]; [done|]. apply Forall_cons in H as [(Hs & N & _) _].
    destruct p as [|c p]; [done|]. apply no_char_cons in Hs as [Nc _].
    rewrite concat_cons, append_cons, one_slash by done. done.
  - change (String slash (str_concat "/" l)) with ("" ++ String slash (str_concat "/" l)).
    rewrite split_on_app, List.filter_app. change (split_on slash "") with [""].
    destruct l as [|p l]; [done|]. rewrite split_on_concat by (done || by apply solid_no_slash).
    rewrite (filter_solid (p :: l)) by done. done.
Qed.

Lemma as_posix_rooted l : as_posix {| anchor := "/"; tail := l |} = rooted l.
Proof. done. Qed.

Lemma no_char_app c a b : no_char c (a ++ b) ↔ no_char c a ∧ no_char c b.
Proof. unfold no_char. by rewrite all_chars_app, andb_true_iff. Qed.

(** * Blanks at the end *)

Lemma rstrip_app_solid a c b : is_space c = false → rstrip (a ++ String c b) = a ++ String c (rstrip b).
Proof.
  intros Hc. induction a as [|d a IH].
  - rewrite !append_nil_l. cbn. rewrite Hc. by destruct (rstrip b).
  - rewrite !append_cons. cbn [rstrip]. rewrite IH. by destruct a.
Qed.

Lemma rstrip_front b : rstrip (String slash b) = String slash (rstrip b).
Proof. exact (rstrip_app_solid "" slash b eq_refl). Qed.

Lemma strip_rooted a b : strip (String slash (a ++ String slash b)) = String slash (a ++ String slash (rstrip b)).
Proof.
  unfold strip. cbn [lstrip]. change (is_space slash) with false. cbn iota.
  by rewrite <- append_cons, rstrip_app_solid, append_cons.
Qed.

(** * A Workdir path *)

(** [normalize_workdir_path] answers with plain parts. *)
Lemma normalize_workdir_plain w n :
  normalize_workdir_path w = Ret n →
  n = strip w ∧ n = str_concat "/" (split_on slash n) ∧ Forall plain (split_on slash n).
Proof.
  unfold normalize_workdir_path. set (raw := strip w).
  destruct (_ || _) eqn:E1; [done|]. destruct (existsb _ _) eqn:E2; [done|]. intros [= <-].
  assert (P : Forall plain (split_on slash raw)).
  { apply Forall_forall. intros p Hp.
    assert (B : p ∉ BAD_PARTS).
    { intros B. apply not_true_iff_false in E2. apply E2, existsb_exists. exists p.
      split; [by apply list_elem_of_In|by apply bool_decide_true]. }
    pose proof (split_on_parts slash raw) as F. rewrite Forall_forall in F.
    split; [split; [by apply F|]|]; [split|]; intros ->; apply B; set_solver. }
  assert (F : List.filter (λ p, negb (bool_decide (p ∈ [""; "."]))) (split_on slash raw) = split_on slash raw).
  { apply filter_solid. apply (Forall_impl _ _ _ P). by intros ? [? _]. }
  assert (A : as_posix (pure_path raw) = raw).
  { apply orb_false_iff in E1 as [E1 _]. apply orb_false_iff in E1 as [E1 _].
    apply orb_false_iff in E1 as [_ E1]. unfold is_absolute in E1. apply negb_false_iff, bool_decide_eq_true in E1.
    unfold as_posix. rewrite E1. cbn [pure_path tail]. rewrite F.
    rewrite (bool_decide_false (split_on slash raw = [])) by apply split_on_ne. rewrite andb_false_r.
    apply concat_split_on. }
  rewrite A. by rewrite concat_split_on.
Qed.

(** The tail of what is joined to the normalised Workdir. *)
Lemma tail_workdir n b :
  Forall plain (split_on slash n) →
  tail (pure_path (String slash (n ++ String slash b))) = (split_on slash n ++ tail (pure_path b))%list.
Proof.
  intros P. change (String slash (n ++ String slash b)) with ("" ++ String slash (n ++ String slash b)).
  rewrite !tail_join. cbn [pure_path tail]. change (split_on slash "") with [""]. cbn [List.filter].
  rewrite bool_decide_true by set_solver. cbn [negb app]. f_equal. apply filter_solid.
  apply (Forall_impl _ _ _ P). by intros ? [? _].
Qed.

(** A prefix whose root is a path of plain parts. *)
Definition canonical_root (prefix : string) : Prop :=
  ∃ l, l ≠ [] ∧ Forall plain l ∧ runtime_root prefix = rooted l.

(** [root] and the parts below it. *)
Definition under (root : string) (parts : list string) : string :=
  if bool_decide (parts = []) then root else root ++ rooted parts.

Lemma rooted_app l l' : l ≠ [] → l' ≠ [] → rooted (l ++ l') = rooted l ++ rooted l'.
Proof.
  intros N N'. unfold rooted. rewrite <- append_assoc. f_equal. induction l as [|p l IH]; [done|].
  cbn [app]. rewrite !concat_cons. rewrite decide_False by (by destruct l; destruct l'). destruct (decide (l = [])) as [->|M].
  - cbn [app]. by rewrite append_nil_r.
  - by rewrite <- append_assoc, <- append_assoc, IH.
Qed.

Lemma rooted_concat l : rooted l = String slash (str_concat "/" l).
Proof. done. Qed.

Lemma rstrip_slash_end a c : c ≠ slash → rstrip_slash (a ++ String c "") = a ++ String c "".
Proof.
  intros N. induction a as [|d a IH].
  - rewrite append_nil_l. cbn. by rewrite (proj2 (Ascii.eqb_neq c slash)).
  - rewrite append_cons. cbn [rstrip_slash]. rewrite IH. rewrite bool_decide_false; [done|]. by destruct a.
Qed.

Lemma string_snoc s : s ≠ "" → ∃ a c, s = a ++ String c "".
Proof.
  induction s as [|c s IH]; [done|]. intros _. destruct s as [|d s]; [by exists "", c|].
  destruct IH as (a & e & E); [done|]. exists (String c a), e. by rewrite append_cons, <- E.
Qed.

Lemma rstrip_slash_solid a p : solid p → rstrip_slash (a ++ p) = a ++ p.
Proof.
  intros (Hs & N & _). destruct (string_snoc p N) as (b & c & ->).
  apply no_char_app in Hs as [_ Hc]. apply no_char_cons in Hc as [Hc _].
  by rewrite append_assoc, rstrip_slash_end.
Qed.

Lemma rstrip_slash_rooted l : l ≠ [] → Forall solid l → rstrip_slash (rooted l) = rooted l.
Proof.
  intros N H. destruct (exists_last N) as (l' & p & ->). apply Forall_app in H as [_ H].
  apply Forall_cons in H as [Hp _]. destruct (decide (l' = [])) as [->|N'].
  - by apply (rstrip_slash_solid "/" p).
  - rewrite rooted_app by done. unfold rooted at 2 4. rewrite append_assoc. cbn [str_concat].
    by apply rstrip_slash_solid.
Qed.

Lemma plain_solid l : Forall plain l → Forall solid l.
Proof. intros H. apply (Forall_impl _ _ _ H). by intros ? [? _]. Qed.

Lemma first_of_plain n :
  Forall plain (split_on slash n) → ∃ c n', n = String c n' ∧ c ≠ slash.
Proof.
  intros P. destruct n as [|c n'].
  - cbn in P. apply Forall_cons in P as [[(_ & N & _) _] _]. done.
  - exists c, n'. split; [done|]. intros ->. cbn in P. apply Forall_cons in P as [[(_ & N & _) _] _]. done.
Qed.

(** What [runtime_user_data_path] answers for a path that starts with a Workdir. *)
Lemma runtime_user_data_workdir prefix n rest q :
  Forall plain (split_on slash n) →
  strip rest = String slash n ∨ (∃ b, strip rest = String slash (n ++ String slash b)) →
  runtime_user_data_path prefix rest = Ret q →
  ∃ parts, Forall plain parts ∧ q = (runtime_root prefix ++ rooted (split_on slash n ++ parts))%string
    ∧ (strip rest = String slash n → parts = [])
    ∧ ∀ b, strip rest = String slash (n ++ String slash b) → parts = tail (pure_path b).
Proof.
  intros P S. destruct (first_of_plain n P) as (c & n' & En & Nc).
  assert (F : ∃ parts, tail (pure_path (strip rest)) = (split_on slash n ++ parts)%list
    ∧ (strip rest = String slash n → parts = [])
    ∧ ∀ b, strip rest = String slash (n ++ String slash b) → parts = tail (pure_path b)).
  { exists (drop (length (split_on slash n)) (tail (pure_path (strip rest)))).
    assert (T0 : tail (pure_path (String slash n)) = split_on slash n).
    { change (String slash n) with ("" ++ String slash n). rewrite tail_join. cbn.
      by apply filter_solid, plain_solid. }
    split; [|split].
    - destruct S as [->|[b ->]]; [by rewrite T0, drop_all, app_nil_r|].
      by rewrite tail_workdir, drop_app_length.
    - intros ->. by rewrite T0, drop_all.
    - intros b ->. by rewrite tail_workdir, drop_app_length. }
  destruct F as (parts & F & F1 & F2).
  unfold runtime_user_data_path, scope_path, mbind, outcome_bind.
  destruct (_ || _) eqn:E1; [done|].
  assert (A : anchor (pure_path (strip rest)) = "/").
  { assert (O : String.prefix "//" (strip rest) = false) by (destruct S as [->|[b ->]]; subst n; [|rewrite append_cons]; by apply one_slash).
    unfold pure_path. cbn [anchor]. rewrite O. cbn [andb]. change (String.prefix "/") with (String.prefix (String slash "")).
    destruct S as [->|[b ->]]; rewrite prefix_cons, Ascii.eqb_refl, prefix_nil; done. }
  assert (D : ".." ∉ (split_on slash n ++ parts)%list).
  { apply orb_false_iff in E1 as [E1 _]. apply orb_false_iff in E1 as [E1 _].
    apply orb_false_iff in E1 as [_ E1]. apply bool_decide_eq_false in E1. intros D. apply E1.
    unfold path_parts. case_match; rewrite F; [by right|done]. }
  assert (X : as_posix (pure_path (strip rest)) = rooted (split_on slash n ++ parts)).
  { unfold as_posix. rewrite A, F. done. }
  rewrite X. intros [= <-]. exists parts.
  assert (PP : Forall solid parts).
  { pose proof (tail_solid (strip rest)) as PP. rewrite F in PP. by apply Forall_app in PP as [_ PP]. }
  split; [|split; [|done]].
  - apply Forall_forall. intros p Hp. rewrite Forall_forall in PP. split; [by apply PP|].
    intros ->. apply D. set_solver.
  - rewrite bool_decide_false; [done|]. pose proof (split_on_ne slash n) as N.
    destruct (split_on slash n) as [|p l]; [done|]. cbn [app].
    apply Forall_cons in P as [[(_ & Np & _) _] _]. unfold rooted. rewrite concat_cons. by destruct p.
Qed.

Lemma rstrip_solid_idem n : rstrip (strip n) = strip n.
Proof. unfold strip. apply rstrip_idem. Qed.

Lemma as_posix_absolute p : anchor p = "/" ∨ anchor p = "//" → ∃ b, as_posix p = String slash b
  ∧ (Forall solid (tail p) → tail (pure_path b) = tail p).
Proof.
  assert (T : ∀ l, Forall solid l → tail (pure_path (str_concat "/" l)) = l).
  { intros l H. destruct l as [|x l]; [done|]. by apply tail_concat. }
  unfold as_posix. intros [->| ->]; cbn [andb bool_decide].
  - exists (str_concat "/" (tail p)). split; [done|apply T].
  - exists (String slash (str_concat "/" (tail p))). split; [done|]. intros H.
    change (String slash ?x) with ("" ++ String slash x). rewrite tail_join. cbn [app]. by apply T.
Qed.

Lemma absolute_anchor s : is_absolute (pure_path s) = true → anchor (pure_path s) = "/" ∨ anchor (pure_path s) = "//".
Proof.
  unfold is_absolute. rewrite negb_true_iff, bool_decide_eq_false. cbn [pure_path anchor].
  destruct (_ && _); [by right|]. destruct (String.prefix "/" s); [by left|done].
Qed.

(** The way back, from a path below the Workdir. *)
Lemma workdir_scope_back prefix workdir_path l parts :
  runtime_workdir_path prefix workdir_path = Ret (rooted l) →
  l ≠ [] → Forall solid l → Forall solid parts →
  workdir_scope_from_runtime_path prefix workdir_path (rooted (l ++ parts)) = Ret (rooted parts).
Proof.
  intros W N Sl Sp. unfold workdir_scope_from_runtime_path, mbind, outcome_bind. rewrite W.
  rewrite rstrip_slash_rooted, pure_rooted, as_posix_rooted by (done || by apply Forall_app).
  unfold scope_below. destruct (decide (parts = [])) as [->|Np]; [by rewrite app_nil_r, bool_decide_true|].
  assert (X : rooted (l ++ parts) = ((rooted l ++ "/") ++ str_concat "/" parts)%string).
  { rewrite rooted_app by done. by rewrite <- append_assoc. }
  rewrite X, drop_prefix_app, bool_decide_false; [done|]. rewrite <- append_assoc. intros Y.
  rewrite <- (append_nil_r (rooted l)) in Y at 2. by apply append_same_start in Y.
Qed.

(** The way back accepts what the way there refuses: a path that leaves the Workdir with [..]. *)
Lemma runtime_path_may_climb :
  workdir_scope_from_runtime_path DEFAULT_VIRTUAL_PATH_PREFIX "projects/a" "/home/gem/user-data/projects/a/../b"
  = Ret "/../b"
  ∧ runtime_path_for_workdir_scope DEFAULT_VIRTUAL_PATH_PREFIX "projects/a" (Some "/../b")
    = Raise (ValueError "invalid Workdir scope path").
Proof. vm_compute. done. Qed.

(** C38: whatever path a user gives, its path in the sandbox lies in the Workdir: it is the
    directory of the Workdir followed by parts none of which is empty, a dot or two dots; and the
    way back gives the path of exactly these parts.  They are the parts of the given path, unless
    its last name ends with blanks. *)
Theorem scope_paths_stay_inside prefix workdir_path path q :
  canonical_root prefix →
  runtime_path_for_workdir_scope prefix workdir_path (Some path) = Ret q →
  ∃ root parts, runtime_workdir_path prefix workdir_path = Ret root
    ∧ Forall plain parts ∧ q = under root parts
    ∧ workdir_scope_from_runtime_path prefix workdir_path q = Ret (rooted parts)
    ∧ (let given := pure_path (strip path) in
       rstrip (as_posix given) = as_posix given → parts = tail given).
Proof.
  intros (l & Nl & Pl & Rl). unfold runtime_path_for_workdir_scope, scope_path, mbind, outcome_bind.
  set (raw := if bool_decide (strip _ = "") then "/" else _).
  assert (Eraw : raw = if bool_decide (strip path = "") then "/" else strip path).
  { subst raw. unfold falsy_str. cbn [default]. destruct (decide (path = "")) as [->|N]; [done|].
    by rewrite !(bool_decide_false (path = "")). }
  clearbody raw. destruct (_ || _) eqn:E1; [done|].
  destruct (normalize_workdir_path workdir_path) as [n|e] eqn:En; [|done].
  destruct (normalize_workdir_plain _ _ En) as (Es & _ & P). intros Q.
  assert (Ab : is_absolute (pure_path raw) = true).
  { apply orb_false_iff in E1 as [E1 _]. apply orb_false_iff in E1 as [E1 _].
    apply orb_false_iff in E1 as [E1 _]. by apply negb_false_iff in E1. }
  destruct (as_posix_absolute _ (absolute_anchor raw Ab)) as (b & Eb & Tb).
  specialize (Tb (tail_solid raw)).
  assert (Sn : strip ("/" ++ n) = String slash n).
  { change ("/" ++ n) with (String slash n). unfold strip. cbn [lstrip].
    change (is_space slash) with false. cbn iota.
    rewrite rstrip_front. by rewrite Es, rstrip_solid_idem. }
  eapply runtime_user_data_workdir in Q; [|exact P|].
  2:{ case_bool_decide; [by left|]. right. exists (rstrip b). rewrite Eb. by apply (strip_rooted n b). }
  destruct Q as (parts & PP & -> & F1 & F2).
  exists (runtime_root prefix ++ rooted (split_on slash n))%string, parts.
  pose proof (split_on_ne slash n) as Nn.
  assert (Wr : runtime_workdir_path prefix workdir_path
               = Ret (runtime_root prefix ++ rooted (split_on slash n))%string).
  { unfold runtime_workdir_path, mbind, outcome_bind. rewrite En. unfold rooted. by rewrite concat_split_on. }
  split; [exact Wr|]. split; [exact PP|].
  assert (U : (runtime_root prefix ++ rooted (split_on slash n ++ parts))%string
              = under (runtime_root prefix ++ rooted (split_on slash n)) parts).
  { unfold under. destruct (decide (parts = [])) as [->|Np]; [by rewrite app_nil_r|].
    rewrite bool_decide_false by done. by rewrite rooted_app, append_assoc. }
  split; [exact U|]. split.
  - rewrite Rl in Wr |- *. rewrite <- rooted_app in Wr by done.
    rewrite <- rooted_app, app_assoc by (first [done | by destruct (split_on slash n)]).
    apply workdir_scope_back; [done|by destruct l| |by apply plain_solid].
    by apply plain_solid, Forall_app.
  - cbn zeta. intros B.
    assert (G : tail (pure_path raw) = tail (pure_path (strip path))).
    { rewrite Eraw. destruct (decide (strip path = "")) as [E|E]; [by rewrite E|].
      by rewrite bool_decide_false. }
    destruct (decide (as_posix (pure_path raw) = "/")) as [E|E];
      [rewrite bool_decide_true in F1 by done|rewrite bool_decide_false in F2 by done].
    + rewrite (F1 Sn), <- G, <- Tb. rewrite Eb in E. by injection E as ->.
    + rewrite (F2 (rstrip b)); [|rewrite Eb; by apply (strip_rooted n b)].
      rewrite <- G, <- Tb. f_equal. f_equal.
      assert (Hb : rstrip (as_posix (pure_path raw)) = as_posix (pure_path raw)).
      { rewrite Eraw. destruct (decide (strip path = "")); [by rewrite bool_decide_true|].
        by rewrite bool_decide_false. }
      rewrite Eb, rstrip_front in Hb. by injection Hb.
Qed.

Lemma default_root_canonical : canonical_root DEFAULT_VIRTUAL_PATH_PREFIX.
Proof.
  exists ["home"; "gem"; "user-data"]. split; [done|]. split; [|reflexivity].
  repeat constructor; by vm_compute.
Qed.

Lemma scope_paths_stay_inside_witness :
  ∃ root parts, runtime_workdir_path DEFAULT_VIRTUAL_PATH_PREFIX " projects/demo" = Ret root
    ∧ Forall plain parts ∧ "/home/gem/user-data/projects/demo/a/b" = under root parts
    ∧ workdir_scope_from_runtime_path DEFAULT_VIRTUAL_PATH_PREFIX " projects/demo"
        "/home/gem/user-data/projects/demo/a/b" = Ret (rooted parts)
    ∧ (rstrip (as_posix (pure_path (strip "/a/./b/ "))) = as_posix (pure_path (strip "/a/./b/ ")) →
       parts = tail (pure_path (strip "/a/./b/ "))).
Proof.
  apply (scope_paths_stay_inside DEFAULT_VIRTUAL_PATH_PREFIX " projects/demo" "/a/./b/ ").
  - apply default_root_canonical.
  - by vm_compute.
Defined.

(** * Allocated directories *)

Lemma decimal_digits n z : all_chars is_digit (decimal n z) = true.
Proof.
  induction n as [|n IH]; [done|]. cbn [decimal all_chars]. rewrite IH, andb_true_r.
  unfold is_digit. pose proof (Z.mod_pos_bound (z / 10 ^ Z.of_nat n) 10 ltac:(lia)).
  rewrite N_ascii_embedding by lia. rewrite andb_true_iff, !N.leb_le. lia.
Qed.

Lemma hex_lower n z : all_chars lower_hex (hex n z) = true.
Proof.
  induction n as [|n IH]; [done|]. cbn [hex all_chars]. rewrite IH, andb_true_r.
  unfold hex_digit, lower_hex, is_digit. set (d := Z.land _ 15).
  assert (B : (0 <= d < 16)%Z).
  { subst d. change 15%Z with (Z.ones 4). rewrite Z.land_ones by lia. apply Z.mod_pos_bound. lia. }
  clearbody d. destruct (Z.ltb_spec d 10); rewrite N_ascii_embedding by lia;
    rewrite orb_true_iff, !andb_true_iff, !N.leb_le; lia.
Qed.

Lemma str_take_all s r : str_take (String.length s) (s ++ r) = s.
Proof. induction s as [|c s IH]; [by destruct r|]. rewrite append_cons. cbn. by rewrite IH. Qed.

Lemma uuid_front p : str_take 8 (uuid_text p) = hex 8 (Z.shiftr p 96).
Proof. unfold uuid_text. rewrite <- (length_hex 8 (Z.shiftr p 96)) at 1. apply str_take_all. Qed.

Lemma take_chars_all p s r :
  all_chars p s = true → take_chars (String.length s) p (s ++ r) = Some (s, r).
Proof.
  induction s as [|c s IH]; [done|]. cbn [all_chars]. rewrite andb_true_iff. intros [Hc Hs].
  rewrite append_cons. cbn [String.length take_chars]. rewrite Hc, IH by done. done.
Qed.

(** The digits of a number. *)
Lemma pretty_N_digits x s :
  (0 < x)%N → ∃ d t, pretty_N_go x s = String d (t ++ s) ∧ is_digit d = true ∧ d ≠ "0"%char
    ∧ all_chars is_digit t = true
    ∧ ∀ k : nat, (x < 10 ^ N.of_nat k)%N → (String.length t < k)%nat.
Proof.
  revert s. induction (N.lt_wf_0 x) as [x _ IH]. intros s Hx. rewrite pretty_N_go_step by done.
  assert (Dg : ∀ y, (y < 10)%N → is_digit (pretty_N_char y) = true).
  { intros y Hy. unfold pretty_N_char. repeat case_match; done. }
  destruct (decide (x < 10)%N) as [Hs|Hs].
  - rewrite N.div_small, N.mod_small by done. rewrite pretty_N_go_0.
    exists (pretty_N_char x), "". split; [done|]. split; [by apply Dg|]. split; [|split; [done|]].
    + unfold pretty_N_char. repeat case_match; done || lia.
    + intros k Hk. destruct k; [|cbn; lia]. cbn in Hk. lia.
  - assert (Hq : (0 < x / 10)%N) by (apply N.div_str_pos; lia).
    destruct (IH (x / 10)%N ltac:(apply N.div_lt; lia) (String (pretty_N_char (x mod 10)) s) Hq)
      as (d & t & -> & Hd & Nd & Ht & L).
    exists d, (t ++ String (pretty_N_char (x mod 10)) ""). split; [by rewrite <- append_assoc|].
    split; [done|]. split; [done|]. split.
    + rewrite all_chars_app, Ht. cbn. rewrite Dg; [done|]. apply N.mod_lt. lia.
    + intros k Hk. rewrite length_append. cbn [String.length]. destruct k as [|k]; [cbn in Hk; lia|].
      specialize (L k). rewrite Nat2N.inj_succ, N.pow_succ_r' in Hk.
      assert ((x / 10 < 10 ^ N.of_nat k)%N) by (apply N.Div0.div_lt_upper_bound; lia). lia.
Qed.

Lemma pretty_suffix (n : nat) :
  n ≠ 0 → ∃ d t, pretty n = String d t ∧ is_digit d = true ∧ d ≠ "0"%char ∧ all_chars is_digit t = true
    ∧ ∀ k : nat, n < 10 ^ k → String.length t < k.
Proof.
  intros Hn. change (pretty n) with (pretty (N.of_nat n)). unfold pretty, pretty_N.
  rewrite decide_False by lia.
  destruct (pretty_N_digits (N.of_nat n) "" ltac:(lia)) as (d & t & -> & Hd & Nd & Ht & L).
  exists d, t. rewrite append_nil_r. split; [done|]. split; [done|]. split; [done|]. split; [done|].
  intros k Hk. apply L. change 10%N with (N.of_nat 10). rewrite <- Nat2N.inj_pow. lia.
Qed.

(** [replace("-", "")] *)
Local Abbreviation dedash := (str_replace "-" "" 0).

Lemma dedash_cons c s : dedash (String c s) = if Ascii.eqb "-" c then dedash s else String c (dedash s).
Proof. cbn [str_replace]. rewrite prefix_cons, prefix_nil, andb_true_r. by destruct (Ascii.eqb "-" c). Qed.

Lemma dedash_app a b : dedash (a ++ b) = dedash a ++ dedash b.
Proof.
  induction a as [|c a IH]; [done|]. rewrite append_cons, !dedash_cons, IH. by destruct (Ascii.eqb "-" c).
Qed.

Lemma dedash_digits (p : ascii → bool) s : p "-"%char = false → all_chars p s = true → dedash s = s.
Proof.
  intros P. induction s as [|c s IH]; [done|]. cbn [all_chars]. rewrite andb_true_iff. intros [Hc Hs].
  rewrite dedash_cons, IH by done. destruct (Ascii.eqb_spec "-" c) as [<-|]; [congruence|done].
Qed.

Lemma braces_absent s :
  all_chars (λ c, negb (brace c)) s = true → lstrip_braces s = s ∧ rstrip_braces s = s.
Proof.
  induction s as [|c s IH]; [done|]. cbn [all_chars]. rewrite andb_true_iff, negb_true_iff.
  intros [Hc [_ Hs]%IH]. cbn. by rewrite Hc, Hs, andb_false_r.
Qed.

(** The characters of an allocated name. *)
Definition name_char (c : ascii) : bool := lower_hex c || Ascii.eqb c "-" || Ascii.eqb c "_".

Lemma name_text p s : (∀ c, p c = true → name_char c = true) → all_chars p s = true →
  all_chars name_char s = true.
Proof. apply all_chars_weaken. Qed.

Lemma digit_lower c : is_digit c = true → lower_hex c = true.
Proof. unfold lower_hex. by intros ->. Qed.

(** A name with these characters is no UUID when it has not 32 of them besides dashes. *)
Lemma uuid_of_name s :
  all_chars name_char s = true → String.length (dedash s) ≠ 32%nat → uuid_of s = None.
Proof.
  intros H L. unfold uuid_of.
  assert (A : ∀ c, name_char c = false → no_char c s).
  { intros c Hc. unfold no_char. apply (all_chars_weaken name_char); [|done]. intros d Hd.
    apply negb_true_iff, Ascii.eqb_neq. by intros ->; congruence. }
  rewrite (replace_absent "u" "rn:") by (by apply A).
  rewrite (replace_absent "u" "uid:") by (by apply A).
  destruct (braces_absent s) as [E1 E2].
  { apply (all_chars_weaken name_char); [|done]. intros c Hc. apply negb_true_iff.
    destruct (brace c) eqn:E; [|done]. unfold brace in E. apply orb_true_iff in E as [E|E];
      apply Ascii.eqb_eq in E as ->; done. }
  rewrite E1, E2. by rewrite bool_decide_false.
Qed.

Lemma length_decimal n z : String.length (decimal n z) = n.
Proof. induction n as [|n IH]; [done|]. cbn. by rewrite IH. Qed.

Lemma expect_front c r : expect c (String c "" ++ r) = Some r.
Proof. rewrite append_cons, append_nil_l. cbn. by rewrite Ascii.eqb_refl. Qed.

Lemma occurs_absent c w s : no_char c s → occurs (String c w) s = false.
Proof.
  induction s as [|d s IH]; [done|]. rewrite no_char_cons. intros [N Hs]. cbn [occurs].
  rewrite prefix_cons, (proj2 (Ascii.eqb_neq c d)) by congruence. cbn [andb orb]. by apply IH.
Qed.

(** The suffix of a candidate. *)
Definition suffix_text (suffix : nat) : string := if decide (suffix = 0%nat) then "" else "-" ++ pretty suffix.

Lemma candidate_suffix base suffix : candidate_name base suffix = base ++ suffix_text suffix.
Proof. unfold candidate_name, suffix_text. case_bool_decide; case_decide; [by rewrite append_nil_r|done..]. Qed.

Lemma suffix_text_ok suffix :
  (suffix < 10 ^ 7)%nat → suffix_matches (suffix_text suffix) = true
  ∧ all_chars name_char (suffix_text suffix) = true
  ∧ (String.length (dedash (suffix_text suffix)) ≤ 7)%nat.
Proof.
  intros B. unfold suffix_text. case_decide as N; [cbn; by repeat split; lia|].
  destruct (pretty_suffix suffix N) as (d & t & -> & Hd & Nd & Ht & L). specialize (L 7%nat B).
  change ("-" ++ String d t) with (String "-" (String d t)). split; [|split].
  - cbn [suffix_matches]. rewrite Hd, Ht, (proj2 (Ascii.eqb_neq d "0")) by done. done.
  - cbn [all_chars]. rewrite (name_text is_digit t) by (done || (intros c Hc; unfold name_char; by rewrite digit_lower)).
    unfold name_char at 2. by rewrite (digit_lower d).
  - rewrite dedash_cons. cbn [Ascii.eqb]. change (Ascii.eqb "-" "-") with true. cbn iota.
    rewrite (dedash_digits is_digit) by (done || by cbn; rewrite Hd). cbn. lia.
Qed.

Section candidate.
Context (local : datetime) (project : Z) (suffix : nat).
Hypotheses (Hl : representable local) (Hs : (suffix < 10 ^ 7)%nat).

Local Definition name : string := candidate_name (base_workdir_name project local) suffix.

Lemma candidate_text y m d us :
  ord2ymd (EPOCH_ORDINAL + local / DAY) = (y, m, d) → us = (local mod DAY)%Z →
  name = decimal 4 y ++ "-" ++ decimal 2 m ++ "-" ++ decimal 2 d ++ "_"
    ++ decimal 2 (us / 3600000000) ++ "-" ++ decimal 2 (us / 60000000 mod 60) ++ "-"
    ++ decimal 2 (us / 1000000 mod 60) ++ "_" ++ hex 8 (Z.shiftr project 96) ++ suffix_text suffix.
Proof.
  intros E ->. unfold name. rewrite candidate_suffix. unfold base_workdir_name, timestamp_text.
  rewrite E, uuid_front. by rewrite <- !append_assoc.
Qed.

Lemma candidate_chars :
  all_chars name_char name = true ∧ String.length (dedash name) ≠ 32%nat.
Proof.
  destruct (ord2ymd (EPOCH_ORDINAL + local / DAY)) as [[y m] d] eqn:E.
  rewrite (candidate_text y m d _ E eq_refl). destruct (suffix_text_ok suffix Hs) as (_ & C & L).
  assert (D : ∀ n z, all_chars name_char (decimal n z) = true).
  { intros n z. apply (name_text is_digit); [|apply decimal_digits].
    intros c Hc. unfold name_char. by rewrite digit_lower. }
  assert (X : ∀ n z, all_chars name_char (hex n z) = true).
  { intros n z. apply (name_text lower_hex); [|apply hex_lower]. intros c Hc. unfold name_char. by rewrite Hc. }
  split.
  - rewrite !all_chars_app, !D, X, C. done.
  - rewrite !dedash_app, !length_append.
    rewrite !(dedash_digits is_digit (decimal _ _)) by (done || apply decimal_digits).
    rewrite (dedash_digits lower_hex (hex _ _)) by (done || apply hex_lower).
    rewrite !length_decimal, length_hex. change (dedash "-") with "". change (dedash "_") with "_".
    cbn [String.length]. lia.
Qed.

Lemma candidate_managed : ∃ fields, managed_name name = Some fields ∧ timestamp_valid fields = true.
Proof.
  pose proof (ord2ymd_back (EPOCH_ORDINAL + local / DAY)) as B. unfold representable in Hl.
  destruct (ord2ymd (EPOCH_ORDINAL + local / DAY)) as [[y m] d] eqn:E. destruct B as (_ & Hm & Hd & Hdm).
  pose proof (Z.mod_pos_bound local DAY ltac:(unfold DAY; lia)) as U.
  pose proof (clock_bounds (local mod DAY) U) as (B1 & B2 & B3 & _).
  destruct (suffix_text_ok suffix Hs) as (S & _ & _).
  eexists. split.
  - rewrite (candidate_text y m d _ E eq_refl). unfold managed_name.
    repeat (first [rewrite digits_decimal_small by (cbn; lia) | rewrite expect_front]; cbn [mbind option_bind]).
    rewrite <- (length_hex 8 (Z.shiftr project 96)) at 1. rewrite take_chars_all by apply hex_lower.
    cbn [mbind option_bind]. by rewrite S.
  - cbn [timestamp_valid]. rewrite !andb_true_iff, !Z.leb_le. lia.
Qed.

Lemma candidate_normal :
  normalize_workdir_path ("projects/" ++ name) = Ret ("projects/" ++ name)
  ∧ path_parts (pure_path ("projects/" ++ name)) = ["projects"; name]
  ∧ as_posix (pure_path ("projects/" ++ name)) = "projects/" ++ name.
Proof.
  destruct candidate_chars as [C _].
  assert (A : ∀ c, name_char c = false → no_char c name).
  { intros c Hc. apply (all_chars_weaken name_char); [|done]. intros d Hd.
    apply negb_true_iff, Ascii.eqb_neq. by intros ->; congruence. }
  assert (Ns : no_char slash name) by (by apply A).
  assert (Ne : name ≠ "").
  { destruct (ord2ymd (EPOCH_ORDINAL + local / DAY)) as [[y m] d] eqn:E.
    by rewrite (candidate_text y m d _ E eq_refl). }
  assert (Nd : no_char "." name) by (by apply A).
  assert (Bad : name ∉ BAD_PARTS).
  { unfold BAD_PARTS. rewrite !elem_of_cons, elem_of_nil.
    intros [E|[E|[E|[]]]]; [done|by rewrite E in Nd..]. }
  assert (Sp : split_on slash ("projects/" ++ name) = ["projects"; name]).
  { change ("projects/" ++ name) with ("projects" ++ String slash name).
    rewrite split_on_app, (split_on_none slash name) by done. done. }
  assert (P : pure_path ("projects/" ++ name) = {| anchor := ""; tail := ["projects"; name] |}).
  { unfold pure_path. rewrite Sp. f_equal. apply filter_solid.
    constructor; [done|]. constructor; [|done]. split; [done|]. split; [done|].
    intros E. rewrite E in Nd. done. }
  assert (AP : as_posix (pure_path ("projects/" ++ name)) = "projects/" ++ name) by (by rewrite P).
  split; [|by rewrite P].
  unfold normalize_workdir_path. rewrite strip_solid.
  2:{ rewrite all_chars_app. cbn [all_chars andb]. apply (all_chars_weaken name_char); [|done].
      intros c Hc. apply negb_true_iff. destruct (is_space c) eqn:E; [|done].
      exfalso. revert Hc E. by destruct c as [[] [] [] [] [] [] [] []]. }
  rewrite AP, P, Sp. unfold is_absolute. cbn [anchor]. rewrite bool_decide_false by done.
  rewrite (bool_decide_true ("" = "")) by done.
  rewrite !(occurs_absent _ _ ("projects/" ++ name)) by (apply no_char_app; split; [done|by apply A]).
  cbn [negb orb existsb]. by rewrite (bool_decide_false (name ∈ BAD_PARTS)).
Qed.
End candidate.

#[global] Instance candidate_inj base : Inj (=) (=) (candidate_name base).
Proof.
  intros i j. rewrite !candidate_suffix. intros E%append_same_start. revert E. unfold suffix_text.
  repeat case_decide; [congruence|done|done|]. intros E.
  apply (append_same_start "-") in E. by apply (inj pretty) in E.
Qed.

(** The loop finds a name, or every candidate it tried exists. *)
Lemma free_name_spec fuel exists_ base from :
  (∃ i, free_name fuel exists_ base from = Some (candidate_name base i) ∧ (from ≤ i < from + fuel)%nat
        ∧ exists_ (candidate_name base i) = false)
  ∨ ∀ i, (from ≤ i < from + fuel)%nat → exists_ (candidate_name base i) = true.
Proof.
  revert from. induction fuel as [|fuel IH]; intros from; [right; lia|]. cbn [free_name].
  destruct (exists_ (candidate_name base from)) eqn:E.
  - destruct (IH (S from)) as [(i & F & Hi & N)|F]; [left; exists i|right].
    + split; [done|]. split; [lia|done].
    + intros i Hi. destruct (decide (i = from)) as [->|]; [done|]. apply F. lia.
  - left. exists from. split; [done|]. split; [lia|done].
Qed.

Lemma free_name_found (entries : gset string) base :
  ∃ i, free_name (S (size entries)) (λ n, bool_decide (n ∈ entries)) base 0 = Some (candidate_name base i)
    ∧ (i ≤ size entries)%nat ∧ candidate_name base i ∉ entries.
Proof.
  destruct (free_name_spec (S (size entries)) (λ n, bool_decide (n ∈ entries)) base 0)
    as [(i & F & Hi & N)|F].
  - exists i. split; [done|]. split; [lia|]. by apply bool_decide_eq_false in N.
  - exfalso. set (l := map (candidate_name base) (seq 0 (S (size entries)))).
    assert (ND : NoDup l).
    { apply (NoDup_fmap_2 (candidate_name base)), NoDup_ListNoDup, seq_NoDup. }
    assert (Sub : (list_to_set l : gset string) ⊆ entries).
    { intros n Hn. apply elem_of_list_to_set, list_elem_of_fmap in Hn as (i & -> & Hi).
      apply list_elem_of_In, in_seq in Hi. specialize (F i ltac:(lia)). by apply bool_decide_eq_true in F. }
    apply subseteq_size in Sub. rewrite size_list_to_set in Sub by done.
    unfold l in Sub. rewrite length_map, length_seq in Sub. lia.
Qed.

(** C39: allocating a Workdir ends, whatever directories there are; the name is not one of them,
    and the path is a managed path, which the normalisation leaves as it is.  (With ten million
    directories of the same second a name could read as a UUID.) *)
Theorem allocated_workdir_accepted (entries : gset string) project_id project local :
  uuid_of project_id = Some project → representable local → (size entries < 10 ^ 7)%nat →
  ∃ name, allocate_default_user_workdir_path (S (size entries)) (λ n, bool_decide (n ∈ entries))
            project_id local = Some (Ret ("projects/" ++ name))
    ∧ name ∉ entries
    ∧ normalize_managed_workdir_path ("projects/" ++ name) = Ret ("projects/" ++ name).
Proof.
  intros U L B. unfold allocate_default_user_workdir_path. rewrite U.
  destruct (free_name_found entries (base_workdir_name project local)) as (i & -> & Hi & N).
  eexists. split; [done|]. split; [exact N|].
  assert (Hs : (i < 10 ^ 7)%nat) by lia.
  destruct (candidate_normal local project i Hs) as (E1 & E2 & E3).
  destruct (candidate_chars local project i Hs) as [C D].
  destruct (candidate_managed local project i L Hs) as (fields & M & V).
  unfold name in *. unfold normalize_managed_workdir_path. rewrite E1, E2, bool_decide_true by done.
  cbn [negb]. rewrite uuid_of_name, M, V by done. by rewrite E3.
Qed.

Definition demo_entries : gset string := {["2024-02-29_12-34-56_01234567"]}.

Lemma allocated_workdir_accepted_witness :
  ∃ name, allocate_default_user_workdir_path (S (size demo_entries)) (λ n, bool_decide (n ∈ demo_entries))
            "01234567-89ab-cdef-0123-456789abcdef" 1709210096000001 = Some (Ret ("projects/" ++ name))
    ∧ name ∉ demo_entries
    ∧ normalize_managed_workdir_path ("projects/" ++ name) = Ret ("projects/" ++ name).
Proof.
  eapply allocated_workdir_accepted.
  - by vm_compute.
  - apply representable_range. lia.
  - unfold demo_entries. rewrite size_singleton. apply Nat.ltb_lt. reflexivity.
Defined.

(** * The directory of a user *)

Lemma hex_safe s : all_chars lower_hex s = true → all_chars safe_id_char s = true.
Proof.
  apply all_chars_weaken. intros c. unfold lower_hex, safe_id_char, is_digit.
  rewrite !orb_true_iff, !andb_true_iff, !N.leb_le. intros [?|?]; [by left; left; left; left|].
  left. left. right. lia.
Qed.

Lemma ret_inj {A} (a b : A) : Ret a = Ret b → a = b.
Proof. by intros [=]. Qed.

(** The directory of a user is one name of letters, digits, dashes and underscores; two users
    with identifiers of less than 68 characters share it only if the identifiers are the same but
    for blanks around them, or have the same SHA-256. *)
Theorem user_directories_separate u v d :
  workspace_uid_dirname u = Ret d →
  safe_id d = true
  ∧ (workspace_uid_dirname v = Ret d →
     (String.length (strip u) < 68)%nat → (String.length (strip v) < 68)%nat →
     strip u = strip v ∨ sha256_hexdigest (strip u) = sha256_hexdigest (strip v)).
Proof.
  assert (H : ∀ s, all_chars safe_id_char (sha256_hexdigest s) = true).
  { intros s. destruct (sha256_words s) as (words & _ & ->). apply hex_safe. clear.
    induction words as [|w words IH]; [done|]. destruct words as [|w' words]; [apply hex_lower|].
    change (str_concat "" (map (hex 8) (w :: w' :: words)))
      with (hex 8 w ++ "" ++ str_concat "" (map (hex 8) (w' :: words))).
    by rewrite append_nil_l, all_chars_app, hex_lower, IH. }
  unfold workspace_uid_dirname. case_bool_decide; [done|]. destruct (safe_id (strip u)) eqn:Eu; intros <-%ret_inj.
  - split; [done|]. case_bool_decide; [done|]. destruct (safe_id (strip v)); intros E%ret_inj Lu Lv; [by left|].
    exfalso. rewrite <- E, length_append, length_sha256 in Lu. cbn [String.length] in Lu. lia.
  - split; [unfold safe_id; rewrite bool_decide_false by done; cbn [negb andb]; by rewrite all_chars_app, H|].
    case_bool_decide; [done|]. destruct (safe_id (strip v)); intros E%ret_inj Lu Lv.
    + exfalso. rewrite E, length_append, length_sha256 in Lv. cbn [String.length] in Lv. lia.
    + right. symmetry. exact (append_same_start "uid-" _ _ E).
Qed.

Lemma user_directories_separate_witness :
  safe_id "uid-2700094a5a9ad0a7a06ce3127cc26ed99409f35aea7be7e16b48e3c8d30c7b03" = true
  ∧ (workspace_uid_dirname " oidc:a" = Ret "uid-2700094a5a9ad0a7a06ce3127cc26ed99409f35aea7be7e16b48e3c8d30c7b03" →
     (String.length (strip "oidc:a") < 68)%nat → (String.length (strip " oidc:a") < 68)%nat →
     strip "oidc:a" = strip " oidc:a" ∨ sha256_hexdigest (strip "oidc:a") = sha256_hexdigest (strip " oidc:a")).
Proof. apply user_directories_separate. by vm_compute. Defined.
