(* ===== verification/Tasks.v ===== *)
(** Durable tasks: [TaskRepository] ([repositories/task_repository.py]) and the parts
    of [services/task_service.py] that decide what is written.

    Every method runs in a session of its own ([get_async_session_context]), so it
    commits when it returns and is rolled back when it raises.  The hooks a caller
    passes ([before_fail], [before_cancel], [before_finish], [operation]) write the
    domain rows of the same transaction; [D] is that part of the database.  A
    method reads the database clock once, or twice when a hook runs in between:
    [now] and [now2] are those readings (equal when the caller passes [now]).
    [float] columns are exact rationals. *)

From stdpp Require Import prelude gmap strings list fin_maps.
From Stdlib Require Import ZArith QArith Lia Qminmax.
From S2P Require Import Prelude.
Local Open Scope Z_scope.

(** * Data *)

Inductive TaskStatus := TPending | TRunning | TSuccess | TFailed | TCancelled.

#[global] Instance TaskStatus_eq_dec : EqDecision TaskStatus.
Proof. solve_decision. Defined.

Definition TERMINAL_TASK_STATUSES : list TaskStatus := [TSuccess; TFailed; TCancelled].
Definition DURABLE_TASK_MAX_RUNNING : nat := 4.
Definition TASK_LEASE_SECONDS : Z := 30.

Definition task_terminal (s : TaskStatus) : bool := bool_decide (s ∈ TERMINAL_TASK_STATUSES).

(** [TaskRecord]: one durable task and the lease of its executor. *)
Module Tk.
Record TaskRecord := mk {
  id : string;
  name : string;
  type : string;
  status : TaskStatus;
  progress : Q;
  message : string;
  payload : json;
  result : option json;
  error : option string;
  cancel_requested : bool;
  handler_version : Z;
  dedupe_key : option string;
  attempt_count : Z;
  worker_id : option string;
  heartbeat_at : option datetime;
  lease_expires_at : option datetime;
  timeout_seconds : Q;
  created_at : option datetime;
  updated_at : option datetime;
  started_at : option datetime;
  completed_at : option datetime;
}.
#[global] Instance eta : Eta TaskRecord := λ r,
  mk (id r) (name r) (type r) (status r) (progress r) (message r) (payload r) (result r)
    (error r) (cancel_requested r) (handler_version r) (dedupe_key r) (attempt_count r)
    (worker_id r) (heartbeat_at r) (lease_expires_at r) (timeout_seconds r) (created_at r)
    (updated_at r) (started_at r) (completed_at r).
End Tk.
Abbreviation TaskRecord := Tk.TaskRecord.


(** The tables a task transaction sees: the tasks and the domain's own rows. *)
Module TS.
Record TaskStore (D : Type) := mk {
  tasks : gmap string TaskRecord;
  domain : D;
}.
Arguments mk {D}.
Arguments tasks {D}.
Arguments domain {D}.
#[global] Instance eta {D} : Eta (TaskStore D) := λ s, mk (tasks s) (domain s).
End TS.
Abbreviation TaskStore := TS.TaskStore.

(** [data] of [update_owned]: [TaskContext] writes the progress, the message or the
    result. *)
Record TaskPatch := {
  p_progress : option Q;
  p_message : option string;
  p_result : option json
}.

Definition apply_patch (data : TaskPatch) (r : TaskRecord) : TaskRecord :=
  r <| Tk.progress := default (Tk.progress r) (p_progress data) |>
    <| Tk.message := default (Tk.message r) (p_message data) |>
    <| Tk.result := match p_result data with Some v => Some v | None => Tk.result r end |>.

Section tasks.
Context {D : Type}.
Implicit Types s : TaskStore D.

(** A hook sees the locked record and writes the domain. *)
Definition Hook : Type := TaskRecord → M D unit.

Definition run_hook (hook : option Hook) (r : TaskRecord) : M (TaskStore D) unit := λ s,
  match hook with
  | None => (Ret tt, s)
  | Some h =>
      match h r (TS.domain s) with
      | (Ret _, d) => (Ret tt, s <| TS.domain := d |>)
      | (Raise e, d) => (Raise e, s <| TS.domain := d |>)
      end
  end.

Definition lock_task (task_id : string) : M (TaskStore D) (option TaskRecord) :=
  gets (λ s, TS.tasks s !! task_id).

Definition put_task (r : TaskRecord) : M (TaskStore D) unit :=
  modify (λ s, s <| TS.tasks ::= <[Tk.id r := r]> |>).

(** [await session.rollback(); return a]. *)
Definition rollback_to {A} (s0 : TaskStore D) (a : A) : M (TaskStore D) A := λ _, (Ret a, s0).

(** * Reading *)

(** [ORDER BY active_first, created_at DESC]. *)
Definition task_list_leb (a b : TaskRecord) : bool :=
  let rank r := bool_decide (Tk.status r ∈ [TPending; TRunning]) in
  if Bool.eqb (rank a) (rank b) then ts_leb (Tk.created_at b) (Tk.created_at a) else rank a.

Definition list_tasks (status : option TaskStatus) (limit : nat)
    : M (TaskStore D) (list TaskRecord) :=
  gets (λ s, take limit (sort_by task_list_leb
    (select (λ r, match status with
                  | None => true
                  | Some st => bool_decide (Tk.status r = st)
                  end) (TS.tasks s)))).

Definition list_all_tasks : M (TaskStore D) (list TaskRecord) :=
  gets (λ s, sort_by (λ a b, ts_leb (Tk.created_at b) (Tk.created_at a))
    (select (λ _, true) (TS.tasks s))).

Record TaskSummary := {
  total : nat;
  filtered_total : nat;
  status_count : TaskStatus → nat;
  type_count : string → nat
}.

Definition count_tasks (p : TaskRecord → bool) s : nat := length (select p (TS.tasks s)).

Definition summarize (status : option TaskStatus) : M (TaskStore D) TaskSummary :=
  gets (λ s, {|
    total := size (TS.tasks s);
    filtered_total := match status with
                      | None => size (TS.tasks s)
                      | Some st => count_tasks (λ r, bool_decide (Tk.status r = st)) s
                      end;
    status_count := λ st, count_tasks (λ r, bool_decide (Tk.status r = st)) s;
    type_count := λ t, count_tasks (λ r, bool_decide (Tk.type r = t)) s |}).

Definition list_pending (limit : nat) : M (TaskStore D) (list TaskRecord) :=
  gets (λ s, take (Nat.max limit 1) (sort_by (λ a b, ts_leb (Tk.created_at a) (Tk.created_at b))
    (select (λ r, bool_decide (Tk.status r = TPending)) (TS.tasks s)))).

(** * Creating *)

Definition same_dedupe (type : string) (key : string) (r : TaskRecord) : bool :=
  bool_decide (Tk.type r = type) && bool_decide (Tk.dedupe_key r = Some key).

(** The primary key and [uq_tasks_active_dedupe]; NULL keys are distinct. *)
Definition insert_task (r : TaskRecord) : M (TaskStore D) unit :=
  existing ← gets TS.tasks;
  if bool_decide (is_Some (existing !! Tk.id r)) then raise (IntegrityError "tasks_pkey")
  else if match Tk.dedupe_key r with
          | None => false
          | Some key => any (same_dedupe (Tk.type r) key) existing
          end
  then raise (IntegrityError "uq_tasks_active_dedupe")
  else put_task r.

Definition create_in_session (r : TaskRecord) : M (TaskStore D) TaskRecord :=
  _ ← insert_task r; mret r.

Definition create_or_get_in_session (r : TaskRecord) : M (TaskStore D) (TaskRecord * bool) :=
  catch_integrity
    (_ ← atomic (insert_task r); mret (r, true))
    (λ constraint_name,
       match Tk.dedupe_key r with
       | None => raise (IntegrityError constraint_name)
       | Some key =>
           if bool_decide (key = "") then raise (IntegrityError constraint_name)
           else
             found ← gets (λ s, select (λ o, same_dedupe (Tk.type r) key o
                              && negb (task_terminal (Tk.status o))) (TS.tasks s));
             match found with
             | [] => raise (IntegrityError constraint_name)
             | existing :: _ => mret (existing, false)
             end
       end).

Definition create := create_or_get_in_session.

(** [Tasker._resolve_timeout_seconds]; the arguments are finite numbers. *)
Definition resolve_timeout_seconds (default_timeout : Q) (timeout_seconds : option Q)
    : outcome Q :=
  match timeout_seconds with
  | None => Ret default_timeout
  | Some t =>
      if Qle_bool t 0
      then Raise (ValueError "Task timeout must be a positive finite number of seconds")
      else if negb (Qle_bool t default_timeout)
      then Raise (ValueError "Task timeout cannot exceed the worker default timeout")
      else Ret t
  end.

(** [Tasker._build_task_data] for a registered handler of [version]. *)
Definition build_task_data (task_id name task_type : string) (version : Z) (payload : json)
    (timeout_seconds : Q) (dedupe_key : option string) (now : datetime) : TaskRecord := {|
  Tk.id := task_id;
  Tk.name := name;
  Tk.type := task_type;
  Tk.status := TPending;
  Tk.progress := 0%Q;
  Tk.message := "任务等待 worker 执行";
  Tk.payload := payload;
  Tk.result := None;
  Tk.error := None;
  Tk.cancel_requested := false;
  Tk.handler_version := version;
  Tk.dedupe_key := dedupe_key;
  Tk.attempt_count := 0;
  Tk.worker_id := None;
  Tk.heartbeat_at := None;
  Tk.lease_expires_at := None;
  Tk.timeout_seconds := timeout_seconds;
  Tk.created_at := Some now;
  Tk.updated_at := Some now;
  Tk.started_at := None;
  Tk.completed_at := None |}.

(** * Ownership *)

Definition is_live_owner (record : option TaskRecord) (worker_id : string) (now : datetime)
    : bool :=
  match record with
  | None => false
  | Some r =>
      bool_decide (Tk.status r = TRunning) && bool_decide (Tk.worker_id r = Some worker_id)
      && match Tk.lease_expires_at r with
         | None => false
         | Some e => now <? e
         end
  end.

Definition clear_execution (clear_dedupe : bool) (r : TaskRecord) : TaskRecord :=
  r <| Tk.worker_id := None |> <| Tk.heartbeat_at := None |> <| Tk.lease_expires_at := None |>
    <| Tk.dedupe_key := if clear_dedupe then None else Tk.dedupe_key r |>.

Definition fail_interrupted_task (error : string) (now : datetime) (r : TaskRecord) : TaskRecord :=
  clear_execution true
    (r <| Tk.status := TFailed |> <| Tk.progress := 100%Q |>
       <| Tk.message := "执行中断，无法安全自动恢复" |> <| Tk.error := Some error |>
       <| Tk.completed_at := Some now |>)
    <| Tk.updated_at := Some now |>.

(** * Transitions *)

Definition fail_pending (task_id error : string) (before_fail : option Hook) (now : datetime)
    : M (TaskStore D) bool :=
  atomic (
    record ← lock_task task_id;
    match record with
    | None => mret false
    | Some r =>
        if negb (bool_decide (Tk.status r = TPending)) then mret false
        else
          _ ← run_hook before_fail r;
          _ ← put_task (r <| Tk.status := TFailed |> <| Tk.progress := 100%Q |>
                          <| Tk.message := "任务 Handler 无法重建" |> <| Tk.error := Some error |>
                          <| Tk.completed_at := Some now |> <| Tk.updated_at := Some now |>
                          <| Tk.dedupe_key := None |>);
          mret true
    end).

Definition request_cancel (task_id : string) (before_cancel : option Hook) (now : datetime)
    : M (TaskStore D) (option TaskRecord) :=
  atomic (
    record ← lock_task task_id;
    match record with
    | None => mret None
    | Some r =>
        if task_terminal (Tk.status r) then mret None
        else
          let r := r <| Tk.cancel_requested := true |> <| Tk.updated_at := Some now |> in
          if bool_decide (Tk.status r = TPending) then
            _ ← run_hook before_cancel r;
            let r := r <| Tk.status := TCancelled |> <| Tk.message := "任务已取消" |>
                       <| Tk.completed_at := Some now |> <| Tk.dedupe_key := None |> in
            _ ← put_task r;
            mret (Some r)
          else
            _ ← put_task r;
            mret (Some r)
    end).

Definition running_count s : nat := count_tasks (λ r, bool_decide (Tk.status r = TRunning)) s.

Definition claim_locked (task_id worker_id : string) (lease_seconds : Z) (now : datetime)
    : M (TaskStore D) (option TaskRecord * bool) :=
  record ← lock_task task_id;
  match record with
  | None => mret (None, false)
  | Some r =>
      if negb (bool_decide (Tk.status r = TPending)) then mret (Some r, false)
      else if Tk.cancel_requested r then
        let r := r <| Tk.status := TCancelled |> <| Tk.message := "任务在执行前已取消" |>
                   <| Tk.completed_at := Some now |> <| Tk.updated_at := Some now |>
                   <| Tk.dedupe_key := None |> in
        _ ← put_task r;
        mret (Some r, false)
      else
        let r := r <| Tk.status := TRunning |> <| Tk.worker_id := Some worker_id |>
                   <| Tk.heartbeat_at := Some now |>
                   <| Tk.lease_expires_at := Some (now + seconds lease_seconds) |>
                   <| Tk.attempt_count ::= Z.succ |>
                   <| Tk.started_at := Some (or_else (Tk.started_at r) now) |>
                   <| Tk.updated_at := Some now |> <| Tk.message := "任务开始执行" |> in
        _ ← put_task r;
        mret (Some r, true)
  end.

(** The advisory lock makes counting and claiming one step. *)
Definition claim (task_id worker_id : string) (lease_seconds : Z) (max_running : option Z)
    (now : datetime) : M (TaskStore D) (option TaskRecord * bool) :=
  if blank worker_id then raise (ValueError "worker_id 不能为空")
  else if lease_seconds <=? 0 then raise (ValueError "lease_seconds 必须大于 0")
  else
    match max_running with
    | None => atomic (claim_locked task_id worker_id lease_seconds now)
    | Some limit =>
        if limit <=? 0 then raise (ValueError "max_running 必须大于 0")
        else
          count ← gets running_count;
          if limit <=? Z.of_nat count
          then record ← lock_task task_id; mret (record, false)
          else atomic (claim_locked task_id worker_id lease_seconds now)
    end.

Definition check_control (task_id worker_id : string) (now : datetime)
    : M (TaskStore D) (bool * bool) :=
  record ← lock_task task_id;
  mret (match record with
        | Some r => if is_live_owner record worker_id now then (true, Tk.cancel_requested r)
                    else (false, false)
        | None => (false, false)
        end).

Definition renew_lease (task_id worker_id : string) (lease_seconds : Z) (now : datetime)
    : M (TaskStore D) (bool * bool) :=
  record ← lock_task task_id;
  match record with
  | Some r =>
      if negb (is_live_owner record worker_id now) then mret (false, false)
      else
        _ ← put_task (r <| Tk.heartbeat_at := Some now |>
                        <| Tk.lease_expires_at := Some (now + seconds lease_seconds) |>
                        <| Tk.updated_at := Some now |>);
        mret (true, Tk.cancel_requested r)
  | None => mret (false, false)
  end.

Definition run_owned_transaction (task_id worker_id : string) (operation : Hook)
    (now now2 : datetime) : M (TaskStore D) bool :=
  atomic (λ s0, (
    record ← lock_task task_id;
    match record with
    | Some r =>
        if negb (is_live_owner record worker_id now) then mret false
        else
          _ ← run_hook (Some operation) r;
          if negb (is_live_owner record worker_id now2) then rollback_to s0 false
          else mret true
    | None => mret false
    end) s0).

Definition update_owned (task_id worker_id : string) (data : TaskPatch) (now : datetime)
    : M (TaskStore D) bool :=
  record ← lock_task task_id;
  match record with
  | Some r =>
      if negb (is_live_owner record worker_id now) then mret false
      else
        _ ← put_task (apply_patch data r <| Tk.updated_at := Some now |>);
        mret true
  | None => mret false
  end.

(** [cancel_hook = before_cancel or before_finish]. *)
Definition first_hook (a b : option Hook) : option Hook :=
  match a with Some h => Some h | None => b end.

Definition finish_owned (task_id worker_id : string) (status : TaskStatus) (message : string)
    (result : option json) (error : option string) (before_finish before_cancel : option Hook)
    (now now2 : datetime) : M (TaskStore D) bool :=
  if negb (task_terminal status) then raise (ValueError "非法 Task 终态")
  else
    atomic (λ s0, (
      record ← lock_task task_id;
      match record with
      | Some r =>
          if negb (is_live_owner record worker_id now) then mret false
          else
            let cancelling := Tk.cancel_requested r && negb (bool_decide (status = TCancelled)) in
            let status := if cancelling then TCancelled else status in
            let message := if cancelling then "任务已取消" else message in
            let result := if cancelling then None else result in
            _ ← run_hook (if cancelling then first_hook before_cancel before_finish
                          else before_finish) r;
            if negb (is_live_owner record worker_id now2) then rollback_to s0 false
            else
              _ ← put_task (clear_execution true
                    (r <| Tk.status := status |> <| Tk.progress := 100%Q |>
                       <| Tk.message := message |>
                       <| Tk.result := match result with Some v => Some v | None => Tk.result r end |>
                       <| Tk.error := error |> <| Tk.completed_at := Some now2 |>
                       <| Tk.updated_at := Some now2 |>));
              mret true
      | None => mret false
      end) s0).

Definition release_interrupted_owner (task_id worker_id error : string)
    (before_fail : option Hook) (now now2 : datetime) : M (TaskStore D) (option TaskStatus) :=
  atomic (λ s0, (
    record ← lock_task task_id;
    match record with
    | Some r =>
        if negb (is_live_owner record worker_id now) then mret None
        else
          _ ← run_hook before_fail r;
          if match before_fail with
             | None => false
             | Some _ => negb (is_live_owner record worker_id now2)
             end
          then rollback_to s0 None
          else
            let r := fail_interrupted_task error
                       (match before_fail with None => now | Some _ => now2 end) r in
            _ ← put_task r;
            mret (Some (Tk.status r))
    | None => mret None
    end) s0).

(** * Reconciliation and pruning *)

Definition lease_lost_error : string :=
  "worker_lease_expired: 执行 worker 的 lease 已过期，任务副作用结果未知".

Definition task_expired (now : datetime) (r : TaskRecord) : bool :=
  bool_decide (Tk.status r = TRunning)
  && match Tk.lease_expires_at r with None => true | Some e => e <=? now end.

Definition reconcile_task (before_fail : option (string → Hook)) (now : datetime)
    (r : TaskRecord) : M (TaskStore D) (list (string * TaskStatus * Z)) :=
  _ ← run_hook ((λ h, h lease_lost_error) <$> before_fail) r;
  let r := fail_interrupted_task lease_lost_error now r in
  _ ← put_task r;
  mret [(Tk.id r, Tk.status r, Tk.attempt_count r)].

(** [locked] are the rows another transaction holds ([SKIP LOCKED]). *)
Definition reconcile_expired_leases (locked : gset string)
    (before_fail : option (string → Hook)) (now : datetime)
    : M (TaskStore D) (list (string * TaskStatus * Z)) :=
  atomic (
    records ← gets (λ s, select (λ r, task_expired now r && negb (bool_decide (Tk.id r ∈ locked)))
                       (TS.tasks s));
    for_each (reconcile_task before_fail now) records).

(** [ORDER BY created_at DESC, id DESC]. *)
Definition task_newest (a b : TaskRecord) : bool :=
  if bool_decide (Tk.created_at a = Tk.created_at b) then str_leb (Tk.id b) (Tk.id a)
  else ts_leb (Tk.created_at b) (Tk.created_at a).

Definition prune_terminal (keep : nat) : M (TaskStore D) (list string) :=
  stale_ids ← gets (λ s, map Tk.id (drop keep (sort_by task_newest
                  (select (λ r, task_terminal (Tk.status r)) (TS.tasks s)))));
  _ ← modify (λ s, s <| TS.tasks ::= filter (λ kv, Tk.id kv.2 ∉ stale_ids) |>);
  mret stale_ids.

Definition delete_terminal (task_id : string) : M (TaskStore D) bool :=
  record ← lock_task task_id;
  match record with
  | Some r =>
      if task_terminal (Tk.status r)
      then _ ← modify (λ s, s <| TS.tasks ::= delete task_id |>); mret true
      else mret false
  | None => mret false
  end.

Definition delete_all : M (TaskStore D) unit := modify (λ s, s <| TS.tasks := ∅ |>).

(** * The service around them *)

(** What [TaskContext.set_progress] persists, given what it persisted last. *)
Definition progress_update (last_progress : option Q) (last_message : option string)
    (progress : Q) (message : option string) : option TaskPatch :=
  let normalized := Qmax 0 (Qmin progress 100) in
  let throttled := match last_progress with
                   | None => false
                   | Some p => negb (Qle_bool 2 (if Qle_bool (normalized - p) 0
                                                 then p - normalized else normalized - p))
                   end in
  if throttled && match message with
                  | None => true
                  | Some _ => bool_decide (message = last_message)
                  end
  then None
  else Some {| p_progress := Some normalized; p_message := message; p_result := None |}.

Definition delete_task (task_id : string) : M (TaskStore D) bool :=
  current ← lock_task task_id;
  match current with
  | None => mret false
  | Some _ => delete_terminal task_id
  end.

End tasks.
