(* ===== verification/TaskSpec.v ===== *)
(** The durable-task protocol: the invariant of the task table, what a transition may
    change, and the properties of claiming, ownership and completion.

    [row_ok] ties the execution columns of a row to its status; in particular
    [attempt_count] is 0 before and 1 after the only claim a task ever gets, which is
    how an interrupted task is failed rather than run twice. *)

From stdpp Require Import prelude gmap strings list fin_maps.
From Stdlib Require Import ZArith QArith Lia Sorted.
From S2P Require Import Prelude Tasks.
Local Open Scope Z_scope.

(** * The invariant *)

Definition released (r : TaskRecord) : Prop :=
  Tk.worker_id r = None ∧ Tk.heartbeat_at r = None ∧ Tk.lease_expires_at r = None.

Record row_ok (r : TaskRecord) : Prop := {
  ok_pending : Tk.status r = TPending →
    released r ∧ Tk.started_at r = None ∧ Tk.completed_at r = None
    ∧ Tk.cancel_requested r = false ∧ Tk.attempt_count r = 0;
  ok_running : Tk.status r = TRunning →
    is_Some (Tk.worker_id r) ∧ is_Some (Tk.heartbeat_at r) ∧ is_Some (Tk.lease_expires_at r)
    ∧ is_Some (Tk.started_at r) ∧ Tk.completed_at r = None ∧ Tk.attempt_count r = 1;
  ok_terminal : task_terminal (Tk.status r) = true →
    released r ∧ Tk.dedupe_key r = None ∧ is_Some (Tk.completed_at r)
    ∧ (Tk.attempt_count r = 0 ∧ Tk.started_at r = None
       ∨ Tk.attempt_count r = 1 ∧ is_Some (Tk.started_at r));
  ok_success : Tk.status r = TSuccess → Tk.cancel_requested r = false
}.

Record tasks_ok (m : gmap string TaskRecord) : Prop := {
  ok_key : ∀ k r, m !! k = Some r → Tk.id r = k;
  ok_row : ∀ k r, m !! k = Some r → row_ok r;
  ok_dedupe : ∀ k1 k2 r1 r2 d, m !! k1 = Some r1 → m !! k2 = Some r2 →
    Tk.type r1 = Tk.type r2 → Tk.dedupe_key r1 = Some d → Tk.dedupe_key r2 = Some d → k1 = k2
}.

(** * What a transition may change *)

Definition task_moves (a b : TaskStatus) : Prop :=
  a = b ∨ a = TPending ∨ a = TRunning ∧ b ≠ TPending.

Record row_evolves (r r' : TaskRecord) : Prop := {
  ev_moves : task_moves (Tk.status r) (Tk.status r');
  ev_intent : Tk.id r' = Tk.id r ∧ Tk.name r' = Tk.name r ∧ Tk.type r' = Tk.type r
    ∧ Tk.payload r' = Tk.payload r ∧ Tk.handler_version r' = Tk.handler_version r
    ∧ Tk.timeout_seconds r' = Tk.timeout_seconds r ∧ Tk.created_at r' = Tk.created_at r;
  ev_final : task_terminal (Tk.status r) = true → r' = r;
  ev_cancel : Tk.cancel_requested r = true → Tk.cancel_requested r' = true;
  ev_started : is_Some (Tk.started_at r) → Tk.started_at r' = Tk.started_at r;
  ev_attempts : Tk.attempt_count r ≤ Tk.attempt_count r'
}.

(** No row disappears. *)
Definition all_evolve (m m' : gmap string TaskRecord) : Prop :=
  ∀ k r, m !! k = Some r → ∃ r', m' !! k = Some r' ∧ row_evolves r r'.

(** A row goes on, or is terminal and pruned. *)
Definition tasks_evolve (m m' : gmap string TaskRecord) : Prop :=
  ∀ k r, m !! k = Some r →
    match m' !! k with
    | Some r' => row_evolves r r'
    | None => task_terminal (Tk.status r) = true
    end.

(** No task starts. *)
Definition none_starts (m m' : gmap string TaskRecord) : Prop :=
  ∀ k r', m' !! k = Some r' → Tk.status r' = TRunning →
    ∃ r, m !! k = Some r ∧ Tk.status r = TRunning.

Lemma task_moves_trans a b c : task_moves a b → task_moves b c → task_moves a c.
Proof. unfold task_moves. intuition congruence. Qed.

Lemma row_evolves_refl r : row_evolves r r.
Proof. split; auto; try lia. by left. repeat split. Qed.

Lemma row_evolves_trans a b c : row_evolves a b → row_evolves b c → row_evolves a c.
Proof.
  intros [M1 I1 F1 C1 S1 A1] [M2 I2 F2 C2 S2 A2]. split; try lia; auto.
  - by eapply task_moves_trans.
  - intuition congruence.
  - intros T. pose proof (F1 T). subst b. auto.
  - intros St. rewrite <- (S1 St). apply S2. by rewrite (S1 St).
Qed.

Lemma all_evolve_refl m : all_evolve m m.
Proof. intros k r E. eauto using row_evolves_refl. Qed.

Lemma all_evolve_trans m1 m2 m3 : all_evolve m1 m2 → all_evolve m2 m3 → all_evolve m1 m3.
Proof.
  intros E1 E2 k r Hr. destruct (E1 k r Hr) as (r2 & H2 & V2).
  destruct (E2 k r2 H2) as (r3 & H3 & V3). eauto using row_evolves_trans.
Qed.

Lemma all_evolve_weaken m m' : all_evolve m m' → tasks_evolve m m'.
Proof. intros E k r Hr. by destruct (E k r Hr) as (r' & -> & ?). Qed.

Lemma none_starts_refl m : none_starts m m.
Proof. intros k r. eauto. Qed.

Lemma none_starts_trans m1 m2 m3 : none_starts m1 m2 → none_starts m2 m3 → none_starts m1 m3.
Proof. intros N1 N2 k r' E R. destruct (N2 k r' E R) as (r2 & E2 & R2). eauto. Qed.

Definition running (r : TaskRecord) : bool := bool_decide (Tk.status r = TRunning).

Lemma none_starts_count m m' :
  none_starts m m' → (length (select running m') ≤ length (select running m))%nat.
Proof.
  intros N. rewrite !length_select, <- !size_dom. apply subseteq_size.
  intros k [r' Hr]%elem_of_dom. apply map_lookup_filter_Some in Hr as [Hr R].
  apply bool_decide_eq_true in R. destruct (N k r' Hr R) as (r & E & R').
  apply elem_of_dom. exists r. apply map_lookup_filter_Some. split; [done|].
  by apply bool_decide_eq_true.
Qed.

(** * Rewriting one row *)

(** What every transition of the table amounts to. *)
Record rewrites (r r' : TaskRecord) : Prop := {
  rw_ok : row_ok r';
  rw_ev : row_evolves r r';
  rw_dedupe : Tk.dedupe_key r' = Tk.dedupe_key r ∨ Tk.dedupe_key r' = None
}.

Lemma insert_rewritten m k r r' :
  tasks_ok m → m !! k = Some r → rewrites r r' → tasks_ok (<[k := r']> m).
Proof.
  intros [K R D] Hk [Ok Ev Dd].
  assert (Ev' : Tk.id r' = Tk.id r ∧ Tk.type r' = Tk.type r).
  { destruct (ev_intent _ _ Ev) as (? & ? & ? & _). auto. }
  assert (Old : ∀ i x, <[k := r']> m !! i = Some x → ∃ y, m !! i = Some y
    ∧ Tk.id x = Tk.id y ∧ Tk.type x = Tk.type y
    ∧ (Tk.dedupe_key x = Tk.dedupe_key y ∨ Tk.dedupe_key x = None)).
  { intros i x Hx. apply lookup_insert_Some in Hx as [[<- <-]|[_ Hx]]; [|by eauto 6].
    exists r. tauto. }
  split.
  - intros i x Hx. destruct (Old i x Hx) as (y & Hy & -> & _). eauto.
  - intros i x Hx. apply lookup_insert_Some in Hx as [[<- <-]|[_ Hx]]; eauto.
  - intros i j x y d Hx Hy T Dx Dy.
    destruct (Old i x Hx) as (x0 & Hx0 & _ & Tx & [Ex|Ex]); [|congruence].
    destruct (Old j y Hy) as (y0 & Hy0 & _ & Ty & [Ey|Ey]); [|congruence].
    eapply (D i j x0 y0 d); congruence.
Qed.

Lemma insert_evolves m k r r' :
  m !! k = Some r → row_evolves r r' → all_evolve m (<[k := r']> m).
Proof.
  intros Hk Ev i x Hx. destruct (decide (i = k)) as [->|N].
  - rewrite lookup_insert_eq. exists r'. split; [done|]. congruence.
  - rewrite lookup_insert_ne by congruence. eauto using row_evolves_refl.
Qed.

Lemma insert_none_starts m k r r' :
  m !! k = Some r → (Tk.status r' = TRunning → Tk.status r = TRunning) →
  none_starts m (<[k := r']> m).
Proof. intros Hk S i x Hx R. apply lookup_insert_Some in Hx as [[<- <-]|[_ Hx]]; eauto. Qed.

(** * Safe operations *)

Section tasks.
Context {D : Type}.
Implicit Types s : TaskStore D.

(** The table after [m], unless a task starts. *)
Record step_ok s s' : Prop := mk_step {
  st_ok : tasks_ok (TS.tasks s');
  st_ev : all_evolve (TS.tasks s) (TS.tasks s')
}.

Definition quiet_step s s' : Prop := step_ok s s' ∧ none_starts (TS.tasks s) (TS.tasks s').

Definition tsafe {A} (m : M (TaskStore D) A) : Prop :=
  ∀ s, tasks_ok (TS.tasks s) → quiet_step s (m s).2.

Lemma step_ok_refl s s' : TS.tasks s' = TS.tasks s → tasks_ok (TS.tasks s) →
  quiet_step s s'.
Proof.
  intros E Ok. split; [split|]; rewrite ?E; auto using all_evolve_refl, none_starts_refl.
Qed.

(** Writing one row; a hook may have written the domain before. *)
Lemma put_row_ok s s1 r r' : TS.tasks s1 = TS.tasks s → tasks_ok (TS.tasks s) →
  TS.tasks s !! Tk.id r = Some r → rewrites r r' →
  step_ok s (s1 <| TS.tasks ::= <[Tk.id r' := r']> |>).
Proof.
  intros E Ok Hr Rw. destruct (ev_intent _ _ (rw_ev _ _ Rw)) as [-> _].
  split; simpl; rewrite E; [by eapply insert_rewritten|].
  eapply insert_evolves; [done|]. apply Rw.
Qed.

Lemma put_row_quiet s s1 r r' : TS.tasks s1 = TS.tasks s → tasks_ok (TS.tasks s) →
  TS.tasks s !! Tk.id r = Some r → rewrites r r' →
  (Tk.status r' = TRunning → Tk.status r = TRunning) →
  quiet_step s (s1 <| TS.tasks ::= <[Tk.id r' := r']> |>).
Proof.
  intros E Ok Hr Rw St. split; [by eapply put_row_ok|]. simpl. rewrite E.
  destruct (ev_intent _ _ (rw_ev _ _ Rw)) as [-> _]. by eapply insert_none_starts.
Qed.

(** A hook touches the domain only. *)
Lemma run_hook_spec h r s : ∃ o d, run_hook h r s = (o, s <| TS.domain := d |>).
Proof.
  unfold run_hook. destruct h as [h|].
  - destruct (h r (TS.domain s)) as [[]]; eauto.
  - exists (Ret tt), (TS.domain s). by destruct s.
Qed.
End tasks.

(** * The rows the transitions write *)

Lemma terminal_cases st : task_terminal st = true ↔ st ≠ TPending ∧ st ≠ TRunning.
Proof. destruct st; vm_compute; naive_solver. Qed.

Lemma live_running r w now : is_live_owner (Some r) w now = true →
  Tk.status r = TRunning ∧ Tk.worker_id r = Some w
  ∧ ∃ e, Tk.lease_expires_at r = Some e ∧ now < e.
Proof.
  simpl. destruct (Tk.lease_expires_at r); bool_hyps; [|naive_solver].
  intros [[]]; eauto.
Qed.

(** The row is pending or running, and its columns are known. *)
Ltac rewrites_row :=
  match goal with
  | Ok : row_ok ?r, S : Tk.status ?r = _ |- rewrites ?r ?r' =>
      first [destruct (ok_pending r Ok S) as ((? & ? & ?) & ? & ? & ? & ?)
            |destruct (ok_running r Ok S) as (? & ? & ? & ? & ? & ?)];
      clear Ok; destruct r;
      unfold clear_execution, fail_interrupted_task, apply_patch;
      cbn in *; subst; split; [split|split|]; row_simpl; cbn
  end;
  unfold task_moves, released; intros; try discriminate; row_simpl; cbn in *;
  repeat (split || match goal with |- _ ≤ _ => lia end); eauto; try congruence; try lia;
  try match goal with H : is_Some None |- _ => by apply is_Some_None in H end.

Section operations.
Context {D : Type}.
Implicit Types s : TaskStore D.

(** [lock_row s id Ok] case-splits on the locked row. *)
Ltac lock_row s id Ok :=
  destruct (TS.tasks s !! id) as [r|] eqn:Hr; cbn [fst snd];
  [pose proof (ok_key _ Ok _ _ Hr) as Hid; subst id;
   pose proof (ok_row _ Ok _ _ Hr) as Hok
  |].

Ltac no_write := apply step_ok_refl; [reflexivity|assumption].

Ltac call_hook s h r :=
  let o := fresh "o" in let d := fresh "d" in let Hh := fresh "Hh" in
  destruct (run_hook_spec h r s) as (o & d & Hh); rewrite Hh; clear Hh;
  destruct o; cbn [fst snd].

Ltac write_row :=
  match goal with
  | Hr : TS.tasks _ !! Tk.id ?x = Some ?x |- _ =>
      apply put_row_quiet with (r := x); [reflexivity|assumption|assumption| |]
  end.

(** Guards on the status: updates before them leave it. *)
Ltac guards_row r :=
  repeat match goal with
  | |- context [bool_decide (Tk.status (@set ?a ?b ?c ?d ?e ?f) = ?st)] =>
      change (Tk.status (@set a b c d e f)) with (Tk.status r)
  end;
  repeat match goal with
  | |- context [bool_decide ?P] =>
      first [rewrite (bool_decide_eq_true_2 P) by (assumption || reflexivity)
            |rewrite (bool_decide_eq_false_2 P) by (assumption || congruence)]
  end; cbn.

Ltac start_op s Ok :=
  intros s Ok; unfold atomic, lock_task, put_task; m_unfold.

Lemma fail_pending_safe id error h now : tsafe (D := D) (fail_pending id error h now).
Proof.
  intros s Ok. unfold fail_pending, atomic, lock_task, put_task. m_unfold.
  lock_row s id Ok; [|no_write].
  destruct (bool_decide_reflect (Tk.status r = TPending)) as [S|]; cbn; [|no_write].
  call_hook s h r; [|no_write]. write_row; [rewrites_row|done].
Qed.

Lemma request_cancel_safe id h now : tsafe (D := D) (request_cancel id h now).
Proof.
  intros s Ok. unfold request_cancel, atomic, lock_task, put_task. m_unfold.
  lock_row s id Ok; [|no_write].
  destruct (task_terminal (Tk.status r)) eqn:T; [no_write|].
  destruct (Tk.status r) eqn:S; try discriminate T; guards_row r.
  - match goal with |- context [run_hook h ?x s] => call_hook s h x end; [|no_write].
    write_row; [rewrites_row|done].
  - write_row; [rewrites_row|cbn; congruence].
Qed.

Lemma quiet_count s s' : quiet_step s s' → (running_count s' ≤ running_count s)%nat.
Proof. intros [_ N]. by apply (none_starts_count _ _ N). Qed.

(** Claiming is the only transition that starts a task, and it starts one. *)
Lemma claim_locked_ok id w lease now s : tasks_ok (TS.tasks s) →
  step_ok s (claim_locked id w lease now s).2
  ∧ (running_count (claim_locked id w lease now s).2 ≤ S (running_count s))%nat.
Proof.
  intros Ok.
  assert (Q : ∀ s', quiet_step s s' → step_ok s s' ∧ (running_count s' ≤ S (running_count s))%nat).
  { intros s' Q. split; [apply Q|]. apply quiet_count in Q. lia. }
  unfold claim_locked, lock_task, put_task. m_unfold.
  lock_row s id Ok; [|apply Q; no_write].
  destruct (bool_decide_reflect (Tk.status r = TPending)) as [S|]; cbn; [|apply Q; no_write].
  destruct (Tk.cancel_requested r) eqn:C.
  { destruct (ok_pending r Hok S) as (_ & _ & _ & ? & _). congruence. }
  cbn [snd]. split; [|apply length_select_insert_le].
  apply put_row_ok with (r := r); auto. rewrites_row.
Qed.

Lemma renew_lease_safe id w lease now : tsafe (D := D) (renew_lease id w lease now).
Proof.
  intros s Ok. unfold renew_lease, lock_task, put_task. m_unfold.
  lock_row s id Ok; [|no_write].
  destruct (is_live_owner (Some r) w now) eqn:L; cbn [negb snd]; [|no_write].
  apply live_running in L as (S & _). write_row; [rewrites_row|done].
Qed.

Lemma update_owned_safe id w data now : tsafe (D := D) (update_owned id w data now).
Proof.
  intros s Ok. unfold update_owned, lock_task, put_task. m_unfold.
  lock_row s id Ok; [|no_write].
  destruct (is_live_owner (Some r) w now) eqn:L; cbn [negb snd]; [|no_write].
  apply live_running in L as (S & _). write_row; [rewrites_row|done].
Qed.

Lemma run_owned_transaction_safe id w op now now2 :
  tsafe (D := D) (run_owned_transaction id w op now now2).
Proof.
  intros s Ok. unfold run_owned_transaction, atomic, lock_task, rollback_to. m_unfold.
  lock_row s id Ok; [|no_write].
  destruct (is_live_owner (Some r) w now) eqn:L; cbn [negb snd]; [|no_write].
  call_hook s (Some op) r; [|no_write].
  destruct (is_live_owner (Some r) w now2); cbn [negb snd]; no_write.
Qed.

Lemma finish_owned_safe id w st msg res err bf bc now now2 :
  tsafe (D := D) (finish_owned id w st msg res err bf bc now now2).
Proof.
  intros s Ok. unfold finish_owned, atomic, lock_task, put_task, rollback_to. m_unfold.
  destruct (task_terminal st) eqn:T; cbn [negb snd]; [|no_write].
  lock_row s id Ok; [|no_write].
  destruct (is_live_owner (Some r) w now) eqn:L; cbn [negb snd]; [|no_write].
  apply live_running in L as (S & _).
  match goal with |- context [run_hook ?h r s] => call_hook s h r end; [|no_write].
  destruct (is_live_owner (Some r) w now2); cbn [negb snd]; [|no_write].
  apply terminal_cases in T as [T1 T2].
  destruct (Tk.cancel_requested r) eqn:C; cbn [andb].
  - destruct (bool_decide_reflect (st = TCancelled)); cbn [negb]; write_row;
      try rewrites_row; subst; done.
  - write_row; [|done]. rewrites_row.
Qed.

Lemma release_interrupted_owner_safe id w err h now now2 :
  tsafe (D := D) (release_interrupted_owner id w err h now now2).
Proof.
  intros s Ok. unfold release_interrupted_owner, atomic, lock_task, put_task, rollback_to.
  m_unfold. lock_row s id Ok; [|no_write].
  destruct (is_live_owner (Some r) w now) eqn:L; cbn [negb snd]; [|no_write].
  apply live_running in L as (S & _).
  call_hook s h r; [|no_write].
  destruct h as [h|]; [destruct (is_live_owner (Some r) w now2)|]; cbn [negb snd];
    try no_write; (write_row; [rewrites_row|done]).
Qed.

Lemma tsafe_skip {A} (m : M (TaskStore D) A) : (∀ s, TS.tasks (m s).2 = TS.tasks s) → tsafe m.
Proof. intros E s Ok. by apply step_ok_refl. Qed.

(** * Creating *)

Lemma build_task_data_ok id name type version payload timeout dedupe now :
  row_ok (build_task_data id name type version payload timeout dedupe now).
Proof. split; cbn; try discriminate. unfold released. cbn. auto. Qed.

Lemma insert_new m r :
  tasks_ok m → row_ok r → Tk.status r = TPending → m !! Tk.id r = None →
  (∀ k r0 d, m !! k = Some r0 → Tk.type r0 = Tk.type r → Tk.dedupe_key r = Some d →
             Tk.dedupe_key r0 ≠ Some d) →
  tasks_ok (<[Tk.id r := r]> m) ∧ all_evolve m (<[Tk.id r := r]> m)
  ∧ none_starts m (<[Tk.id r := r]> m).
Proof.
  intros [K R Dd] Ok S F N. split; [split|split].
  - intros k x Hx. apply lookup_insert_Some in Hx as [[<- <-]|[_ Hx]]; eauto.
  - intros k x Hx. apply lookup_insert_Some in Hx as [[<- <-]|[_ Hx]]; eauto.
  - intros i j x y d Hx Hy T Ex Ey.
    apply lookup_insert_Some in Hx as [[<- <-]|[_ Hx]];
      apply lookup_insert_Some in Hy as [[<- <-]|[_ Hy]]; eauto;
      exfalso; [by eapply (N j y d)|by eapply (N i x d)].
  - intros k x Hx. exists x. split; [|apply row_evolves_refl].
    rewrite lookup_insert_ne; congruence.
  - intros k x Hx. apply lookup_insert_Some in Hx as [[<- <-]|[_ Hx]]; [congruence|eauto].
Qed.

Lemma insert_task_cases r s : tasks_ok (TS.tasks s) → row_ok r → Tk.status r = TPending →
  (∃ c, insert_task r s = (Raise (IntegrityError c), s)
     ∧ (is_Some (TS.tasks s !! Tk.id r)
        ∨ ∃ d, Tk.dedupe_key r = Some d ∧ any (same_dedupe (Tk.type r) d) (TS.tasks s) = true))
  ∨ (insert_task r s = (Ret tt, s <| TS.tasks ::= <[Tk.id r := r]> |>)
     ∧ TS.tasks s !! Tk.id r = None
     ∧ (∀ d, Tk.dedupe_key r = Some d → any (same_dedupe (Tk.type r) d) (TS.tasks s) = false)
     ∧ quiet_step s (s <| TS.tasks ::= <[Tk.id r := r]> |>)).
Proof.
  intros Ok Rok S. unfold insert_task, put_task. m_unfold.
  destruct (bool_decide_reflect (is_Some (TS.tasks s !! Tk.id r))) as [?|F]; [left; eauto|].
  apply eq_None_not_Some in F.
  destruct (match Tk.dedupe_key r with None => false | Some key => _ end) eqn:E.
  { left. destruct (Tk.dedupe_key r); [|done]. eauto 6. }
  right. split; [done|]. split; [done|].
  assert (U : ∀ d, Tk.dedupe_key r = Some d →
    any (same_dedupe (Tk.type r) d) (TS.tasks s) = false).
  { intros d Hd. by rewrite Hd in E. }
  split; [done|].
  destruct (insert_new (TS.tasks s) r Ok Rok S F) as (? & ? & ?); [|by split; [split|]].
  intros k r0 d Hk T Hd Hd0. specialize (U d Hd). rewrite any_false in U.
  specialize (U k r0 Hk). unfold same_dedupe in U. bool_hyps. naive_solver.
Qed.

Lemma create_in_session_safe r : row_ok r → Tk.status r = TPending →
  tsafe (D := D) (create_in_session r).
Proof.
  intros Rok S s Ok. unfold create_in_session. m_unfold.
  destruct (insert_task_cases r s Ok Rok S) as [(c & -> & _)|(-> & _ & _ & Q)]; [no_write|done].
Qed.

Lemma create_or_get_safe r : row_ok r → Tk.status r = TPending →
  tsafe (D := D) (create_or_get_in_session r).
Proof.
  intros Rok S s Ok. unfold create_or_get_in_session, catch_integrity, atomic. m_unfold.
  destruct (insert_task_cases r s Ok Rok S) as [(c & -> & _)|(-> & _ & _ & Q)]; [|done].
  destruct (Tk.dedupe_key r) as [d|]; [|no_write].
  destruct (bool_decide (d = "")); [no_write|].
  destruct (select _ _); no_write.
Qed.

(** * Reconciling *)

Lemma quiet_step_trans s1 s2 s3 : quiet_step s1 s2 → quiet_step s2 s3 → quiet_step s1 s3.
Proof.
  intros [[_ E1] N1] [[O2 E2] N2].
  split; [split|]; eauto using all_evolve_trans, none_starts_trans.
Qed.

Definition interrupted (now : datetime) (r : TaskRecord) : TaskRecord :=
  fail_interrupted_task lease_lost_error now r.

Definition reconciled (r : TaskRecord) : string * TaskStatus * Z :=
  (Tk.id r, TFailed, Tk.attempt_count r).

Lemma rewrites_interrupted now r : row_ok r → Tk.status r = TRunning →
  rewrites r (interrupted now r).
Proof. intros Ok S. unfold interrupted. rewrites_row. Qed.

Definition hook_raises (h : option (string → Hook)) (r : TaskRecord) (e : exn) : Prop :=
  ∃ f (d d' : D), h = Some f ∧ f lease_lost_error r d = (Raise e, d').

Lemma reconcile_task_cases h now r s :
  (∃ d, reconcile_task h now r s
        = (Ret [reconciled r], s <| TS.domain := d |>
             <| TS.tasks ::= <[Tk.id r := interrupted now r]> |>))
  ∨ (∃ e s', reconcile_task h now r s = (Raise e, s') ∧ hook_raises h r e).
Proof.
  unfold reconcile_task, put_task, mbind, M_bind, modify, mret, M_ret.
  destruct h as [h|].
  - destruct (run_hook_spec (Some (h lease_lost_error)) r s) as ([[]|e] & d & Hh); simpl fmap.
    + left. exists d. cbv beta iota. rewrite Hh. done.
    + right. rewrite Hh. do 2 eexists. split; [done|].
      unfold run_hook in Hh. destruct (h lease_lost_error r (TS.domain s)) as [[]] eqn:E; [done|].
      injection Hh as -> _. by repeat eexists.
  - left. exists (TS.domain s). by destruct s.
Qed.

(** The loop over the expired tasks, up to a hook that raises. *)
Lemma reconcile_loop h now rs : ∀ s, tasks_ok (TS.tasks s) → NoDup (map Tk.id rs) →
  (∀ r, r ∈ rs → TS.tasks s !! Tk.id r = Some r ∧ Tk.status r = TRunning) →
  match for_each (reconcile_task h now) rs s with
  | (Ret l, s') =>
      quiet_step s s' ∧ l = map reconciled rs
      ∧ (∀ r, r ∈ rs → TS.tasks s' !! Tk.id r = Some (interrupted now r))
      ∧ (∀ k, k ∉ map Tk.id rs → TS.tasks s' !! k = TS.tasks s !! k)
  | (Raise e, _) => ∃ r, r ∈ rs ∧ hook_raises h r e
  end.
Proof.
  induction rs as [|r rs IH]; intros s Ok Nd Hrs.
  { split; [by apply step_ok_refl|]. split; [done|]. split; [|done].
    intros r Hr. by apply elem_of_nil in Hr. }
  apply NoDup_cons in Nd as [Nr Nd].
  destruct (Hrs r) as [Hr S]; [by left|]. pose proof (ok_row _ Ok _ _ Hr) as Hok.
  cbn [for_each]. unfold mbind at 1, M_bind at 1.
  destruct (reconcile_task_cases h now r s) as [[d ->]|(e & s' & -> & ?)];
    [|exists r; split; [by left|done]].
  set (s1 := s <| TS.domain := d |> <| TS.tasks ::= <[Tk.id r := interrupted now r]> |>).
  assert (Q1 : quiet_step s s1).
  { change (Tk.id r) with (Tk.id (interrupted now r)) in (value of s1).
    write_row; [by apply rewrites_interrupted|done]. }
  assert (L1 : ∀ k, TS.tasks s1 !! k = <[Tk.id r := interrupted now r]> (TS.tasks s) !! k)
    by done.
  assert (Hne : ∀ x, x ∈ rs → Tk.id r ≠ Tk.id x).
  { intros x Hx E. apply Nr, list_elem_of_fmap. eauto. }
  specialize (IH s1 (st_ok _ _ (proj1 Q1)) Nd). unfold mbind, M_bind.
  destruct (for_each (reconcile_task h now) rs s1) as [[l|e] s'].
  2: { destruct IH as (x & Hx & ?).
       - intros x Hx. rewrite L1, lookup_insert_ne by auto. apply Hrs. by right.
       - exists x. split; [by right|done]. }
  destruct IH as (Q2 & -> & Hin & Hout).
  { intros x Hx. rewrite L1, lookup_insert_ne by auto. apply Hrs. by right. }
  split; [by eapply quiet_step_trans|]. split; [done|]. split.
  - intros x Hx. apply elem_of_cons in Hx as [->|Hx]; [|by apply Hin].
    rewrite Hout by done. by rewrite L1, lookup_insert_eq.
  - intros k Hk. apply not_elem_of_cons in Hk as [Hk1 Hk2].
    rewrite Hout by done. rewrite L1, lookup_insert_ne; congruence.
Qed.

Definition expired_rows (locked : gset string) (now : datetime) s : list TaskRecord :=
  select (λ r, task_expired now r && negb (bool_decide (Tk.id r ∈ locked))) (TS.tasks s).

Lemma expired_rows_spec locked now s r : tasks_ok (TS.tasks s) →
  r ∈ expired_rows locked now s ↔
    TS.tasks s !! Tk.id r = Some r ∧ task_expired now r = true ∧ Tk.id r ∉ locked.
Proof.
  intros Ok. unfold expired_rows. rewrite elem_of_select, andb_true_iff, negb_true_iff,
    bool_decide_eq_false. split.
  - intros [[E L] [k Hk]]. rewrite (ok_key _ Ok _ _ Hk) at 1. done.
  - intros (Hr & E & L). split; [done|]. by exists (Tk.id r).
Qed.

Lemma expired_rows_nodup locked now s : tasks_ok (TS.tasks s) →
  NoDup (map Tk.id (expired_rows locked now s)).
Proof.
  intros Ok. apply NoDup_fmap_2_strong.
  - intros x y Hx Hy E. apply expired_rows_spec in Hx, Hy; try done.
    destruct Hx as [Hx _], Hy as [Hy _]. rewrite E in Hx. congruence.
  - apply NoDup_select. intros k1 k2 a H1 H2.
    by rewrite <- (ok_key _ Ok _ _ H1), <- (ok_key _ Ok _ _ H2).
Qed.

Lemma expired_running now r : task_expired now r = true → Tk.status r = TRunning.
Proof. unfold task_expired. intros H. apply andb_true_iff in H as [H _]. by bool_hyps. Qed.

Lemma reconcile_cases locked h now s : tasks_ok (TS.tasks s) →
  match reconcile_expired_leases locked h now s with
  | (Ret l, s') =>
      quiet_step s s' ∧ l = map reconciled (expired_rows locked now s)
      ∧ (∀ r, r ∈ expired_rows locked now s →
           TS.tasks s' !! Tk.id r = Some (interrupted now r))
      ∧ (∀ k, k ∉ map Tk.id (expired_rows locked now s) → TS.tasks s' !! k = TS.tasks s !! k)
  | (Raise e, s') => s' = s ∧ ∃ r, r ∈ expired_rows locked now s ∧ hook_raises h r e
  end.
Proof.
  intros Ok. unfold reconcile_expired_leases, atomic. m_unfold.
  change (select _ (TS.tasks s)) with (expired_rows locked now s).
  pose proof (reconcile_loop h now (expired_rows locked now s) s Ok
    (expired_rows_nodup locked now s Ok)) as L.
  destruct (for_each _ _ s) as [[l|e] s']; [|split; [done|]]; apply L;
    intros r Hr; apply expired_rows_spec in Hr; try done;
    (split; [tauto|eapply expired_running; apply Hr]).
Qed.

Lemma reconcile_safe locked h now : tsafe (D := D) (reconcile_expired_leases locked h now).
Proof.
  intros s Ok. pose proof (reconcile_cases locked h now s Ok) as H.
  destruct (reconcile_expired_leases locked h now s) as [[l|e] s']; cbn [snd];
    [apply H|destruct H as [-> _]; no_write].
Qed.

(** * Deleting *)

(** Only terminal rows go. *)
Definition prunes (m m' : gmap string TaskRecord) : Prop :=
  m' ⊆ m ∧ ∀ k r, m !! k = Some r → m' !! k = None → task_terminal (Tk.status r) = true.

Lemma prunes_ok m m' : tasks_ok m → prunes m m' →
  tasks_ok m' ∧ tasks_evolve m m' ∧ none_starts m m'.
Proof.
  intros [K R Dd] [Sub T]. split; [split|split].
  - intros k r H. eapply K, lookup_weaken; eauto.
  - intros k r H. eapply R, lookup_weaken; eauto.
  - intros i j x y d Hx Hy. eapply Dd; eapply lookup_weaken; eauto.
  - intros k r Hk. destruct (m' !! k) as [r'|] eqn:E; [|eauto].
    eapply lookup_weaken in E; [|done]. rewrite Hk in E. simplify_eq. apply row_evolves_refl.
  - intros k r Hk. eapply lookup_weaken in Hk; eauto.
Qed.

Lemma prunes_refl m : prunes m m.
Proof. split; [done|]. intros. congruence. Qed.

Lemma delete_terminal_prunes id s : tasks_ok (TS.tasks s) →
  prunes (TS.tasks s) (TS.tasks (delete_terminal id s).2).
Proof.
  intros Ok. unfold delete_terminal, lock_task. m_unfold.
  destruct (TS.tasks s !! id) as [r|] eqn:E; [|apply prunes_refl].
  destruct (task_terminal (Tk.status r)) eqn:T; [|apply prunes_refl].
  split; [apply delete_subseteq|]. simpl. intros k x Hk Hd.
  apply lookup_delete_None in Hd as [<-|?]; congruence.
Qed.

Lemma prune_terminal_prunes keep s : tasks_ok (TS.tasks s) →
  prunes (TS.tasks s) (TS.tasks (prune_terminal keep s).2).
Proof.
  intros Ok. unfold prune_terminal. m_unfold. simpl. split; [apply map_filter_subseteq|].
  intros k r Hk Hf. rewrite map_lookup_filter_None in Hf. destruct Hf as [?|Hf]; [congruence|].
  specialize (Hf r Hk). simpl in Hf. apply dec_stable in Hf.
  apply list_elem_of_fmap in Hf as (x & E & Hx).
  assert (Hs : x ∈ sort_by task_newest (select (λ r, task_terminal (Tk.status r)) (TS.tasks s))).
  { rewrite <- (take_drop keep (sort_by _ _)). apply elem_of_app. by right. }
  apply elem_of_sort_by, elem_of_select in Hs as [T [j Hj]].
  assert (j = k) as ->; [|congruence].
  rewrite <- (ok_key _ Ok _ _ Hj), <- (ok_key _ Ok _ _ Hk). done.
Qed.

Lemma task_newest_total a b : task_newest a b = true ∨ task_newest b a = true.
Proof.
  unfold task_newest. destruct (bool_decide_reflect (Tk.created_at a = Tk.created_at b)) as [->|N].
  - rewrite bool_decide_eq_true_2 by done. apply str_leb_total.
  - rewrite bool_decide_eq_false_2 by congruence. apply ts_leb_total.
Qed.

Lemma task_newest_trans a b c :
  task_newest a b = true → task_newest b c = true → task_newest a c = true.
Proof.
  unfold task_newest.
  destruct (bool_decide_reflect (Tk.created_at a = Tk.created_at b)) as [->|Nab];
    destruct (bool_decide_reflect (Tk.created_at b = Tk.created_at c)) as [E|Nbc];
    try done; try rewrite <- E; intros H1 H2.
  - by eapply str_leb_trans.
  - by rewrite bool_decide_eq_false_2.
  - destruct (bool_decide_reflect (Tk.created_at a = Tk.created_at c)) as [E|_].
    + exfalso. rewrite E in *. by apply Nab, ts_leb_antisym.
    + by eapply ts_leb_trans.
Qed.

Definition terminal_rows s : list TaskRecord :=
  select (λ r, task_terminal (Tk.status r)) (TS.tasks s).

Lemma terminal_rows_spec s r : tasks_ok (TS.tasks s) →
  r ∈ terminal_rows s ↔ TS.tasks s !! Tk.id r = Some r ∧ task_terminal (Tk.status r) = true.
Proof.
  intros Ok. unfold terminal_rows. rewrite elem_of_select. split.
  - intros [T [k Hk]]. rewrite (ok_key _ Ok _ _ Hk) at 1. done.
  - intros [Hr T]. split; [done|]. by exists (Tk.id r).
Qed.

Lemma terminal_rows_nodup s : tasks_ok (TS.tasks s) → NoDup (terminal_rows s).
Proof.
  intros Ok. apply NoDup_select. intros k1 k2 a H1 H2.
  by rewrite <- (ok_key _ Ok _ _ H1), <- (ok_key _ Ok _ _ H2).
Qed.

(** A sorted list, cut anywhere. *)
Lemma StronglySorted_take_drop {A} (R : A → A → Prop) n l x y :
  StronglySorted R l → x ∈ take n l → y ∈ drop n l → R x y.
Proof.
  intros Hs. revert n. induction Hs as [|z l _ IH Hz]; intros n.
  - rewrite take_nil. intros Hx. by apply elem_of_nil in Hx.
  - destruct n as [|n]; simpl; [intros Hx; by apply elem_of_nil in Hx|].
    intros [->|Hx]%elem_of_cons Hy; [|by eapply IH].
    eapply Forall_forall; [exact Hz|]. rewrite <- (take_drop n l). apply elem_of_app. by right.
Qed.
End operations.

(** * Finishing *)

(** What [finish_owned] settles for a task it may finish. *)
Definition cancelling (st : TaskStatus) (r : TaskRecord) : bool :=
  Tk.cancel_requested r && negb (bool_decide (st = TCancelled)).

Definition settled (st : TaskStatus) (msg : string) (res : option json) (err : option string)
    (now : datetime) (r r' : TaskRecord) : Prop :=
  Tk.status r' = (if cancelling st r then TCancelled else st)
  ∧ Tk.message r' = (if cancelling st r then "任务已取消" else msg)
  ∧ Tk.result r' = (if cancelling st r then Tk.result r
                    else match res with Some v => Some v | None => Tk.result r end)
  ∧ Tk.error r' = err ∧ Tk.completed_at r' = Some now ∧ Qeq (Tk.progress r') 100
  ∧ released r' ∧ Tk.dedupe_key r' = None.

Lemma finish_owned_cases {D} (s : TaskStore D) id r w st msg res err bf bc now now2 :
  tasks_ok (TS.tasks s) → task_terminal st = true → TS.tasks s !! id = Some r →
  is_live_owner (Some r) w now = true →
  let out := finish_owned id w st msg res err bf bc now now2 s in
  match run_hook (if cancelling st r then first_hook bc bf else bf) r s with
  | (Raise e, _) => out = (Raise e, s)
  | (Ret _, s1) =>
      if is_live_owner (Some r) w now2
      then ∃ r', out = (Ret true, s1 <| TS.tasks ::= <[id := r']> |>)
             ∧ settled st msg res err now2 r r'
      else out = (Ret false, s)
  end.
Proof.
  intros Ok T E L. pose proof (ok_key _ Ok _ _ E) as <-.
  unfold finish_owned, atomic, lock_task, put_task, rollback_to. rewrite T. cbn [negb].
  unfold mbind, M_bind, gets, mret, M_ret, modify. rewrite E, L. cbn [negb].
  fold (cancelling st r).
  destruct (run_hook (if cancelling st r then first_hook bc bf else bf) r s) as [[[]|e] s1];
    [|done].
  destruct (is_live_owner (Some r) w now2); [|done]. cbn [negb].
  eexists. split; [reflexivity|]. unfold settled, released, clear_execution. row_simpl.
  repeat split; by destruct (cancelling st r).
Qed.
