(* ===== verification/TaskProps.v ===== *)
(** The durable-task properties: the step relation of the task table and what every
    reachable table, claim, completion and reconciliation satisfies. *)

From stdpp Require Import prelude gmap strings list fin_maps.
From Stdlib Require Import ZArith QArith Lia Qminmax.
From S2P Require Import Prelude Tasks TaskSpec.
Local Open Scope Z_scope.

(** * The step relation *)

Section steps.
Context {D : Type}.
Implicit Types s : TaskStore D.

(** One committed (or rolled back) transaction of the task service, its workers and
    its reconciler; [step_domain] is any other code's transaction. *)
Inductive tstep s : TaskStore D → Prop :=
  | step_create id name type version payload timeout dedupe now :
      tstep s (create (build_task_data id name type version payload timeout dedupe now) s).2
  | step_create_in_session id name type version payload timeout dedupe now :
      tstep s (create_in_session
                 (build_task_data id name type version payload timeout dedupe now) s).2
  | step_fail_pending id error h now : tstep s (fail_pending id error h now s).2
  | step_request_cancel id h now : tstep s (request_cancel id h now s).2
  | step_claim id w lease now :
      tstep s (claim id w lease (Some (Z.of_nat DURABLE_TASK_MAX_RUNNING)) now s).2
  | step_renew id w lease now : tstep s (renew_lease id w lease now s).2
  | step_checkpoint id w op now now2 : tstep s (run_owned_transaction id w op now now2 s).2
  | step_update id w data now : tstep s (update_owned id w data now s).2
  | step_finish id w st msg res err bf bc now now2 :
      tstep s (finish_owned id w st msg res err bf bc now now2 s).2
  | step_release id w err h now now2 :
      tstep s (release_interrupted_owner id w err h now now2 s).2
  | step_reconcile locked h now : tstep s (reconcile_expired_leases locked h now s).2
  | step_prune keep : tstep s (prune_terminal keep s).2
  | step_delete id : tstep s (delete_task id s).2
  | step_domain d : tstep s (s <| TS.domain := d |>).

Inductive treachable : TaskStore D → Prop :=
  | treach_init d : treachable (TS.mk ∅ d)
  | treach_step s s' : treachable s → tstep s s' → treachable s'.

Definition within_capacity s : Prop := (running_count s ≤ DURABLE_TASK_MAX_RUNNING)%nat.

Lemma empty_ok : tasks_ok ∅.
Proof. split; intros *; rewrite ?lookup_empty; discriminate. Qed.

(** [claim] under a limit never passes it. *)
Lemma claim_capacity id w lease limit now s : tasks_ok (TS.tasks s) →
  let s' := (claim id w lease (Some limit) now s).2 in
  step_ok s s' ∧ (Z.of_nat (running_count s') ≤ Z.max limit (Z.of_nat (running_count s))).
Proof.
  intros Ok. cbn zeta.
  assert (Same : step_ok s s ∧ Z.of_nat (running_count s) ≤ Z.max limit (Z.of_nat (running_count s))).
  { split; [by apply step_ok_refl|lia]. }
  unfold claim, atomic, lock_task. destruct (blank w); [done|].
  destruct (lease <=? 0); [done|]. destruct (limit <=? 0); [done|].
  unfold mbind, M_bind, gets, mret, M_ret.
  destruct (Z.leb_spec limit (Z.of_nat (running_count s))); [done|].
  destruct (claim_locked_ok id w lease now s Ok) as [St C].
  destruct (claim_locked id w lease now s) as [[a|e] s']; [|done].
  split; [done|]. cbn [snd] in *. lia.
Qed.

Lemma tstep_ok s s' : tasks_ok (TS.tasks s) → tstep s s' →
  tasks_ok (TS.tasks s') ∧ tasks_evolve (TS.tasks s) (TS.tasks s')
  ∧ (running_count s' ≤ Nat.max DURABLE_TASK_MAX_RUNNING (running_count s))%nat.
Proof.
  intros Ok Hs.
  assert (Q : ∀ s', quiet_step s s' → tasks_ok (TS.tasks s')
    ∧ tasks_evolve (TS.tasks s) (TS.tasks s')
    ∧ (running_count s' ≤ Nat.max DURABLE_TASK_MAX_RUNNING (running_count s))%nat).
  { intros x Qx. pose proof (quiet_count _ _ Qx). destruct Qx as [[? ?] _].
    split; [done|]. split; [by apply all_evolve_weaken|lia]. }
  assert (P : ∀ s', prunes (TS.tasks s) (TS.tasks s') → tasks_ok (TS.tasks s')
    ∧ tasks_evolve (TS.tasks s) (TS.tasks s')
    ∧ (running_count s' ≤ Nat.max DURABLE_TASK_MAX_RUNNING (running_count s))%nat).
  { intros x Px. destruct (prunes_ok _ _ Ok Px) as (? & ? & N%none_starts_count).
    split; [done|]. split; [done|]. unfold running_count, count_tasks in *. fold running. lia. }
  destruct Hs.
  5: { destruct (claim_capacity id w lease (Z.of_nat DURABLE_TASK_MAX_RUNNING) now s Ok)
         as [[? ?] C].
       split; [done|]. split; [by apply all_evolve_weaken|lia]. }
  - apply Q, create_or_get_safe; [apply build_task_data_ok|done|done].
  - apply Q, create_in_session_safe; [apply build_task_data_ok|done|done].
  - by apply Q, fail_pending_safe.
  - by apply Q, request_cancel_safe.
  - by apply Q, renew_lease_safe.
  - by apply Q, run_owned_transaction_safe.
  - by apply Q, update_owned_safe.
  - by apply Q, finish_owned_safe.
  - by apply Q, release_interrupted_owner_safe.
  - by apply Q, reconcile_safe.
  - by apply P, prune_terminal_prunes.
  - apply P. unfold delete_task, lock_task. unfold mbind, M_bind, gets, mret, M_ret.
    destruct (TS.tasks s !! id); [by apply delete_terminal_prunes|apply prunes_refl].
  - by apply Q, step_ok_refl.
Qed.

Lemma treachable_ok s : treachable s → tasks_ok (TS.tasks s) ∧ within_capacity s.
Proof.
  unfold within_capacity. induction 1 as [d|s s' _ [Ok C] St].
  - split; [apply empty_ok|]. vm_compute. lia.
  - destruct (tstep_ok s s' Ok St) as (Ok' & _ & C'). split; [done|lia].
Qed.

(** The row a claim writes. *)
Definition claimed (w : string) (lease now : Z) (r : TaskRecord) : TaskRecord :=
  r <| Tk.status := TRunning |> <| Tk.worker_id := Some w |> <| Tk.heartbeat_at := Some now |>
    <| Tk.lease_expires_at := Some (now + seconds lease) |> <| Tk.attempt_count ::= Z.succ |>
    <| Tk.started_at := Some (or_else (Tk.started_at r) now) |>
    <| Tk.updated_at := Some now |> <| Tk.message := "任务开始执行" |>.

Lemma claim_inv id w lease limit now s r s' :
  claim id w lease (Some limit) now s = (Ret (Some r, true), s') →
  0 < lease ∧ ∃ r0, TS.tasks s !! id = Some r0 ∧ Tk.status r0 = TPending
    ∧ r = claimed w lease now r0 ∧ s' = s <| TS.tasks ::= <[Tk.id r := r]> |>.
Proof.
  unfold claim, atomic, lock_task. destruct (blank w); [done|].
  destruct (Z.leb_spec lease 0); [done|]. destruct (limit <=? 0); [done|].
  unfold mbind, M_bind, gets, mret, M_ret. destruct (_ <=? _); [done|].
  unfold claim_locked, lock_task, put_task, mbind, M_bind, gets, mret, M_ret, modify.
  destruct (TS.tasks s !! id) as [r0|]; [|done].
  destruct (bool_decide_reflect (Tk.status r0 = TPending)); [|done]. cbn [negb].
  destruct (Tk.cancel_requested r0); [done|].
  intros [= <- <-]. split; [done|]. by exists r0.
Qed.

Lemma claim_refused id w lease limit now s r :
  blank w = false → 0 < lease → 0 < limit →
  TS.tasks s !! id = Some r → Tk.status r ≠ TPending →
  claim id w lease (Some limit) now s = (Ret (Some r, false), s).
Proof.
  intros Hw Hl Hm Hr Hs. unfold claim, atomic, lock_task. rewrite Hw.
  destruct (Z.leb_spec lease 0); [lia|]. destruct (Z.leb_spec limit 0); [lia|].
  unfold mbind, M_bind, gets, mret, M_ret. destruct (_ <=? _); [by rewrite Hr|].
  unfold claim_locked, lock_task, mbind, M_bind, gets, mret, M_ret. rewrite Hr.
  by rewrite bool_decide_eq_false_2.
Qed.

Lemma live_owner_unique r w1 w2 now1 now2 :
  is_live_owner r w1 now1 = true → is_live_owner r w2 now2 = true → w1 = w2.
Proof.
  destruct r as [r|]; [|done]. intros (_ & E1 & _)%live_running (_ & E2 & _)%live_running.
  congruence.
Qed.
End steps.

(** * The properties *)

(** C13: In every reachable task table each row's execution columns fit its status: a
    pending task has never been claimed ([attempt_count = 0], no owner), a running one
    has an owner, a lease and exactly one attempt, and a terminal one has released its
    execution and its dedupe key; a successful task was never cancelled, and no two
    rows share a type and an active dedupe key. *)
Theorem reachable_tasks_ok {D} (s : TaskStore D) : treachable s → tasks_ok (TS.tasks s).
Proof. intros H. by apply treachable_ok. Qed.

(** C14: Claims made under [DURABLE_TASK_MAX_RUNNING] keep the number of running tasks
    within it in every reachable table, whatever else happens in between. *)
Theorem running_within_capacity {D} (s : TaskStore D) : treachable s →
  (length (select (λ r, bool_decide (Tk.status r = TRunning)) (TS.tasks s))
   ≤ DURABLE_TASK_MAX_RUNNING)%nat.
Proof. intros H. by apply treachable_ok. Qed.

(** One transaction moves each task along its life cycle: what was asked for
    (type, payload, handler version, timeout) never changes, a terminal row is never
    written again and only a terminal row is deleted, a cancel request is kept, and
    the start and the attempts of an execution are not undone. *)
Theorem task_step_evolves {D} (s s' : TaskStore D) k r :
  treachable s → tstep s s' → TS.tasks s !! k = Some r →
  match TS.tasks s' !! k with
  | None => task_terminal (Tk.status r) = true
  | Some r' =>
      row_evolves r r' ∧ (task_terminal (Tk.status r) = true → r' = r)
      ∧ (Tk.status r = TRunning → Tk.status r' ≠ TPending)
  end.
Proof.
  intros Hs St Hk. destruct (tstep_ok s s' (proj1 (treachable_ok s Hs)) St) as (_ & Ev & _).
  specialize (Ev k r Hk). destruct (TS.tasks s' !! k) as [r'|]; [|done].
  split; [done|]. split; [apply Ev|]. intros R N.
  destruct (ev_moves _ _ Ev) as [E|[E|[_ E]]]; congruence.
Qed.

(** A successful claim is the only one a task ever gets.  It takes a pending task
    with no attempt behind it, makes the claimant its live owner until the lease it asked
    for ends, records attempt 1, and every later claim of the task, by any worker,
    is refused and changes nothing. *)
Theorem claim_is_exclusive {D} (s s' : TaskStore D) id w lease now r :
  treachable s →
  claim id w lease (Some (Z.of_nat DURABLE_TASK_MAX_RUNNING)) now s = (Ret (Some r, true), s') →
  (∃ r0, TS.tasks s !! id = Some r0 ∧ Tk.status r0 = TPending ∧ Tk.attempt_count r0 = 0)
  ∧ TS.tasks s' !! id = Some r ∧ Tk.attempt_count r = 1 ∧ Tk.worker_id r = Some w
  ∧ Tk.lease_expires_at r = Some (now + seconds lease)
  ∧ (∀ t, now ≤ t < now + seconds lease → is_live_owner (TS.tasks s' !! id) w t = true)
  ∧ within_capacity s'
  ∧ (∀ w2 lease2 limit2 now2, blank w2 = false → 0 < lease2 → 0 < limit2 →
       claim id w2 lease2 (Some limit2) now2 s' = (Ret (Some r, false), s')).
Proof.
  intros Hs Hc. destruct (treachable_ok s Hs) as [Ok Cap].
  assert (Cap' : within_capacity s').
  { apply treachable_ok. eapply treach_step; [exact Hs|].
    pose proof (step_claim s id w lease now) as St. by rewrite Hc in St. }
  destruct (claim_inv _ _ _ _ _ _ _ _ Hc) as (Hl & r0 & E0 & S & -> & ->).
  pose proof (ok_key _ Ok _ _ E0) as <-.
  destruct (ok_pending r0 (ok_row _ Ok _ _ E0) S) as (_ & _ & _ & _ & A).
  assert (L : TS.tasks (s <| TS.tasks ::= <[Tk.id (claimed w lease now r0) := claimed w lease now r0]> |>)
                !! Tk.id r0 = Some (claimed w lease now r0)) by apply lookup_insert_eq.
  split; [by exists r0|]. split; [done|]. split; [unfold claimed; row_simpl; lia|].
  split; [done|]. split; [done|]. split; [|split; [done|]].
  - intros t Ht. rewrite L. simpl. by rewrite bool_decide_eq_true_2, (proj2 (Z.ltb_lt _ _)) by (done || lia).
  - intros w2 lease2 limit2 now2 ? ? ?. by apply claim_refused.
Qed.

(** [m] does nothing and answers [a]. *)
Definition refuses {D A} (a : A) (m : M (TaskStore D) A) (s : TaskStore D) : Prop :=
  m s = (Ret a, s).

(** An executor that is not the live owner of a task - another worker's
    task, an expired lease, a finished or deleted task - cannot write it: every owner
    operation answers that the lease is lost, leaves the store as it is and never runs
    the hook it was given.  While a lease is live, everyone but its owner is such an
    executor. *)
Theorem only_live_owner_writes {D} (s : TaskStore D) id w now :
  is_live_owner (TS.tasks s !! id) w now = false ∨
    (∃ w1 t, is_live_owner (TS.tasks s !! id) w1 t = true ∧ w ≠ w1) →
  refuses (false, false) (renew_lease id w TASK_LEASE_SECONDS now) s
  ∧ refuses (false, false) (check_control id w now) s
  ∧ (∀ data, refuses false (update_owned id w data now) s)
  ∧ (∀ op now2, refuses false (run_owned_transaction id w op now now2) s)
  ∧ (∀ st msg res err bf bc now2, task_terminal st = true →
       refuses false (finish_owned id w st msg res err bf bc now now2) s)
  ∧ (∀ err h now2, refuses None (release_interrupted_owner id w err h now now2) s).
Proof.
  intros H. assert (L : is_live_owner (TS.tasks s !! id) w now = false).
  { destruct H as [|(w1 & t & L1 & N)]; [done|].
    destruct (is_live_owner (TS.tasks s !! id) w now) eqn:L; [|done].
    by destruct (N (live_owner_unique _ _ _ _ _ L L1)). }
  clear H. unfold refuses, renew_lease, check_control, update_owned, run_owned_transaction,
    finish_owned, release_interrupted_owner, atomic, lock_task.
  unfold mbind, M_bind, gets, mret, M_ret.
  repeat split; intros; rewrite ?H; cbn [negb]; cbv beta;
    destruct (TS.tasks s !! id) as [r|]; try done; by rewrite L.
Qed.

(** C15: The live owner's [finish_owned] is all or nothing.  A cancel request wins over
    the status the worker reports, and then the cancel hook runs and no new result is
    stored; when the hook raises, or the lease has run out by the time it returns, the
    hook's writes are undone and the task is left as it was; otherwise the row is
    terminal and released and the hook's writes are kept. *)
Theorem finish_owned_outcome {D} (s : TaskStore D) id r w st msg res err bf bc now now2 :
  treachable s → task_terminal st = true → TS.tasks s !! id = Some r →
  is_live_owner (Some r) w now = true →
  let out := finish_owned id w st msg res err bf bc now now2 s in
  match run_hook (if cancelling st r then first_hook bc bf else bf) r s with
  | (Raise e, _) => out = (Raise e, s)
  | (Ret _, s1) =>
      if is_live_owner (Some r) w now2
      then ∃ r', out = (Ret true, s1 <| TS.tasks ::= <[id := r']> |>)
             ∧ settled st msg res err now2 r r'
      else out = (Ret false, s)
  end.
Proof.
  intros Hs T E L. apply finish_owned_cases; try done. by apply treachable_ok.
Qed.

(** An active task of type [type] under the dedupe key [d]. *)
Definition duplicate {D} (s : TaskStore D) (type d : string) (r : TaskRecord) : Prop :=
  TS.tasks s !! Tk.id r = Some r ∧ Tk.type r = type ∧ Tk.dedupe_key r = Some d
  ∧ task_terminal (Tk.status r) = false.

Lemma duplicate_unique {D} (s : TaskStore D) type d r0 r1 : tasks_ok (TS.tasks s) →
  duplicate s type d r0 → duplicate s type d r1 → r1 = r0.
Proof.
  intros Ok (E0 & T0 & D0 & _) (E1 & T1 & D1 & _).
  assert (Tk.id r0 = Tk.id r1) as E by (eapply (ok_dedupe _ Ok); eauto; congruence).
  rewrite E in E0. congruence.
Qed.

(** An unreleased key belongs to an active task. *)
Lemma any_duplicate {D} (s : TaskStore D) type d : tasks_ok (TS.tasks s) →
  any (same_dedupe type d) (TS.tasks s) = true ↔ ∃ r0, duplicate s type d r0.
Proof.
  intros Ok. rewrite any_true. unfold same_dedupe. split.
  - intros (k & r0 & E & [B1 B2]%andb_true_iff). bool_hyps.
    exists r0. split; [by rewrite (ok_key _ Ok _ _ E)|]. repeat split; try done.
    destruct (task_terminal (Tk.status r0)) eqn:T; [|done].
    destruct (ok_terminal _ (ok_row _ Ok _ _ E) T) as (_ & N & _). congruence.
  - intros (r0 & E & T0 & D0 & _). exists (Tk.id r0), r0. split; [done|].
    apply andb_true_iff. by rewrite !bool_decide_eq_true.
Qed.

Lemma select_duplicate {D} (s : TaskStore D) type d r0 : tasks_ok (TS.tasks s) →
  duplicate s type d r0 →
  ∃ l, select (λ o, same_dedupe type d o && negb (task_terminal (Tk.status o))) (TS.tasks s)
       = r0 :: l.
Proof.
  intros Ok H0.
  assert (Sel : ∀ x, x ∈ select (λ o, same_dedupe type d o
            && negb (task_terminal (Tk.status o))) (TS.tasks s) ↔ duplicate s type d x).
  { intros x. rewrite elem_of_select. unfold same_dedupe, duplicate.
    rewrite !andb_true_iff, !bool_decide_eq_true, negb_true_iff. split.
    - intros [[[] ?] [k Hk]]. rewrite (ok_key _ Ok _ _ Hk) at 1. done.
    - intros (? & ? & ? & ?). split; [done|]. by exists (Tk.id x). }
  destruct (select _ _) as [|x l].
  - apply Sel in H0. by apply elem_of_nil in H0.
  - exists l. f_equal. eapply duplicate_unique; [done|done|]. apply Sel. by left.
Qed.

(** Creating a task under a dedupe key returns the active task that already has
    the key, of which there is at most one, and writes nothing; when there is none it
    inserts the new task, which is then the one every further creation returns. *)
Theorem create_returns_active_duplicate {D} (s : TaskStore D) id name type version payload
    timeout d now :
  treachable s → d ≠ "" → TS.tasks s !! id = None →
  let r := build_task_data id name type version payload timeout (Some d) now in
  (∃ r0, duplicate s type d r0 ∧ create r s = (Ret (r0, false), s)
     ∧ ∀ r1, duplicate s type d r1 → r1 = r0)
  ∨ (¬ ∃ r0, duplicate s type d r0)
    ∧ ∃ s', create r s = (Ret (r, true), s') ∧ TS.tasks s' = <[id := r]> (TS.tasks s)
        ∧ duplicate s' type d r.
Proof.
  intros Hs Nd F r. pose proof (proj1 (treachable_ok s Hs)) as Ok.
  unfold create, create_or_get_in_session, catch_integrity, atomic, mbind, M_bind, mret, M_ret,
    gets.
  destruct (insert_task_cases r s Ok) as [(c & -> & [[x Hx]|(d' & [= <-] & A)])|(-> & _ & A & _)];
    [apply build_task_data_ok|done| | |].
  - exfalso. change (Tk.id r) with id in Hx. congruence.
  - left. apply (any_duplicate s type d Ok) in A as [r0 H0].
    exists r0. split; [done|]. split; [|by intros; eapply duplicate_unique].
    change (Tk.dedupe_key r) with (Some d). cbv iota. rewrite bool_decide_eq_false_2 by done.
    change (Tk.type r) with type. by destruct (select_duplicate s type d r0 Ok H0) as [l ->].
  - right. split.
    + intros Dup. apply (any_duplicate s type d Ok) in Dup. specialize (A d eq_refl).
      simpl in A. congruence.
    + eexists. split; [done|]. split; [done|]. split; [apply lookup_insert_eq|]. done.
Qed.

(** The row of a task whose execution was lost. *)
Definition failed_by_reconcile (now : datetime) (r r' : TaskRecord) : Prop :=
  Tk.status r' = TFailed ∧ Tk.error r' = Some lease_lost_error ∧ Tk.completed_at r' = Some now
  ∧ released r' ∧ Tk.dedupe_key r' = None ∧ Tk.attempt_count r' = Tk.attempt_count r.

(** A reconciliation fails exactly the running tasks whose lease has ended (and
    that no transaction has locked), each with its domain hook, in one transaction, and
    reports them; a live task and every task that is not running stay as they are.  If
    a hook raises, nothing is written; without hooks it always succeeds. *)
Theorem reconcile_fails_lost_tasks {D} (s : TaskStore D) locked h now : treachable s →
  match reconcile_expired_leases locked h now s with
  | (Ret l, s') =>
      (∀ k r, TS.tasks s !! k = Some r →
         if task_expired now r && negb (bool_decide (k ∈ locked))
         then (∃ r', TS.tasks s' !! k = Some r' ∧ failed_by_reconcile now r r')
              ∧ (k, TFailed, Tk.attempt_count r) ∈ l
         else TS.tasks s' !! k = Some r)
      ∧ length l = length (expired_rows locked now s)
  | (Raise e, s') => s' = s ∧ ∃ r, r ∈ expired_rows locked now s ∧ hook_raises h r e
  end.
Proof.
  intros Hs. pose proof (proj1 (treachable_ok s Hs)) as Ok.
  pose proof (reconcile_cases locked h now s Ok) as H.
  destruct (reconcile_expired_leases locked h now s) as [[l|e] s']; [|done].
  destruct H as (_ & -> & Hin & Hout). split; [|apply length_map].
  intros k r E. pose proof (ok_key _ Ok _ _ E) as <-.
  destruct (task_expired now r && negb (bool_decide (Tk.id r ∈ locked))) eqn:B.
  - apply andb_true_iff in B as [X L]. bool_hyps.
    assert (Hr : r ∈ expired_rows locked now s) by (by apply expired_rows_spec).
    split; [|by apply list_elem_of_fmap; exists r].
    exists (interrupted now r). split; [by apply Hin|].
    unfold failed_by_reconcile, released, interrupted, fail_interrupted_task, clear_execution.
    by row_simpl.
  - rewrite Hout; [done|]. intros (x & Ex & Hx)%list_elem_of_fmap.
    apply expired_rows_spec in Hx as (Kx & X & L); [|done]. rewrite <- Ex in Kx.
    assert (x = r) as -> by congruence. rewrite X in B. simpl in B.
    apply negb_false_iff in B. by bool_hyps.
Qed.

Lemma terminal_after_prune {D} (s : TaskStore D) keep : tasks_ok (TS.tasks s) →
  terminal_rows (prune_terminal keep s).2 ≡ₚ take keep (sort_by task_newest (terminal_rows s)).
Proof.
  intros Ok. set (sorted := sort_by task_newest (terminal_rows s)).
  assert (Ok' : tasks_ok (TS.tasks (prune_terminal keep s).2)).
  { by apply (prunes_ok (TS.tasks s)), prune_terminal_prunes. }
  assert (Nd : NoDup sorted).
  { unfold sorted. rewrite sort_by_perm. by apply terminal_rows_nodup. }
  assert (In : ∀ r, r ∈ sorted ↔ TS.tasks s !! Tk.id r = Some r ∧ task_terminal (Tk.status r) = true).
  { intros r. unfold sorted. rewrite elem_of_sort_by. by apply terminal_rows_spec. }
  apply NoDup_Permutation; [by apply terminal_rows_nodup| |].
  { rewrite <- (take_drop keep sorted) in Nd. by apply NoDup_app in Nd as (? & _). }
  intros r. rewrite terminal_rows_spec by done. unfold prune_terminal.
  unfold mbind, M_bind, gets, modify. simpl. fold (terminal_rows s). fold sorted.
  rewrite map_lookup_filter_Some. simpl.
  rewrite <- (take_drop keep sorted) in Nd. apply NoDup_app in Nd as (_ & Disj & _).
  split.
  - intros [[Hr Hk] T]. assert (Hs : r ∈ sorted) by (by apply In).
    rewrite <- (take_drop keep sorted) in Hs. apply elem_of_app in Hs as [?|Hd]; [done|].
    destruct Hk. by apply list_elem_of_fmap_2.
  - intros Ht. assert (Hs : r ∈ sorted).
    { rewrite <- (take_drop keep sorted). apply elem_of_app. by left. }
    apply In in Hs as [Hr T]. split; [split|]; try done.
    intros (x & E & Hx)%list_elem_of_fmap.
    assert (Hs : x ∈ sorted).
    { rewrite <- (take_drop keep sorted). apply elem_of_app. by right. }
    apply In in Hs as [Hx' _]. rewrite <- E in Hx'. assert (x = r) as -> by congruence.
    by apply (Disj r).
Qed.

(** Pruning keeps the [keep] newest terminal tasks (all of them when there are
    fewer) and every task that is not terminal, and deletes the rest: no deleted task is
    newer than a terminal task that stays. *)
Theorem prune_keeps_newest {D} (s : TaskStore D) keep : treachable s →
  let s' := (prune_terminal keep s).2 in
  length (terminal_rows s') = Nat.min keep (length (terminal_rows s))
  ∧ (∀ k r, TS.tasks s !! k = Some r → task_terminal (Tk.status r) = false →
       TS.tasks s' !! k = Some r)
  ∧ TS.tasks s' ⊆ TS.tasks s
  ∧ (∀ k1 r1 k2 r2, TS.tasks s' !! k1 = Some r1 → task_terminal (Tk.status r1) = true →
       TS.tasks s !! k2 = Some r2 → TS.tasks s' !! k2 = None → task_newest r1 r2 = true).
Proof.
  intros Hs s'. pose proof (proj1 (treachable_ok s Hs)) as Ok.
  pose proof (terminal_after_prune s keep Ok) as P.
  destruct (prune_terminal_prunes keep s Ok) as [Sub Pr].
  destruct (prunes_ok _ _ Ok (conj Sub Pr)) as [Ok' _].
  split; [|split; [|split; [done|]]].
  - unfold s'. rewrite P, length_take, length_sort_by. lia.
  - intros k r Hk T. destruct (TS.tasks s' !! k) as [r'|] eqn:E.
    + eapply lookup_weaken in E; [|done]. congruence.
    + rewrite (Pr k r Hk E) in T. done.
  - intros k1 r1 k2 r2 H1 T1 H2 N2.
    assert (R1 : r1 ∈ terminal_rows s').
    { apply terminal_rows_spec; [done|]. by rewrite (ok_key _ Ok' _ _ H1). }
    assert (R2 : r2 ∈ terminal_rows s ∧ r2 ∉ terminal_rows s').
    { rewrite !terminal_rows_spec, (ok_key _ Ok _ _ H2) by done. split; [split|]; [done| |].
      - by eapply Pr.
      - intros [? _]. congruence. }
    unfold s' in R1, R2. rewrite P in R1. destruct R2 as [R2 R2'].
    refine (StronglySorted_take_drop (λ x y, task_newest x y = true) keep _ r1 r2
      (sort_by_sorted _ task_newest_total task_newest_trans _) R1 _).
    apply (elem_of_sort_by task_newest) in R2.
    rewrite <- (take_drop keep (sort_by _ _)) in R2. apply elem_of_app in R2 as [R2|R2]; [|done].
    destruct R2'. by rewrite P.
Qed.

(** * Witnesses

    One ingestion task, created, claimed, asked to stop and finished; the domain is the
    list of what the hooks wrote. *)

Definition demo_task : TaskRecord :=
  build_task_data "t1" "ingest" "knowledge_ingest" 1 (JObj []) 3600%Q (Some "key") 1.
Definition demo0 : TaskStore (list string) := TS.mk ∅ [].
Definition demo1 : TaskStore (list string) := (create demo_task demo0).2.
Definition demo2 : TaskStore (list string) :=
  (claim "t1" "w1" 30 (Some (Z.of_nat DURABLE_TASK_MAX_RUNNING)) 2 demo1).2.
Definition demo3 : TaskStore (list string) := (request_cancel "t1" None 3 demo2).2.
Definition demo_hook : Hook (D := list string) := λ r d, (Ret tt, Tk.id r :: d).
Definition demo4 : TaskStore (list string) :=
  (finish_owned "t1" "w1" TSuccess "done" (Some (JInt 1)) None None (Some demo_hook) 4 5 demo3).2.

Lemma demo1_reachable : treachable demo1.
Proof. eapply treach_step; [apply treach_init|]. apply step_create. Qed.

Lemma demo2_reachable : treachable demo2.
Proof. eapply treach_step; [apply demo1_reachable|]. apply step_claim. Qed.

Lemma demo3_reachable : treachable demo3.
Proof. eapply treach_step; [apply demo2_reachable|]. apply step_request_cancel. Qed.

Lemma demo4_reachable : treachable demo4.
Proof. eapply treach_step; [apply demo3_reachable|]. apply step_finish. Qed.

Definition row_of (s : TaskStore (list string)) (id : string) : TaskRecord :=
  default demo_task (TS.tasks s !! id).

Lemma reachable_tasks_ok_witness :
  tasks_ok (TS.tasks demo2) ∧ Tk.status (row_of demo2 "t1") = TRunning.
Proof. split; [apply (reachable_tasks_ok demo2), demo2_reachable|vm_compute; reflexivity]. Defined.

Lemma running_within_capacity_witness :
  (length (select (λ r, bool_decide (Tk.status r = TRunning)) (TS.tasks demo2))
   ≤ DURABLE_TASK_MAX_RUNNING)%nat ∧ running_count demo2 = 1%nat.
Proof.
  split; [apply (running_within_capacity demo2), demo2_reachable|vm_compute; reflexivity].
Defined.

Lemma task_step_evolves_witness :
  match TS.tasks demo4 !! "t1" with
  | None => task_terminal (Tk.status (row_of demo3 "t1")) = true
  | Some r' =>
      row_evolves (row_of demo3 "t1") r'
      ∧ (task_terminal (Tk.status (row_of demo3 "t1")) = true → r' = row_of demo3 "t1")
      ∧ (Tk.status (row_of demo3 "t1") = TRunning → Tk.status r' ≠ TPending)
  end.
Proof.
  refine (task_step_evolves demo3 demo4 "t1" (row_of demo3 "t1") demo3_reachable _ _).
  - apply step_finish.
  - vm_compute; reflexivity.
Defined.

Lemma claim_is_exclusive_witness :
  is_live_owner (TS.tasks demo2 !! "t1") "w1" 10 = true
  ∧ claim "t1" "w2" 30 (Some 4) 10 demo2 = (Ret (Some (row_of demo2 "t1"), false), demo2).
Proof.
  assert (E : claim "t1" "w1" 30 (Some (Z.of_nat DURABLE_TASK_MAX_RUNNING)) 2 demo1
              = (Ret (Some (row_of demo2 "t1"), true), demo2)) by (vm_compute; reflexivity).
  pose proof (claim_is_exclusive demo1 demo2 "t1" "w1" 30 2 (row_of demo2 "t1")
    demo1_reachable E) as (_ & _ & _ & _ & _ & Live & _ & Refused).
  split; [apply Live; unfold seconds; lia|].
  apply Refused; [vm_compute; reflexivity|lia|lia].
Defined.

Lemma only_live_owner_writes_witness :
  refuses false (finish_owned "t1" "w2" TSuccess "done" None None (Some demo_hook) None 4 5) demo2.
Proof.
  refine (proj1 (proj2 (proj2 (proj2 (proj2 (only_live_owner_writes demo2 "t1" "w2" 4 _)))))
    TSuccess "done" None None (Some demo_hook) None 5 _); [|reflexivity].
  left. vm_compute; reflexivity.
Defined.

Lemma finish_owned_outcome_witness :
  Tk.status (row_of demo4 "t1") = TCancelled ∧ TS.domain demo4 = ["t1"]
  ∧ ∃ r' s1, finish_owned "t1" "w1" TSuccess "done" (Some (JInt 1)) None None (Some demo_hook) 4 5
               demo3 = (Ret true, s1 <| TS.tasks ::= <["t1" := r']> |>)
      ∧ settled TSuccess "done" (Some (JInt 1)) None 5 (row_of demo3 "t1") r'.
Proof.
  split; [vm_compute; reflexivity|]. split; [vm_compute; reflexivity|].
  assert (L : is_live_owner (Some (row_of demo3 "t1")) "w1" 4 = true) by (vm_compute; reflexivity).
  assert (E : TS.tasks demo3 !! "t1" = Some (row_of demo3 "t1")) by (vm_compute; reflexivity).
  pose proof (finish_owned_outcome demo3 "t1" (row_of demo3 "t1") "w1" TSuccess "done"
    (Some (JInt 1)) None None (Some demo_hook) 4 5 demo3_reachable eq_refl E L) as H.
  cbn zeta in H.
  assert (C : cancelling TSuccess (row_of demo3 "t1") = true) by (vm_compute; reflexivity).
  rewrite C in H.
  assert (L2 : is_live_owner (Some (row_of demo3 "t1")) "w1" 5 = true) by (vm_compute; reflexivity).
  rewrite L2 in H. cbn [first_hook run_hook demo_hook] in H.
  destruct H as (r' & H1 & H2). exists r'. eexists. split; [exact H1|exact H2].
Defined.

Lemma create_returns_active_duplicate_witness :
  create (build_task_data "t2" "again" "knowledge_ingest" 1 (JObj []) 60%Q (Some "key") 9) demo1
  = (Ret (demo_task, false), demo1).
Proof.
  assert (F : TS.tasks demo1 !! "t2" = None) by (vm_compute; reflexivity).
  assert (Dup : duplicate demo1 "knowledge_ingest" "key" demo_task)
    by (repeat split; vm_compute; reflexivity).
  destruct (create_returns_active_duplicate demo1 "t2" "again" "knowledge_ingest" 1 (JObj []) 60%Q
    "key" 9 demo1_reachable ltac:(discriminate) F) as [(r0 & _ & E & U)|[N _]].
  - rewrite (U demo_task Dup). exact E.
  - exfalso. apply N. by exists demo_task.
Defined.

Lemma reconcile_fails_lost_tasks_witness :
  ∃ l s', reconcile_expired_leases ∅ None 40000000 demo2 = (Ret l, s') ∧ length l = 1%nat
    ∧ ∃ r', TS.tasks s' !! "t1" = Some r' ∧ failed_by_reconcile 40000000 (row_of demo2 "t1") r'.
Proof.
  pose proof (reconcile_fails_lost_tasks demo2 ∅ None 40000000 demo2_reachable) as H.
  destruct (reconcile_expired_leases ∅ None 40000000 demo2) as [[l|e] s'].
  - destruct H as [H1 H2]. exists l, s'. split; [reflexivity|].
    split; [rewrite H2; vm_compute; reflexivity|].
    assert (E : TS.tasks demo2 !! "t1" = Some (row_of demo2 "t1")) by (vm_compute; reflexivity).
    specialize (H1 "t1" (row_of demo2 "t1") E).
    match type of H1 with if ?b then _ else _ =>
      assert (X : b = true) by (vm_compute; reflexivity) end.
    rewrite X in H1. exact (proj1 H1).
  - destruct H as [_ (r & _ & f & d & d' & E & _)]. discriminate E.
Defined.

Lemma prune_keeps_newest_witness :
  length (terminal_rows demo4) = 1%nat
  ∧ length (terminal_rows (prune_terminal 0 demo4).2) = 0%nat.
Proof.
  pose proof (prune_keeps_newest demo4 0 demo4_reachable) as [H _].
  split; [vm_compute; reflexivity|exact H].
Defined.
