(* ===== verification/TaskWorker.v ===== *)
(** The durable-task worker: the handler registry ([services/task_registry.py]), waking
    pending tasks ([services/task_queue_service.py]) and running one task
    ([process_task] of [services/task_service.py]).

    The domain handlers are reached by name through Python's import system: [Imports]
    is what a name resolves to.  What a handler does while it runs, and every
    transaction of other processes in that time, is the argument [execute] of
    [process_task]; ARQ messages are the returned lists of task ids. *)

From stdpp Require Import prelude gmap strings list fin_maps pretty.
From Stdlib Require Import ZArith QArith Lia.
From S2P Require Import Prelude Tasks TaskSpec TaskProps.
Local Open Scope Z_scope.

(** * The registry *)

Module Def.
Record TaskDefinition := mk {
  task_type : string;
  module : string;
  function : string;
  success_function : option string;
  failure_function : option string;
  version : Z
}.
End Def.
Abbreviation TaskDefinition := Def.TaskDefinition.

Definition knowledge_tasks : string := "yuxi.services.knowledge_task_service".
Definition eval_service : string := "yuxi.knowledge.eval.service".

Definition TASK_DEFINITIONS : list TaskDefinition := [
  Def.mk "knowledge_ingest" knowledge_tasks "run_knowledge_ingest" None
    (Some "fail_knowledge_file_task") 1;
  Def.mk "knowledge_parse" knowledge_tasks "run_knowledge_parse" None
    (Some "fail_knowledge_file_task") 1;
  Def.mk "knowledge_index" knowledge_tasks "run_knowledge_index" None
    (Some "fail_knowledge_file_task") 1;
  Def.mk "knowledge_graph_index" knowledge_tasks "run_knowledge_graph" None None 1;
  Def.mk "knowledge_virtual_folder_migration" knowledge_tasks "run_virtual_folder_migration"
    None None 1;
  Def.mk "dataset_generation" eval_service "run_dataset_generation_task"
    (Some "finish_dataset_generation_task") (Some "fail_dataset_generation_task") 1;
  Def.mk "rag_evaluation" eval_service "run_rag_evaluation_task"
    (Some "finish_rag_evaluation_task") (Some "fail_rag_evaluation_task") 1].

Definition get_task_definition (task_type : string) (handler_version : Z)
    : outcome TaskDefinition :=
  match List.find (λ d, bool_decide (Def.task_type d = task_type)) TASK_DEFINITIONS with
  | None => Raise (ValueError ("Unknown task type: " +:+ task_type))
  | Some definition =>
      if negb (Def.version definition =? handler_version)
      then Raise (ValueError ("Unsupported handler version for " +:+ task_type +:+ ": "
             +:+ pretty handler_version +:+ "; expected " +:+ pretty (Def.version definition)))
      else Ret definition
  end.

(** A migrated task has version 0 and reuses the current failure hook. *)
Definition get_failure_task_definition (task_type : string) (handler_version : Z)
    : outcome TaskDefinition :=
  if handler_version =? 0 then get_task_definition task_type 1
  else get_task_definition task_type handler_version.

Section worker.
Context {D : Type}.
Implicit Types s : TaskStore D.

(** [getattr(import_module(module), function)], Python's [str] of an exception and [:g]
    of a number, and the environment's [TASKER_DEFAULT_TIMEOUT_SECONDS]. *)
Record Imports := {
  import_handler : string → string → outcome unit;
  import_success : string → string → outcome (json → Hook (D := D));
  import_failure : string → string → outcome (string → Hook (D := D));
  exn_text : exn → string;
  seconds_text : Q → string;
  default_timeout_seconds : Q
}.
Context (imports : Imports).

Definition lift {A} (o : outcome A) : M (TaskStore D) A := λ s,
  match o with Ret a => (Ret a, s) | Raise e => (Raise e, s) end.

(** [try: m except Exception as exc: h(exc)]. *)
Definition catch_all {A} (m : M (TaskStore D) A) (h : exn → M (TaskStore D) A)
    : M (TaskStore D) A := λ s,
  match m s with
  | (Raise e, s') => h e s'
  | r => r
  end.

(** [try: m finally: f], for an [f] that does not raise. *)
Definition finally {A B} (m : M (TaskStore D) A) (f : M (TaskStore D) B) : M (TaskStore D) A :=
  λ s, let (o, s') := m s in (o, (f s').2).

Definition load_handler (d : TaskDefinition) : M (TaskStore D) unit :=
  lift (import_handler imports (Def.module d) (Def.function d)).

Definition load_success_handler (d : TaskDefinition)
    : M (TaskStore D) (option (json → Hook (D := D))) :=
  match Def.success_function d with
  | None => mret None
  | Some f => h ← lift (import_success imports (Def.module d) f); mret (Some h)
  end.

Definition load_failure_handler (d : TaskDefinition)
    : M (TaskStore D) (option (string → Hook (D := D))) :=
  match Def.failure_function d with
  | None => mret None
  | Some f => h ← lift (import_failure imports (Def.module d) f); mret (Some h)
  end.

(** [partial(failure_handler, error=error) if failure_handler is not None else None]. *)
Definition with_arg {A} (handler : option (A → Hook (D := D))) (a : A) : option (Hook (D := D)) :=
  (λ h, h a) <$> handler.

(** * Waking pending tasks *)

(** The failure hook of a row whose metadata may be unknown. *)
Definition failure_hook (r : TaskRecord) (error : string)
    : M (TaskStore D) (option (Hook (D := D))) :=
  match get_failure_task_definition (Tk.type r) (Tk.handler_version r) with
  | Raise _ => mret None
  | Ret d => h ← load_failure_handler d; mret (with_arg h error)
  end.

(** One iteration of [publish_pending_tasks]. *)
Definition publish_one (now : datetime) (r : TaskRecord) : M (TaskStore D) (list string) :=
  match get_task_definition (Tk.type r) 1 with
  | Raise exc => _ ← fail_pending (Tk.id r) (exn_text imports exc) None now; mret []
  | Ret _ =>
      if Tk.cancel_requested r then
        before_cancel ← failure_hook r "任务已取消";
        _ ← request_cancel (Tk.id r) before_cancel now;
        mret []
      else
        match get_task_definition (Tk.type r) (Tk.handler_version r) with
        | Raise exc =>
            before_fail ← failure_hook r (exn_text imports exc);
            _ ← fail_pending (Tk.id r) (exn_text imports exc) before_fail now;
            mret []
        | Ret _ => mret [Tk.id r]
        end
  end.

Definition publish_pending_tasks (limit : nat) (now : datetime) : M (TaskStore D) (list string) :=
  records ← list_pending limit;
  for_each (publish_one now) records.

(** [finalize_task_failure], the hook of the reconciler. *)
Definition finalize_task_failure (error : string) : Hook (D := D) := λ r d,
  match get_failure_task_definition (Tk.type r) (Tk.handler_version r) with
  | Raise _ => (Ret tt, d)
  | Ret definition =>
      match Def.failure_function definition with
      | None => (Ret tt, d)
      | Some f =>
          match import_failure imports (Def.module definition) f with
          | Raise e => (Raise e, d)
          | Ret handler => handler error r d
          end
      end
  end.

Definition reconcile_and_publish_tasks (locked : gset string) (now : datetime)
    : M (TaskStore D) (list (string * TaskStatus * Z)) :=
  reconciled ← reconcile_expired_leases locked (Some finalize_task_failure) now;
  _ ← publish_pending_tasks 200 now;
  _ ← prune_terminal 200;
  mret reconciled.

(** [Tasker.cancel_task]. *)
Definition cancel_task (task_id : string) (now : datetime)
    : M (TaskStore D) (option TaskRecord) :=
  current ← lock_task task_id;
  match current with
  | None => request_cancel task_id None now
  | Some r =>
      match get_failure_task_definition (Tk.type r) (Tk.handler_version r) with
      | Raise _ => mret None
      | Ret d =>
          h ← load_failure_handler d;
          request_cancel task_id (with_arg h "任务已取消") now
      end
  end.

(** * Running one task *)

(** How the handler's execution ended, and the [cancellation_reason] its context held. *)
Inductive CancelReason := ReasonCancelled | ReasonLeaseLost | ReasonOther.

Inductive Execution :=
  | ExecReturned (result : json)
  | ExecTimeout
  | ExecRaised (text : string)
  | ExecCancelled (reason : CancelReason).

Definition finish_task_failure (task_id owner : string) (status : TaskStatus)
    (message error : string) (failure_handler : option (string → Hook (D := D)))
    (now now2 : datetime) : M (TaskStore D) bool :=
  finish_owned task_id owner status message None (Some error) (with_arg failure_handler error)
    None now now2.

(** [float(record.timeout_seconds or TASKER_DEFAULT_TIMEOUT_SECONDS)]. *)
Definition execution_timeout (r : TaskRecord) : Q :=
  if Qeq_bool (Tk.timeout_seconds r) 0 then default_timeout_seconds imports
  else Tk.timeout_seconds r.

(** The [except] and [else] branches after the execution. *)
Definition settle_execution (task_id owner : string) (r : TaskRecord)
    (failure_handler : option (string → Hook (D := D)))
    (success_handler : option (json → Hook (D := D)))
    (outcome_of : Execution) (now now2 : datetime) : M (TaskStore D) unit :=
  let failed text :=
    _ ← finish_task_failure task_id owner TFailed "任务执行失败" text failure_handler now now2;
    mret tt in
  match outcome_of with
  | ExecReturned result =>
      catch_all
        (_ ← finish_owned task_id owner TSuccess "任务已完成" (Some result) None
               (with_arg success_handler result) (with_arg failure_handler "任务已取消") now now2;
         mret tt)
        (λ exc, failed (exn_text imports exc))
  | ExecTimeout =>
      catch_all
        (_ ← finish_task_failure task_id owner TFailed "任务执行超时"
               ("Task exceeded the " +:+ seconds_text imports (execution_timeout r)
                +:+ "-second execution timeout") failure_handler now now2;
         mret tt)
        (λ exc, failed (exn_text imports exc))
  | ExecRaised text => failed text
  | ExecCancelled ReasonCancelled =>
      _ ← finish_task_failure task_id owner TCancelled "任务已取消" "任务已取消"
            failure_handler now now2;
      mret tt
  | ExecCancelled ReasonLeaseLost => mret tt
  | ExecCancelled ReasonOther =>
      let shutdown_error := "worker_shutdown: worker 停止时任务中断" in
      _ ← release_interrupted_owner task_id owner shutdown_error
            (with_arg failure_handler shutdown_error) now now2;
      mret tt
  end.

Definition publish_pending_after_slot_release (now : datetime) : M (TaskStore D) (list string) :=
  catch_all (publish_pending_tasks DURABLE_TASK_MAX_RUNNING now) (λ _, mret []).

(** [process_task]: [owner] is the fresh owner name, [now] the claim's clock reading and
    [now1], [now2], [now3] those of the transactions after the execution. *)
Definition process_task (execute : TaskRecord → TaskStore D → Execution * TaskStore D)
    (task_id owner : string) (now now1 now2 now3 : datetime) : M (TaskStore D) unit :=
  record ← lock_task task_id;
  match record with
  | None => mret tt
  | Some r =>
      if task_terminal (Tk.status r) then mret tt
      else
        match get_task_definition (Tk.type r) (Tk.handler_version r) with
        | Raise _ => mret tt
        | Ret definition =>
            if Tk.cancel_requested r then
              failure_handler ← load_failure_handler definition;
              _ ← request_cancel task_id (with_arg failure_handler "任务已取消") now;
              mret tt
            else
              answer ← claim task_id owner TASK_LEASE_SECONDS
                         (Some (Z.of_nat DURABLE_TASK_MAX_RUNNING)) now;
              match answer with
              | (Some r, true) =>
                  handlers ← (λ s,
                    match load_failure_handler definition s with
                    | (Raise e, s) => (Ret (inr (None, e)), s)
                    | (Ret failure_handler, s) =>
                        match (success_handler ← load_success_handler definition;
                               _ ← load_handler definition;
                               mret success_handler) s with
                        | (Raise e, s) => (Ret (inr (failure_handler, e)), s)
                        | (Ret success_handler, s) =>
                            (Ret (inl (failure_handler, success_handler)), s)
                        end
                    end);
                  match handlers with
                  | inr (failure_handler, exc) =>
                      _ ← finish_task_failure task_id owner TFailed "任务 Handler 无法加载"
                            (exn_text imports exc) failure_handler now1 now2;
                      _ ← publish_pending_after_slot_release now3;
                      mret tt
                  | inl (failure_handler, success_handler) =>
                      end_of ← (λ s, let (e, s') := execute r s in (Ret e, s'));
                      finally
                        (settle_execution task_id owner r failure_handler success_handler end_of
                           now1 now2)
                        (publish_pending_after_slot_release now3)
                  end
              | _ => mret tt
              end
        end
  end.

(** * Hooks that do not raise *)

Definition total_hook (h : Hook (D := D)) : Prop := ∀ r d, ∃ d', h r d = (Ret tt, d').

Record imports_total : Prop := {
  failure_total m f : ∃ h, import_failure imports m f = Ret h ∧ ∀ e, total_hook (h e);
  success_total m f : ∃ h, import_success imports m f = Ret h ∧ ∀ v, total_hook (h v);
  handler_total m f : import_handler imports m f = Ret tt
}.

Definition total_or_none (h : option (Hook (D := D))) : Prop :=
  match h with Some h => total_hook h | None => True end.

Lemma run_total_hook h r s : total_or_none h →
  ∃ d, run_hook h r s = (Ret tt, s <| TS.domain := d |>).
Proof.
  intros Ht. unfold run_hook. destruct h as [h|].
  - destruct (Ht r (TS.domain s)) as [d ->]. eauto.
  - exists (TS.domain s). by destruct s.
Qed.

Lemma load_failure_total d : imports_total →
  ∃ h, (∀ s, load_failure_handler d s = (Ret h, s)) ∧ ∀ e, total_or_none (with_arg h e).
Proof.
  intros T. unfold load_failure_handler. destruct (Def.failure_function d) as [f|].
  - destruct (failure_total T (Def.module d) f) as (h & E & Ht). exists (Some h).
    split; [|done]. intros s. unfold mbind, M_bind, lift. by rewrite E.
  - by exists None.
Qed.

Lemma load_success_total d : imports_total →
  ∃ h, (∀ s, load_success_handler d s = (Ret h, s)) ∧ ∀ v, total_or_none (with_arg h v).
Proof.
  intros T. unfold load_success_handler. destruct (Def.success_function d) as [f|].
  - destruct (success_total T (Def.module d) f) as (h & E & Ht). exists (Some h).
    split; [|done]. intros s. unfold mbind, M_bind, lift. by rewrite E.
  - by exists None.
Qed.

Lemma failure_hook_total r e : imports_total →
  ∃ h, (∀ s, failure_hook r e s = (Ret h, s)) ∧ total_or_none h.
Proof.
  intros T. unfold failure_hook. destruct (get_failure_task_definition _ _) as [d|x].
  - destruct (load_failure_total d T) as (h & E & Ht). exists (with_arg h e).
    split; [|done]. intros s. unfold mbind, M_bind. by rewrite E.
  - by exists None.
Qed.

(** * Waking *)

(** A loop whose iterations rewrite the row they are given and do not raise. *)
Lemma for_each_rows {B} (body : TaskRecord → M (TaskStore D) (list B)) out upd rs :
  (∀ r s, r ∈ rs → tasks_ok (TS.tasks s) → TS.tasks s !! Tk.id r = Some r →
     ∃ s', body r s = (Ret (out r), s') ∧ quiet_step s s'
       ∧ TS.tasks s' = <[Tk.id r := upd r]> (TS.tasks s)) →
  ∀ s, tasks_ok (TS.tasks s) → NoDup (map Tk.id rs) →
    (∀ r, r ∈ rs → TS.tasks s !! Tk.id r = Some r) →
    ∃ s', for_each body rs s = (Ret (concat (map out rs)), s') ∧ quiet_step s s'
      ∧ (∀ r, r ∈ rs → TS.tasks s' !! Tk.id r = Some (upd r))
      ∧ (∀ k, k ∉ map Tk.id rs → TS.tasks s' !! k = TS.tasks s !! k).
Proof.
  induction rs as [|r rs IH]; intros Body s Ok Nd Hrs.
  { exists s. split; [done|]. split; [by apply step_ok_refl|]. split; [|done].
    intros r Hr. by apply elem_of_nil in Hr. }
  apply NoDup_cons in Nd as [Nr Nd].
  destruct (Body r s) as (s1 & E1 & Q1 & T1); [by left|done|apply Hrs; by left|].
  assert (Hne : ∀ x, x ∈ rs → Tk.id r ≠ Tk.id x).
  { intros x Hx E. apply Nr, list_elem_of_fmap. eauto. }
  destruct (IH ltac:(intros; apply Body; [by right|done|done]) s1 (st_ok _ _ (proj1 Q1)) Nd)
    as (s2 & E2 & Q2 & In2 & Out2).
  { intros x Hx. rewrite T1, lookup_insert_ne by auto. apply Hrs. by right. }
  exists s2. cbn [for_each map concat]. unfold mbind, M_bind. rewrite E1, E2.
  split; [done|]. split; [by eapply quiet_step_trans|]. split.
  - intros x Hx. apply elem_of_cons in Hx as [->|Hx]; [|by apply In2].
    by rewrite Out2, T1, lookup_insert_eq.
  - intros k Hk. apply not_elem_of_cons in Hk as [Hk1 Hk2].
    rewrite Out2, T1, lookup_insert_ne by auto. done.
Qed.

(** The registry can run the row. *)
Definition runnable (r : TaskRecord) : bool :=
  match get_task_definition (Tk.type r) (Tk.handler_version r) with
  | Ret _ => true
  | Raise _ => false
  end.

Definition unrebuildable (now : datetime) (r : TaskRecord) : TaskRecord :=
  match get_task_definition (Tk.type r) (Tk.handler_version r) with
  | Ret _ => r
  | Raise _ =>
      let exc := match get_task_definition (Tk.type r) 1 with
                 | Raise exc => exn_text imports exc
                 | Ret _ => match get_task_definition (Tk.type r) (Tk.handler_version r) with
                            | Raise exc => exn_text imports exc
                            | Ret _ => ""
                            end
                 end in
      r <| Tk.status := TFailed |> <| Tk.progress := 100%Q |>
        <| Tk.message := "任务 Handler 无法重建" |> <| Tk.error := Some exc |>
        <| Tk.completed_at := Some now |> <| Tk.updated_at := Some now |>
        <| Tk.dedupe_key := None |>
  end.

(** An unknown type is unknown in every version. *)
Lemma unknown_type type version e :
  get_task_definition type 1 = Raise e →
  ∃ e', get_task_definition type version = Raise e'.
Proof.
  unfold get_task_definition.
  destruct (List.find (λ d, bool_decide (Def.task_type d = type)) TASK_DEFINITIONS) as [d|] eqn:F;
    [|eauto].
  apply find_some in F as [Hin _]. assert (Def.version d = 1) as ->; [|done].
  repeat (destruct Hin as [<-|Hin]; [done|]). destruct Hin.
Qed.

Lemma fail_pending_total id err h now s r :
  tasks_ok (TS.tasks s) → TS.tasks s !! id = Some r → Tk.status r = TPending →
  total_or_none h →
  ∃ s', fail_pending id err h now s = (Ret true, s') ∧ quiet_step s s'
    ∧ TS.tasks s' = <[id := r <| Tk.status := TFailed |> <| Tk.progress := 100%Q |>
        <| Tk.message := "任务 Handler 无法重建" |> <| Tk.error := Some err |>
        <| Tk.completed_at := Some now |> <| Tk.updated_at := Some now |>
        <| Tk.dedupe_key := None |>]> (TS.tasks s).
Proof.
  intros Ok E S Ht. pose proof (fail_pending_safe id err h now s Ok) as Q.
  pose proof (ok_key _ Ok _ _ E) as <-.
  destruct (run_total_hook h r s Ht) as [d Hd].
  eexists. split; [|split; [exact Q|]].
  - unfold fail_pending, atomic, lock_task, put_task.
    unfold mbind, M_bind, gets, mret, M_ret, modify. rewrite E.
    rewrite bool_decide_eq_true_2 by done. cbn [negb]. by rewrite Hd.
  - unfold fail_pending, atomic, lock_task, put_task.
    unfold mbind, M_bind, gets, mret, M_ret, modify. rewrite E.
    rewrite bool_decide_eq_true_2 by done. cbn [negb]. by rewrite Hd.
Qed.

Lemma publish_one_total now r s : imports_total →
  tasks_ok (TS.tasks s) → TS.tasks s !! Tk.id r = Some r → Tk.status r = TPending →
  ∃ s', publish_one now r s = (Ret (if runnable r then [Tk.id r] else []), s')
    ∧ quiet_step s s' ∧ TS.tasks s' = <[Tk.id r := unrebuildable now r]> (TS.tasks s).
Proof.
  intros T Ok E S.
  destruct (ok_pending r (ok_row _ Ok _ _ E) S) as (_ & _ & _ & C & _).
  unfold publish_one, runnable, unrebuildable. rewrite C.
  destruct (get_task_definition (Tk.type r) 1) as [d|e1] eqn:E1.
  - destruct (get_task_definition (Tk.type r) (Tk.handler_version r)) as [d2|e2].
    + exists s. split; [done|]. split; [by apply step_ok_refl|]. by rewrite insert_id.
    + destruct (failure_hook_total r (exn_text imports e2) T) as (h & Hh & Ht).
      destruct (fail_pending_total (Tk.id r) (exn_text imports e2) h now s r Ok E S Ht)
        as (s' & E' & Q & Ts).
      exists s'. unfold mbind, M_bind, mret, M_ret. by rewrite Hh, E'.
  - destruct (unknown_type _ (Tk.handler_version r) _ E1) as [e2 ->].
    destruct (fail_pending_total (Tk.id r) (exn_text imports e1) None now s r Ok E S I)
      as (s' & E' & Q & Ts).
    exists s'. unfold mbind, M_bind, mret, M_ret. by rewrite E'.
Qed.

(** The [limit] oldest pending tasks. *)
Definition oldest_pending (limit : nat) s : list TaskRecord :=
  take (Nat.max limit 1) (sort_by (λ a b, ts_leb (Tk.created_at a) (Tk.created_at b))
    (select (λ r, bool_decide (Tk.status r = TPending)) (TS.tasks s))).

Lemma oldest_pending_spec limit s r : tasks_ok (TS.tasks s) → r ∈ oldest_pending limit s →
  TS.tasks s !! Tk.id r = Some r ∧ Tk.status r = TPending.
Proof.
  intros Ok Hr. apply elem_of_take in Hr as (i & Hi & _). apply list_elem_of_lookup_2 in Hi.
  apply elem_of_sort_by, elem_of_select in Hi as [S [k Hk]]. bool_hyps.
  rewrite (ok_key _ Ok _ _ Hk) at 1. done.
Qed.

Lemma oldest_pending_nodup limit s : tasks_ok (TS.tasks s) →
  NoDup (map Tk.id (oldest_pending limit s)).
Proof.
  intros Ok. apply NoDup_fmap_2_strong.
  - intros x y [Hx _]%oldest_pending_spec [Hy _]%oldest_pending_spec E; try done.
    rewrite E in Hx. congruence.
  - unfold oldest_pending. set (l := sort_by _ _).
    assert (Nd : NoDup l).
    { unfold l. rewrite sort_by_perm. apply NoDup_select. intros k1 k2 a H1 H2.
      by rewrite <- (ok_key _ Ok _ _ H1), <- (ok_key _ Ok _ _ H2). }
    rewrite <- (take_drop (Nat.max limit 1) l) in Nd. by apply NoDup_app in Nd as [? _].
Qed.

Lemma publish_pending_total limit now s : imports_total → tasks_ok (TS.tasks s) →
  ∃ s', publish_pending_tasks limit now s
        = (Ret (concat (map (λ r, if runnable r then [Tk.id r] else []) (oldest_pending limit s))), s')
    ∧ quiet_step s s'
    ∧ (∀ r, r ∈ oldest_pending limit s → TS.tasks s' !! Tk.id r = Some (unrebuildable now r))
    ∧ (∀ k, k ∉ map Tk.id (oldest_pending limit s) → TS.tasks s' !! k = TS.tasks s !! k).
Proof.
  intros T Ok. unfold publish_pending_tasks, list_pending, gets.
  unfold mbind at 1, M_bind at 1. fold (oldest_pending limit s).
  apply for_each_rows; [|done|by apply oldest_pending_nodup|].
  - intros r s1 Hr Ok1 E. apply publish_one_total; [done..|].
    by apply (oldest_pending_spec limit s r Ok).
  - intros r Hr. by apply (oldest_pending_spec limit s r Ok).
Qed.

(** * Settling *)

(** The task ended: its row is terminal with this status, and released. *)
Definition ended (id : string) (st : TaskStatus) s : Prop :=
  ∃ r, TS.tasks s !! id = Some r ∧ Tk.status r = st ∧ released r ∧ Tk.dedupe_key r = None.

Lemma finish_owned_total id r w st msg res err bf bc now now2 s :
  tasks_ok (TS.tasks s) → task_terminal st = true → TS.tasks s !! id = Some r →
  is_live_owner (Some r) w now = true → is_live_owner (Some r) w now2 = true →
  total_or_none bf → total_or_none bc →
  ∃ s', finish_owned id w st msg res err bf bc now now2 s = (Ret true, s')
    ∧ quiet_step s s' ∧ ended id (if Tk.cancel_requested r then TCancelled else st) s'.
Proof.
  intros Ok T E L L2 Hf Hc.
  pose proof (finish_owned_safe id w st msg res err bf bc now now2 s Ok) as Q.
  pose proof (finish_owned_cases s id r w st msg res err bf bc now now2 Ok T E L) as H.
  cbn zeta in H. rewrite L2 in H.
  destruct (run_total_hook (if cancelling st r then first_hook bc bf else bf) r s) as [d Hd].
  { destruct (cancelling st r); [by destruct bc|done]. }
  rewrite Hd in H. destruct H as (r' & E' & St). rewrite E' in Q |- *.
  eexists. split; [done|]. split; [exact Q|]. exists r'. split; [apply lookup_insert_eq|].
  destruct St as (S & _ & _ & _ & _ & _ & Rel & Dd). split; [|done]. rewrite S. unfold cancelling.
  destruct (Tk.cancel_requested r); [|done].
  destruct (bool_decide_reflect (st = TCancelled)); by subst.
Qed.

Lemma release_total id r w err h now now2 s :
  tasks_ok (TS.tasks s) → TS.tasks s !! id = Some r →
  is_live_owner (Some r) w now = true → is_live_owner (Some r) w now2 = true →
  total_or_none h →
  ∃ o s', release_interrupted_owner id w err h now now2 s = (Ret o, s')
    ∧ quiet_step s s' ∧ ended id TFailed s'.
Proof.
  intros Ok E L L2 Hh. pose proof (release_interrupted_owner_safe id w err h now now2 s Ok) as Q.
  pose proof (ok_key _ Ok _ _ E) as <-. destruct (run_total_hook h r s Hh) as [d Hd].
  revert Q. unfold release_interrupted_owner, atomic, lock_task, put_task.
  unfold mbind, M_bind, gets, mret, M_ret, modify. rewrite E, L. cbn [negb]. rewrite Hd.
  destruct h as [h|]; rewrite ?L2; cbn [negb]; intros Q; do 2 eexists; (split; [done|]);
    (split; [exact Q|]); eexists; (split; [apply lookup_insert_eq|]); done.
Qed.

(** How an execution that kept its lease ends, given whether it was asked to stop. *)
Definition final_status (cancel_requested : bool) (e : Execution) : TaskStatus :=
  match e with
  | ExecCancelled ReasonOther => TFailed
  | ExecReturned _ => if cancel_requested then TCancelled else TSuccess
  | ExecTimeout | ExecRaised _ => if cancel_requested then TCancelled else TFailed
  | ExecCancelled _ => TCancelled
  end.

Lemma settle_total id w r0 r fh sh e now now2 s :
  tasks_ok (TS.tasks s) → TS.tasks s !! id = Some r →
  is_live_owner (Some r) w now = true → is_live_owner (Some r) w now2 = true →
  (∀ x, total_or_none (with_arg fh x)) → (∀ v, total_or_none (with_arg sh v)) →
  e ≠ ExecCancelled ReasonLeaseLost →
  ∃ s', settle_execution id w r0 fh sh e now now2 s = (Ret tt, s')
    ∧ quiet_step s s' ∧ ended id (final_status (Tk.cancel_requested r) e) s'.
Proof.
  intros Ok E L L2 Hf Hs He.
  assert (F : ∀ st msg err, task_terminal st = true →
    ∃ s', finish_task_failure id w st msg err fh now now2 s = (Ret true, s')
      ∧ quiet_step s s' ∧ ended id (if Tk.cancel_requested r then TCancelled else st) s').
  { intros. by apply (finish_owned_total id r). }
  unfold settle_execution, catch_all, mbind, M_bind, mret, M_ret.
  destruct e as [v| |text|[]]; try done.
  - destruct (finish_owned_total id r w TSuccess "任务已完成" (Some v) None (with_arg sh v)
      (with_arg fh "任务已取消") now now2 s) as (s' & E' & ?); try done.
    exists s'. by rewrite E'.
  - edestruct (F TFailed) as (s' & E' & ?); [done|]. exists s'. by rewrite E'.
  - edestruct (F TFailed) as (s' & E' & ?); [done|]. exists s'. by rewrite E'.
  - edestruct (F TCancelled) as (s' & E' & ? & En); [done|]. exists s'. rewrite E'.
    split; [done|]. split; [done|]. by destruct (Tk.cancel_requested r).
  - match goal with |- context [release_interrupted_owner _ _ ?err ?h _ _ _] =>
      destruct (release_total id r w err h now now2 s) as (o & s' & E' & ?); try done end.
    exists s'. by rewrite E'.
Qed.

(** Nothing a later wake-up does changes how a task ended. *)
Lemma ended_stays id st s s' : task_terminal st = true → quiet_step s s' →
  ended id st s → ended id st s'.
Proof.
  intros T [[_ Ev] _] (r & E & S & ?). destruct (Ev id r E) as (r' & E' & V).
  exists r'. split; [done|]. rewrite (ev_final _ _ V); [done|]. by rewrite S.
Qed.
End worker.
Arguments Imports : clear implicits.

(** Waking pending tasks publishes exactly those of the [limit] oldest that the
    registry can run, leaving them as they are; it fails the others of that batch, so
    that they and their dedupe keys do not wait for a handler that will never come,
    and touches no other row. *)
Theorem publish_wakes_runnable {D} (imports : Imports D) (s : TaskStore D) limit now :
  imports_total imports → tasks_ok (TS.tasks s) →
  ∃ l s', publish_pending_tasks imports limit now s = (Ret l, s')
    ∧ (∀ id, id ∈ l ↔ ∃ r, r ∈ oldest_pending limit s ∧ Tk.id r = id ∧ runnable r = true)
    ∧ (∀ id, id ∈ l → TS.tasks s' !! id = TS.tasks s !! id)
    ∧ (∀ r, r ∈ oldest_pending limit s → runnable r = false →
         ∃ r', TS.tasks s' !! Tk.id r = Some r' ∧ Tk.status r' = TFailed
           ∧ Tk.dedupe_key r' = None ∧ Tk.completed_at r' = Some now)
    ∧ (∀ k, (∀ r, r ∈ oldest_pending limit s → Tk.id r ≠ k) →
         TS.tasks s' !! k = TS.tasks s !! k).
Proof.
  intros T Ok. destruct (publish_pending_total imports limit now s T Ok)
    as (s' & E & _ & In & Out).
  eexists _, s'. split; [exact E|].
  assert (L : ∀ id, id ∈ concat (map (λ r, if runnable r then [Tk.id r] else [])
      (oldest_pending limit s))
    ↔ ∃ r, r ∈ oldest_pending limit s ∧ Tk.id r = id ∧ runnable r = true).
  { intros id. rewrite list_elem_of_In, in_concat. setoid_rewrite in_map_iff.
    setoid_rewrite <- list_elem_of_In. split.
    - intros (x & (r & <- & Hr) & Hx). destruct (runnable r) eqn:R; [|by apply elem_of_nil in Hx].
      apply list_elem_of_singleton in Hx as ->. eauto.
    - intros (r & Hr & <- & R). exists [Tk.id r]. rewrite list_elem_of_singleton.
      split; [|done]. exists r. by rewrite R. }
  split; [done|]. split; [|split].
  - intros id (r & Hr & <- & R)%L. rewrite (In r Hr).
    rewrite (proj1 (oldest_pending_spec limit s r Ok Hr)). unfold unrebuildable.
    unfold runnable in R. by destruct (get_task_definition _ (Tk.handler_version r)).
  - intros r Hr R. rewrite (In r Hr). eexists. split; [done|]. unfold unrebuildable.
    unfold runnable in R. destruct (get_task_definition _ (Tk.handler_version r)); [done|].
    by row_simpl.
  - intros k Hk. apply Out. intros (r & E1 & Hr)%list_elem_of_fmap. by apply (Hk r Hr).
Qed.


(** * Witnesses *)

Definition demo_imports : Imports (list string) := {|
  import_handler := λ _ _, Ret tt;
  import_success := λ _ f, Ret (λ _ r d, (Ret tt, f :: d));
  import_failure := λ _ f, Ret (λ _ r d, (Ret tt, f :: d));
  exn_text := λ _, "error";
  seconds_text := λ _, "3600";
  default_timeout_seconds := 21600%Q |}.

Lemma demo_imports_total : imports_total demo_imports.
Proof.
  split; try done.
  - intros m f. exists (λ _ r d, (Ret tt, f :: d)). split; [done|].
    intros e r d. by exists (f :: d).
  - intros m f. exists (λ _ r d, (Ret tt, f :: d)). split; [done|].
    intros e r d. by exists (f :: d).
Qed.

(** A runnable task and one of a type no worker knows. *)
Definition demo_two : TaskStore (list string) :=
  (create (build_task_data "t2" "old" "forgotten_type" 1 (JObj []) 60%Q (Some "k2") 2) demo1).2.

Lemma demo_two_reachable : treachable demo_two.
Proof. eapply treach_step; [apply demo1_reachable|]. apply step_create. Qed.

Lemma publish_wakes_runnable_witness :
  ∃ l s', publish_pending_tasks demo_imports 200 7 demo_two = (Ret l, s') ∧ "t1" ∈ l
    ∧ ∃ r', TS.tasks s' !! "t2" = Some r' ∧ Tk.status r' = TFailed.
Proof.
  destruct (publish_wakes_runnable demo_imports demo_two 200 7 demo_imports_total
    (proj1 (treachable_ok _ demo_two_reachable))) as (l & s' & E & L & _ & F & _).
  exists l, s'. split; [exact E|]. split.
  - apply L. exists (row_of demo_two "t1"). split; [|split; vm_compute; reflexivity].
    apply list_elem_of_lookup_2 with (i := 0%nat). vm_compute; reflexivity.
  - destruct (F (row_of demo_two "t2")) as (r' & E' & S & _).
    + apply list_elem_of_lookup_2 with (i := 1%nat). vm_compute; reflexivity.
    + vm_compute; reflexivity.
    + exists r'. split; [exact E'|exact S].
Defined.

Definition demo_execute (r : TaskRecord) (s : TaskStore (list string))
    : Execution * TaskStore (list string) :=
  (ExecReturned (JInt 1), s <| TS.domain := ["chunks"] |>).

