(* ===== verification/Sandboxes.v ===== *)
(** Dedicated sandboxes: [AgentSandboxRepository] ([repositories/agent_sandbox_repository.py]),
    the execution lease ([services/sandbox_lease_service.py]), the life cycle
    ([services/sandbox_lifecycle_service.py]) and its supervisor
    ([services/sandbox_lifecycle_supervisor_service.py]).

    The provisioner behind [get_sandbox_provider()] is an interface ([SandboxProvider])
    with a state of its own, which a database rollback does not undo.  A function reads
    the clock once ([now]).  Row and event ids are fresh UUIDs: [fresh_id] is the one a
    new row gets, event ids are left out. *)

From stdpp Require Import prelude gmap strings list fin_maps pretty.
From Stdlib Require Import ZArith Lia.
From S2P Require Import Prelude Schema Queue SandboxScope.
Local Open Scope Z_scope.

(** * Data *)

Inductive SandboxStatus := SActive | SReaping | SSuspended | SError.

#[global] Instance SandboxStatus_eq_dec : EqDecision SandboxStatus.
Proof. solve_decision. Defined.

Inductive EventKind :=
  | LeaseWaiting | LeaseAcquired | LeaseReleased | LeaseExpiredEvent
  | SandboxCreated | SandboxRebuilt | SandboxSuspended.

#[global] Instance EventKind_eq_dec : EqDecision EventKind.
Proof. solve_decision. Defined.

Module Box.
Record AgentSandbox := mk {
  id : string;
  uid : string;
  agent_slug : string;
  project_id : string;
  scope_key : string;
  sandbox_id : string;
  generation : option string;
  lifecycle : SandboxLifecycle;
  resume_policy : ResumePolicy;
  status : SandboxStatus;
  idle_timeout_seconds : option Z;
  credential_fingerprint : option string;
  lease_owner_kind : option string;
  lease_owner_id : option string;
  lease_expires_at : option datetime;
  lease_heartbeat_at : option datetime;
  last_activity_at : option datetime;
  last_keepalive_at : option datetime;
  suspended_at : option datetime;
  error_code : option string;
  error_message : option string;
  created_at : option datetime;
  updated_at : option datetime
}.
#[global] Instance eta : Eta AgentSandbox := λ b,
  mk (id b) (uid b) (agent_slug b) (project_id b) (scope_key b) (sandbox_id b) (generation b)
    (lifecycle b) (resume_policy b) (status b) (idle_timeout_seconds b)
    (credential_fingerprint b) (lease_owner_kind b) (lease_owner_id b) (lease_expires_at b)
    (lease_heartbeat_at b) (last_activity_at b) (last_keepalive_at b) (suspended_at b)
    (error_code b) (error_message b) (created_at b) (updated_at b).
End Box.
Abbreviation AgentSandbox := Box.AgentSandbox.

Module BoxEvent.
Record AgentSandboxEvent := mk {
  sandbox_id : string;
  kind : EventKind;
  actor_kind : option string;
  actor_id : option string;
  payload_json : json;
  created_at : datetime
}.
End BoxEvent.
Abbreviation AgentSandboxEvent := BoxEvent.AgentSandboxEvent.

(** [SandboxConnection] and the inventory's [SandboxRecord], as the services use them. *)
Record SandboxConnection := { conn_generation : option string }.
Record SandboxRecord := { rec_sandbox_id : string; rec_generation : option string }.

(** What the services call on the provider; a call may fail and changes the runtimes. *)
Class SandboxProvider (P : Type) := {
  get_scope : SandboxScope → bool → option string → option SandboxLifecycle → option Z →
    P → outcome (option SandboxConnection) * P;
  release_scope : SandboxScope → option string → P → outcome unit * P;
  touch : string → P → outcome bool * P;
  list_sandboxes : P → outcome (list SandboxRecord) * P
}.

Module SB.
Record SandboxStore (P : Type) := mk {
  boxes : gmap string AgentSandbox;
  events : list AgentSandboxEvent;
  runtimes : P
}.
Arguments mk {P}.
Arguments boxes {P}.
Arguments events {P}.
Arguments runtimes {P}.
#[global] Instance eta {P} : Eta (SandboxStore P) := λ s, mk (boxes s) (events s) (runtimes s).
End SB.
Abbreviation SandboxStore := SB.SandboxStore.

(** * The repository *)

Section sandboxes.
Context {P : Type}.
Implicit Types s : SandboxStore P.

Definition owned_by (uid agent_slug project_id : string) (b : AgentSandbox) : bool :=
  bool_decide (Box.uid b = uid) && bool_decide (Box.agent_slug b = agent_slug)
  && bool_decide (Box.project_id b = project_id).

Definition get_for_update (uid agent_slug project_id : string)
    : M (SandboxStore P) (option AgentSandbox) :=
  gets (λ s, head (select (owned_by uid agent_slug project_id) (SB.boxes s))).

Definition put_box (b : AgentSandbox) : M (SandboxStore P) unit :=
  modify (λ s, s <| SB.boxes ::= <[Box.id b := b]> |>).

Definition append_event (sandbox_id : string) (kind : EventKind)
    (actor_kind actor_id : option string) (payload : json) (now : datetime)
    : M (SandboxStore P) unit :=
  modify (λ s, s <| SB.events := SB.events s ++ [{|
    BoxEvent.sandbox_id := sandbox_id; BoxEvent.kind := kind;
    BoxEvent.actor_kind := actor_kind; BoxEvent.actor_id := actor_id;
    BoxEvent.payload_json := payload; BoxEvent.created_at := now |}] |>).

(** [ORDER BY created_at ASC, id ASC]. *)
Definition box_leb (a b : AgentSandbox) : bool :=
  if bool_decide (Box.created_at a = Box.created_at b) then str_leb (Box.id a) (Box.id b)
  else ts_leb (Box.created_at a) (Box.created_at b).

Definition list_all : M (SandboxStore P) (list AgentSandbox) :=
  gets (λ s, sort_by box_leb (rows (SB.boxes s))).

(** [add], with the unique constraints of the table. *)
Definition add_box (fresh_id uid agent_slug project_id scope_key sandbox_id : string)
    (lifecycle : SandboxLifecycle) (resume_policy : ResumePolicy)
    (idle_timeout_seconds : option Z) (now : datetime) : M (SandboxStore P) AgentSandbox :=
  let row := {|
    Box.id := fresh_id; Box.uid := uid; Box.agent_slug := agent_slug;
    Box.project_id := project_id; Box.scope_key := scope_key; Box.sandbox_id := sandbox_id;
    Box.generation := None; Box.lifecycle := lifecycle; Box.resume_policy := resume_policy;
    Box.status := SActive; Box.idle_timeout_seconds := idle_timeout_seconds;
    Box.credential_fingerprint := None; Box.lease_owner_kind := None;
    Box.lease_owner_id := None; Box.lease_expires_at := None; Box.lease_heartbeat_at := None;
    Box.last_activity_at := Some now; Box.last_keepalive_at := Some now;
    Box.suspended_at := None; Box.error_code := None; Box.error_message := None;
    Box.created_at := Some now; Box.updated_at := Some now |} in
  existing ← gets SB.boxes;
  if bool_decide (is_Some (existing !! fresh_id)) then raise (IntegrityError "agent_sandboxes_pkey")
  else if any (owned_by uid agent_slug project_id) existing
  then raise (IntegrityError "uq_agent_sandboxes_owner")
  else if any (λ b, bool_decide (Box.scope_key b = scope_key)) existing
  then raise (IntegrityError "uq_agent_sandboxes_scope_key")
  else if any (λ b, bool_decide (Box.sandbox_id b = sandbox_id)) existing
  then raise (IntegrityError "uq_agent_sandboxes_sandbox_id")
  else _ ← put_box row; mret row.

(** * The execution lease *)

Definition box_lease_live (b : AgentSandbox) (now : datetime) : bool :=
  match Box.lease_expires_at b with
  | None => false
  | Some e => now <? e
  end.

Definition take_lease (owner_kind owner_id : string) (ttl : Z) (now : datetime)
    (b : AgentSandbox) : AgentSandbox :=
  b <| Box.lease_owner_kind := Some owner_kind |> <| Box.lease_owner_id := Some owner_id |>
    <| Box.lease_expires_at := Some (now + seconds ttl) |>
    <| Box.lease_heartbeat_at := Some now |> <| Box.updated_at := Some now |>.

Definition drop_lease (now : datetime) (b : AgentSandbox) : AgentSandbox :=
  b <| Box.lease_owner_kind := None |> <| Box.lease_owner_id := None |>
    <| Box.lease_expires_at := None |> <| Box.lease_heartbeat_at := None |>
    <| Box.updated_at := Some now |>.

Definition held_by_other (b : AgentSandbox) (owner_id : string) (now : datetime) : bool :=
  negb (bool_decide (Box.lease_owner_id b = None))
  && negb (bool_decide (Box.lease_owner_id b = Some owner_id)) && box_lease_live b now.

Definition try_acquire (uid agent_slug project_id owner_kind owner_id : string)
    (ttl_seconds : Z) (now : datetime) : M (SandboxStore P) (bool * AgentSandbox) :=
  row ← get_for_update uid agent_slug project_id;
  match row with
  | None => raise (ValueError "sandbox binding not found")
  | Some row =>
      if held_by_other row owner_id now then mret (false, row)
      else
        let newly_acquired := negb (bool_decide (Box.lease_owner_id row = Some owner_id)) in
        let row := take_lease owner_kind owner_id ttl_seconds now row in
        _ ← put_box row;
        _ ← (if newly_acquired
             then append_event (Box.sandbox_id row) LeaseAcquired (Some owner_kind)
                    (Some owner_id) (JObj []) now
             else mret tt);
        mret (true, row)
  end.

(** One turn of the waiting loop: what other transactions did before it, its clock
    reading, and the time left until the deadline after its attempt. *)
Record Poll := {
  meanwhile : SandboxStore P → SandboxStore P;
  poll_now : datetime;
  remaining : Z
}.

Inductive AcquireOutcome :=
  | Acquired (row : AgentSandbox)
  | SandboxBusy (owner_kind owner_id : option string) (expires_at : option datetime).

(** [WAIT_POLL_SECONDS], in microseconds. *)
Definition WAIT_POLL : Z := seconds 2.

Definition json_opt (o : option string) : json :=
  match o with None => JNull | Some v => JStr v end.

Definition waiting_payload (isoformat : datetime → string) (holder : AgentSandbox) : json :=
  JObj [("holder_kind", json_opt (Box.lease_owner_kind holder));
        ("holder_id", json_opt (Box.lease_owner_id holder));
        ("expires_at", json_opt (isoformat <$> Box.lease_expires_at holder))].

(** [acquire]; [None] is a caller that still waits after the given turns. *)
Fixpoint acquire_loop (isoformat : datetime → string)
    (uid agent_slug project_id owner_kind owner_id : string) (ttl : Z)
    (waiting_recorded : bool) (polls : list Poll) : M (SandboxStore P) (option AcquireOutcome) :=
  match polls with
  | [] => mret None
  | p :: polls =>
      _ ← modify (meanwhile p);
      answer ← try_acquire uid agent_slug project_id owner_kind owner_id ttl (poll_now p);
      let '(acquired, holder) := answer in
      if (acquired : bool) then mret (Some (Acquired holder))
      else
        _ ← (if waiting_recorded then mret tt
             else append_event (Box.sandbox_id holder) LeaseWaiting (Some owner_kind)
                    (Some owner_id) (waiting_payload isoformat holder) (poll_now p));
        if remaining p <=? 0
        then mret (Some (SandboxBusy (Box.lease_owner_kind holder) (Box.lease_owner_id holder)
                           (Box.lease_expires_at holder)))
        else acquire_loop isoformat uid agent_slug project_id owner_kind owner_id ttl true polls
  end.

(** [ttl_seconds or sandbox_lease_seconds()]: [configured] is the environment's value. *)
Definition sandbox_lease_seconds (configured : Z) : Z := Z.max 5 configured.
Definition lease_ttl (ttl_seconds : option Z) (configured : Z) : Z :=
  match ttl_seconds with
  | Some t => if t =? 0 then sandbox_lease_seconds configured else t
  | None => sandbox_lease_seconds configured
  end.

Definition acquire isoformat uid agent_slug project_id owner_kind owner_id
    (ttl_seconds : option Z) (configured : Z) (polls : list Poll) :=
  acquire_loop isoformat uid agent_slug project_id owner_kind owner_id
    (lease_ttl ttl_seconds configured) false polls.

Definition owns_live_lease (owner_id : string) (now : datetime) (b : AgentSandbox) : bool :=
  bool_decide (Box.lease_owner_id b = Some owner_id) && box_lease_live b now.

Definition heartbeat (uid agent_slug project_id owner_id : string) (ttl : Z) (now : datetime)
    : M (SandboxStore P) bool :=
  row ← get_for_update uid agent_slug project_id;
  match row with
  | None => mret false
  | Some row =>
      if negb (owns_live_lease owner_id now row) then mret false
      else
        _ ← put_box (row <| Box.lease_expires_at := Some (now + seconds ttl) |>
                         <| Box.lease_heartbeat_at := Some now |>
                         <| Box.updated_at := Some now |>);
        mret true
  end.

Definition owns_active (uid agent_slug project_id owner_id : string) (now : datetime)
    : M (SandboxStore P) bool :=
  row ← get_for_update uid agent_slug project_id;
  mret (match row with None => false | Some row => owns_live_lease owner_id now row end).

Definition owns_active_prefix (uid agent_slug project_id owner_kind owner_id_prefix : string)
    (now : datetime) : M (SandboxStore P) bool :=
  row ← get_for_update uid agent_slug project_id;
  mret (match row with
        | None => false
        | Some row =>
            bool_decide (Box.lease_owner_kind row = Some owner_kind)
            && String.prefix owner_id_prefix (default "" (Box.lease_owner_id row))
            && box_lease_live row now
        end).

Definition release (uid agent_slug project_id owner_id : string) (now : datetime)
    : M (SandboxStore P) bool :=
  row ← get_for_update uid agent_slug project_id;
  match row with
  | None => mret false
  | Some row =>
      if negb (bool_decide (Box.lease_owner_id row = Some owner_id)) then mret false
      else
        _ ← put_box (drop_lease now row);
        _ ← append_event (Box.sandbox_id row) LeaseReleased (Some "system") (Some owner_id)
              (JObj []) now;
        mret true
  end.

Definition lease_expired (now : datetime) (b : AgentSandbox) : bool :=
  negb (bool_decide (Box.lease_owner_id b = None))
  && match Box.lease_expires_at b with
     | None => false
     | Some e => e <? now
     end.

Definition reconcile_box (now : datetime) (box_id : string) : M (SandboxStore P) (list unit) :=
  row ← gets (λ s, SB.boxes s !! box_id);
  match row with
  | None => mret []
  | Some row =>
      if negb (lease_expired now row) then mret []
      else
        _ ← put_box (drop_lease now row);
        _ ← append_event (Box.sandbox_id row) LeaseExpiredEvent (Some "system") None
              (JObj [("owner_kind", json_opt (Box.lease_owner_kind row));
                     ("owner_id", json_opt (Box.lease_owner_id row))]) now;
        mret [tt]
  end.

Definition reconcile_expired (now : datetime) : M (SandboxStore P) nat :=
  candidate_ids ← gets (λ s, map Box.id (select (lease_expired now) (SB.boxes s)));
  reconciled ← for_each (reconcile_box now) candidate_ids;
  mret (length reconciled).

(** * The life cycle *)

(** [limits] is the administrator's option: the dedicated and the resident maximum. *)
Definition enforce_sandbox_quota (limits : Z * Z) (uid : string) (policy : SandboxPolicy)
    : M (SandboxStore P) unit :=
  if negb (is_dedicated policy) then mret tt
  else
    rows ← gets (λ s, select (λ b, bool_decide (Box.uid b = uid)) (SB.boxes s));
    let current := Z.of_nat (length rows) in
    if limits.1 <=? current
    then raise (RuntimeError ("sandbox_quota_exceeded: sandbox_dedicated_max_per_user limit="
           +:+ pretty limits.1 +:+ " current=" +:+ pretty current))
    else if bool_decide (lifecycle policy = Resident) then
      let resident := Z.of_nat (length (List.filter
                        (λ b, bool_decide (Box.lifecycle b = Resident)) rows)) in
      if limits.2 <=? resident
      then raise (RuntimeError ("sandbox_quota_exceeded: sandbox_resident_max_per_user limit="
             +:+ pretty limits.2 +:+ " current=" +:+ pretty resident))
      else mret tt
    else mret tt.

Definition apply_policy (policy : SandboxPolicy) (now : datetime) (row : AgentSandbox)
    : AgentSandbox :=
  row <| Box.lifecycle := lifecycle policy |> <| Box.resume_policy := resume_policy policy |>
      <| Box.idle_timeout_seconds := provisioner_idle_timeout policy |>
      <| Box.updated_at := Some now |>.

Definition touch_row (connection : SandboxConnection) (now : datetime) (row : AgentSandbox)
    : AgentSandbox :=
  row <| Box.generation := (if falsy_str (conn_generation connection) then Box.generation row
                            else conn_generation connection) |>
      <| Box.last_activity_at := Some now |> <| Box.updated_at := Some now |>.

Definition suspended_row (now : datetime) (row : AgentSandbox) : AgentSandbox :=
  row <| Box.status := SSuspended |> <| Box.generation := None |>
      <| Box.suspended_at := Some now |> <| Box.updated_at := Some now |>.

Definition mark_suspended (row : AgentSandbox) (reason : string)
    (actor_kind actor_id : option string) (now : datetime) : M (SandboxStore P) AgentSandbox :=
  _ ← put_box (suspended_row now row);
  _ ← append_event (Box.sandbox_id row) SandboxSuspended actor_kind actor_id
        (JObj [("reason", JStr reason)]) now;
  mret (suspended_row now row).

Definition rebuilt_row (connection : SandboxConnection) (credential_fingerprint : option string)
    (now : datetime) (row : AgentSandbox) : AgentSandbox :=
  row <| Box.status := SActive |> <| Box.generation := conn_generation connection |>
      <| Box.suspended_at := None |> <| Box.error_code := None |> <| Box.error_message := None |>
      <| Box.last_activity_at := Some now |> <| Box.last_keepalive_at := Some now |>
      <| Box.updated_at := Some now |>
      <| Box.credential_fingerprint := match credential_fingerprint with
                                       | Some f => Some f
                                       | None => Box.credential_fingerprint row
                                       end |>.

Definition lift_result {A} (r : outcome A) : M (SandboxStore P) A := λ s,
  match r with Ret a => (Ret a, s) | Raise e => (Raise e, s) end.

(** A call on the provider: its effects stay, whatever the transaction does. *)
Definition call {A} (f : P → outcome A * P) : M (SandboxStore P) A := λ s,
  let (r, p) := f (SB.runtimes s) in (r, s <| SB.runtimes := p |>).

Section lifecycle.
Context `{SandboxProvider P} (sandbox_hash : string → string) (limits : Z * Z).

(** [_ensure_binding]: [sandbox_hash] is the truncated SHA-256 of [scope.sandbox_id]. *)
Definition ensure_binding (fresh_id uid agent_slug project_id : string) (policy : SandboxPolicy)
    (now : datetime) : M (SandboxStore P) (AgentSandbox * bool) :=
  if negb (is_dedicated policy)
  then raise (ValueError "ensure_binding requires a dedicated sandbox policy")
  else
    scope ← lift_result (agent_project uid agent_slug project_id);
    row ← get_for_update uid agent_slug project_id;
    match row with
    | None =>
        _ ← enforce_sandbox_quota limits uid policy;
        row ← add_box fresh_id uid agent_slug project_id (cache_key scope)
                (sandbox_hash (cache_key scope)) (lifecycle policy) (resume_policy policy)
                (provisioner_idle_timeout policy) now;
        mret (row, true)
    | Some row =>
        _ ← put_box (apply_policy policy now row);
        mret (apply_policy policy now row, false)
    end.

Definition rebuild (row : AgentSandbox) (scope : SandboxScope) (policy : SandboxPolicy)
    (workdir_path credential_fingerprint : option string) (event_kind : EventKind)
    (now : datetime) : M (SandboxStore P) SandboxConnection :=
  connection ← call (get_scope scope true workdir_path (Some (lifecycle policy))
                       (provisioner_idle_timeout policy));
  match connection with
  | None => raise (RuntimeError "sandbox provider failed to create a dedicated sandbox")
  | Some connection =>
      _ ← put_box (rebuilt_row connection credential_fingerprint now row);
      _ ← append_event (Box.sandbox_id row) event_kind (Some "system") None
            (JObj [("generation", json_opt (conn_generation connection))]) now;
      mret connection
  end.

Definition resume_or_raise (row : AgentSandbox) (scope : SandboxScope) (policy : SandboxPolicy)
    (workdir_path credential_fingerprint : option string) (now : datetime)
    : M (SandboxStore P) SandboxConnection :=
  match resume_policy policy with
  | Confirm => raise (RuntimeError ("sandbox rebuild requires confirmation for scope "
                        +:+ Box.scope_key row))
  | Auto => rebuild row scope policy workdir_path credential_fingerprint SandboxRebuilt now
  end.

Definition suspend (uid agent_slug project_id : string) (workdir_path : option string)
    (reason : string) (actor_kind actor_id : option string) (now : datetime)
    : M (SandboxStore P) unit :=
  scope ← lift_result (agent_project uid agent_slug project_id);
  row ← get_for_update uid agent_slug project_id;
  match row with
  | None => raise (ValueError "sandbox binding not found")
  | Some row =>
      if bool_decide (Box.status row = SSuspended) then mret tt
      else
        _ ← call (release_scope scope workdir_path);
        _ ← mark_suspended row reason actor_kind actor_id now;
        mret tt
  end.

(** Rows are shared objects: after [suspend] the caller's row is the suspended one. *)
Definition ensure_ready (fresh_id uid agent_slug project_id : string) (policy : SandboxPolicy)
    (workdir_path credential_fingerprint : option string) (now : datetime)
    : M (SandboxStore P) SandboxConnection :=
  if negb (is_dedicated policy)
  then raise (ValueError "ensure_ready requires a dedicated sandbox policy")
  else
    scope ← lift_result (agent_project uid agent_slug project_id);
    bound ← ensure_binding fresh_id uid agent_slug project_id policy now;
    let '(row, created) := bound in
    if (created : bool)
    then rebuild row scope policy workdir_path credential_fingerprint SandboxCreated now
    else if bool_decide (Box.status row = SSuspended)
    then resume_or_raise row scope policy workdir_path credential_fingerprint now
    else
      connection ← call (get_scope scope false workdir_path None None);
      match connection with
      | None =>
          row ← mark_suspended row "container_missing" None None now;
          resume_or_raise row scope policy workdir_path credential_fingerprint now
      | Some connection =>
          if match credential_fingerprint with
             | None => false
             | Some _ => negb (bool_decide (Box.credential_fingerprint row
                                            = credential_fingerprint))
             end
          then
            _ ← suspend uid agent_slug project_id workdir_path "credential_changed"
                  (Some "system") None now;
            resume_or_raise (suspended_row now row) scope policy workdir_path
              credential_fingerprint now
          else
            _ ← put_box (touch_row connection now row);
            mret connection
      end.

(** * The supervisor *)

Record TickCounts := {
  checked : nat;
  keepalive : nat;
  suspended : nat;
  generation_changed : nat;
  leases_expired : nat
}.

Definition elapsed (now : datetime) (since : datetime) : Z := now - since.

Definition keepalive_due (row : AgentSandbox) (now : datetime) (interval : Z) : bool :=
  match Box.last_keepalive_at row with
  | None => true
  | Some t => seconds interval <=? elapsed now t
  end.

Definition idle_exceeded (row : AgentSandbox) (now : datetime) (default_idle : Z) : bool :=
  let idle := match Box.idle_timeout_seconds row with Some n => n | None => default_idle end in
  if idle <=? 0 then false
  else match Box.last_activity_at row with
       | None => false
       | Some t => seconds idle <=? elapsed now t
       end.

(** [SELECT projects.workdir_path]. *)
Context (project_workdir : string → option string).

Definition supervisor_suspend (row : AgentSandbox) (reason : string) (now : datetime)
    : M (SandboxStore P) unit :=
  match project_workdir (Box.project_id row) with
  | None => raise (RuntimeError "workdir is missing for sandbox")
  | Some w =>
      if bool_decide (w = "") then raise (RuntimeError "workdir is missing for sandbox")
      else suspend (Box.uid row) (Box.agent_slug row) (Box.project_id row) (Some w) reason
             (Some "supervisor") None now
  end.

(** What the tick did for one row: what it adds to the counts. *)
Record RowTick := { t_keepalive : nat; t_suspended : nat; t_generation : nat }.

Definition no_tick : RowTick := {| t_keepalive := 0; t_suspended := 0; t_generation := 0 |}.

(** [except Exception: logger.error(..)] ends the body of the loop: what was written
      and counted before stays. *)
Definition attempt {A} (m : M (SandboxStore P) A) : M (SandboxStore P) (option A) := λ s,
    match m s with
    | (Raise _, s') => (Ret None, s')
    | (Ret a, s') => (Ret (Some a), s')
    end.

Definition tick_suspend (row : AgentSandbox) (reason : string) (now : datetime)
      (kept generation : nat) : M (SandboxStore P) RowTick :=
    done ← attempt (supervisor_suspend row reason now);
    mret {| t_keepalive := kept;
            t_suspended := match done with Some _ => 1 | None => 0 end;
            t_generation := generation |}.

Definition tick_idle (row : AgentSandbox) (kept generation : nat) (default_idle : Z)
      (now : datetime) : M (SandboxStore P) RowTick :=
    if negb (bool_decide (Box.lifecycle row = Resident)) && idle_exceeded row now default_idle
    then tick_suspend row "idle_suspend" now kept generation
    else
      _ ← put_box (row <| Box.updated_at := Some now |>);
      mret {| t_keepalive := kept; t_suspended := 0; t_generation := generation |}.

(** The part of the loop body after the generation check. *)
Definition tick_upkeep (row : AgentSandbox) (generation : nat) (interval default_idle : Z)
      (now : datetime) : M (SandboxStore P) RowTick :=
    if negb (bool_decide (Box.lifecycle row = Resident)) && keepalive_due row now interval then
      alive ← attempt (call (touch (Box.sandbox_id row)));
      match alive with
      | None => mret {| t_keepalive := 0; t_suspended := 0; t_generation := generation |}
      | Some false => tick_suspend row "container_missing" now 0 generation
      | Some true =>
          let row := row <| Box.last_keepalive_at := Some now |> in
          _ ← put_box row;
          tick_idle row 1 generation default_idle now
      end
    else tick_idle row 0 generation default_idle now.

(** One iteration of [_run_tick]; [row] is read again, as a shared object would be. *)
Definition tick_row (inventory : list SandboxRecord) (interval default_idle : Z)
      (now : datetime) (box_id : string) : M (SandboxStore P) RowTick :=
    row ← gets (λ s, SB.boxes s !! box_id);
    match row with
    | None => mret no_tick
    | Some row =>
        if negb (bool_decide (Box.status row = SActive)) then mret no_tick
        else if negb (bool_decide (Box.lease_owner_id row = None)) && box_lease_live row now
        then mret no_tick
        else
          match List.find (λ r, bool_decide (rec_sandbox_id r = Box.sandbox_id row))
                  (rev inventory) with
          | None => tick_suspend row "container_missing" now 0 0
          | Some record =>
              if negb (falsy_str (rec_generation record))
                 && negb (bool_decide (rec_generation record = Box.generation row))
              then
                let row := row <| Box.generation := rec_generation record |>
                               <| Box.updated_at := Some now |> in
                _ ← put_box row;
                _ ← append_event (Box.sandbox_id row) SandboxRebuilt (Some "supervisor") None
                      (JObj [("reason", JStr "generation_changed");
                             ("generation", json_opt (rec_generation record))]) now;
                tick_upkeep row 1 interval default_idle now
              else tick_upkeep row 0 interval default_idle now
          end
    end.

Definition run_tick (interval default_idle : Z) (now : datetime)
    : M (SandboxStore P) TickCounts :=
  inventory ← call list_sandboxes;
  expired ← reconcile_expired now;
  rows ← list_all;
  ticks ← for_each (λ id, t ← tick_row inventory interval default_idle now id; mret [t])
            (map Box.id rows);
  mret {| checked := length rows;
          keepalive := list_sum (map t_keepalive ticks);
          suspended := list_sum (map t_suspended ticks);
          generation_changed := list_sum (map t_generation ticks);
          leases_expired := expired |}.
End lifecycle.
End sandboxes.
