(* ===== verification/SandboxSpec.v ===== *)
(** The dedicated-sandbox properties: the invariant of the sandbox table and its event
    log, the exclusivity of the lease, the waiting loop, the supervisor and
    [ensure_ready]. *)

From stdpp Require Import prelude gmap strings list fin_maps.
From Stdlib Require Import ZArith Lia.
From S2P Require Import Prelude Schema Queue SandboxScope Sandboxes.
Local Open Scope Z_scope.

(** * The invariant *)

(** The owner after an event of the sandbox [sid]. *)
Definition owner_after (sid : string) (owner : option string) (e : AgentSandboxEvent)
    : option string :=
  if bool_decide (BoxEvent.sandbox_id e = sid) then
    match BoxEvent.kind e with
    | LeaseAcquired => BoxEvent.actor_id e
    | LeaseReleased | LeaseExpiredEvent => None
    | _ => owner
    end
  else owner.

(** The owner the event log tells. *)
Definition logged_owner (sid : string) (log : list AgentSandboxEvent) : option string :=
  fold_left (owner_after sid) log None.

(** The lease columns are set together. *)
Definition lease_columns (b : AgentSandbox) : Prop :=
  (Box.lease_owner_id b = None ∧ Box.lease_owner_kind b = None
   ∧ Box.lease_expires_at b = None ∧ Box.lease_heartbeat_at b = None)
  ∨ (is_Some (Box.lease_owner_id b) ∧ is_Some (Box.lease_owner_kind b)
     ∧ is_Some (Box.lease_expires_at b) ∧ is_Some (Box.lease_heartbeat_at b)).

Definition owner_key (b : AgentSandbox) : string * string * string :=
  (Box.uid b, Box.agent_slug b, Box.project_id b).

Section spec.
Context {P : Type}.
Implicit Types s : SandboxStore P.

Record sandboxes_ok s : Prop := {
  so_key : ∀ k b, SB.boxes s !! k = Some b → Box.id b = k;
  so_owner : ∀ k1 k2 b1 b2, SB.boxes s !! k1 = Some b1 → SB.boxes s !! k2 = Some b2 →
    owner_key b1 = owner_key b2 → k1 = k2;
  so_sandbox : ∀ k1 k2 b1 b2, SB.boxes s !! k1 = Some b1 → SB.boxes s !! k2 = Some b2 →
    Box.sandbox_id b1 = Box.sandbox_id b2 → k1 = k2;
  so_lease : ∀ k b, SB.boxes s !! k = Some b → lease_columns b;
  so_known : ∀ e, e ∈ SB.events s → ∃ k b, SB.boxes s !! k = Some b
    ∧ Box.sandbox_id b = BoxEvent.sandbox_id e;
  so_audit : ∀ k b, SB.boxes s !! k = Some b →
    logged_owner (Box.sandbox_id b) (SB.events s) = Box.lease_owner_id b
}.

Definition current s (b : AgentSandbox) : Prop := SB.boxes s !! Box.id b = Some b.

Definition same_sandbox (b b' : AgentSandbox) : Prop :=
  Box.id b' = Box.id b ∧ owner_key b' = owner_key b ∧ Box.sandbox_id b' = Box.sandbox_id b.

Lemma fold_owner_other sid log o :
  Forall (λ e, BoxEvent.sandbox_id e ≠ sid) log → fold_left (owner_after sid) log o = o.
Proof.
  revert o. induction log as [|e log IH]; intros o; [done|]. intros [He Hl]%Forall_cons.
  simpl. unfold owner_after at 2. rewrite bool_decide_eq_false_2 by done. by apply IH.
Qed.

(** Rewriting one row, with the events of its sandbox that go with it. *)
Lemma write_box s s1 b b' log : sandboxes_ok s →
  SB.boxes s1 = SB.boxes s → SB.events s1 = SB.events s →
  current s b → same_sandbox b b' → lease_columns b' →
  Forall (λ e, BoxEvent.sandbox_id e = Box.sandbox_id b) log →
  fold_left (owner_after (Box.sandbox_id b)) log (Box.lease_owner_id b) = Box.lease_owner_id b' →
  let s' := s1 <| SB.boxes ::= <[Box.id b' := b']> |> <| SB.events := SB.events s ++ log |> in
  sandboxes_ok s' ∧ current s' b'.
Proof.
  intros Ok Eb Ee Hb (Eid & Eo & Es) Lc Hlog Hfold s'.
  assert (L : ∀ k x, SB.boxes s' !! k = Some x →
    ∃ y, SB.boxes s !! k = Some y ∧ owner_key x = owner_key y
      ∧ Box.sandbox_id x = Box.sandbox_id y ∧ Box.id x = Box.id y ∧ lease_columns x
      ∧ logged_owner (Box.sandbox_id x) (SB.events s ++ log) = Box.lease_owner_id x).
  { intros k x. unfold s'. simpl. rewrite Eb, Eid. intros Hx.
    apply lookup_insert_Some in Hx as [[<- <-]|[N Hx]].
    - exists b. rewrite Es. repeat split; try done.
      unfold logged_owner. rewrite fold_left_app.
      change (fold_left (owner_after (Box.sandbox_id b)) (SB.events s) None)
        with (logged_owner (Box.sandbox_id b) (SB.events s)).
      by rewrite (so_audit _ Ok _ _ Hb).
    - exists x. repeat split; try done; [by eapply (so_lease _ Ok)|].
      unfold logged_owner. rewrite fold_left_app.
      change (fold_left (owner_after (Box.sandbox_id x)) (SB.events s) None)
        with (logged_owner (Box.sandbox_id x) (SB.events s)).
      rewrite (so_audit _ Ok _ _ Hx). apply fold_owner_other.
      eapply Forall_impl; [exact Hlog|]. intros e -> E.
      by apply N, (so_sandbox _ Ok _ _ _ _ Hb Hx). }
  split; [split|].
  - intros k x Hx. destruct (L k x Hx) as (y & Hy & _ & _ & -> & _). by eapply (so_key _ Ok).
  - intros k1 k2 x1 x2 H1 H2 E. destruct (L _ _ H1) as (y1 & ? & E1 & _).
    destruct (L _ _ H2) as (y2 & ? & E2 & _). eapply (so_owner _ Ok); eauto. congruence.
  - intros k1 k2 x1 x2 H1 H2 E. destruct (L _ _ H1) as (y1 & ? & _ & E1 & _).
    destruct (L _ _ H2) as (y2 & ? & _ & E2 & _). eapply (so_sandbox _ Ok); eauto. congruence.
  - intros k x Hx. by destruct (L k x Hx) as (y & _ & _ & _ & _ & ? & _).
  - intros e He. simpl in He. apply elem_of_app in He as [He|He].
    + destruct (so_known _ Ok e He) as (k & x & Hx & <-). simpl. rewrite Eb, Eid.
      destruct (decide (k = Box.id b)) as [->|N].
      * exists (Box.id b), b'. rewrite lookup_insert_eq. split; [done|]. rewrite Es.
        unfold current in Hb. congruence.
      * exists k, x. by rewrite lookup_insert_ne.
    + exists (Box.id b), b'. simpl. rewrite Eb, Eid, lookup_insert_eq. split; [done|].
      rewrite Es. by eapply Forall_forall in Hlog; [|exact He].
  - intros k x Hx. by destruct (L k x Hx) as (y & _ & _ & _ & _ & _ & ?).
  - unfold current, s'. simpl. rewrite Eid. apply lookup_insert_eq.
Qed.

Lemma get_current s uid slug project b : sandboxes_ok s →
  head (select (owned_by uid slug project) (SB.boxes s)) = Some b →
  current s b ∧ owner_key b = (uid, slug, project).
Proof.
  intros Ok H. destruct (select _ _) as [|x l] eqn:E; [done|]. injection H as ->.
  assert (Hb : b ∈ select (owned_by uid slug project) (SB.boxes s)) by (rewrite E; by left).
  apply elem_of_select in Hb as [O [k Hk]]. split.
  - unfold current. by rewrite (so_key _ Ok _ _ Hk).
  - unfold owned_by in O. bool_hyps. unfold owner_key. naive_solver.
Qed.

Lemma get_none s uid slug project k b :
  head (select (owned_by uid slug project) (SB.boxes s)) = None →
  SB.boxes s !! k = Some b → owner_key b ≠ (uid, slug, project).
Proof.
  intros H Hk [= E1 E2 E3].
  destruct (select _ _) as [|x l] eqn:E; [|done].
  assert (Hb : b ∈ ([] : list AgentSandbox)); [|by apply elem_of_nil in Hb].
  rewrite <- E. apply elem_of_select. split; [|by exists k].
  unfold owned_by. by rewrite !bool_decide_eq_true_2.
Qed.

Lemma write_box_only s s1 b b' : sandboxes_ok s →
  SB.boxes s1 = SB.boxes s → SB.events s1 = SB.events s →
  current s b → same_sandbox b b' → lease_columns b' →
  Box.lease_owner_id b' = Box.lease_owner_id b →
  let s' := s1 <| SB.boxes ::= <[Box.id b' := b']> |> in sandboxes_ok s' ∧ current s' b'.
Proof.
  intros Ok Eb Ee Hb Sm Lc Eo.
  pose proof (write_box s s1 b b' [] Ok Eb Ee Hb Sm Lc ltac:(constructor) ltac:(done)) as H.
  rewrite app_nil_r, <- Ee in H. by destruct s1.
Qed.

(** Columns other than the identity and the lease. *)
Definition neutral (b b' : AgentSandbox) : Prop :=
  same_sandbox b b' ∧ Box.lease_owner_id b' = Box.lease_owner_id b
  ∧ Box.lease_owner_kind b' = Box.lease_owner_kind b
  ∧ Box.lease_expires_at b' = Box.lease_expires_at b
  ∧ Box.lease_heartbeat_at b' = Box.lease_heartbeat_at b.

Definition lease_event (k : EventKind) : bool :=
  match k with LeaseAcquired | LeaseReleased | LeaseExpiredEvent => true | _ => false end.

Lemma neutral_lease b b' : neutral b b' → lease_columns b → lease_columns b'.
Proof. intros (_ & E1 & E2 & E3 & E4). unfold lease_columns. by rewrite E1, E2, E3, E4. Qed.

Lemma neutral_write s s1 b b' : sandboxes_ok s →
  SB.boxes s1 = SB.boxes s → SB.events s1 = SB.events s → current s b → neutral b b' →
  let s' := s1 <| SB.boxes ::= <[Box.id b' := b']> |> in sandboxes_ok s' ∧ current s' b'.
Proof.
  intros Ok Eb Ee Hb N. apply (write_box_only s s1 b b'); try done; [apply N| |apply N].
  eapply neutral_lease; [done|]. by eapply (so_lease _ Ok).
Qed.

Lemma neutral_write_event s s1 b b' e : sandboxes_ok s →
  SB.boxes s1 = SB.boxes s → SB.events s1 = SB.events s → current s b → neutral b b' →
  BoxEvent.sandbox_id e = Box.sandbox_id b → lease_event (BoxEvent.kind e) = false →
  let s' := s1 <| SB.boxes ::= <[Box.id b' := b']> |> <| SB.events := SB.events s ++ [e] |> in
  sandboxes_ok s' ∧ current s' b'.
Proof.
  intros Ok Eb Ee Hb N Es Ek. apply (write_box s s1 b b'); try done; [apply N| | |].
  - eapply neutral_lease; [done|]. by eapply (so_lease _ Ok).
  - by constructor.
  - simpl. unfold owner_after. rewrite Es, bool_decide_eq_true_2 by done.
    destruct N as (_ & -> & _). by destruct (BoxEvent.kind e).
Qed.

(** An event without a row. *)
Lemma log_event_ok s b e : sandboxes_ok s → current s b →
  BoxEvent.sandbox_id e = Box.sandbox_id b → lease_event (BoxEvent.kind e) = false →
  sandboxes_ok (s <| SB.events := SB.events s ++ [e] |>).
Proof.
  intros Ok Hb Es Ek. split; simpl; try apply Ok.
  - intros x [Hx| ->%list_elem_of_singleton]%elem_of_app; [by apply (so_known _ Ok)|].
    exists (Box.id b), b. by rewrite Es.
  - intros k x Hx. unfold logged_owner. rewrite fold_left_app. simpl.
    change (fold_left (owner_after (Box.sandbox_id x)) (SB.events s) None)
      with (logged_owner (Box.sandbox_id x) (SB.events s)).
    rewrite (so_audit _ Ok _ _ Hx). unfold owner_after.
    case_bool_decide; [|done]. by destruct (BoxEvent.kind e).
Qed.

(** * The lease operations *)

Lemma try_acquire_ok uid slug project kind owner ttl now s : sandboxes_ok s →
  sandboxes_ok (try_acquire uid slug project kind owner ttl now s).2
  ∧ match (try_acquire uid slug project kind owner ttl now s).1 with
    | Ret (_, row) => current (try_acquire uid slug project kind owner ttl now s).2 row
    | Raise _ => True
    end.
Proof.
  intros Ok. unfold try_acquire, get_for_update, put_box, append_event.
  unfold mbind, M_bind, gets, mret, M_ret, modify, raise.
  destruct (head _) as [b|] eqn:Hd; [|done].
  destruct (get_current _ _ _ _ _ Ok Hd) as [Hb _].
  destruct (held_by_other b owner now); [done|].
  destruct (bool_decide_reflect (Box.lease_owner_id b = Some owner)) as [E|N]; cbn [negb fst snd].
  - apply (write_box_only s s b); try done; by right.
  - apply (write_box s s b); try done; [by right|by constructor|].
    simpl. unfold owner_after. by rewrite bool_decide_eq_true_2.
Qed.

Lemma heartbeat_ok uid slug project owner ttl now s : sandboxes_ok s →
  sandboxes_ok (heartbeat uid slug project owner ttl now s).2.
Proof.
  intros Ok. unfold heartbeat, get_for_update, put_box.
  unfold mbind, M_bind, gets, mret, M_ret, modify.
  destruct (head _) as [b|] eqn:Hd; [|done].
  destruct (get_current _ _ _ _ _ Ok Hd) as [Hb _].
  destruct (owns_live_lease owner now b) eqn:L; [|done]. cbn [negb snd].
  apply (write_box_only s s b); try done.
  destruct (so_lease _ Ok _ _ Hb) as [(E & _)|(O & K & _)]; [|by right].
  unfold owns_live_lease in L. rewrite E in L. by rewrite bool_decide_eq_false_2 in L.
Qed.

Lemma drop_lease_ok b now kind actor_kind actor payload s : sandboxes_ok s → current s b →
  (kind = LeaseReleased ∨ kind = LeaseExpiredEvent) →
  sandboxes_ok (s <| SB.boxes ::= <[Box.id (drop_lease now b) := drop_lease now b]> |>
    <| SB.events := SB.events s ++ [{|
         BoxEvent.sandbox_id := Box.sandbox_id b; BoxEvent.kind := kind;
         BoxEvent.actor_kind := actor_kind; BoxEvent.actor_id := actor;
         BoxEvent.payload_json := payload; BoxEvent.created_at := now |}] |>).
Proof.
  intros Ok Hb Hk. apply (write_box s s b (drop_lease now b)); try done; [by left|by constructor|].
  simpl. unfold owner_after. rewrite bool_decide_eq_true_2 by done. by destruct Hk as [-> | ->].
Qed.

Lemma release_ok uid slug project owner now s : sandboxes_ok s →
  sandboxes_ok (release uid slug project owner now s).2.
Proof.
  intros Ok. unfold release, get_for_update, put_box, append_event.
  unfold mbind, M_bind, gets, mret, M_ret, modify.
  destruct (head _) as [b|] eqn:Hd; [|done].
  destruct (get_current _ _ _ _ _ Ok Hd) as [Hb _].
  destruct (bool_decide (Box.lease_owner_id b = Some owner)); cbn [negb snd]; [|done].
  apply (drop_lease_ok b now LeaseReleased (Some "system") (Some owner) (JObj []) s Ok Hb).
  by left.
Qed.

Lemma reconcile_box_ok now k s : sandboxes_ok s → sandboxes_ok (reconcile_box now k s).2.
Proof.
  intros Ok. unfold reconcile_box, put_box, append_event.
  unfold mbind, M_bind, gets, mret, M_ret, modify.
  destruct (SB.boxes s !! k) as [b|] eqn:Hk; [|done].
  destruct (lease_expired now b); cbn [negb snd]; [|done].
  assert (Hb : current s b) by (unfold current; by rewrite (so_key _ Ok _ _ Hk)).
  eapply (drop_lease_ok b now LeaseExpiredEvent (Some "system") None _ s Ok Hb). by right.
Qed.

(** A property every iteration keeps is kept by the loop. *)
Lemma for_each_ok {S A B} (I : S → Prop) (body : A → M S (list B)) l :
  (∀ a x, I x → I (body a x).2) → ∀ x, I x → I (for_each body l x).2.
Proof.
  intros Hb. induction l as [|a l IH]; intros x Hx; [done|].
  cbn [for_each]. unfold mbind, M_bind. specialize (Hb a x Hx).
  destruct (body a x) as [[o|e] x1]; [|done]. specialize (IH x1 Hb).
  by destruct (for_each body l x1) as [[]].
Qed.

Lemma reconcile_expired_ok now s : sandboxes_ok s → sandboxes_ok (reconcile_expired now s).2.
Proof.
  intros Ok. unfold reconcile_expired, mbind, M_bind, gets, mret, M_ret.
  pose proof (for_each_ok sandboxes_ok (reconcile_box now)
    (map Box.id (select (lease_expired now) (SB.boxes s))) (λ k s, reconcile_box_ok now k s) s Ok).
  by destruct (for_each _ _ s) as [[]].
Qed.

(** * The life cycle *)

(** The row the code holds is the stored one after each of its writes. *)
Definition holds {A} (m : M (SandboxStore P) A) s (row : A → AgentSandbox) : Prop :=
  sandboxes_ok (m s).2 ∧ match (m s).1 with
                         | Ret a => current (m s).2 (row a)
                         | Raise _ => True
                         end.

Lemma call_same {A} (f : P → outcome A * P) s :
  SB.boxes (call f s).2 = SB.boxes s ∧ SB.events (call f s).2 = SB.events s.
Proof. unfold call. by destruct (f (SB.runtimes s)). Qed.

Lemma same_tables_ok s s1 : SB.boxes s1 = SB.boxes s → SB.events s1 = SB.events s →
  sandboxes_ok s → sandboxes_ok s1.
Proof. intros Eb Ee [K O S L N A]. split; rewrite ?Eb, ?Ee; done. Qed.

Lemma enforce_quota_same limits uid policy s : (enforce_sandbox_quota limits uid policy s).2 = s.
Proof.
  unfold enforce_sandbox_quota, mbind, M_bind, gets, mret, M_ret, raise.
  by repeat case_match.
Qed.

Lemma add_box_ok fresh uid slug project key sid lc rp idle now s : sandboxes_ok s →
  holds (add_box fresh uid slug project key sid lc rp idle now) s id.
Proof.
  intros Ok. unfold holds, add_box, put_box.
  unfold mbind, M_bind, gets, mret, M_ret, modify, raise.
  destruct (bool_decide_reflect (is_Some (SB.boxes s !! fresh))) as [|F]; [done|].
  apply eq_None_not_Some in F.
  destruct (any (owned_by uid slug project) (SB.boxes s)) eqn:Ao; [done|].
  destruct (any (λ b, bool_decide (Box.scope_key b = key)) (SB.boxes s)); [done|].
  destruct (any (λ b, bool_decide (Box.sandbox_id b = sid)) (SB.boxes s)) eqn:As; [done|].
  rewrite any_false in Ao, As. cbn [fst snd].
  split; [split|unfold current; simpl; apply lookup_insert_eq]; simpl.
  - intros k b [[<- <-]|[_ Hb]]%lookup_insert_Some; [done|by eapply (so_key _ Ok)].
  - intros k1 k2 b1 b2 [[<- <-]|[_ H1]]%lookup_insert_Some [[<- <-]|[_ H2]]%lookup_insert_Some E;
      [done| | |by eapply (so_owner _ Ok)]; exfalso;
      [specialize (Ao _ _ H2)|specialize (Ao _ _ H1)]; unfold owned_by, owner_key in *;
      simpl in E; injection E as E1 E2 E3; rewrite !bool_decide_eq_true_2 in Ao; done.
  - intros k1 k2 b1 b2 [[<- <-]|[_ H1]]%lookup_insert_Some [[<- <-]|[_ H2]]%lookup_insert_Some E;
      [done| | |by eapply (so_sandbox _ Ok)]; exfalso;
      [specialize (As _ _ H2)|specialize (As _ _ H1)]; simpl in E;
      rewrite bool_decide_eq_true_2 in As; done.
  - intros k b [[<- <-]|[_ Hb]]%lookup_insert_Some; [by left|by eapply (so_lease _ Ok)].
  - intros e He. destruct (so_known _ Ok e He) as (k & b & Hb & E). exists k, b.
    rewrite lookup_insert_ne; [done|]. intros <-. congruence.
  - intros k b [[<- <-]|[_ Hb]]%lookup_insert_Some; [|by apply (so_audit _ Ok k)]. simpl.
    apply fold_owner_other. apply Forall_forall. intros e He E.
    destruct (so_known _ Ok e He) as (k & b & Hb & E2).
    specialize (As _ _ Hb). rewrite bool_decide_eq_true_2 in As; congruence.
Qed.

Lemma mark_suspended_ok row reason ak ai now s : sandboxes_ok s → current s row →
  ∃ s', mark_suspended row reason ak ai now s = (Ret (suspended_row now row), s')
    ∧ sandboxes_ok s' ∧ current s' (suspended_row now row).
Proof.
  intros Ok Hr. eexists. split; [reflexivity|].
  by apply (neutral_write_event s s row (suspended_row now row)).
Qed.

Context `{SandboxProvider P} (sandbox_hash : string → string) (limits : Z * Z).

Lemma ensure_binding_ok fresh uid slug project policy now s : sandboxes_ok s →
  holds (ensure_binding sandbox_hash limits fresh uid slug project policy now) s fst.
Proof.
  intros Ok. unfold holds, ensure_binding, lift_result, get_for_update.
  unfold mbind, M_bind, gets, mret, M_ret, raise.
  destruct (is_dedicated policy); cbn [negb]; [|done].
  destruct (agent_project uid slug project) as [scope|]; [|done].
  destruct (head _) as [b|] eqn:Hd.
  - destruct (get_current _ _ _ _ _ Ok Hd) as [Hb _].
    by apply (neutral_write s s b (apply_policy policy now b)).
  - pose proof (enforce_quota_same limits uid policy s) as Eq.
    destruct (enforce_sandbox_quota limits uid policy s) as [[[]|e] s1]; simpl in Eq; subst s1; [|done].
    match goal with |- context [add_box ?a ?b ?c ?d ?e ?f ?g ?h ?i ?j s] =>
      pose proof (add_box_ok a b c d e f g h i j s Ok) as Ad end.
    unfold holds in Ad. by destruct (add_box _ _ _ _ _ _ _ _ _ _ s) as [[]].
Qed.

Lemma rebuild_ok row scope policy w fp k now s : sandboxes_ok s → current s row →
  lease_event k = false → sandboxes_ok (rebuild row scope policy w fp k now s).2.
Proof.
  intros Ok Hr Hk. unfold rebuild. unfold mbind at 1, M_bind at 1.
  match goal with |- context [call ?f s] =>
    destruct (call_same f s) as [Eb Ee]; destruct (call f s) as [[[c|]|e] s1] end;
    cbn [fst snd] in Eb, Ee; [| |].
  - unfold put_box, append_event, mbind, M_bind, mret, M_ret, modify. cbn [snd].
    pose proof (neutral_write_event s s1 row (rebuilt_row c fp now row)
      {| BoxEvent.sandbox_id := Box.sandbox_id row; BoxEvent.kind := k;
         BoxEvent.actor_kind := Some "system"; BoxEvent.actor_id := None;
         BoxEvent.payload_json := JObj [("generation", json_opt (conn_generation c))];
         BoxEvent.created_at := now |} Ok Eb Ee Hr) as W.
    rewrite <- Ee in W. apply W; done.
  - by eapply same_tables_ok.
  - by eapply same_tables_ok.
Qed.

Lemma resume_or_raise_ok row scope policy w fp now s : sandboxes_ok s → current s row →
  sandboxes_ok (resume_or_raise row scope policy w fp now s).2.
Proof.
  intros Ok Hr. unfold resume_or_raise, raise.
  destruct (resume_policy policy); [by apply rebuild_ok|done].
Qed.

(** [suspend] of the sandbox whose row the caller holds. *)
Lemma suspend_ok uid slug project w reason ak ai now s : sandboxes_ok s →
  sandboxes_ok (suspend uid slug project w reason ak ai now s).2
  ∧ ∀ row, current s row → owner_key row = (uid, slug, project) →
      Box.status row ≠ SSuspended →
      match (suspend uid slug project w reason ak ai now s).1 with
      | Ret _ => current (suspend uid slug project w reason ak ai now s).2 (suspended_row now row)
      | Raise _ => True
      end.
Proof.
  intros Ok. unfold suspend, lift_result, get_for_update, mbind, M_bind, gets, mret, M_ret, raise.
  destruct (agent_project uid slug project) as [scope|]; [|done].
  destruct (head _) as [b|] eqn:Hd; [|done].
  destruct (get_current _ _ _ _ _ Ok Hd) as [Hb Ho].
  assert (Same : ∀ row, current s row → owner_key row = (uid, slug, project) → row = b).
  { intros row Hr Er. assert (Box.id row = Box.id b) as E
      by (apply (so_owner _ Ok _ _ _ _ Hr Hb); congruence).
    unfold current in *. rewrite E in Hr. congruence. }
  destruct (bool_decide_reflect (Box.status b = SSuspended)) as [Sb|Sb]; cbn [fst snd].
  { split; [done|]. intros row Hr Er Ns. by rewrite (Same row Hr Er) in Ns. }
  match goal with |- context [call ?f s] =>
    destruct (call_same f s) as [Eb Ee]; destruct (call f s) as [[u|e] s1] end;
    cbn [fst snd] in Eb, Ee |- *; [|split; [by eapply same_tables_ok|done]].
  destruct (mark_suspended_ok b reason ak ai now s1) as (s2 & -> & Ok2 & C2).
  { by eapply same_tables_ok. } { unfold current. by rewrite Eb. }
  cbn [fst snd]. split; [done|]. intros row Hr Er _. by rewrite (Same row Hr Er).
Qed.

Lemma binding_key fresh uid slug project policy now s row created s1 : sandboxes_ok s →
  ensure_binding sandbox_hash limits fresh uid slug project policy now s = (Ret (row, created), s1) →
  owner_key row = (uid, slug, project).
Proof.
  intros Ok. unfold ensure_binding, lift_result, get_for_update, put_box.
  unfold mbind, M_bind, gets, mret, M_ret, raise, modify.
  destruct (is_dedicated policy); cbn [negb]; [|done].
  destruct (agent_project uid slug project) as [scope|]; [|done].
  destruct (head _) as [b|] eqn:Hd.
  - destruct (get_current _ _ _ _ _ Ok Hd) as [_ Ho]. by intros [= <- _ _].
  - destruct (enforce_sandbox_quota limits uid policy s) as [[[]|e] s2]; [|done].
    unfold add_box, put_box, mbind, M_bind, gets, mret, M_ret, raise, modify.
    repeat case_match; intros E; simplify_eq; done.
Qed.

Lemma ensure_ready_ok fresh uid slug project policy w fp now s : sandboxes_ok s →
  sandboxes_ok (ensure_ready sandbox_hash limits fresh uid slug project policy w fp now s).2.
Proof.
  intros Ok. unfold ensure_ready, raise.
  destruct (is_dedicated policy); cbn [negb]; [|done].
  unfold lift_result, mbind at 1, M_bind at 1.
  destruct (agent_project uid slug project) as [scope|]; [|done].
  unfold mbind at 1, M_bind at 1.
  pose proof (ensure_binding_ok fresh uid slug project policy now s Ok) as [Ok1 C1].
  destruct (ensure_binding _ _ _ _ _ _ _ _ s) as [[[row created]|e] s1] eqn:Eb; [|done].
  cbn [fst snd] in Ok1, C1. pose proof (binding_key _ _ _ _ _ _ _ _ _ _ Ok Eb) as Ho.
  destruct created; [by apply rebuild_ok|].
  destruct (bool_decide_reflect (Box.status row = SSuspended)) as [Sp|Sp];
    [by apply resume_or_raise_ok|].
  unfold mbind at 1, M_bind at 1.
  match goal with |- context [call ?f s1] =>
    destruct (call_same f s1) as [Eb2 Ee2]; destruct (call f s1) as [[[c|]|e] s2] end;
    cbn [fst snd] in Eb2, Ee2.
  3: { by eapply same_tables_ok. }
  all: assert (Ok2 : sandboxes_ok s2) by (by eapply same_tables_ok).
  all: assert (C2 : current s2 row) by (unfold current; by rewrite Eb2).
  - destruct (match fp with None => false | Some _ => _ end).
    + unfold mbind, M_bind.
      destruct (suspend_ok uid slug project w "credential_changed" (Some "system") None now s2 Ok2)
        as [Ok3 C3]. specialize (C3 row C2 Ho Sp).
      destruct (suspend _ _ _ _ _ _ _ _ s2) as [[u|e] s3]; [|done].
      by apply resume_or_raise_ok.
    + unfold put_box, mbind, M_bind, mret, M_ret, modify. cbn [snd].
      apply (neutral_write s2 s2 row (touch_row c now row)); done.
  - unfold mbind, M_bind.
    destruct (mark_suspended_ok row "container_missing" None None now s2 Ok2 C2)
      as (s3 & -> & Ok3 & C3). by apply resume_or_raise_ok.
Qed.

(** * The supervisor *)

Context (project_workdir : string → option string).

Lemma supervisor_suspend_ok row reason now s : sandboxes_ok s →
  sandboxes_ok (supervisor_suspend project_workdir row reason now s).2.
Proof.
  intros Ok. unfold supervisor_suspend, raise.
  destruct (project_workdir _) as [w|]; [|done]. case_bool_decide; [done|]. by apply suspend_ok.
Qed.

Lemma tick_suspend_ok row reason now kept gen s : sandboxes_ok s →
  sandboxes_ok (tick_suspend project_workdir row reason now kept gen s).2.
Proof.
  intros Ok. unfold tick_suspend, attempt, mbind, M_bind, mret, M_ret.
  pose proof (supervisor_suspend_ok row reason now s Ok) as O.
  by destruct (supervisor_suspend _ _ _ _ s) as [[]].
Qed.

Lemma tick_idle_ok row kept gen idle now s : sandboxes_ok s → current s row →
  sandboxes_ok (tick_idle project_workdir row kept gen idle now s).2.
Proof.
  intros Ok Hr. unfold tick_idle. case_match; [by apply tick_suspend_ok|].
  unfold put_box, mbind, M_bind, mret, M_ret, modify.
  apply (neutral_write s s row); done.
Qed.

Lemma tick_upkeep_ok row gen interval idle now s : sandboxes_ok s → current s row →
  sandboxes_ok (tick_upkeep project_workdir row gen interval idle now s).2.
Proof.
  intros Ok Hr. unfold tick_upkeep. case_match; [|by apply tick_idle_ok].
  unfold attempt. unfold mbind at 1, M_bind at 1.
  match goal with |- context [call ?f s] =>
    destruct (call_same f s) as [Eb Ee]; destruct (call f s) as [[[]|e] s1] end;
    cbn [fst snd] in Eb, Ee.
  - unfold put_box, mbind, M_bind, modify.
    destruct (neutral_write s s1 row (row <| Box.last_keepalive_at := Some now |>) Ok Eb Ee Hr)
      as [Ok2 C2]; [done|]. by apply tick_idle_ok.
  - apply tick_suspend_ok. by eapply same_tables_ok.
  - by eapply same_tables_ok.
Qed.

Lemma tick_row_ok inventory interval idle now k s : sandboxes_ok s →
  sandboxes_ok (tick_row project_workdir inventory interval idle now k s).2.
Proof.
  intros Ok. unfold tick_row. unfold mbind at 1, M_bind at 1, gets, mret, M_ret.
  destruct (SB.boxes s !! k) as [row|] eqn:Hk; [|done].
  assert (Hr : current s row) by (unfold current; by rewrite (so_key _ Ok _ _ Hk)).
  destruct (negb (bool_decide (Box.status row = SActive))); [done|].
  destruct (negb (bool_decide (Box.lease_owner_id row = None)) && box_lease_live row now); [done|].
  destruct (List.find _ _) as [record|]; [|by apply tick_suspend_ok].
  case_match; [|by apply tick_upkeep_ok].
  unfold put_box, append_event, mbind, M_bind, modify.
  match goal with |- context [SB.events _ ++ [?e]] =>
    destruct (neutral_write_event s s row (row <| Box.generation := rec_generation record |>
      <| Box.updated_at := Some now |>) e Ok eq_refl eq_refl Hr) as [Ok2 C2]; try done end.
  by apply tick_upkeep_ok.
Qed.

Lemma run_tick_ok interval idle now s : sandboxes_ok s →
  sandboxes_ok (run_tick project_workdir interval idle now s).2.
Proof.
  intros Ok. unfold run_tick. unfold mbind at 1, M_bind at 1.
  match goal with |- context [call ?f s] =>
    destruct (call_same f s) as [Eb Ee]; destruct (call f s) as [[inv|e] s1] end;
    cbn [fst snd] in Eb, Ee; [|by eapply same_tables_ok].
  assert (Ok1 : sandboxes_ok s1) by (by eapply same_tables_ok).
  unfold mbind at 1, M_bind at 1. pose proof (reconcile_expired_ok now s1 Ok1) as Ok2.
  destruct (reconcile_expired now s1) as [[n|e] s2]; [|done].
  unfold list_all, gets, mbind, M_bind, mret, M_ret. cbn [snd] in Ok2.
  match goal with |- context [for_each ?body ?l s2] =>
    pose proof (for_each_ok sandboxes_ok body l) as F;
    specialize (F ltac:(intros k x Hx; cbv beta;
      pose proof (tick_row_ok inv interval idle now k x Hx) as T;
      by destruct (tick_row _ _ _ _ _ k x) as [[]]) s2 Ok2);
    by destruct (for_each body l s2) as [[]] end.
Qed.
End spec.
