(* ===== verification/SandboxProps.v ===== *)
(** The dedicated-sandbox properties: what every reachable sandbox table and event log
    satisfies, the exclusivity of the execution lease against every operation and the
    supervisor, the waiting loop of [acquire], and [ensure_ready]. *)

From stdpp Require Import prelude gmap strings list fin_maps.
From Stdlib Require Import ZArith Lia.
From S2P Require Import Prelude Schema Queue SandboxScope Sandboxes SandboxSpec.
Local Open Scope Z_scope.

(** * The step relation *)

Section steps.
Context {P : Type} `{SandboxProvider P} (sandbox_hash : string → string) (limits : Z * Z)
  (project_workdir : string → option string).
Implicit Types s : SandboxStore P.

(** One transaction; [step_waiting] is the event a waiting caller records, and
    [step_runtimes] what the runtimes do by themselves. *)
Inductive sstep s : SandboxStore P → Prop :=
  | step_try uid slug project kind owner ttl now :
      sstep s (try_acquire uid slug project kind owner ttl now s).2
  | step_waiting holder kind owner payload now : current s holder →
      sstep s (append_event (Box.sandbox_id holder) LeaseWaiting (Some kind) (Some owner)
                 payload now s).2
  | step_heartbeat uid slug project owner ttl now :
      sstep s (heartbeat uid slug project owner ttl now s).2
  | step_release uid slug project owner now :
      sstep s (release uid slug project owner now s).2
  | step_reconcile now : sstep s (reconcile_expired now s).2
  | step_bind fresh uid slug project policy now :
      sstep s (ensure_binding sandbox_hash limits fresh uid slug project policy now s).2
  | step_ready fresh uid slug project policy w fp now :
      sstep s (ensure_ready sandbox_hash limits fresh uid slug project policy w fp now s).2
  | step_suspend uid slug project w reason ak ai now :
      sstep s (suspend uid slug project w reason ak ai now s).2
  | step_tick interval idle now : sstep s (run_tick project_workdir interval idle now s).2
  | step_runtimes p : sstep s (s <| SB.runtimes := p |>).

Inductive sreachable : SandboxStore P → Prop :=
  | sreach_init p : sreachable (SB.mk ∅ [] p)
  | sreach_step s s' : sreachable s → sstep s s' → sreachable s'.

Lemma sreachable_ok s : sreachable s → sandboxes_ok s.
Proof.
  induction 1 as [p|s s' _ Ok St].
  - split; simpl; intros *; rewrite ?lookup_empty; try discriminate.
    intros H1. by apply elem_of_nil in H1.
  - destruct St.
    + by apply try_acquire_ok.
    + by eapply log_event_ok.
    + by apply heartbeat_ok.
    + by apply release_ok.
    + by apply reconcile_expired_ok.
    + by apply ensure_binding_ok.
    + by apply ensure_ready_ok.
    + by apply suspend_ok.
    + by apply run_tick_ok.
    + by apply (same_tables_ok s).
Qed.

(** * Frames: a transaction leaves the other sandboxes alone *)

Definition keeps (k : string) (b : AgentSandbox) s : Prop :=
  sandboxes_ok s ∧ SB.boxes s !! k = Some b.

Lemma suspend_keeps row w reason ak ai now k b s :
  keeps k b s → current s row → Box.id row ≠ k →
  keeps k b (suspend (Box.uid row) (Box.agent_slug row) (Box.project_id row) w reason ak ai now s).2.
Proof.
  intros [Ok Hk] Hr Ne. split; [by apply suspend_ok|].
  unfold suspend, lift_result, get_for_update, mbind, M_bind, gets, mret, M_ret, raise.
  destruct (agent_project _ _ _) as [scope|]; [|done].
  destruct (head _) as [x|] eqn:Hd; [|done].
  destruct (get_current _ _ _ _ _ Ok Hd) as [Hx Ho].
  assert (Ex : Box.id x = Box.id row) by (apply (so_owner _ Ok _ _ _ _ Hx Hr); done).
  destruct (bool_decide (Box.status x = SSuspended)); [done|].
  match goal with |- context [call ?f s] =>
    destruct (call_same f s) as [Eb Ee]; destruct (call f s) as [[u|e] s1] end;
    cbn [fst snd] in Eb, Ee |- *; [|by rewrite Eb].
  unfold mark_suspended, put_box, append_event, mbind, M_bind, mret, M_ret, modify. cbn [snd].
  simpl. rewrite Eb, lookup_insert_ne; [done|]. simpl. congruence.
Qed.

Lemma put_keeps k b row row' s s1 : keeps k b s → SB.boxes s1 = SB.boxes s →
  Box.id row' = Box.id row → Box.id row ≠ k →
  SB.boxes (put_box row' s1).2 !! k = Some b.
Proof.
  intros [_ Hk] Eb Ei Ne. unfold put_box, modify. simpl. by rewrite Eb, Ei, lookup_insert_ne.
Qed.

Lemma tick_suspend_keeps row reason now kept gen k b s :
  keeps k b s → current s row → Box.id row ≠ k →
  keeps k b (tick_suspend project_workdir row reason now kept gen s).2.
Proof.
  intros K Hr Ne. unfold tick_suspend, attempt, mbind, M_bind, mret, M_ret, supervisor_suspend, raise.
  destruct (project_workdir _) as [w|]; [|done]. case_bool_decide; [done|].
  pose proof (suspend_keeps row (Some w) reason (Some "supervisor") None now k b s K Hr Ne) as S.
  by destruct (suspend _ _ _ _ _ _ _ _ s) as [[]].
Qed.

Lemma tick_idle_keeps row kept gen idle now k b s :
  keeps k b s → current s row → Box.id row ≠ k →
  keeps k b (tick_idle project_workdir row kept gen idle now s).2.
Proof.
  intros K Hr Ne. split; [by apply tick_idle_ok; [apply K|]|].
  unfold tick_idle. case_match; [by apply tick_suspend_keeps|].
  by apply (put_keeps k b row (row <| Box.updated_at := Some now |>) s s).
Qed.

Lemma tick_upkeep_keeps row gen interval idle now k b s :
  keeps k b s → current s row → Box.id row ≠ k →
  keeps k b (tick_upkeep project_workdir row gen interval idle now s).2.
Proof.
  intros [Ok Hk] Hr Ne. unfold tick_upkeep. case_match; [|by apply tick_idle_keeps].
  unfold attempt. unfold mbind at 1, M_bind at 1.
  match goal with |- context [call ?f s] =>
    destruct (call_same f s) as [Eb Ee]; destruct (call f s) as [[[]|e] s1] end;
    cbn [fst snd] in Eb, Ee.
  all: assert (Ok1 : sandboxes_ok s1) by (by eapply same_tables_ok).
  - unfold put_box, mbind, M_bind, modify.
    destruct (neutral_write s s1 row (row <| Box.last_keepalive_at := Some now |>) Ok Eb Ee Hr)
      as [Ok2 C2]; [done|]. apply tick_idle_keeps; [|done|done].
    split; [done|]. simpl. rewrite Eb. by rewrite lookup_insert_ne.
  - apply tick_suspend_keeps; [|unfold current; by rewrite Eb|done]. split; [done|]. by rewrite Eb.
  - split; [done|]. simpl. by rewrite Eb.
Qed.

(** The supervisor passes over a sandbox whose lease is live. *)
Lemma tick_row_keeps inventory interval idle now id k b s :
  keeps k b s → Box.lease_owner_id b ≠ None → box_lease_live b now = true →
  keeps k b (tick_row project_workdir inventory interval idle now id s).2.
Proof.
  intros [Ok Hk] Ow Lv. unfold tick_row. unfold mbind at 1, M_bind at 1, gets, mret, M_ret.
  destruct (SB.boxes s !! id) as [row|] eqn:Hi; [|done].
  destruct (negb (bool_decide (Box.status row = SActive))); [done|].
  destruct (negb (bool_decide (Box.lease_owner_id row = None)) && box_lease_live row now) eqn:Sk;
    [done|].
  assert (Ne : id ≠ k).
  { intros ->. rewrite Hk in Hi. injection Hi as <-.
    rewrite Lv, bool_decide_eq_false_2 in Sk; done. }
  pose proof (so_key _ Ok _ _ Hi) as Ei.
  assert (Hr : current s row) by (unfold current; by rewrite Ei).
  rewrite <- Ei in Ne.
  destruct (List.find _ _) as [record|]; [|by apply tick_suspend_keeps].
  case_match; [|by apply tick_upkeep_keeps].
  unfold put_box, append_event, mbind, M_bind, modify.
  match goal with |- context [SB.events _ ++ [?e]] =>
    destruct (neutral_write_event s s row (row <| Box.generation := rec_generation record |>
      <| Box.updated_at := Some now |>) e Ok eq_refl eq_refl Hr) as [Ok2 C2]; try done end.
  apply tick_upkeep_keeps; [|done|done]. split; [done|]. simpl. by rewrite lookup_insert_ne.
Qed.

Lemma reconcile_keeps now k b s : keeps k b s → box_lease_live b now = true →
  keeps k b (reconcile_expired now s).2.
Proof.
  intros K Lv. unfold reconcile_expired, mbind, M_bind, gets, mret, M_ret.
  match goal with |- context [for_each ?body ?l s] =>
    pose proof (for_each_ok (keeps k b) body l) as F end.
  assert (I : keeps k b (for_each (reconcile_box now)
    (map Box.id (select (lease_expired now) (SB.boxes s))) s).2); [|by destruct (for_each _ _ s) as [[]]].
  apply F; [|done]. intros id x [Ok Hk]. split; [by apply reconcile_box_ok|].
  unfold reconcile_box, mbind, M_bind, gets, mret, M_ret, put_box, append_event, modify.
  destruct (SB.boxes x !! id) as [row|] eqn:Hi; [|done].
  destruct (lease_expired now row) eqn:Ex; cbn [negb snd]; [|done].
  pose proof (so_key _ Ok _ _ Hi) as Ei.
  simpl. rewrite Ei, lookup_insert_ne; [done|]. intros ->.
  rewrite Hk in Hi. injection Hi as <-. unfold lease_expired, box_lease_live in *.
  destruct (Box.lease_expires_at b); [|done]. apply andb_true_iff in Ex as [_ Ex].
  apply Z.ltb_lt in Ex, Lv. lia.
Qed.

Lemma run_tick_keeps interval idle now k b s : keeps k b s →
  Box.lease_owner_id b ≠ None → box_lease_live b now = true →
  keeps k b (run_tick project_workdir interval idle now s).2.
Proof.
  intros [Ok Hk] Ow Lv. unfold run_tick. unfold mbind at 1, M_bind at 1.
  match goal with |- context [call ?f s] =>
    destruct (call_same f s) as [Eb Ee]; destruct (call f s) as [[inv|e] s1] end;
    cbn [fst snd] in Eb, Ee.
  all: assert (K1 : keeps k b s1) by (split; [by eapply same_tables_ok|by rewrite Eb]).
  2: { exact K1. }
  unfold mbind at 1, M_bind at 1. pose proof (reconcile_keeps now k b s1 K1 Lv) as K2.
  destruct (reconcile_expired now s1) as [[n|e] s2]; [|done].
  unfold list_all, gets, mbind, M_bind, mret, M_ret. cbn [snd] in K2.
  match goal with |- context [for_each ?body ?l s2] =>
    pose proof (for_each_ok (keeps k b) body l) as F;
    specialize (F ltac:(intros id x Hx; cbv beta;
      pose proof (tick_row_keeps inv interval idle now id k b x Hx Ow Lv) as T;
      by destruct (tick_row _ _ _ _ _ id x) as [[]]) s2 K2);
    by destruct (for_each body l s2) as [[]] end.
Qed.
End steps.

(** * The properties *)

(** C17: In every reachable state the event log tells the truth about the leases: after
    the acquisitions, releases and expirations logged for a sandbox, in order, the
    owner is the one in its row (none, when the row has none).  Lease columns are set
    and cleared together, and neither two sandboxes of one user, agent and project
    nor two with one runtime id exist. *)
Theorem log_tells_owner {P} `{SandboxProvider P} hash limits workdir (s : SandboxStore P) :
  sreachable hash limits workdir s →
  (∀ k b, SB.boxes s !! k = Some b →
     logged_owner (Box.sandbox_id b) (SB.events s) = Box.lease_owner_id b ∧ lease_columns b)
  ∧ (∀ k1 k2 b1 b2, SB.boxes s !! k1 = Some b1 → SB.boxes s !! k2 = Some b2 →
       owner_key b1 = owner_key b2 ∨ Box.sandbox_id b1 = Box.sandbox_id b2 → k1 = k2).
Proof.
  intros Hs. apply sreachable_ok in Hs as Ok. split.
  - intros k b Hb. split; [by eapply (so_audit _ Ok)|by eapply (so_lease _ Ok)].
  - intros k1 k2 b1 b2 H1 H2 [E|E]; [by eapply (so_owner _ Ok)|by eapply (so_sandbox _ Ok)].
Qed.

Lemma get_unique {P} (s : SandboxStore P) k b : sandboxes_ok s → SB.boxes s !! k = Some b →
  head (select (owned_by (Box.uid b) (Box.agent_slug b) (Box.project_id b)) (SB.boxes s)) = Some b.
Proof.
  intros Ok Hk. destruct (head _) as [x|] eqn:Hd.
  - destruct (get_current _ _ _ _ _ Ok Hd) as [Hx Ho].
    assert (Box.id x = k) as E by (by apply (so_owner _ Ok _ _ _ _ Hx Hk)).
    unfold current in Hx. rewrite E in Hx. congruence.
  - by destruct (get_none s _ _ _ k b Hd Hk).
Qed.

(** C18: While a sandbox's lease is live nobody else gets in: another owner cannot
    acquire, renew or release it (and is told so), and neither the reconciliation of
    expired leases nor a supervisor tick changes the row in any way, whatever happens to other
    sandboxes and to the runtimes. *)
Theorem live_lease_excludes_others {P} `{SandboxProvider P} hash limits workdir
    (s : SandboxStore P) k b w o now :
  sreachable hash limits workdir s → SB.boxes s !! k = Some b →
  Box.lease_owner_id b = Some w → box_lease_live b now = true → o ≠ w →
  let at_ := (Box.uid b, Box.agent_slug b, Box.project_id b) in
  (∀ kind ttl, try_acquire at_.1.1 at_.1.2 at_.2 kind o ttl now s = (Ret (false, b), s))
  ∧ (∀ ttl, heartbeat at_.1.1 at_.1.2 at_.2 o ttl now s = (Ret false, s))
  ∧ release at_.1.1 at_.1.2 at_.2 o now s = (Ret false, s)
  ∧ owns_active at_.1.1 at_.1.2 at_.2 o now s = (Ret false, s)
  ∧ SB.boxes (reconcile_expired now s).2 !! k = Some b
  ∧ (∀ interval idle, SB.boxes (run_tick workdir interval idle now s).2 !! k = Some b).
Proof.
  intros Hs Hk Ow Lv Ne. apply sreachable_ok in Hs as Ok. cbn zeta. cbn [fst snd].
  pose proof (get_unique s k b Ok Hk) as G.
  assert (K : keeps k b s) by done.
  unfold try_acquire, heartbeat, release, owns_active, get_for_update, owns_live_lease,
    held_by_other.
  unfold mbind, M_bind, gets, mret, M_ret. rewrite G, Ow, Lv.
  rewrite !(bool_decide_eq_false_2 (Some w = Some o)) by congruence.
  rewrite (bool_decide_eq_false_2 (Some w = None)) by done. cbn.
  repeat split; try done; [by apply reconcile_keeps|intros interval idle].
  apply run_tick_keeps; [done|congruence|done].
Qed.

(** An attempt to acquire succeeds exactly when no one else holds a live lease - the
    sandbox is free, the caller already holds it, or the last lease ran out - and then
    the caller owns it until [now + ttl]; a change of owner, and only that, is logged. *)
Theorem try_acquire_outcome {P} `{SandboxProvider P} hash limits workdir (s : SandboxStore P)
    uid slug project kind o ttl now :
  sreachable hash limits workdir s → 0 < ttl →
  (¬ (∃ k b, SB.boxes s !! k = Some b ∧ owner_key b = (uid, slug, project))
   ∧ try_acquire uid slug project kind o ttl now s
     = (Raise (ValueError "sandbox binding not found"), s))
  ∨ ∃ k b, SB.boxes s !! k = Some b ∧ owner_key b = (uid, slug, project)
      ∧ if held_by_other b o now
        then try_acquire uid slug project kind o ttl now s = (Ret (false, b), s)
        else ∃ b' s', try_acquire uid slug project kind o ttl now s = (Ret (true, b'), s')
          ∧ SB.boxes s' = <[k := b']> (SB.boxes s)
          ∧ (∀ t, now ≤ t < now + seconds ttl → owns_live_lease o t b' = true)
          ∧ logged_owner (Box.sandbox_id b) (SB.events s') = Some o
          ∧ (SB.events s' = SB.events s ↔ Box.lease_owner_id b = Some o).
Proof.
  intros Hs Ttl. apply sreachable_ok in Hs as Ok.
  unfold try_acquire, get_for_update, put_box, append_event.
  unfold mbind, M_bind, gets, mret, M_ret, modify, raise.
  destruct (head _) as [b|] eqn:Hd.
  2: { left. split; [|done]. intros (k & b & Hk & Ho). by destruct (get_none s _ _ _ k b Hd Hk). }
  right. destruct (get_current _ _ _ _ _ Ok Hd) as [Hb Ho].
  exists (Box.id b), b. split; [done|]. split; [done|].
  destruct (held_by_other b o now); [done|].
  exists (take_lease kind o ttl now b). pose proof (so_audit _ Ok _ _ Hb) as Au.
  assert (Lv : ∀ t, now ≤ t < now + seconds ttl →
    owns_live_lease o t (take_lease kind o ttl now b) = true).
  { intros t Ht. unfold owns_live_lease, box_lease_live. simpl.
    rewrite bool_decide_eq_true_2 by done. simpl. apply Z.ltb_lt. lia. }
  destruct (bool_decide_reflect (Box.lease_owner_id b = Some o)) as [E|N]; cbn [negb];
    eexists; (split; [reflexivity|]); (split; [done|]); (split; [done|]); simpl.
  - split; [by rewrite Au|done].
  - split.
    + unfold logged_owner. rewrite fold_left_app. simpl. unfold owner_after at 1. simpl.
      by rewrite bool_decide_eq_true_2.
    + split; [|done]. intros E. apply (f_equal length) in E. rewrite length_app in E.
      simpl in E. lia.
Qed.

(** [loop.time()] runs on between the turns, by at least what the caller sleeps:
    [min(WAIT_POLL_SECONDS, remaining)]. *)
Fixpoint paced {P} (left : Z) (polls : list (Poll (P := P))) : Prop :=
  match polls with
  | [] => True
  | p :: polls =>
      remaining p ≤ left ∧ paced (remaining p - Z.min WAIT_POLL (remaining p)) polls
  end.

(** A caller does not wait for ever.  Whatever other transactions do between its
    turns, after [wait / 2 s + 2] turns at most it has the lease, has been told who holds
    it, or has failed. *)
Theorem acquire_terminates {P} isoformat uid slug project kind o ttl configured wait
    (polls : list Poll) (s : SandboxStore P) :
  0 ≤ wait → paced wait polls → wait / WAIT_POLL + 2 ≤ Z.of_nat (length polls) →
  (acquire isoformat uid slug project kind o ttl configured polls s).1 ≠ Ret None.
Proof.
  intros Hw Hp Hl. unfold acquire.
  assert (B : wait ≤ (Z.of_nat (length polls) - 1) * WAIT_POLL ∧ 1 ≤ Z.of_nat (length polls)).
  { pose proof (Z.div_pos wait WAIT_POLL Hw ltac:(unfold WAIT_POLL, seconds; lia)).
    pose proof (Z.mod_pos_bound wait WAIT_POLL ltac:(unfold WAIT_POLL, seconds; lia)).
    pose proof (Z.div_mod wait WAIT_POLL ltac:(unfold WAIT_POLL, seconds; lia)).
    unfold WAIT_POLL, seconds in *. split; lia. }
  clear Hw Hl. generalize (lease_ttl ttl configured) as t. intros t.
  generalize false as waiting. revert wait Hp B s.
  induction polls as [|p polls IH]; intros wait Hp [B1 B2] s waiting; [simpl in B2; lia|].
  destruct Hp as [Hr Hp]. cbn [acquire_loop]. unfold mbind, M_bind, modify.
  destruct (try_acquire uid slug project kind o t (poll_now p) (meanwhile p s))
    as [[[acquired holder]|e] s1]; [|done].
  destruct acquired; [done|].
  assert (Next : ∀ s2, (remaining p <=? 0) = false →
    (acquire_loop isoformat uid slug project kind o t true polls s2).1 ≠ Ret None).
  { intros s2 Hpos. apply Z.leb_gt in Hpos. apply (IH _ Hp).
    cbn [length] in B1. rewrite Nat2Z.inj_succ in B1.
    destruct (Z.min_spec WAIT_POLL (remaining p)) as [[? E]|[? E]]; rewrite E;
      unfold WAIT_POLL, seconds in *; split; lia. }
  destruct waiting; unfold mret, M_ret, append_event, modify;
    (destruct (remaining p <=? 0) eqn:Z0; [done|by apply Next]).
Qed.

(** * [ensure_ready] *)

Definition prepared (key : string * string * string) (policy : SandboxPolicy)
    (b : AgentSandbox) : Prop :=
  owner_key b = key ∧ Box.lifecycle b = lifecycle policy ∧ Box.resume_policy b = resume_policy policy.

Definition user_sandboxes {P} (s : SandboxStore P) (uid : string) : list AgentSandbox :=
  select (λ b, bool_decide (Box.uid b = uid)) (SB.boxes s).

Section ready.
Context {P : Type} `{SandboxProvider P} (sandbox_hash : string → string) (limits : Z * Z).
Implicit Types s : SandboxStore P.

Lemma enforce_quota_pass uid policy s s1 : is_dedicated policy = true →
  enforce_sandbox_quota limits uid policy s = (Ret tt, s1) →
  Z.of_nat (length (user_sandboxes s uid)) < limits.1
  ∧ (lifecycle policy = Resident →
     Z.of_nat (length (List.filter (λ b, bool_decide (Box.lifecycle b = Resident))
                         (user_sandboxes s uid))) < limits.2).
Proof.
  intros D. unfold enforce_sandbox_quota, mbind, M_bind, gets, mret, M_ret, raise. rewrite D.
  cbn [negb]. fold (user_sandboxes s uid).
  destruct (Z.leb_spec limits.1 (Z.of_nat (length (user_sandboxes s uid)))); [done|].
  destruct (bool_decide_reflect (lifecycle policy = Resident)); [|naive_solver].
  destruct (Z.leb_spec limits.2 (Z.of_nat (length (List.filter
    (λ b, bool_decide (Box.lifecycle b = Resident)) (user_sandboxes s uid))))); naive_solver.
Qed.

(** What [ensure_binding] hands over. *)
Lemma binding_prepared fresh uid slug project policy now s row created s1 : sandboxes_ok s →
  ensure_binding sandbox_hash limits fresh uid slug project policy now s
    = (Ret (row, created), s1) →
  prepared (uid, slug, project) policy row
  ∧ if (created : bool)
    then Z.of_nat (length (user_sandboxes s uid)) < limits.1
    else ∃ b, current s b ∧ row = apply_policy policy now b ∧ SB.runtimes s1 = SB.runtimes s.
Proof.
  intros Ok. unfold ensure_binding, lift_result, get_for_update, put_box.
  unfold mbind, M_bind, gets, mret, M_ret, raise, modify.
  destruct (is_dedicated policy) eqn:D; cbn [negb]; [|done].
  destruct (agent_project uid slug project) as [scope|]; [|done].
  destruct (head _) as [b|] eqn:Hd.
  - destruct (get_current _ _ _ _ _ Ok Hd) as [Hb Ho]. intros [= <- <- <-].
    split; [by split|]. by exists b.
  - destruct (enforce_sandbox_quota limits uid policy s) as [[[]|e] s2] eqn:Q; [|done].
    destruct (enforce_quota_pass _ _ _ _ D Q) as [Lt _].
    unfold add_box, put_box, mbind, M_bind, gets, mret, M_ret, raise, modify.
    repeat case_match; intros E; simplify_eq; done.
Qed.

Lemma rebuild_ret row scope policy w fp k now s c s1 key pol :
  rebuild row scope policy w fp k now s = (Ret c, s1) → prepared key pol row →
  ∃ b, SB.boxes s1 !! Box.id row = Some b ∧ prepared key pol b ∧ Box.status b = SActive.
Proof.
  unfold rebuild. unfold mbind at 1, M_bind at 1.
  match goal with |- context [call ?f s] => destruct (call f s) as [[[x|]|e] s2] end; try done.
  unfold put_box, append_event, mbind, M_bind, mret, M_ret, modify.
  intros [= <- <-] Hp. exists (rebuilt_row x fp now row). simpl. by rewrite lookup_insert_eq.
Qed.

Lemma resume_ret row scope policy w fp now s c s1 key pol :
  resume_or_raise row scope policy w fp now s = (Ret c, s1) → prepared key pol row →
  ∃ b, SB.boxes s1 !! Box.id row = Some b ∧ prepared key pol b ∧ Box.status b = SActive.
Proof.
  unfold resume_or_raise, raise. destruct (resume_policy policy); [|done]. apply rebuild_ret.
Qed.

Lemma ensure_ready_ret fresh uid slug project policy w fp now s c s' : sandboxes_ok s →
  ensure_ready sandbox_hash limits fresh uid slug project policy w fp now s = (Ret c, s') →
  (∃ k b, SB.boxes s' !! k = Some b ∧ prepared (uid, slug, project) policy b
     ∧ Box.status b ≠ SSuspended)
  ∧ ((∀ b, current s b → owner_key b ≠ (uid, slug, project)) →
     Z.of_nat (length (user_sandboxes s uid)) < limits.1).
Proof.
  intros Ok. unfold ensure_ready, raise.
  destruct (is_dedicated policy); cbn [negb]; [|done].
  unfold lift_result, mbind at 1, M_bind at 1.
  destruct (agent_project uid slug project) as [scope|]; [|done].
  unfold mbind at 1, M_bind at 1.
  destruct (ensure_binding _ _ _ _ _ _ _ _ s) as [[[row created]|e] s1] eqn:Eb; [|done].
  destruct (binding_prepared _ _ _ _ _ _ _ _ _ _ Ok Eb) as [Pr Cr]. intros E.
  split.
  2: { intros None. destruct created; [done|]. destruct Cr as (b & Hb & -> & _).
       destruct Pr as [Ho _]. by destruct (None b Hb). }
  clear Cr Eb. revert E.
  assert (Fin : ∀ k b, SB.boxes s' !! k = Some b ∧ prepared (uid, slug, project) policy b
    ∧ Box.status b = SActive → ∃ k b, SB.boxes s' !! k = Some b
    ∧ prepared (uid, slug, project) policy b ∧ Box.status b ≠ SSuspended).
  { intros k b (? & ? & E). exists k, b. by rewrite E. }
  destruct created.
  { intros E. destruct (rebuild_ret _ _ _ _ _ _ _ _ _ _ _ _ E Pr) as (b & ?). by eapply Fin. }
  destruct (bool_decide_reflect (Box.status row = SSuspended)) as [Sp|Sp].
  { intros E. destruct (resume_ret _ _ _ _ _ _ _ _ _ _ _ E Pr) as (b & ?). by eapply Fin. }
  unfold mbind at 1, M_bind at 1.
  match goal with |- context [call ?f s1] => destruct (call f s1) as [[[x|]|e] s2] end; [| |done].
  - destruct (match fp with None => false | Some _ => _ end).
    + unfold mbind, M_bind. destruct (suspend _ _ _ _ _ _ _ _ s2) as [[u|e] s3]; [|done].
      intros E. destruct (resume_ret _ _ _ _ _ _ _ _ _ _ _ E Pr) as (b & ?). by eapply Fin.
    + unfold put_box, mbind, M_bind, mret, M_ret, modify. intros [= <- <-].
      exists (Box.id row), (touch_row x now row). simpl. by rewrite lookup_insert_eq.
  - unfold mark_suspended, put_box, append_event, modify, mbind, M_bind, mret, M_ret.
    intros E. destruct (resume_ret _ _ _ _ _ _ _ _ _ _ _ E Pr) as (b & ?). by eapply Fin.
Qed.

Lemma confirm_blocks fresh uid slug project policy w fp now s k b scope : sandboxes_ok s →
  is_dedicated policy = true → agent_project uid slug project = Ret scope →
  SB.boxes s !! k = Some b → owner_key b = (uid, slug, project) →
  Box.status b = SSuspended → resume_policy policy = Confirm →
  ensure_ready sandbox_hash limits fresh uid slug project policy w fp now s
  = (Raise (RuntimeError ("sandbox rebuild requires confirmation for scope " +:+ Box.scope_key b)),
     s <| SB.boxes ::= <[k := apply_policy policy now b]> |>).
Proof.
  intros Ok D Sc Hk Ho St Rp. pose proof (get_unique s k b Ok Hk) as G.
  injection Ho as E1 E2 E3. rewrite E1, E2, E3 in G. pose proof (so_key _ Ok _ _ Hk) as <-.
  unfold ensure_ready, ensure_binding, lift_result, get_for_update, put_box, resume_or_raise.
  unfold mbind, M_bind, gets, mret, M_ret, raise, modify. rewrite D, Sc. cbn [negb]. rewrite G.
  cbn [negb]. change (Box.status (apply_policy policy now b)) with (Box.status b).
  rewrite St. rewrite bool_decide_eq_true_2 by done. by rewrite Rp.
Qed.
End ready.


(** * Witnesses

    A provisioner whose state is the keys of the runtimes it runs. *)

#[local] Instance demo_provider : SandboxProvider (list string) := {|
  get_scope := λ scope create _ _ _ p,
    if bool_decide (cache_key scope ∈ p)
    then (Ret (Some {| conn_generation := Some "g1" |}), p)
    else if (create : bool)
    then (Ret (Some {| conn_generation := Some "g1" |}), cache_key scope :: p)
    else (Ret None, p);
  release_scope := λ scope _ p,
    (Ret tt, List.filter (λ k, negb (bool_decide (k = cache_key scope))) p);
  touch := λ sid p, (Ret (bool_decide (sid ∈ p)), p);
  list_sandboxes := λ p,
    (Ret (map (λ k, {| rec_sandbox_id := k; rec_generation := Some "g1" |}) p), p)
|}.

Definition demo_hash (k : string) : string := k.
Definition demo_limits : Z * Z := (3, 1).
Definition demo_workdir (project : string) : option string := Some "/work".

Definition demo_policy (lc : SandboxLifecycle) (rp : ResumePolicy) : SandboxPolicy :=
  {| mode := Dedicated; lifecycle := lc; resume_policy := rp; idle_suspend_seconds := Some 60 |}.

Definition box0 : SandboxStore (list string) := SB.mk ∅ [] [].
Definition box1 : SandboxStore (list string) :=
  (ensure_ready demo_hash demo_limits "b1" "u" "main" "p" (demo_policy Persistent Confirm)
     (Some "/work") None 1 box0).2.
Definition box2 : SandboxStore (list string) := (try_acquire "u" "main" "p" "run" "r1" 120 2 box1).2.
Definition box3 : SandboxStore (list string) :=
  (suspend "u" "main" "p" (Some "/work") "manual_suspend" (Some "user") (Some "u") 3 box1).2.

Abbreviation demo_reachable := (sreachable demo_hash demo_limits demo_workdir).

Lemma box1_reachable : demo_reachable box1.
Proof. eapply sreach_step; [apply (sreach_init _ _ _ [])|]. apply step_ready. Qed.

Lemma box2_reachable : demo_reachable box2.
Proof. eapply sreach_step; [apply box1_reachable|]. apply step_try. Qed.

Lemma box3_reachable : demo_reachable box3.
Proof. eapply sreach_step; [apply box1_reachable|]. apply step_suspend. Qed.

Definition the_box (s : SandboxStore (list string)) : AgentSandbox :=
  default {| Box.id := ""; Box.uid := ""; Box.agent_slug := ""; Box.project_id := "";
    Box.scope_key := ""; Box.sandbox_id := ""; Box.generation := None;
    Box.lifecycle := Ephemeral; Box.resume_policy := Auto; Box.status := SError;
    Box.idle_timeout_seconds := None; Box.credential_fingerprint := None;
    Box.lease_owner_kind := None; Box.lease_owner_id := None; Box.lease_expires_at := None;
    Box.lease_heartbeat_at := None; Box.last_activity_at := None; Box.last_keepalive_at := None;
    Box.suspended_at := None; Box.error_code := None; Box.error_message := None;
    Box.created_at := None; Box.updated_at := None |} (SB.boxes s !! "b1").

Lemma log_tells_owner_witness :
  logged_owner (Box.sandbox_id (the_box box2)) (SB.events box2) = Some "r1".
Proof.
  pose proof (log_tells_owner demo_hash demo_limits demo_workdir box2 box2_reachable) as [H _].
  assert (E : SB.boxes box2 !! "b1" = Some (the_box box2)) by (vm_compute; reflexivity).
  destruct (H "b1" (the_box box2) E) as [L _]. rewrite L. vm_compute; reflexivity.
Defined.

Lemma live_lease_excludes_others_witness :
  release "u" "main" "p" "r2" 10 box2 = (Ret false, box2)
  ∧ SB.boxes (run_tick demo_workdir 60 1800 100000000 box2).2 !! "b1" = Some (the_box box2).
Proof.
  assert (E : SB.boxes box2 !! "b1" = Some (the_box box2)) by (vm_compute; reflexivity).
  assert (O : Box.lease_owner_id (the_box box2) = Some "r1") by (vm_compute; reflexivity).
  assert (L : ∀ now, box_lease_live (the_box box2) now = (now <? 120000002)).
  { intros now. reflexivity. }
  split.
  - refine (proj1 (proj2 (proj2 (live_lease_excludes_others demo_hash demo_limits demo_workdir box2
      "b1" (the_box box2) "r1" "r2" 10 box2_reachable E O _ _)))); [rewrite L; reflexivity|discriminate].
  - refine (proj2 (proj2 (proj2 (proj2 (proj2 (live_lease_excludes_others demo_hash demo_limits
      demo_workdir box2 "b1" (the_box box2) "r1" "r2" 100000000 box2_reachable E O _ _))))) 60 1800);
      [rewrite L; reflexivity|discriminate].
Defined.

Lemma try_acquire_outcome_witness :
  ∃ b' s', try_acquire "u" "main" "p" "terminal" "t1" 120 120000002 box2 = (Ret (true, b'), s')
    ∧ logged_owner (Box.sandbox_id (the_box box2)) (SB.events s') = Some "t1".
Proof.
  assert (E : SB.boxes box2 !! "b1" = Some (the_box box2)) by (vm_compute; reflexivity).
  destruct (try_acquire_outcome demo_hash demo_limits demo_workdir box2 "u" "main" "p" "terminal"
    "t1" 120 120000002 box2_reachable ltac:(lia)) as [[N _]|(k & b & Hk & Ho & R)].
  - exfalso. apply N. exists "b1", (the_box box2). split; [exact E|vm_compute; reflexivity].
  - assert (Eb : b = the_box box2).
    { pose proof (sreachable_ok _ _ _ _ box2_reachable) as Ok.
      assert (k = "b1") as -> by (apply (so_owner _ Ok _ _ _ _ Hk E); rewrite Ho; vm_compute; reflexivity).
      congruence. }
    subst b. assert (F : held_by_other (the_box box2) "t1" 120000002 = false) by (vm_compute; reflexivity).
    rewrite F in R. destruct R as (b' & s' & R1 & _ & _ & R2 & _).
    exists b', s'. split; [exact R1|exact R2].
Defined.

Definition demo_poll (now left : Z) : Poll (P := list string) :=
  {| meanwhile := id; poll_now := now; remaining := left |}.

Lemma acquire_terminates_witness :
  (acquire (λ _, "") "u" "main" "p" "run" "r2" None 120
     [demo_poll 3 3000000; demo_poll 4 1000000; demo_poll 5 0] box2).1 ≠ Ret None.
Proof.
  apply (acquire_terminates (λ _, "") "u" "main" "p" "run" "r2" None 120 3000000
    [demo_poll 3 3000000; demo_poll 4 1000000; demo_poll 5 0] box2); [lia| |].
  - repeat split; vm_compute; discriminate.
  - vm_compute; discriminate.
Defined.


(** The resident quota is checked when a sandbox is created, not when the policy of an
    existing one changes: a user with a resident quota of 1 gets two. *)
Definition quota_bypassed : SandboxStore (list string) :=
  let bind uid project lc now s :=
    (ensure_binding demo_hash demo_limits project uid "main" project (demo_policy lc Auto) now s).2 in
  bind "u" "p2" Resident 4 (bind "u" "p1" Resident 3 (bind "u" "p2" Persistent 2
    (bind "u" "p1" Persistent 1 box0))).

Lemma resident_quota_bypassed :
  demo_limits.2 < Z.of_nat (length (List.filter (λ b, bool_decide (Box.lifecycle b = Resident))
                                      (user_sandboxes quota_bypassed "u"))).
Proof. vm_compute. reflexivity. Qed.
