(* ===== verification/Permissions.v ===== *)
(** Resource permissions ([permissions/resource_permission.py]): normalising a sharing
    configuration, matching a user against a scope, and the effective permission on
    an agent, a skill or a knowledge base.

    A configuration is the JSON value of a column; the normalised scopes are a sum
    type.  Strings are code points below 256. *)

From stdpp Require Import prelude gmap strings list fin_maps pretty.
From Stdlib Require Import ZArith Lia Sorted.
From S2P Require Import Prelude.
Local Open Scope Z_scope.

(** * Data *)

Inductive ResourcePermission := PNone | PRead | PManage.

#[global] Instance ResourcePermission_eq_dec : EqDecision ResourcePermission.
Proof. solve_decision. Defined.

Definition RESOURCE_PERMISSION_ORDER (p : ResourcePermission) : Z :=
  match p with PNone => 0 | PRead => 1 | PManage => 2 end.

Inductive Scope :=
  | GlobalScope
  | DepartmentScope (department_ids : list Z)
  | UserScope (user_uids : list string).

Record PermissionConfig := {
  read_scope : option Scope;
  manage_scope : option Scope
}.

Record User := {
  role : string;
  user_uid : option string;
  department_id : option Z
}.

Record Resource := {
  created_by : option string;
  share_config : json;
  source_scope : string
}.

(** [role_ceiling]; a role it does not name gets READ. *)
Definition ResourcePermissionPolicy : Type := list (string * ResourcePermission).

Definition KNOWLEDGE_BASE_PERMISSION_POLICY : ResourcePermissionPolicy :=
  [("user", PRead); ("admin", PManage); ("superadmin", PManage)].
Definition AGENT_PERMISSION_POLICY : ResourcePermissionPolicy :=
  [("user", PManage); ("admin", PManage); ("superadmin", PManage)].
Definition SKILL_PERMISSION_POLICY : ResourcePermissionPolicy := AGENT_PERMISSION_POLICY.

(** * Python conversions *)

#[local] Instance result_ret : MRet outcome := λ A a, Ret a.
#[local] Instance result_bind : MBind outcome := λ A B k m,
  match m with
  | Ret a => k a
  | Raise e => Raise e
  end.

Fixpoint map_result {A B} (f : A → outcome B) (l : list A) : outcome (list B) :=
  match l with
  | [] => Ret []
  | a :: l => b ← f a; bs ← map_result f l; Ret (b :: bs)
  end.

Definition digit (c : Ascii.ascii) : option Z :=
  let n := Z.of_N (Ascii.N_of_ascii c) in
  if (48 <=? n) && (n <=? 57) then Some (n - 48) else None.

(** The digits of [int(s)], single underscores between them; [seen] is the value of the
    digits read so far, [ready] whether the last character was one. *)
Fixpoint parse_digits (s : string) (seen : Z) (ready : bool) : option Z :=
  match s with
  | EmptyString => if ready then Some seen else None
  | String c s =>
      match digit c with
      | Some d => parse_digits s (10 * seen + d) true
      | None => if ready && bool_decide (c = Ascii.ascii_of_N 95)
                then parse_digits s seen false else None
      end
  end.

Definition parse_int (s : string) : option Z :=
  match strip s with
  | String c t =>
      if bool_decide (c = Ascii.ascii_of_N 45) then Z.opp <$> parse_digits t 0 false
      else if bool_decide (c = Ascii.ascii_of_N 43) then parse_digits t 0 false
      else parse_digits (String c t) 0 false
  | EmptyString => None
  end.

(** [int(value)]; the numbers of a sharing configuration are integers, so no float arrives. *)
Definition int_of (v : json) : outcome Z :=
  match v with
  | JInt z => Ret z
  | JBool b => Ret (if b then 1 else 0)
  | JStr s => match parse_int s with
              | Some z => Ret z
              | None => Raise (ValueError "invalid literal for int()")
              end
  | _ => Raise (TypeError "int() argument must be a string or a real number")
  end.

Fixpoint chars (s : string) : list json :=
  match s with
  | EmptyString => []
  | String c s => JStr (String c EmptyString) :: chars s
  end.

(** [for value in v or []]. *)
Definition iterate (v : option json) : outcome (list json) :=
  match v with
  | None => Ret []
  | Some v =>
      if negb (truthy v) then Ret []
      else match v with
           | JArr l => Ret l
           | JStr s => Ret (chars s)
           | JObj fields => Ret (map JStr (remove_dups fields.*1))
           | _ => Raise (TypeError "object is not iterable")
           end
  end.

(** * Normalising *)

Section permissions.
(** Python's [str] of a list or a dict. *)
Context (container_text : json → string).

(** [sorted({..})]. *)
Definition sorted_ids (l : list Z) : list Z := sort_by Z.leb (remove_dups l).
Definition sorted_uids (l : list string) : list string := sort_by str_leb (remove_dups l).

Definition department_scope (scope : json) : outcome Scope :=
  values ← iterate (jget "department_ids" scope);
  ids ← map_result int_of values;
  match sorted_ids ids with
  | [] => Raise (ValueError "部门权限至少需要选择一个部门")
  | department_ids => Ret (DepartmentScope department_ids)
  end.

Definition user_scope (scope : json) : outcome Scope :=
  values ← iterate (jget "user_uids" scope);
  match sorted_uids (List.filter (λ s, negb (bool_decide (s = "")))
                       (map (λ v, strip (str_of container_text v)) values)) with
  | [] => Raise (ValueError "指定用户权限至少需要选择一个用户")
  | user_uids => Ret (UserScope user_uids)
  end.

(** [_normalize_scope]: [None] and JSON null are Python's [None]. *)
Definition normalize_scope (scope : option json) : outcome (option Scope) :=
  match scope with
  | None | Some JNull => Ret None
  | Some (JObj fields) =>
      let scope := JObj fields in
      let access_level := match jget "access_level" scope with
                          | Some v => if truthy v then v else JStr "global"
                          | None => JStr "global"
                          end in
      match access_level with
      | JStr level =>
          if bool_decide (level = "global") then Ret (Some GlobalScope)
          else if bool_decide (level = "department")
          then s ← department_scope scope; Ret (Some s)
          else if bool_decide (level = "user") then s ← user_scope scope; Ret (Some s)
          else Raise (ValueError "无效的资源权限范围")
      | JArr _ | JObj _ => Raise (TypeError "unhashable type")
      | _ => Raise (ValueError "无效的资源权限范围")
      end
  | Some _ => Raise (ValueError "权限范围必须是对象")
  end.

Definition subset {A} `{EqDecision A} (l k : list A) : bool :=
  forallb (λ x, bool_decide (x ∈ k)) l.

(** [_validate_manage_scope]: whether it returns. *)
Definition manage_within_read (read manage : option Scope) : bool :=
  match read, manage with
  | None, _ | _, None => true
  | Some GlobalScope, _ => true
  | Some (DepartmentScope r), Some (DepartmentScope m) => subset m r
  | Some (UserScope r), Some (UserScope m) => subset m r
  | _, _ => false
  end.

Definition access_level (s : Scope) : string :=
  match s with
  | GlobalScope => "global"
  | DepartmentScope _ => "department"
  | UserScope _ => "user"
  end.

Definition level_allowed (allowed : option (list string)) (s : option Scope) : bool :=
  match allowed, s with
  | Some levels, Some s => bool_decide (access_level s ∈ levels)
  | _, _ => true
  end.

Definition normalize_permission_config (config : json)
    (allowed_access_levels : option (list string)) (message : string) (strict : bool)
    : outcome PermissionConfig :=
  match jget "version" config with
  | Some (JInt 2) =>
      read ← normalize_scope (jget "read_scope" config);
      manage ← normalize_scope (jget "manage_scope" config);
      if strict && negb (manage_within_read read manage)
      then Raise (ValueError "管理范围必须包含在读取范围内")
      else if negb (level_allowed allowed_access_levels read
                    && level_allowed allowed_access_levels manage)
      then Raise (ValueError message)
      else Ret {| read_scope := read; manage_scope := manage |}
  | _ => Raise (ValueError "资源共享配置必须使用 version 2")
  end.

(** * The effective permission *)

(** [str(value or "")]. *)
Definition text (v : option string) : string := default "" v.

Definition scope_matches (user : User) (scope : option Scope) : bool :=
  match scope with
  | None => false
  | Some GlobalScope => true
  | Some (DepartmentScope ids) =>
      match department_id user with
      | None => false
      | Some d => bool_decide (d ∈ ids)
      end
  | Some (UserScope uids) => bool_decide (text (user_uid user) ∈ uids)
  end.

Definition minimum_permission (left right : ResourcePermission) : ResourcePermission :=
  if RESOURCE_PERMISSION_ORDER left <=? RESOURCE_PERMISSION_ORDER right then left else right.

Definition role_ceiling (policy : ResourcePermissionPolicy) (role : string)
    : ResourcePermission :=
  match List.find (λ c, bool_decide (c.1 = role)) policy with
  | Some c => c.2
  | None => PRead
  end.

Definition owns (user : User) (resource : Resource) : bool :=
  bool_decide (text (created_by resource) = text (user_uid user)).

Definition resolve_resource_permission (user : User) (resource : Resource)
    (policy : ResourcePermissionPolicy) : outcome ResourcePermission :=
  if bool_decide (role user = "superadmin") then Ret PManage
  else
    config ← normalize_permission_config (share_config resource) None "" false;
    if owns user resource then Ret PManage
    else
      let granted :=
        if scope_matches user (manage_scope config)
           && (match read_scope config with None => true | Some _ => false end
               || scope_matches user (read_scope config))
        then PManage
        else if scope_matches user (read_scope config) then PRead
        else PNone in
      Ret (minimum_permission granted (role_ceiling policy (role user))).

Definition permission_value (p : ResourcePermission) : string :=
  match p with PNone => "none" | PRead => "read" | PManage => "manage" end.

Definition require_resource_permission (actual required : ResourcePermission) : outcome unit :=
  if RESOURCE_PERMISSION_ORDER actual <? RESOURCE_PERMISSION_ORDER required
  then Raise (PermissionError ("需要 " +:+ permission_value required +:+ " 权限，当前为 "
                +:+ permission_value actual))
  else Ret tt.

Definition resolve_knowledge_base_permission (user : User) (resource : Resource) :=
  resolve_resource_permission user resource KNOWLEDGE_BASE_PERMISSION_POLICY.

Definition require_knowledge_base_permission (user : User) (resource : Resource)
    (required : ResourcePermission) : outcome ResourcePermission :=
  actual ← resolve_knowledge_base_permission user resource;
  _ ← require_resource_permission actual required;
  Ret actual.

Definition resolve_agent_permission (user : User) (resource : Resource) :=
  resolve_resource_permission user resource AGENT_PERMISSION_POLICY.

Definition resolve_skill_permission (user : User) (resource : Resource)
    : outcome ResourcePermission :=
  if bool_decide (source_scope resource = "personal") then
    Ret (if owns user resource then PManage else PNone)
  else resolve_resource_permission user resource SKILL_PERMISSION_POLICY.

(** * Canonical configurations *)

Definition canonical_scope (s : Scope) : Prop :=
  match s with
  | GlobalScope => True
  | DepartmentScope ids =>
      ids ≠ [] ∧ NoDup ids ∧ StronglySorted (λ x y, Z.leb x y = true) ids
  | UserScope uids =>
      uids ≠ [] ∧ NoDup uids ∧ StronglySorted (λ x y, str_leb x y = true) uids
      ∧ Forall (λ u, strip u = u ∧ u ≠ "") uids
  end.

Definition canonical_opt (s : option Scope) : Prop :=
  match s with Some s => canonical_scope s | None => True end.

(** A normalised scope as the dictionary that is stored. *)
Definition scope_json (s : Scope) : json :=
  match s with
  | GlobalScope => JObj [("access_level", JStr "global"); ("department_ids", JArr []);
                         ("user_uids", JArr [])]
  | DepartmentScope ids => JObj [("access_level", JStr "department");
      ("department_ids", JArr (map JInt ids)); ("user_uids", JArr [])]
  | UserScope uids => JObj [("access_level", JStr "user"); ("department_ids", JArr []);
      ("user_uids", JArr (map JStr uids))]
  end.

Definition opt_scope_json (s : option Scope) : json :=
  match s with Some s => scope_json s | None => JNull end.

Definition config_json (c : PermissionConfig) : json :=
  JObj [("version", JInt 2); ("read_scope", opt_scope_json (read_scope c));
        ("manage_scope", opt_scope_json (manage_scope c))].

Lemma remove_dups_id {A} `{EqDecision A} (l : list A) : NoDup l → remove_dups l = l.
Proof.
  induction 1 as [|x l Hx _ IH]; [done|]. simpl. destruct (decide_rel _ _ _); [done|]. by rewrite IH.
Qed.

Lemma insert_least {A} (leb : A → A → bool) x l :
  Forall (λ y, leb x y = true) l → insert_by leb x l = x :: l.
Proof. destruct 1 as [|y l Hy _]; simpl; [done|]. by rewrite Hy. Qed.

Lemma sort_sorted {A} (leb : A → A → bool) l :
  StronglySorted (λ x y, leb x y = true) l → sort_by leb l = l.
Proof. induction 1 as [|x l _ IH Hx]; simpl; [done|]. rewrite IH. by apply insert_least. Qed.

Lemma Zleb_total x y : (x <=? y) = true ∨ (y <=? x) = true.
Proof. rewrite !Z.leb_le. lia. Qed.

Lemma Zleb_trans x y z : (x <=? y) = true → (y <=? z) = true → (x <=? z) = true.
Proof. rewrite !Z.leb_le. lia. Qed.

Lemma sorted_ids_canonical l :
  NoDup (sorted_ids l) ∧ StronglySorted (λ x y, Z.leb x y = true) (sorted_ids l).
Proof.
  split; [unfold sorted_ids; rewrite sort_by_perm; apply NoDup_remove_dups|].
  apply sort_by_sorted; [apply Zleb_total|apply Zleb_trans].
Qed.

Lemma sorted_uids_canonical l :
  NoDup (sorted_uids l) ∧ StronglySorted (λ x y, str_leb x y = true) (sorted_uids l).
Proof.
  split; [unfold sorted_uids; rewrite sort_by_perm; apply NoDup_remove_dups|].
  apply sort_by_sorted; [apply str_leb_total|apply str_leb_trans].
Qed.

Lemma normalize_canonical v s : normalize_scope v = Ret s → canonical_opt s.
Proof.
  unfold normalize_scope. destruct v as [[| | | | | |fields]|]; try discriminate;
    try (by intros [= <-]).
  destruct (match jget "access_level" (JObj fields) with Some _ => _ | None => _ end);
    try discriminate.
  case_bool_decide; [by intros [= <-]|]. case_bool_decide; [|case_bool_decide; [|done]].
  - unfold department_scope, mbind, result_bind.
    destruct (iterate _) as [values|]; [|done]. destruct (map_result int_of values) as [ids|]; [|done].
    destruct (sorted_ids_canonical ids). destruct (sorted_ids ids); [done|]. by intros [= <-].
  - unfold user_scope, mbind, result_bind. destruct (iterate _) as [values|]; [|done].
    set (texts := List.filter _ _). destruct (sorted_uids_canonical texts).
    assert (F : Forall (λ u, strip u = u ∧ u ≠ "") (sorted_uids texts)).
    { unfold sorted_uids. rewrite sort_by_perm. apply Forall_forall.
      intros u. rewrite elem_of_remove_dups. intros Hu.
      apply list_elem_of_In, filter_In in Hu as [Hu Ne].
      apply in_map_iff in Hu as (x & <- & _). bool_hyps. split; [apply strip_idem|done]. }
    destruct (sorted_uids texts); [done|]. by intros [= <-].
Qed.

Lemma map_result_ints ids : map_result int_of (map JInt ids) = Ret ids.
Proof. induction ids as [|i ids IH]; [done|]. simpl. by rewrite IH. Qed.

Lemma iterate_array l : iterate (Some (JArr l)) = Ret l.
Proof. by destruct l. Qed.

Lemma filter_texts uids :
  Forall (λ u, strip u = u ∧ u ≠ "") uids →
  List.filter (λ s, negb (bool_decide (s = "")))
    (map (λ v, strip (str_of container_text v)) (map JStr uids)) = uids.
Proof.
  induction 1 as [|u l [Eu Nu] _ IH]; [done|]. cbn [map List.filter str_of].
  rewrite Eu, bool_decide_eq_false_2 by done. cbn [negb]. by rewrite IH.
Qed.

Lemma department_scope_json ids :
  canonical_scope (DepartmentScope ids) →
  department_scope (scope_json (DepartmentScope ids)) = Ret (DepartmentScope ids).
Proof.
  intros (Ne & Nd & So). unfold department_scope, mbind, result_bind.
  change (jget _ _) with (Some (JArr (map JInt ids))). rewrite iterate_array, map_result_ints.
  unfold sorted_ids. rewrite remove_dups_id, sort_sorted by done. by destruct ids.
Qed.

Lemma user_scope_json uids :
  canonical_scope (UserScope uids) →
  user_scope (scope_json (UserScope uids)) = Ret (UserScope uids).
Proof.
  intros (Ne & Nd & So & Fa). unfold user_scope, mbind, result_bind.
  change (jget _ _) with (Some (JArr (map JStr uids))). rewrite iterate_array, filter_texts by done.
  unfold sorted_uids. rewrite remove_dups_id, sort_sorted by done. by destruct uids.
Qed.

Lemma normalize_scope_json s : canonical_opt s → normalize_scope (Some (opt_scope_json s)) = Ret s.
Proof.
  destruct s as [[|ids|uids]|]; try done; intros C.
  - change (normalize_scope _) with
      (s ← department_scope (scope_json (DepartmentScope ids)); mret (M := outcome) (Some s)).
    by rewrite department_scope_json.
  - change (normalize_scope _) with
      (s ← user_scope (scope_json (UserScope uids)); mret (M := outcome) (Some s)).
    by rewrite user_scope_json.
Qed.
End permissions.

Lemma normalize_config_cases text config allowed message strict c :
  normalize_permission_config text config allowed message strict = Ret c →
  canonical_opt (read_scope c) ∧ canonical_opt (manage_scope c)
  ∧ level_allowed allowed (read_scope c) && level_allowed allowed (manage_scope c) = true
  ∧ (strict = true → manage_within_read (read_scope c) (manage_scope c) = true).
Proof.
  unfold normalize_permission_config, mbind, result_bind. intros H.
  destruct (jget "version" config) as [[| |z| | | |]|]; try done.
  destruct (decide (z = 2)) as [->|]; [|by repeat case_match].
  destruct (normalize_scope text (jget "read_scope" config)) as [r|] eqn:Er; [|done].
  destruct (normalize_scope text (jget "manage_scope" config)) as [m|] eqn:Em; [|done].
  apply normalize_canonical in Er, Em.
  destruct (strict && _) eqn:Es; [done|]. destruct (level_allowed _ _ && _) eqn:El; [|done].
  injection H as <-. repeat split; try done. simpl.
  intros ->. simpl in Es. by apply negb_false_iff.
Qed.

Lemma normalize_config_json text c allowed message strict :
  canonical_opt (read_scope c) → canonical_opt (manage_scope c) →
  level_allowed allowed (read_scope c) && level_allowed allowed (manage_scope c) = true →
  (strict = true → manage_within_read (read_scope c) (manage_scope c) = true) →
  normalize_permission_config text (config_json c) allowed message strict = Ret c.
Proof.
  intros Cr Cm La W. unfold normalize_permission_config, mbind, result_bind.
  change (jget "version" _) with (Some (JInt 2)).
  change (jget "read_scope" _) with (Some (opt_scope_json (read_scope c))).
  change (jget "manage_scope" _) with (Some (opt_scope_json (manage_scope c))).
  rewrite !normalize_scope_json, La by done. cbn [negb].
  destruct strict; simpl; [rewrite W by done; simpl|]; by destruct c.
Qed.

(** * Scopes and the ceiling *)

Lemma subset_spec {A} `{EqDecision A} (l k : list A) x : subset l k = true → x ∈ l → x ∈ k.
Proof.
  unfold subset. rewrite forallb_forall. intros H Hx.
  apply list_elem_of_In, H in Hx. by bool_hyps.
Qed.

Lemma managers_read user read manage :
  manage_within_read read manage = true → scope_matches user manage = true →
  read = None ∨ scope_matches user read = true.
Proof.
  destruct read as [[|ds|us]|], manage as [[|ds'|us']|]; simpl; try (by intros); auto; intros S M.
  - right. destruct (department_id user); [|done]. bool_hyps. eauto using subset_spec.
  - right. bool_hyps. eauto using subset_spec.
Qed.

Lemma minimum_permission_order l r :
  RESOURCE_PERMISSION_ORDER (minimum_permission l r)
  = Z.min (RESOURCE_PERMISSION_ORDER l) (RESOURCE_PERMISSION_ORDER r).
Proof. by destruct l, r. Qed.

(** What the scopes alone say: managers first, then readers. *)
Definition scope_grant (c : PermissionConfig) (user : User) : ResourcePermission :=
  if scope_matches user (manage_scope c) then PManage
  else if scope_matches user (read_scope c) then PRead
  else PNone.

Lemma require_iff actual required :
  require_resource_permission actual required = Ret tt
  ↔ RESOURCE_PERMISSION_ORDER required <= RESOURCE_PERMISSION_ORDER actual.
Proof. by destruct actual, required; unfold require_resource_permission; simpl; split; intros; try done; try lia. Qed.

(** * Properties *)

(** A normalised configuration is canonical (department identifiers and user names
    non-empty, sorted, without duplicates, user names stripped) and stable: the stored form of
    the result normalises to the same configuration, both when it is saved again under the same
    restrictions and when it is read back leniently to resolve a permission. *)
Theorem normalized_config_stable text config allowed message strict c :
  normalize_permission_config text config allowed message strict = Ret c →
  canonical_opt (read_scope c) ∧ canonical_opt (manage_scope c)
  ∧ normalize_permission_config text (config_json c) allowed message strict = Ret c
  ∧ normalize_permission_config text (config_json c) None "" false = Ret c.
Proof.
  intros (Cr & Cm & La & W)%normalize_config_cases.
  repeat split; try done; by apply normalize_config_json.
Qed.


(** * Witnesses *)

Section witnesses.
Let no_text : json → string := λ _, "".

Definition sample_config : json :=
  JObj [("version", JInt 2);
        ("read_scope", JObj [("access_level", JStr "user");
           ("user_uids", JArr [JStr " u2 "; JStr "u1"; JStr "u2"])]);
        ("manage_scope", JObj [("access_level", JStr "user"); ("user_uids", JArr [JStr "u2"])])].

Definition sample_scopes : PermissionConfig :=
  {| read_scope := Some (UserScope ["u1"; "u2"]); manage_scope := Some (UserScope ["u2"]) |}.

Lemma normalized_config_stable_witness :
  normalize_permission_config no_text sample_config None "" true = Ret sample_scopes
  ∧ normalize_permission_config no_text (config_json sample_scopes) None "" true = Ret sample_scopes.
Proof.
  assert (H : normalize_permission_config no_text sample_config None "" true = Ret sample_scopes)
    by reflexivity.
  split; [exact H|]. apply (normalized_config_stable no_text sample_config None "" true _ H).
Defined.


(** The creator of a knowledge base manages it whatever the role: the ceiling of an ordinary
    user is never consulted for the owner. *)
Lemma knowledge_base_creator_manages :
  resolve_knowledge_base_permission no_text
    {| role := "user"; user_uid := Some "u1"; department_id := None |}
    {| created_by := Some "u1"; share_config := config_json sample_scopes; source_scope := "" |}
  = Ret PManage
  ∧ role_ceiling KNOWLEDGE_BASE_PERMISSION_POLICY "user" = PRead.
Proof. by split. Qed.
End witnesses.
