(* ===== verification/Governance.v ===== *)
(** Project governance: the tables ([storage/postgres/models_business.py]), their data access
    ([repositories/governance_repository.py]) and the use cases
    ([services/governance_service.py]): topics and tasks are proposed, then reviewed once into
    canonical or rejected facts; decisions, topic comments and reports are recorded.

    A use case is one transaction: its writes are kept when it returns and undone when it
    raises.  A row id is a fresh UUID ([fresh_id]); the clock is read once ([now]).  The
    results are the rows, not the dictionaries made of them. *)

From stdpp Require Import prelude gmap strings list fin_maps.
From Stdlib Require Import ZArith Lia.
From S2P Require Import Prelude.
Local Open Scope Z_scope.

(** * Tables *)

Inductive GovernanceStatus := Proposed | Canonical | Rejected.

#[global] Instance GovernanceStatus_eq_dec : EqDecision GovernanceStatus.
Proof. solve_decision. Defined.

Module GTopic.
Record GovernanceTopic := mk {
  id : string;
  project_id : string;
  title : string;
  summary : option string;
  status : GovernanceStatus;
  source_channel : string;
  source_external_id : option string;
  source_url : option string;
  created_by : option string;
  review_owner_uid : option string;
  reviewed_at : option datetime;
  review_note : option string;
  created_at : datetime;
  updated_at : datetime
}.
#[global] Instance eta : Eta GovernanceTopic := λ r,
  mk (id r) (project_id r) (title r) (summary r) (status r) (source_channel r)
    (source_external_id r) (source_url r) (created_by r) (review_owner_uid r) (reviewed_at r)
    (review_note r) (created_at r) (updated_at r).
End GTopic.
Abbreviation GovernanceTopic := GTopic.GovernanceTopic.

Module GTask.
Record GovernanceTask := mk {
  id : string;
  project_id : string;
  topic_id : option string;
  decision_id : option string;
  assignee_agent_slug : option string;
  title : string;
  description : option string;
  status : GovernanceStatus;
  source_channel : string;
  source_external_id : option string;
  source_url : option string;
  created_by : option string;
  review_owner_uid : option string;
  reviewed_at : option datetime;
  review_note : option string;
  created_at : datetime;
  updated_at : datetime
}.
#[global] Instance eta : Eta GovernanceTask := λ r,
  mk (id r) (project_id r) (topic_id r) (decision_id r) (assignee_agent_slug r) (title r)
    (description r) (status r) (source_channel r) (source_external_id r) (source_url r)
    (created_by r) (review_owner_uid r) (reviewed_at r) (review_note r) (created_at r)
    (updated_at r).
End GTask.
Abbreviation GovernanceTask := GTask.GovernanceTask.

Inductive DecisionStatus := DecisionProposed | DecisionImplemented.

Module GDecision.
Record GovernanceDecision := mk {
  id : string;
  project_id : string;
  topic_id : option string;
  title : string;
  conclusion : string;
  rationale : option string;
  status : DecisionStatus;
  decided_by : option string;
  decided_at : option datetime;
  created_by : option string;
  created_at : datetime;
  updated_at : datetime
}.
End GDecision.
Abbreviation GovernanceDecision := GDecision.GovernanceDecision.

Module GComment.
Record GovernanceTopicComment := mk {
  id : string;
  topic_id : string;
  content : string;
  author_name : string;
  created_by : option string;
  created_at : datetime
}.
End GComment.
Abbreviation GovernanceTopicComment := GComment.GovernanceTopicComment.

Module GReport.
Record GovernanceReport := mk {
  id : string;
  project_id : string;
  title : string;
  summary : option string;
  content : json;
  source_run_id : option string;
  artifact_path : option string;
  created_by : option string;
  created_at : datetime;
  updated_at : datetime
}.
End GReport.
Abbreviation GovernanceReport := GReport.GovernanceReport.

(** The columns of [Project] that governance and delegation read. *)
Module GProject.
Record Project := mk {
  id : string;
  uid : string;
  selection_status : string;
  status : string;
  workdir_path : string
}.
End GProject.

(** [project_agents] holds the (project, agent slug) pairs bound to each other and [run_ids]
    the keys of [agent_runs]. *)
Module GDB.
Record GovernanceDB := mk {
  projects : gmap string GProject.Project;
  project_agents : gset (string * string);
  run_ids : gset string;
  topics : gmap string GovernanceTopic;
  comments : gmap string GovernanceTopicComment;
  decisions : gmap string GovernanceDecision;
  tasks : gmap string GovernanceTask;
  reports : gmap string GovernanceReport
}.
#[global] Instance eta : Eta GovernanceDB := λ r,
  mk (projects r) (project_agents r) (run_ids r) (topics r) (comments r) (decisions r) (tasks r)
    (reports r).
End GDB.
Abbreviation GovernanceDB := GDB.GovernanceDB.

(** What [_source_payload] and [_review_payload] take: the columns topics and tasks share. *)
Record SourceColumns := { channel : string; external_id : option string; url : option string }.
Record ReviewColumns :=
  { state : GovernanceStatus; owner_uid : option string; review_time : option datetime }.

Definition topic_source (r : GovernanceTopic) : SourceColumns :=
  {| channel := GTopic.source_channel r; external_id := GTopic.source_external_id r;
     url := GTopic.source_url r |}.
Definition task_source (r : GovernanceTask) : SourceColumns :=
  {| channel := GTask.source_channel r; external_id := GTask.source_external_id r;
     url := GTask.source_url r |}.
Definition topic_review (r : GovernanceTopic) : ReviewColumns :=
  {| state := GTopic.status r; owner_uid := GTopic.review_owner_uid r;
     review_time := GTopic.reviewed_at r |}.
Definition task_review (r : GovernanceTask) : ReviewColumns :=
  {| state := GTask.status r; owner_uid := GTask.review_owner_uid r;
     review_time := GTask.reviewed_at r |}.

Definition GOVERNANCE_SOURCE_CHANNELS : list string := ["project"; "multica"; "github"; "gitea"].

(** * Constraints *)

Definition present {A} (o : option A) : bool := match o with Some _ => true | None => false end.

(** [_GOVERNANCE_SOURCE_SHAPE_SQL]. *)
Definition source_shape (c : SourceColumns) : bool :=
  (bool_decide (channel c = "project") && negb (present (external_id c)) && negb (present (url c)))
  || (negb (bool_decide (channel c = "project")) && present (external_id c)).

(** [_GOVERNANCE_REVIEW_SHAPE_SQL]. *)
Definition review_shape (c : ReviewColumns) : bool :=
  match state c with
  | Proposed => negb (present (owner_uid c)) && negb (present (review_time c))
  | Canonical | Rejected => present (owner_uid c) && present (review_time c)
  end.

(** [ck_governance_decisions_decision_shape]. *)
Definition decision_shape (r : GovernanceDecision) : bool :=
  match GDecision.status r with
  | DecisionProposed => negb (present (GDecision.decided_by r)) && negb (present (GDecision.decided_at r))
  | DecisionImplemented => present (GDecision.decided_by r) && present (GDecision.decided_at r)
  end.

Definition fits (n : nat) (s : string) : bool := bool_decide (String.length s ≤ n)%nat.
Definition opt_fits (n : nat) (s : option string) : bool :=
  match s with Some s => fits n s | None => true end.

Definition source_fits (c : SourceColumns) : bool :=
  fits 32 (channel c) && opt_fits 191 (external_id c) && opt_fits 1024 (url c).

(** The unique index on (project, channel, external id), for rows that have an external id. *)
Definition same_source (project_id : string) (c : SourceColumns)
    (project_id' : string) (c' : SourceColumns) : bool :=
  match external_id c, external_id c' with
  | Some e, Some e' => bool_decide (project_id = project_id') && bool_decide (channel c = channel c')
                       && bool_decide (e = e')
  | _, _ => false
  end.

Definition require (b : bool) (e : exn) : M GovernanceDB unit := if b then mret tt else raise e.
Definition ref_exists {A} (table : gmap string A) (id : option string) : bool :=
  match id with Some id => present (table !! id) | None => true end.

Definition insert_topic (row : GovernanceTopic) : M GovernanceDB GovernanceTopic :=
  s ← gets id;
  _ ← require (fits 512 (GTopic.title row) && source_fits (topic_source row))
        (DataError "value too long");
  _ ← require (bool_decide (GTopic.source_channel row ∈ GOVERNANCE_SOURCE_CHANNELS))
        (IntegrityError "ck_governance_topics_source_channel");
  _ ← require (source_shape (topic_source row)) (IntegrityError "ck_governance_topics_source_shape");
  _ ← require (review_shape (topic_review row)) (IntegrityError "ck_governance_topics_review_shape");
  _ ← require (negb (present (GDB.topics s !! GTopic.id row)))
        (IntegrityError "governance_topics_pkey");
  _ ← require (negb (any (λ r, same_source (GTopic.project_id r) (topic_source r)
                                (GTopic.project_id row) (topic_source row)) (GDB.topics s)))
        (IntegrityError "uq_governance_topics_source_external");
  _ ← require (present (GDB.projects s !! GTopic.project_id row))
        (IntegrityError "fk_governance_topics_project_id");
  _ ← modify (λ s, s <| GDB.topics ::= <[GTopic.id row := row]> |>);
  mret row.

(** The agent reference of a task is not checked here: agents are not in this database. *)
Definition insert_task_row (row : GovernanceTask) : M GovernanceDB GovernanceTask :=
  s ← gets id;
  _ ← require (fits 512 (GTask.title row) && source_fits (task_source row)
               && opt_fits 80 (GTask.assignee_agent_slug row)) (DataError "value too long");
  _ ← require (bool_decide (GTask.source_channel row ∈ GOVERNANCE_SOURCE_CHANNELS))
        (IntegrityError "ck_governance_tasks_source_channel");
  _ ← require (source_shape (task_source row)) (IntegrityError "ck_governance_tasks_source_shape");
  _ ← require (review_shape (task_review row)) (IntegrityError "ck_governance_tasks_review_shape");
  _ ← require (negb (present (GDB.tasks s !! GTask.id row))) (IntegrityError "governance_tasks_pkey");
  _ ← require (negb (any (λ r, same_source (GTask.project_id r) (task_source r)
                                (GTask.project_id row) (task_source row)) (GDB.tasks s)))
        (IntegrityError "uq_governance_tasks_source_external");
  _ ← require (present (GDB.projects s !! GTask.project_id row))
        (IntegrityError "fk_governance_tasks_project_id");
  _ ← require (ref_exists (GDB.topics s) (GTask.topic_id row))
        (IntegrityError "fk_governance_tasks_topic_id");
  _ ← require (ref_exists (GDB.decisions s) (GTask.decision_id row))
        (IntegrityError "fk_governance_tasks_decision_id");
  _ ← modify (λ s, s <| GDB.tasks ::= <[GTask.id row := row]> |>);
  mret row.

Definition insert_decision (row : GovernanceDecision) : M GovernanceDB GovernanceDecision :=
  s ← gets id;
  _ ← require (fits 512 (GDecision.title row)) (DataError "value too long");
  _ ← require (decision_shape row) (IntegrityError "ck_governance_decisions_decision_shape");
  _ ← require (negb (present (GDB.decisions s !! GDecision.id row)))
        (IntegrityError "governance_decisions_pkey");
  _ ← require (present (GDB.projects s !! GDecision.project_id row))
        (IntegrityError "fk_governance_decisions_project_id");
  _ ← require (ref_exists (GDB.topics s) (GDecision.topic_id row))
        (IntegrityError "fk_governance_decisions_topic_id");
  _ ← modify (λ s, s <| GDB.decisions ::= <[GDecision.id row := row]> |>);
  mret row.

Definition insert_comment (row : GovernanceTopicComment) : M GovernanceDB GovernanceTopicComment :=
  s ← gets id;
  _ ← require (negb (present (GDB.comments s !! GComment.id row)))
        (IntegrityError "governance_topic_comments_pkey");
  _ ← require (present (GDB.topics s !! GComment.topic_id row))
        (IntegrityError "fk_governance_topic_comments_topic_id");
  _ ← modify (λ s, s <| GDB.comments ::= <[GComment.id row := row]> |>);
  mret row.

Definition insert_report (row : GovernanceReport) : M GovernanceDB GovernanceReport :=
  s ← gets id;
  _ ← require (fits 512 (GReport.title row) && opt_fits 512 (GReport.artifact_path row))
        (DataError "value too long");
  _ ← require (negb (present (GDB.reports s !! GReport.id row)))
        (IntegrityError "governance_reports_pkey");
  _ ← require (present (GDB.projects s !! GReport.project_id row))
        (IntegrityError "fk_governance_reports_project_id");
  _ ← require (match GReport.source_run_id row with
               | Some run => bool_decide (run ∈ GDB.run_ids s)
               | None => true
               end) (IntegrityError "fk_governance_reports_source_run_id");
  _ ← modify (λ s, s <| GDB.reports ::= <[GReport.id row := row]> |>);
  mret row.

(** Flushing a changed row; [ck_..._review_shape] is checked again. *)
Definition flush_topic (row : GovernanceTopic) : M GovernanceDB GovernanceTopic :=
  _ ← require (review_shape (topic_review row)) (IntegrityError "ck_governance_topics_review_shape");
  _ ← modify (λ s, s <| GDB.topics ::= <[GTopic.id row := row]> |>);
  mret row.

Definition flush_task (row : GovernanceTask) : M GovernanceDB GovernanceTask :=
  _ ← require (review_shape (task_review row)) (IntegrityError "ck_governance_tasks_review_shape");
  _ ← modify (λ s, s <| GDB.tasks ::= <[GTask.id row := row]> |>);
  mret row.

(** * GovernanceRepository *)

Definition add_topic (fresh_id project_id title : string) (summary : option string)
    (source_channel : string) (source_external_id source_url : option string)
    (operator : string) (now : datetime) : M GovernanceDB GovernanceTopic :=
  insert_topic {|
    GTopic.id := fresh_id; GTopic.project_id := project_id; GTopic.title := title;
    GTopic.summary := summary; GTopic.status := Proposed;
    GTopic.source_channel := source_channel; GTopic.source_external_id := source_external_id;
    GTopic.source_url := source_url; GTopic.created_by := Some operator;
    GTopic.review_owner_uid := None; GTopic.reviewed_at := None; GTopic.review_note := None;
    GTopic.created_at := now; GTopic.updated_at := now |}.

Definition get_topic (topic_id : string) : M GovernanceDB (option GovernanceTopic) :=
  gets (λ s, GDB.topics s !! topic_id).

(** With a row lock, held to the end of the transaction. *)
Definition get_topic_for_update := get_topic.

Definition by_source {A} (project_of : A → string) (source_of : A → SourceColumns)
    (project_id source_channel source_external_id : string) (r : A) : bool :=
  bool_decide (project_of r = project_id) && bool_decide (channel (source_of r) = source_channel)
  && bool_decide (external_id (source_of r) = Some source_external_id).

Definition find_topic_by_source (project_id source_channel source_external_id : string)
    : M GovernanceDB (option GovernanceTopic) :=
  gets (λ s, head (select (by_source GTopic.project_id topic_source project_id source_channel
                             source_external_id) (GDB.topics s))).

(** [ORDER BY created_at, id]. *)
Definition older {A} (time : A → datetime) (key : A → string) (a b : A) : bool :=
  if time a =? time b then str_leb (key a) (key b) else time a <? time b.

Definition list_topics (project_id : string) : M GovernanceDB (list GovernanceTopic) :=
  gets (λ s, sort_by (older GTopic.created_at GTopic.id)
    (select (λ r, bool_decide (GTopic.project_id r = project_id)) (GDB.topics s))).

Definition add_topic_comment (fresh_id topic_id content author_name operator : string)
    (now : datetime) : M GovernanceDB GovernanceTopicComment :=
  insert_comment {|
    GComment.id := fresh_id; GComment.topic_id := topic_id; GComment.content := content;
    GComment.author_name := author_name; GComment.created_by := Some operator;
    GComment.created_at := now |}.

Definition list_topic_comments (topic_id : string) : M GovernanceDB (list GovernanceTopicComment) :=
  gets (λ s, sort_by (older GComment.created_at GComment.id)
    (select (λ r, bool_decide (GComment.topic_id r = topic_id)) (GDB.comments s))).

Definition add_task (fresh_id project_id title : string) (description topic_id decision_id
    assignee_agent_slug : option string) (source_channel : string)
    (source_external_id source_url : option string) (operator : string) (now : datetime)
    : M GovernanceDB GovernanceTask :=
  insert_task_row {|
    GTask.id := fresh_id; GTask.project_id := project_id; GTask.topic_id := topic_id;
    GTask.decision_id := decision_id; GTask.assignee_agent_slug := assignee_agent_slug;
    GTask.title := title; GTask.description := description; GTask.status := Proposed;
    GTask.source_channel := source_channel; GTask.source_external_id := source_external_id;
    GTask.source_url := source_url; GTask.created_by := Some operator;
    GTask.review_owner_uid := None; GTask.reviewed_at := None; GTask.review_note := None;
    GTask.created_at := now; GTask.updated_at := now |}.

(** [get_task] and [get_task_for_update]. *)
Definition get_task (task_id : string) : M GovernanceDB (option GovernanceTask) :=
  gets (λ s, GDB.tasks s !! task_id).
Definition get_task_for_update := get_task.

Definition find_task_by_source (project_id source_channel source_external_id : string)
    : M GovernanceDB (option GovernanceTask) :=
  gets (λ s, head (select (by_source GTask.project_id task_source project_id source_channel
                             source_external_id) (GDB.tasks s))).

Definition list_tasks (project_id : string) : M GovernanceDB (list GovernanceTask) :=
  gets (λ s, sort_by (older GTask.created_at GTask.id)
    (select (λ r, bool_decide (GTask.project_id r = project_id)) (GDB.tasks s))).

Definition add_decision (fresh_id project_id title conclusion : string)
    (rationale topic_id : option string) (decided : bool) (operator : string) (now : datetime)
    : M GovernanceDB GovernanceDecision :=
  insert_decision {|
    GDecision.id := fresh_id; GDecision.project_id := project_id; GDecision.topic_id := topic_id;
    GDecision.title := title; GDecision.conclusion := conclusion; GDecision.rationale := rationale;
    GDecision.status := if decided then DecisionImplemented else DecisionProposed;
    GDecision.decided_by := if decided then Some operator else None;
    GDecision.decided_at := if decided then Some now else None;
    GDecision.created_by := Some operator;
    GDecision.created_at := now; GDecision.updated_at := now |}.

Definition get_decision (decision_id : string) : M GovernanceDB (option GovernanceDecision) :=
  gets (λ s, GDB.decisions s !! decision_id).

Definition list_decisions (project_id : string) : M GovernanceDB (list GovernanceDecision) :=
  gets (λ s, sort_by (older GDecision.created_at GDecision.id)
    (select (λ r, bool_decide (GDecision.project_id r = project_id)) (GDB.decisions s))).

Definition add_report (fresh_id project_id title : string) (summary : option string)
    (content : json) (source_run_id artifact_path : option string) (operator : string)
    (now : datetime) : M GovernanceDB GovernanceReport :=
  insert_report {|
    GReport.id := fresh_id; GReport.project_id := project_id; GReport.title := title;
    GReport.summary := summary; GReport.content := content;
    GReport.source_run_id := source_run_id; GReport.artifact_path := artifact_path;
    GReport.created_by := Some operator; GReport.created_at := now; GReport.updated_at := now |}.

Definition list_reports (project_id : string) : M GovernanceDB (list GovernanceReport) :=
  gets (λ s, sort_by (older GReport.created_at GReport.id)
    (select (λ r, bool_decide (GReport.project_id r = project_id)) (GDB.reports s))).

(** * governance_service *)

Record GUser := { user_uid : string; username : string }.

Definition MAX_TITLE_LENGTH : nat := 512.
Definition MAX_TOPIC_TEXT_LENGTH : N := 100000.

Definition normalize_title {S} (title : string) : M S string :=
  let normalized := strip title in
  if bool_decide (normalized = "") || negb (fits MAX_TITLE_LENGTH normalized)
  then raise (HTTPException 422 "invalid_title")
  else mret normalized.

Definition normalize_topic_text {S} (content : option string) (required : bool)
    : M S (option string) :=
  let normalized := strip (default "" content) in
  if required && bool_decide (normalized = "")
  then raise (HTTPException 422 "invalid_comment")
  else if (MAX_TOPIC_TEXT_LENGTH <? N.of_nat (String.length normalized))%N
  then raise (HTTPException 422 "topic_text_too_long")
  else mret (if bool_decide (normalized = "") then None else Some normalized).

(** [str(v).strip() if v else None]. *)
Definition strip_opt (v : option string) : option string :=
  match v with
  | Some s => if bool_decide (s = "") then None else Some (strip s)
  | None => None
  end.

Definition normalize_governance_source {S} (source_channel source_external_id source_url
    : option string) : M S SourceColumns :=
  let channel := strip (default "" source_channel) in
  if negb (bool_decide (channel ∈ GOVERNANCE_SOURCE_CHANNELS))
  then raise (HTTPException 422 "invalid_source")
  else
    let external_id := strip_opt source_external_id in
    let url := strip_opt source_url in
    if bool_decide (channel = "project") then
      if negb (falsy_str external_id) || negb (falsy_str url)
      then raise (HTTPException 422 "invalid_source")
      else mret {| channel := channel; external_id := None; url := None |}
    else if falsy_str external_id then raise (HTTPException 422 "invalid_source")
    else mret {| channel := channel; external_id := external_id; url := url |}.

(** [ProjectRepository.get_active_selectable_for_user]. *)
Definition get_active_selectable_for_user (project_id uid : string)
    : M GovernanceDB (option GProject.Project) :=
  gets (λ s, p ← GDB.projects s !! project_id;
             if bool_decide (GProject.uid p = uid)
                && bool_decide (GProject.selection_status p = "selectable")
                && bool_decide (GProject.status p = "active")
             then Some p else None).

Definition require_project (project_id : string) (user : GUser) : M GovernanceDB GProject.Project :=
  project ← get_active_selectable_for_user project_id (user_uid user);
  match project with
  | None => raise (HTTPException 404 "Project 不存在")
  | Some project => mret project
  end.

Definition create_governance_topic (fresh_id project_id title : string) (summary source_channel
    source_external_id source_url : option string) (user : GUser) (now : datetime)
    : M GovernanceDB GovernanceTopic :=
  atomic (
    normalized_title ← normalize_title title;
    source ← normalize_governance_source source_channel source_external_id source_url;
    project ← require_project project_id user;
    duplicate ← match external_id source with
                | Some e => find_topic_by_source (GProject.id project) (channel source) e
                | None => mret None
                end;
    if present duplicate then raise (HTTPException 409 "duplicate_source")
    else
      summary ← normalize_topic_text summary false;
      add_topic fresh_id (GProject.id project) normalized_title summary (channel source)
        (external_id source) (url source) (user_uid user) now).

(** [if row is None or row.project_id != project.id: raise HTTPException(404)]. *)
Definition found_in {A} (project_of : A → string) (project : GProject.Project) (detail : string)
    (row : option A) : M GovernanceDB A :=
  match row with
  | Some r => if bool_decide (project_of r = GProject.id project) then mret r
              else raise (HTTPException 404 detail)
  | None => raise (HTTPException 404 detail)
  end.

Definition list_governance_topics (project_id : string) (user : GUser)
    : M GovernanceDB (list GovernanceTopic) :=
  project ← require_project project_id user;
  list_topics (GProject.id project).

Definition get_governance_topic (project_id topic_id : string) (user : GUser)
    : M GovernanceDB GovernanceTopic :=
  project ← require_project project_id user;
  row ← get_topic topic_id;
  found_in GTopic.project_id project "议题不存在" row.

(** [if row.status != "proposed": raise HTTPException(409, invalid_state)]. *)
Definition require_proposed (status : GovernanceStatus) : M GovernanceDB unit :=
  if bool_decide (status = Proposed) then mret tt else raise (HTTPException 409 "invalid_state").

(** An update that changes no column is not sent, so [onupdate] leaves [updated_at] alone. *)
Definition update_governance_topic (project_id topic_id title : string) (summary : option string)
    (user : GUser) (now : datetime) : M GovernanceDB GovernanceTopic :=
  atomic (
    project ← require_project project_id user;
    row ← get_topic_for_update topic_id;
    row ← found_in GTopic.project_id project "议题不存在" row;
    _ ← require_proposed (GTopic.status row);
    title ← normalize_title title;
    summary ← normalize_topic_text summary false;
    if bool_decide (GTopic.title row = title) && bool_decide (GTopic.summary row = summary)
    then mret row
    else flush_topic (row <| GTopic.title := title |> <| GTopic.summary := summary |>
                          <| GTopic.updated_at := now |>)).

Definition list_governance_topic_comments (project_id topic_id : string) (user : GUser)
    : M GovernanceDB (list GovernanceTopicComment) :=
  project ← require_project project_id user;
  topic ← get_topic topic_id;
  topic ← found_in GTopic.project_id project "议题不存在" topic;
  list_topic_comments (GTopic.id topic).

Definition create_governance_topic_comment (fresh_id project_id topic_id content : string)
    (user : GUser) (now : datetime) : M GovernanceDB GovernanceTopicComment :=
  atomic (
    project ← require_project project_id user;
    topic ← get_topic_for_update topic_id;
    topic ← found_in GTopic.project_id project "议题不存在" topic;
    _ ← require_proposed (GTopic.status topic);
    normalized_content ← normalize_topic_text (Some content) true;
    add_topic_comment fresh_id (GTopic.id topic) (default "" normalized_content) (username user)
      (user_uid user) now).

Definition review_governance_topic (project_id topic_id : string) (approve : bool)
    (review_note : option string) (user : GUser) (now : datetime)
    : M GovernanceDB GovernanceTopic :=
  atomic (
    project ← require_project project_id user;
    row ← get_topic_for_update topic_id;
    row ← found_in GTopic.project_id project "议题不存在" row;
    _ ← require_proposed (GTopic.status row);
    flush_topic (row <| GTopic.status := if approve then Canonical else Rejected |>
                     <| GTopic.review_owner_uid := Some (user_uid user) |>
                     <| GTopic.reviewed_at := Some now |>
                     <| GTopic.review_note := review_note |>
                     <| GTopic.updated_at := now |>)).

(** A topic or decision a new row refers to must be one of the project. *)
Definition check_topic (project : GProject.Project) (topic_id : option string)
    : M GovernanceDB unit :=
  match topic_id with
  | None => mret tt
  | Some topic_id =>
      topic ← get_topic topic_id;
      _ ← found_in GTopic.project_id project "来源议题不存在" topic;
      mret tt
  end.

Definition check_decision (project : GProject.Project) (decision_id : option string)
    : M GovernanceDB unit :=
  match decision_id with
  | None => mret tt
  | Some decision_id =>
      decision ← get_decision decision_id;
      _ ← found_in GDecision.project_id project "来源决策不存在" decision;
      mret tt
  end.

Definition check_assignee (project : GProject.Project) (assignee_agent_slug : option string)
    : M GovernanceDB unit :=
  match assignee_agent_slug with
  | None => mret tt
  | Some slug =>
      s ← gets id;
      require (bool_decide ((GProject.id project, slug) ∈ GDB.project_agents s))
        (HTTPException 404 "指派数字员工未绑定该项目")
  end.

Definition create_governance_task (fresh_id project_id title : string) (description topic_id
    decision_id assignee_agent_slug source_channel source_external_id source_url : option string)
    (user : GUser) (now : datetime) : M GovernanceDB GovernanceTask :=
  atomic (
    normalized_title ← normalize_title title;
    source ← normalize_governance_source source_channel source_external_id source_url;
    project ← require_project project_id user;
    _ ← check_topic project topic_id;
    _ ← check_decision project decision_id;
    _ ← check_assignee project assignee_agent_slug;
    duplicate ← match external_id source with
                | Some e => find_task_by_source (GProject.id project) (channel source) e
                | None => mret None
                end;
    if present duplicate then raise (HTTPException 409 "duplicate_source")
    else add_task fresh_id (GProject.id project) normalized_title description topic_id decision_id
           assignee_agent_slug (channel source) (external_id source) (url source)
           (user_uid user) now).

Definition list_governance_tasks (project_id : string) (user : GUser)
    : M GovernanceDB (list GovernanceTask) :=
  project ← require_project project_id user;
  list_tasks (GProject.id project).

Definition review_governance_task (project_id task_id : string) (approve : bool)
    (review_note : option string) (user : GUser) (now : datetime) : M GovernanceDB GovernanceTask :=
  atomic (
    project ← require_project project_id user;
    row ← get_task_for_update task_id;
    row ← found_in GTask.project_id project "任务不存在" row;
    _ ← require_proposed (GTask.status row);
    flush_task (row <| GTask.status := if approve then Canonical else Rejected |>
                    <| GTask.review_owner_uid := Some (user_uid user) |>
                    <| GTask.reviewed_at := Some now |>
                    <| GTask.review_note := review_note |>
                    <| GTask.updated_at := now |>)).

Definition create_governance_decision (fresh_id project_id title conclusion : string)
    (rationale topic_id : option string) (decided : bool) (user : GUser) (now : datetime)
    : M GovernanceDB GovernanceDecision :=
  atomic (
    normalized_title ← normalize_title title;
    if bool_decide (strip conclusion = "") then raise (HTTPException 422 "invalid_conclusion")
    else
      project ← require_project project_id user;
      _ ← check_topic project topic_id;
      add_decision fresh_id (GProject.id project) normalized_title (strip conclusion) rationale
        topic_id decided (user_uid user) now).

Definition create_governance_report (fresh_id project_id title : string) (summary : option string)
    (content : option json) (source_run_id artifact_path : option string) (user : GUser)
    (now : datetime) : M GovernanceDB GovernanceReport :=
  atomic (
    normalized_title ← normalize_title title;
    project ← require_project project_id user;
    add_report fresh_id (GProject.id project) normalized_title summary (default (JObj []) content)
      source_run_id artifact_path (user_uid user) now).

Definition list_governance_reports (project_id : string) (user : GUser)
    : M GovernanceDB (list GovernanceReport) :=
  project ← require_project project_id user;
  list_reports (GProject.id project).

Definition list_governance_decisions (project_id : string) (user : GUser)
    : M GovernanceDB (list GovernanceDecision) :=
  project ← require_project project_id user;
  list_decisions (GProject.id project).
