(* ===== verification/GovernanceProps.v ===== *)
(** The governance property: every transaction makes one of a few changes ([gchange]: a new row
    that satisfies the constraints, an edit of a proposed topic, a review of a proposed row),
    and these keep the tables well formed and reviewed facts final. *)

From stdpp Require Import prelude gmap strings list fin_maps relations.
From Stdlib Require Import ZArith Lia.
From S2P Require Import Prelude Governance.
Local Open Scope Z_scope.

(** * The changes a transaction can make *)

Definition normal_title (title : string) : Prop :=
  strip title = title ∧ title ≠ "" ∧ (String.length title ≤ MAX_TITLE_LENGTH)%nat.

Definition refers {A} (table : gmap string A) (project_of : A → string) (project : string)
    (ref : option string) : Prop :=
  ∀ k, ref = Some k → ∃ r, table !! k = Some r ∧ project_of r = project.

Definition good_source (c : SourceColumns) : Prop :=
  channel c ∈ GOVERNANCE_SOURCE_CHANNELS ∧ source_shape c = true.

Definition topic_edited (r : GovernanceTopic) (title : string) (summary : option string)
    (now : datetime) : GovernanceTopic :=
  r <| GTopic.title := title |> <| GTopic.summary := summary |> <| GTopic.updated_at := now |>.

Definition topic_reviewed (r : GovernanceTopic) (approve : bool) (uid : string)
    (note : option string) (now : datetime) : GovernanceTopic :=
  r <| GTopic.status := if approve then Canonical else Rejected |>
    <| GTopic.review_owner_uid := Some uid |> <| GTopic.reviewed_at := Some now |>
    <| GTopic.review_note := note |> <| GTopic.updated_at := now |>.

Definition task_reviewed (r : GovernanceTask) (approve : bool) (uid : string)
    (note : option string) (now : datetime) : GovernanceTask :=
  r <| GTask.status := if approve then Canonical else Rejected |>
    <| GTask.review_owner_uid := Some uid |> <| GTask.reviewed_at := Some now |>
    <| GTask.review_note := note |> <| GTask.updated_at := now |>.

Inductive gchange (s : GovernanceDB) : GovernanceDB → Prop :=
  | no_change : gchange s s
  | new_topic row :
      GDB.topics s !! GTopic.id row = None → normal_title (GTopic.title row) →
      GTopic.status row = Proposed → good_source (topic_source row) →
      review_shape (topic_review row) = true →
      (∀ k r, GDB.topics s !! k = Some r →
        same_source (GTopic.project_id r) (topic_source r)
          (GTopic.project_id row) (topic_source row) = false) →
      gchange s (s <| GDB.topics ::= <[GTopic.id row := row]> |>)
  | new_task row :
      GDB.tasks s !! GTask.id row = None → normal_title (GTask.title row) →
      GTask.status row = Proposed → good_source (task_source row) →
      review_shape (task_review row) = true →
      (∀ k r, GDB.tasks s !! k = Some r →
        same_source (GTask.project_id r) (task_source r)
          (GTask.project_id row) (task_source row) = false) →
      refers (GDB.topics s) GTopic.project_id (GTask.project_id row) (GTask.topic_id row) →
      refers (GDB.decisions s) GDecision.project_id (GTask.project_id row) (GTask.decision_id row) →
      gchange s (s <| GDB.tasks ::= <[GTask.id row := row]> |>)
  | new_decision row :
      GDB.decisions s !! GDecision.id row = None → normal_title (GDecision.title row) →
      decision_shape row = true →
      refers (GDB.topics s) GTopic.project_id (GDecision.project_id row) (GDecision.topic_id row) →
      gchange s (s <| GDB.decisions ::= <[GDecision.id row := row]> |>)
  | new_comment row topic :
      GDB.comments s !! GComment.id row = None →
      GDB.topics s !! GComment.topic_id row = Some topic → GTopic.status topic = Proposed →
      gchange s (s <| GDB.comments ::= <[GComment.id row := row]> |>)
  | new_report row :
      GDB.reports s !! GReport.id row = None → normal_title (GReport.title row) →
      gchange s (s <| GDB.reports ::= <[GReport.id row := row]> |>)
  | edit_topic k r title summary now :
      GDB.topics s !! k = Some r → GTopic.status r = Proposed → normal_title title →
      review_shape (topic_review r) = true →
      gchange s (s <| GDB.topics ::= <[GTopic.id r := topic_edited r title summary now]> |>)
  | review_topic k r approve uid note now :
      GDB.topics s !! k = Some r → GTopic.status r = Proposed →
      gchange s (s <| GDB.topics ::= <[GTopic.id r := topic_reviewed r approve uid note now]> |>)
  | review_task k r approve uid note now :
      GDB.tasks s !! k = Some r → GTask.status r = Proposed →
      gchange s (s <| GDB.tasks ::= <[GTask.id r := task_reviewed r approve uid note now]> |>).

(** * Each use case makes such a change *)

Lemma require_inv b e s u s' : require b e s = (Ret u, s') → b = true ∧ s' = s.
Proof. unfold require. destruct b; [by intros [= <- <-]|done]. Qed.

Lemma present_false {A} (o : option A) : present o = false ↔ o = None.
Proof. by destruct o. Qed.

Lemma atomic_change {A} (m : M GovernanceDB A) s :
  (∀ a s', m s = (Ret a, s') → gchange s s') → gchange s (atomic m s).2.
Proof.
  intros H. unfold atomic. destruct (m s) as [[a|e] s'] eqn:E; simpl; [by eapply H|constructor].
Qed.

(** Guards of the constraints, and reads of the database. *)
Ltac run_require H :=
  let G := fresh "G" in
  apply bind_inv in H as ([] & ? & (G & ->)%require_inv & H); cbv beta in H.
Ltac run_gets H :=
  apply bind_inv in H as (? & ? & [= <- <-] & H); cbv beta in H.

Lemma normalize_title_inv {S} title (s : S) a s' :
  normalize_title title s = (Ret a, s') → normal_title a ∧ s' = s.
Proof.
  unfold normalize_title, raise, mret, M_ret. destruct (_ || _) eqn:E; [done|]. intros [= <- <-].
  unfold fits in E. bool_hyps. destruct E as [E1 E2]. split; [|done]. split; [apply strip_idem|done].
Qed.

Lemma normalize_topic_text_inv {S} c b (s : S) a s' :
  normalize_topic_text c b s = (Ret a, s') → s' = s.
Proof. unfold normalize_topic_text, raise, mret, M_ret. repeat case_match; by intros [= <- <-]. Qed.

Lemma normalize_source_inv {S} c e u (s : S) a s' :
  normalize_governance_source c e u s = (Ret a, s') → s' = s.
Proof. unfold normalize_governance_source, raise, mret, M_ret. repeat case_match; by intros [= <- <-]. Qed.

Lemma require_project_inv p u s a s' : require_project p u s = (Ret a, s') → s' = s.
Proof.
  unfold require_project, get_active_selectable_for_user. intros H. run_gets H.
  by case_match; [injection H as _ <-|].
Qed.

Lemma found_in_inv {A} (f : A → string) p d row s a s' :
  found_in f p d row s = (Ret a, s') → row = Some a ∧ f a = GProject.id p ∧ s' = s.
Proof.
  unfold found_in, raise, mret, M_ret. destruct row; [|done].
  case_bool_decide; [by intros [= -> <-]|done].
Qed.

Lemma require_proposed_inv st s a s' :
  require_proposed st s = (Ret a, s') → st = Proposed ∧ s' = s.
Proof. unfold require_proposed, raise, mret, M_ret. case_bool_decide; [by intros [= _ <-]|done]. Qed.

Lemma check_topic_inv p t s a s' :
  check_topic p t s = (Ret a, s') → refers (GDB.topics s) GTopic.project_id (GProject.id p) t ∧ s' = s.
Proof.
  unfold check_topic, get_topic. destruct t as [t|]; [|by intros [= _ <-]]. intros H. run_gets H.
  run H. injection H as _ <-. apply found_in_inv in R as (E & Ep & ->).
  split; [|done]. intros k [= <-]. eauto.
Qed.

Lemma check_decision_inv p t s a s' :
  check_decision p t s = (Ret a, s') →
  refers (GDB.decisions s) GDecision.project_id (GProject.id p) t ∧ s' = s.
Proof.
  unfold check_decision, get_decision. destruct t as [t|]; [|by intros [= _ <-]]. intros H. run_gets H.
  run H. injection H as _ <-. apply found_in_inv in R as (E & Ep & ->).
  split; [|done]. intros k [= <-]. eauto.
Qed.

Lemma check_assignee_inv p t s a s' : check_assignee p t s = (Ret a, s') → s' = s.
Proof.
  unfold check_assignee. destruct t; [|by intros [= _ <-]]. intros H. run_gets H.
  by apply require_inv in H as [].
Qed.

Lemma insert_topic_inv row s a s' :
  insert_topic row s = (Ret a, s') → normal_title (GTopic.title row) →
  GTopic.status row = Proposed → gchange s s'.
Proof.
  unfold insert_topic. intros H Ti St. run_gets H. do 7 run_require H. run H.
  injection R as _ <-. injection H as _ <-.
  apply negb_true_iff, present_false in G3. rewrite negb_true_iff, any_false in G4. bool_hyps.
  by constructor.
Qed.

Lemma insert_task_inv row s a s' :
  insert_task_row row s = (Ret a, s') → normal_title (GTask.title row) →
  GTask.status row = Proposed →
  refers (GDB.topics s) GTopic.project_id (GTask.project_id row) (GTask.topic_id row) →
  refers (GDB.decisions s) GDecision.project_id (GTask.project_id row) (GTask.decision_id row) →
  gchange s s'.
Proof.
  unfold insert_task_row. intros H Ti St Rt Rd. run_gets H. do 9 run_require H. run H.
  injection R as _ <-. injection H as _ <-.
  apply negb_true_iff, present_false in G3. rewrite negb_true_iff, any_false in G4. bool_hyps.
  by constructor.
Qed.

Lemma insert_decision_inv row s a s' :
  insert_decision row s = (Ret a, s') → normal_title (GDecision.title row) →
  refers (GDB.topics s) GTopic.project_id (GDecision.project_id row) (GDecision.topic_id row) →
  gchange s s'.
Proof.
  unfold insert_decision. intros H Ti Rt. run_gets H. do 5 run_require H. run H.
  injection R as _ <-. injection H as _ <-. apply negb_true_iff, present_false in G1.
  by constructor.
Qed.

Lemma insert_comment_inv row topic s a s' :
  insert_comment row s = (Ret a, s') → GDB.topics s !! GComment.topic_id row = Some topic →
  GTopic.status topic = Proposed → gchange s s'.
Proof.
  unfold insert_comment. intros H Ht St. run_gets H. do 2 run_require H. run H.
  injection R as _ <-. injection H as _ <-. apply negb_true_iff, present_false in G.
  by econstructor.
Qed.

Lemma insert_report_inv row s a s' :
  insert_report row s = (Ret a, s') → normal_title (GReport.title row) → gchange s s'.
Proof.
  unfold insert_report. intros H Ti. run_gets H. do 4 run_require H. run H.
  injection R as _ <-. injection H as _ <-. apply negb_true_iff, present_false in G0.
  by constructor.
Qed.

Lemma flush_topic_inv row s a s' :
  flush_topic row s = (Ret a, s') →
  review_shape (topic_review row) = true ∧ s' = s <| GDB.topics ::= <[GTopic.id row := row]> |>.
Proof.
  unfold flush_topic. intros H. run_require H. run H.
  injection R as _ <-. injection H as _ <-. done.
Qed.

Lemma flush_task_inv row s a s' :
  flush_task row s = (Ret a, s') → s' = s <| GDB.tasks ::= <[GTask.id row := row]> |>.
Proof.
  unfold flush_task. intros H. run_require H. run H.
  injection R as _ <-. injection H as _ <-. done.
Qed.

(** A read that finds duplicates changes nothing. *)
Lemma duplicate_read_inv {A} (o : option string) (f : string → M GovernanceDB (option A))
    (s : GovernanceDB) a s' :
  (∀ e, ∃ g, f e = gets g) →
  match o with Some e => f e | None => mret None end s = (Ret a, s') → s' = s.
Proof. intros G. destruct o as [e|]; [destruct (G e) as [g ->]|]; by intros [= _ <-]. Qed.

Ltac found H :=
  let E := fresh "E" in let Ep := fresh "Ep" in
  run H;
  match goal with R : found_in _ _ _ _ _ = _ |- _ => apply found_in_inv in R as (E & Ep & ->) end.
Ltac pass L H := run H; match goal with R : _ = (Ret _, _) |- _ => apply L in R; subst end.
Ltac proposed H :=
  let St := fresh "St" in
  run H; match goal with R : require_proposed _ _ = _ |- _ => apply require_proposed_inv in R as [St ->] end.
Ltac titled H :=
  let Ti := fresh "Ti" in
  run H; match goal with R : normalize_title _ _ = _ |- _ => apply normalize_title_inv in R as [Ti ->] end.

Lemma create_topic_change f p t sm c e u us now s :
  gchange s (create_governance_topic f p t sm c e u us now s).2.
Proof.
  apply atomic_change. intros a s' H. titled H. pass @normalize_source_inv H.
  pass require_project_inv H. run H.
  apply duplicate_read_inv in R; [subst|by intros; eexists].
  case_match; [done|]. pass @normalize_topic_text_inv H. by eapply insert_topic_inv.
Qed.

Lemma update_topic_change p t ti sm us now s :
  gchange s (update_governance_topic p t ti sm us now s).2.
Proof.
  apply atomic_change. intros a s' H. pass require_project_inv H.
  unfold get_topic_for_update, get_topic in H. run_gets H. found H. proposed H. titled H.
  pass @normalize_topic_text_inv H. case_match; [injection H as _ <-; constructor|].
  apply flush_topic_inv in H as [Sh ->]. by eapply (edit_topic s t a1).
Qed.

Lemma create_comment_change f p t c us now s :
  (∀ r, GDB.topics s !! t = Some r → GTopic.id r = t) →
  gchange s (create_governance_topic_comment f p t c us now s).2.
Proof.
  intros Key. apply atomic_change. intros a s' H. pass require_project_inv H.
  unfold get_topic_for_update, get_topic in H. run_gets H. found H. proposed H.
  pass @normalize_topic_text_inv H. eapply insert_comment_inv; [exact H| |exact St].
  simpl. by rewrite (Key _ E).
Qed.

Lemma review_topic_change p t ap note us now s :
  gchange s (review_governance_topic p t ap note us now s).2.
Proof.
  apply atomic_change. intros a s' H. pass require_project_inv H.
  unfold get_topic_for_update, get_topic in H. run_gets H. found H. proposed H.
  apply flush_topic_inv in H as [_ ->]. by eapply (review_topic s t a1).
Qed.

Lemma review_task_change p t ap note us now s :
  gchange s (review_governance_task p t ap note us now s).2.
Proof.
  apply atomic_change. intros a s' H. pass require_project_inv H.
  unfold get_task_for_update, get_task in H. run_gets H. found H. proposed H.
  apply flush_task_inv in H as ->. by eapply (review_task s t a1).
Qed.

Lemma create_task_change f p t d tp dc asg c e u us now s :
  gchange s (create_governance_task f p t d tp dc asg c e u us now s).2.
Proof.
  apply atomic_change. intros a s' H. titled H. pass @normalize_source_inv H.
  pass require_project_inv H.
  run H. apply check_topic_inv in R as [Rt ->]. run H. apply check_decision_inv in R as [Rd ->].
  pass check_assignee_inv H. run H.
  apply duplicate_read_inv in R; [subst|by intros; eexists].
  case_match; [done|]. by eapply insert_task_inv.
Qed.

Lemma create_decision_change f p t c ra tp de us now s :
  gchange s (create_governance_decision f p t c ra tp de us now s).2.
Proof.
  apply atomic_change. intros a s' H. titled H. case_match; [done|].
  pass require_project_inv H. run H. apply check_topic_inv in R as [Rt ->].
  by eapply insert_decision_inv.
Qed.

Lemma create_report_change f p t sm c r ar us now s :
  gchange s (create_governance_report f p t sm c r ar us now s).2.
Proof.
  apply atomic_change. intros a s' H. titled H. pass require_project_inv H.
  by eapply insert_report_inv.
Qed.

(** * The steps of the system

    [late_topic] and [late_task] are the insert of a creation whose earlier reads were overtaken
    by other transactions: only the database's own constraints then reject a second row with the
    same source.  [outside] is what other parts write: projects, bindings and runs. *)

Inductive gstep (s : GovernanceDB) : GovernanceDB → Prop :=
  | create_topic f p t sm c e u us now :
      gstep s (create_governance_topic f p t sm c e u us now s).2
  | update_topic p t ti sm us now : gstep s (update_governance_topic p t ti sm us now s).2
  | comment_topic f p t c us now : gstep s (create_governance_topic_comment f p t c us now s).2
  | review_a_topic p t ap note us now : gstep s (review_governance_topic p t ap note us now s).2
  | create_task f p t d tp dc asg c e u us now :
      gstep s (create_governance_task f p t d tp dc asg c e u us now s).2
  | review_a_task p t ap note us now : gstep s (review_governance_task p t ap note us now s).2
  | create_decision f p t c ra tp de us now :
      gstep s (create_governance_decision f p t c ra tp de us now s).2
  | create_report f p t sm c r ar us now :
      gstep s (create_governance_report f p t sm c r ar us now s).2
  | late_topic f p raw title sm source u op now :
      normalize_title raw s = (Ret title, s) →
      gstep s (atomic (add_topic f p title sm (channel source) (external_id source) u op now) s).2
  | late_task f p raw title d tp dc asg source u op now :
      normalize_title raw s = (Ret title, s) →
      check_topic p tp s = (Ret tt, s) → check_decision p dc s = (Ret tt, s) →
      gstep s (atomic (add_task f (GProject.id p) title d tp dc asg (channel source)
                         (external_id source) u op now) s).2
  | outside projects agents runs :
      gstep s (s <| GDB.projects := projects |> <| GDB.project_agents := agents |>
                 <| GDB.run_ids := runs |>).

Inductive greachable : GovernanceDB → Prop :=
  | greach_init projects agents runs :
      greachable (GDB.mk projects agents runs ∅ ∅ ∅ ∅ ∅)
  | greach_step s s' : greachable s → gstep s s' → greachable s'.

(** * The invariant *)

Record governance_ok (s : GovernanceDB) : Prop := {
  go_topic k r : GDB.topics s !! k = Some r →
    GTopic.id r = k ∧ normal_title (GTopic.title r) ∧ good_source (topic_source r)
    ∧ review_shape (topic_review r) = true;
  go_topic_unique k k' r r' : GDB.topics s !! k = Some r → GDB.topics s !! k' = Some r' →
    same_source (GTopic.project_id r) (topic_source r)
      (GTopic.project_id r') (topic_source r') = true → k = k';
  go_task k r : GDB.tasks s !! k = Some r →
    GTask.id r = k ∧ normal_title (GTask.title r) ∧ good_source (task_source r)
    ∧ review_shape (task_review r) = true
    ∧ refers (GDB.topics s) GTopic.project_id (GTask.project_id r) (GTask.topic_id r)
    ∧ refers (GDB.decisions s) GDecision.project_id (GTask.project_id r) (GTask.decision_id r);
  go_task_unique k k' r r' : GDB.tasks s !! k = Some r → GDB.tasks s !! k' = Some r' →
    same_source (GTask.project_id r) (task_source r)
      (GTask.project_id r') (task_source r') = true → k = k';
  go_decision k r : GDB.decisions s !! k = Some r →
    normal_title (GDecision.title r) ∧ decision_shape r = true
    ∧ refers (GDB.topics s) GTopic.project_id (GDecision.project_id r) (GDecision.topic_id r);
  go_comment k r : GDB.comments s !! k = Some r → is_Some (GDB.topics s !! GComment.topic_id r);
  go_report k r : GDB.reports s !! k = Some r → normal_title (GReport.title r)
}.

Lemma step_change s s' : governance_ok s → gstep s s' →
  gchange s s' ∨ ∃ projects agents runs, s' = s <| GDB.projects := projects |>
    <| GDB.project_agents := agents |> <| GDB.run_ids := runs |>.
Proof.
  intros Ok St. destruct St; [left..|right; eauto].
  - apply create_topic_change.
  - apply update_topic_change.
  - apply create_comment_change. intros r Hr. by apply (go_topic _ Ok).
  - apply review_topic_change.
  - apply create_task_change.
  - apply review_task_change.
  - apply create_decision_change.
  - apply create_report_change.
  - apply atomic_change. intros a s' E. apply normalize_title_inv in H as [Ti _].
    by eapply insert_topic_inv.
  - apply atomic_change. intros a s' E. apply normalize_title_inv in H as [Ti _].
    apply check_topic_inv in H0 as [Rt _]. apply check_decision_inv in H1 as [Rd _].
    by eapply insert_task_inv.
Qed.

(** References survive a table that only gains rows or rewrites a row in its project. *)
Lemma refers_insert {A} (table : gmap string A) (project_of : A → string) p ref k r :
  refers table project_of p ref →
  (∀ r0, table !! k = Some r0 → project_of r = project_of r0) →
  refers (<[k := r]> table) project_of p ref.
Proof.
  intros R Same k' E. destruct (R k' E) as (r' & Hr' & Ep). destruct (decide (k' = k)) as [->|Ne].
  - exists r. rewrite lookup_insert_eq. by rewrite (Same _ Hr').
  - exists r'. by rewrite lookup_insert_ne.
Qed.

Lemma same_source_sym p c p' c' : same_source p c p' c' = same_source p' c' p c.
Proof.
  unfold same_source. destruct (external_id c), (external_id c'); try done.
  f_equal; [f_equal|]; apply bool_decide_ext; split; by intros.
Qed.

(** A fresh row whose source differs from all the others keeps the sources unique. *)
Lemma unique_insert {A} (table : gmap string A) (p_of : A → string) (c_of : A → SourceColumns) k r :
  (∀ k k' r r', table !! k = Some r → table !! k' = Some r' →
    same_source (p_of r) (c_of r) (p_of r') (c_of r') = true → k = k') →
  (∀ k' r', table !! k' = Some r' → k' ≠ k →
    same_source (p_of r') (c_of r') (p_of r) (c_of r) = false) →
  ∀ k1 k2 r1 r2, <[k := r]> table !! k1 = Some r1 → <[k := r]> table !! k2 = Some r2 →
    same_source (p_of r1) (c_of r1) (p_of r2) (c_of r2) = true → k1 = k2.
Proof.
  intros U F k1 k2 r1 r2 [[<- <-]|[N1 H1]]%lookup_insert_Some [[<- <-]|[N2 H2]]%lookup_insert_Some S;
    [done| | |by eapply U].
  - rewrite same_source_sym, (F _ _ H2) in S; done.
  - rewrite (F _ _ H1) in S; done.
Qed.

Lemma put_topic_ok s row :
  governance_ok s → normal_title (GTopic.title row) → good_source (topic_source row) →
  review_shape (topic_review row) = true →
  (∀ k r, GDB.topics s !! k = Some r → k ≠ GTopic.id row →
    same_source (GTopic.project_id r) (topic_source r)
      (GTopic.project_id row) (topic_source row) = false) →
  (∀ r, GDB.topics s !! GTopic.id row = Some r → GTopic.project_id row = GTopic.project_id r) →
  governance_ok (s <| GDB.topics ::= <[GTopic.id row := row]> |>).
Proof.
  intros Ok Ti So Sh Un Pr. destruct Ok as [T U K V D C R].
  split; row_simpl; [| |intros k r Hr|done|intros k r Hr|intros k r Hr|done].
  - intros k r [[<- <-]|[_ Hr]]%lookup_insert_Some; [done|by apply T].
  - by apply unique_insert.
  - destruct (K k r Hr) as (E & Ti' & So' & Sh' & Rt & Rd). repeat split; try done; try apply So'; try apply Ti'.
    by apply refers_insert.
  - destruct (D k r Hr) as (Ti' & Sh' & Rt). repeat split; try done; try apply Ti'. by apply refers_insert.
  - destruct (C k r Hr) as [t Ht]. rewrite lookup_insert. case_decide; eauto.
Qed.

Lemma put_task_ok s row :
  governance_ok s → normal_title (GTask.title row) → good_source (task_source row) →
  review_shape (task_review row) = true →
  (∀ k r, GDB.tasks s !! k = Some r → k ≠ GTask.id row →
    same_source (GTask.project_id r) (task_source r)
      (GTask.project_id row) (task_source row) = false) →
  refers (GDB.topics s) GTopic.project_id (GTask.project_id row) (GTask.topic_id row) →
  refers (GDB.decisions s) GDecision.project_id (GTask.project_id row) (GTask.decision_id row) →
  governance_ok (s <| GDB.tasks ::= <[GTask.id row := row]> |>).
Proof.
  intros Ok Ti So Sh Un Rt Rd. destruct Ok as [T U K V D C R].
  split; row_simpl; [done|done| | |done|done|done].
  - intros k r [[<- <-]|[_ Hr]]%lookup_insert_Some; [|by apply K].
    repeat split; try done; try apply So; try apply Ti.
  - by apply unique_insert.
Qed.

Lemma change_ok s s' : governance_ok s → gchange s s' → governance_ok s'.
Proof.
  intros Ok Ch. pose proof Ok as [T U K V D C R].
  destruct Ch as [|row F Ti St So Sh Un|row F Ti St So Sh Un Rt Rd|row F Ti Sh Rt|row t F Ht St
    |row F Ti|k r ti sm now Hr St Ti Sh|k r ap uid note now Hr St|k r ap uid note now Hr St].
  - done.
  - apply put_topic_ok; try done; [by intros; eapply Un|intros r Hr; congruence].
  - apply put_task_ok; try done. by intros; eapply Un.
  - split; row_simpl; [done|done|intros k r Hr|done|intros k r Hr|done|done].
    + destruct (K k r Hr) as (E & Ti' & So' & Sh' & Rt' & Rd').
      repeat split; try done; try apply So'; try apply Ti'. apply refers_insert; [done|]. congruence.
    + apply lookup_insert_Some in Hr as [[<- <-]|[_ Hr]]; [|by eapply D].
      repeat split; try done; apply Ti.
  - split; row_simpl; [done..|intros k r Hr|done].
    apply lookup_insert_Some in Hr as [[<- <-]|[_ Hr]]; [by exists t|by eapply C].
  - split; row_simpl; [done..|intros k r Hr].
    apply lookup_insert_Some in Hr as [[<- <-]|[_ Hr]]; [done|by eapply R].
  - destruct (T k r Hr) as (E & _ & So & _).
    apply (put_topic_ok s (topic_edited r ti sm now)); unfold topic_edited; row_simpl; try done.
    + intros k' r' Hr' Ne. apply not_true_iff_false. intros S. apply Ne. rewrite E.
      by eapply (U k' k r' r).
    + rewrite E, Hr. by intros r' [= <-].
  - destruct (T k r Hr) as (E & Ti & So & _).
    apply (put_topic_ok s (topic_reviewed r ap uid note now)); unfold topic_reviewed; row_simpl; try done.
    + by destruct ap.
    + intros k' r' Hr' Ne. apply not_true_iff_false. intros S. apply Ne. rewrite E.
      by eapply (U k' k r' r).
    + rewrite E, Hr. by intros r' [= <-].
  - destruct (K k r Hr) as (E & Ti & So & _ & Rt & Rd).
    apply (put_task_ok s (task_reviewed r ap uid note now)); unfold task_reviewed; row_simpl; try done.
    + by destruct ap.
    + intros k' r' Hr' Ne. apply not_true_iff_false. intros S. apply Ne. rewrite E.
      by eapply (V k' k r' r).
Qed.

Lemma greachable_ok s : greachable s → governance_ok s.
Proof.
  induction 1 as [projects agents runs|s s' _ Ok St].
  - split; simpl; intros *; rewrite ?lookup_empty; discriminate.
  - destruct (step_change s s' Ok St) as [Ch|(p & a & r & ->)]; [by eapply change_ok|].
    by destruct Ok; split; row_simpl.
Qed.

(** * Reviewed facts are final *)

Definition topic_evolves (r r' : GovernanceTopic) : Prop :=
  GTopic.id r' = GTopic.id r ∧ GTopic.project_id r' = GTopic.project_id r
  ∧ topic_source r' = topic_source r ∧ GTopic.created_by r' = GTopic.created_by r
  ∧ (GTopic.status r ≠ Proposed → r' = r).

(** The only change a task ever sees is its review. *)
Definition task_evolves (r r' : GovernanceTask) : Prop :=
  r' = r ∨ (GTask.status r = Proposed ∧ ∃ ap uid note now, r' = task_reviewed r ap uid note now).

Definition table_evolves {A} (R : A → A → Prop) (t t' : gmap string A) : Prop :=
  ∀ k r, t !! k = Some r → ∃ r', t' !! k = Some r' ∧ R r r'.

Record governance_evolves (s s' : GovernanceDB) : Prop := {
  ge_topics : table_evolves topic_evolves (GDB.topics s) (GDB.topics s');
  ge_tasks : table_evolves task_evolves (GDB.tasks s) (GDB.tasks s');
  ge_decisions : GDB.decisions s ⊆ GDB.decisions s';
  ge_comments : GDB.comments s ⊆ GDB.comments s';
  ge_reports : GDB.reports s ⊆ GDB.reports s'
}.

#[local] Instance topic_evolves_preorder : PreOrder topic_evolves.
Proof.
  split.
  - intros r. by repeat split.
  - intros a b c (E1 & E2 & E3 & E4 & F) (E1' & E2' & E3' & E4' & F').
    split; [congruence|]. split; [congruence|]. split; [congruence|]. split; [congruence|].
    intros N. specialize (F N) as ->. by apply F'.
Qed.

#[local] Instance task_evolves_preorder : PreOrder task_evolves.
Proof.
  split; [by left|]. intros a b c [->|(Pa & ap & uid & note & now & ->)] H; [done|].
  destruct H as [->|[Pb _]]; [right; by eauto 10|].
  exfalso. revert Pb. unfold task_reviewed. row_simpl. by destruct ap.
Qed.

#[local] Instance table_evolves_preorder {A} (R : A → A → Prop) `{!PreOrder R} :
  PreOrder (table_evolves R).
Proof.
  split.
  - intros t k r Hr. exists r. split; [done|reflexivity].
  - intros t1 t2 t3 H12 H23 k r Hr. destruct (H12 _ _ Hr) as (r2 & Hr2 & E).
    destruct (H23 _ _ Hr2) as (r3 & Hr3 & E'). exists r3. split; [done|by etrans].
Qed.

#[local] Instance governance_evolves_preorder : PreOrder governance_evolves.
Proof.
  split; [by split|]. intros a b c [] []. split; by etrans.
Qed.

Lemma table_insert {A} (R : A → A → Prop) `{!PreOrder R} (t : gmap string A) k r' :
  (∀ r, t !! k = Some r → R r r') → table_evolves R t (<[k := r']> t).
Proof.
  intros H k0 r Hr. destruct (decide (k0 = k)) as [->|Ne].
  - exists r'. rewrite lookup_insert_eq. auto.
  - exists r. rewrite lookup_insert_ne by done. split; [done|reflexivity].
Qed.

Lemma change_evolves s s' : governance_ok s → gchange s s' → governance_evolves s s'.
Proof.
  intros [T _ K _ _ _ _] Ch.
  destruct Ch as [|row F Ti St So Sh Un|row F Ti St So Sh Un Rt Rd|row F Ti Sh Rt|row t F Ht St
    |row F Ti|k r ti sm now Hr St Ti Sh|k r ap uid note now Hr St|k r ap uid note now Hr St];
    [reflexivity|split; row_simpl; try reflexivity; try by apply insert_subseteq..].
  - apply table_insert; [apply _|]. intros r Hr. congruence.
  - apply table_insert; [apply _|]. intros r Hr. congruence.
  - destruct (T k r Hr) as [E _]. rewrite E. apply table_insert; [apply _|]. rewrite Hr.
    intros ? [= <-]. unfold topic_edited, topic_evolves, topic_source. row_simpl. by repeat split.
  - destruct (T k r Hr) as [E _]. rewrite E. apply table_insert; [apply _|]. rewrite Hr.
    intros ? [= <-]. unfold topic_reviewed, topic_evolves, topic_source. row_simpl. by repeat split.
  - destruct (K k r Hr) as [E _]. rewrite E. apply table_insert; [apply _|]. rewrite Hr.
    intros ? [= <-]. right. by eauto 10.
Qed.

Lemma step_evolves s s' : governance_ok s → gstep s s' → governance_evolves s s'.
Proof.
  intros Ok St. destruct (step_change s s' Ok St) as [Ch|(p & a & r & ->)];
    [by apply change_evolves|by split].
Qed.


(** * Witness *)

Definition demo_user : GUser := {| user_uid := "u1"; username := "Ann" |}.
Definition demo_project : GProject.Project :=
  {| GProject.id := "p"; GProject.uid := "u1"; GProject.selection_status := "selectable";
     GProject.status := "active"; GProject.workdir_path := "projects/yuanlei" |}.
Definition demo_start : GovernanceDB := GDB.mk {["p" := demo_project]} ∅ ∅ ∅ ∅ ∅ ∅ ∅.
Definition demo_create : M GovernanceDB GovernanceTopic :=
  create_governance_topic "t" "p" " Plan " None (Some "github") (Some "7") None demo_user 1.
Definition demo_review : M GovernanceDB GovernanceTopic :=
  review_governance_topic "p" "t" true None demo_user 2.


(** A second review, and a second creation from the same source, are refused. *)
Example second_review_refused :
  (demo_review (demo_review (demo_create demo_start).2).2).1 = Raise (HTTPException 409 "invalid_state").
Proof. by vm_compute. Qed.

Example second_source_refused :
  (demo_create (demo_create demo_start).2).1 = Raise (HTTPException 409 "duplicate_source").
Proof. by vm_compute. Qed.
