(* ===== verification/Schedules.v ===== *)
(** Scheduled agents: the tables of jobs and triggers ([storage/postgres/models_business.py]),
    their data access ([repositories/scheduled_agent_repository.py]) and the use cases and worker
    loop of [services/scheduled_agent_service.py].

    A job fires at [next_run_at]; a trigger row ([ScheduledAgentRun]) records one firing, or one
    manual start, with a snapshot of the job.  Dispatching a trigger submits one request through
    [submit_agent_request], which commits; the trigger is then marked in a second transaction.
    [others] is what other processes commit between two statements that the code does not
    protect by a lock, and [delivery] how the work after the commit of the submission ends (it
    creates the working directory and wakes the worker).

    croniter, the time zone database, the dump of a LangChain message and the text of an exception
    ([str(exc)], which Starlette defines for HTTP errors) are the interface [ScheduleLibrary].  A clock reading is an argument; a call that reads the clock several
    times gets one reading. *)

From stdpp Require Import prelude gmap strings list fin_maps.
From Stdlib Require Import ZArith Lia.
From S2P Require Import Prelude PyLib Schema RunRepo Requests Queue Submission.
Local Open Scope Z_scope.

(** An aware datetime is its moment; [croniter_next] is [get_next] of the expression in the
    zone, or [None] where it raises. *)
Class ScheduleLibrary := {
  croniter_is_valid : string → bool;
  zone_known : string → bool;
  croniter_next : string → string → datetime → option datetime;
  croniter_next_later cron_expression zone after t :
    croniter_next cron_expression zone after = Some t → after < t;
  croniter_next_representable cron_expression zone after t :
    croniter_next cron_expression zone after = Some t → representable t;
  human_message_dump : string → json;
  exn_text : exn → string
}.

(** * Tables *)

Module Job.
Record ScheduledAgentJob := mk {
  id : string;
  uid : string;
  creation_request_id : string;
  creation_intent_hash : string;
  project_id : string;
  agent_slug : string;
  name : string;
  prompt : string;
  tool_approval_mode : string;
  model_spec : option string;
  cron_expression : string;
  timezone : string;
  enabled : bool;
  deleted_at : option datetime;
  next_run_at : datetime;
  created_at : datetime;
  updated_at : datetime;
}.
#[global] Instance eta : Eta ScheduledAgentJob := λ r,
  mk (id r) (uid r) (creation_request_id r) (creation_intent_hash r) (project_id r)
    (agent_slug r) (name r) (prompt r) (tool_approval_mode r) (model_spec r)
    (cron_expression r) (timezone r) (enabled r) (deleted_at r) (next_run_at r)
    (created_at r) (updated_at r).
End Job.
Abbreviation ScheduledAgentJob := Job.ScheduledAgentJob.

Inductive TriggerStatus := Dispatching | Submitted | TrigFailed | TrigCancelled | Skipped.

#[global] Instance TriggerStatus_eq_dec : EqDecision TriggerStatus.
Proof. solve_decision. Defined.

Module Trig.
Record ScheduledAgentRun := mk {
  id : string;
  job_id : string;
  request_id : string;
  thread_id : string;
  trigger : string;
  occurrence_key : string;
  scheduled_for : datetime;
  project_id : string;
  agent_slug : string;
  conversation_title : string;
  prompt : string;
  tool_approval_mode : string;
  model_spec : option string;
  status : TriggerStatus;
  error_message : option string;
  created_at : datetime;
}.
#[global] Instance eta : Eta ScheduledAgentRun := λ r,
  mk (id r) (job_id r) (request_id r) (thread_id r) (trigger r) (occurrence_key r)
    (scheduled_for r) (project_id r) (agent_slug r) (conversation_title r) (prompt r)
    (tool_approval_mode r) (model_spec r) (status r) (error_message r) (created_at r).
End Trig.
Abbreviation ScheduledAgentRun := Trig.ScheduledAgentRun.

(** The tables of this component beside those of the agent runs; of a user only [is_deleted]. *)
Module Sch.
Record Scheduler := mk {
  agents : Database;
  jobs : gmap string ScheduledAgentJob;
  triggers : gmap string ScheduledAgentRun;
  users : gmap string Z;
}.
#[global] Instance eta : Eta Scheduler := λ s,
  mk (agents s) (jobs s) (triggers s) (users s).
End Sch.
Abbreviation Scheduler := Sch.Scheduler.

(** A query or service of the agent-run tables. *)
Definition on_agents {A} (m : M Database A) : M Scheduler A := λ s,
  let '(r, db) := m (Sch.agents s) in (r, s <| Sch.agents := db |>).

Definition lift {A} (o : outcome A) : M Scheduler A := λ s, (o, s).

(** * Data access *)

Definition put_job (job : ScheduledAgentJob) : M Scheduler unit :=
  modify (λ s, s <| Sch.jobs ::= <[Job.id job := job]> |>).

Definition put_trigger (run : ScheduledAgentRun) : M Scheduler unit :=
  modify (λ s, s <| Sch.triggers ::= <[Trig.id run := run]> |>).

(** [ORDER BY created_at DESC, id DESC]. *)
Definition job_newest (a b : ScheduledAgentJob) : bool :=
  if Job.created_at a =? Job.created_at b then str_leb (Job.id b) (Job.id a)
  else Job.created_at b <=? Job.created_at a.

Definition list_jobs (uid : string) : M Scheduler (list ScheduledAgentJob) :=
  gets (λ s, sort_by job_newest
    (select (λ j, bool_decide (Job.uid j = uid) && bool_decide (Job.deleted_at j = None))
       (Sch.jobs s))).

(** The locking read is the same query. *)
Definition get_job (job_id uid : string) (include_deleted : bool)
    : M Scheduler (option ScheduledAgentJob) :=
  gets (λ s, j ← Sch.jobs s !! job_id;
             if bool_decide (Job.uid j = uid)
                && (include_deleted || bool_decide (Job.deleted_at j = None))
             then Some j else None).

Definition get_job_by_creation_request (uid request_id : string)
    : M Scheduler (option ScheduledAgentJob) :=
  gets (λ s, head (select (λ j, bool_decide (Job.uid j = uid)
    && bool_decide (Job.creation_request_id j = request_id)) (Sch.jobs s))).

Definition job_columns_fit (job : ScheduledAgentJob) : bool :=
  let fits n s := (Z.of_nat (String.length s) <=? n) in
  fits 100 (Job.cron_expression job) && fits 64 (Job.timezone job)
  && fits 64 (Job.project_id job) && fits 64 (Job.agent_slug job) && fits 255 (Job.name job)
  && fits 64 (Job.creation_request_id job) && fits 512 (default EmptyString (Job.model_spec job)).

(** Inserting a job: the column widths, the check, the keys and the foreign keys. *)
Definition add_job (job : ScheduledAgentJob) : M Scheduler unit :=
  s ← gets id;
  if negb (job_columns_fit job) then raise (DataError "value too long")
  else if negb (bool_decide (Job.tool_approval_mode job ∈ TOOL_APPROVAL_MODES))
  then raise (IntegrityError "ck_scheduled_agent_jobs_tool_approval_mode")
  else if bool_decide (is_Some (Sch.jobs s !! Job.id job))
  then raise (IntegrityError "scheduled_agent_jobs_pkey")
  else if any (λ o, bool_decide (Job.uid o = Job.uid job)
                    && bool_decide (Job.creation_request_id o = Job.creation_request_id job))
            (Sch.jobs s)
  then raise (IntegrityError "uq_scheduled_agent_jobs_uid_creation_request")
  else if bool_decide (Sch.users s !! Job.uid job = None)
  then raise (IntegrityError "scheduled_agent_jobs_uid_fkey")
  else if match DB.projects (Sch.agents s) !! Job.project_id job with
          | Some p => negb (bool_decide (Proj.uid p = Job.uid job))
          | None => true
          end
  then raise (IntegrityError "fk_scheduled_agent_jobs_project_uid")
  else put_job job.

(** The flush of a changed job. *)
Definition flush_job (job : ScheduledAgentJob) : M Scheduler unit :=
  if negb (job_columns_fit job) then raise (DataError "value too long") else put_job job.

(** [ORDER BY scheduled_for DESC, id DESC]. *)
Definition trigger_newest (a b : ScheduledAgentRun) : bool :=
  if Trig.scheduled_for a =? Trig.scheduled_for b then str_leb (Trig.id b) (Trig.id a)
  else Trig.scheduled_for b <=? Trig.scheduled_for a.

(** [row_number() OVER (PARTITION BY job_id ORDER BY scheduled_for DESC, id DESC)]. *)
Definition trigger_position (r : ScheduledAgentRun) (s : Scheduler) : nat :=
  length (select (λ o, bool_decide (Trig.job_id o = Trig.job_id r) && trigger_newest o r)
            (Sch.triggers s)).

(** The request of a trigger, and the run it was dispatched to: outer joins. *)
Definition request_of (request_id : string) (s : Scheduler) : option AgentRunRequest :=
  DB.run_requests (Sch.agents s) !! request_id.

Definition run_of (request : option AgentRunRequest) (s : Scheduler) : option AgentRun :=
  r ← request; k ← Req.dispatched_run_id r; DB.runs (Sch.agents s) !! k.

Definition get_request_and_run (request_id : string)
    : M Scheduler (option AgentRunRequest * option AgentRun) :=
  gets (λ s, (request_of request_id s, run_of (request_of request_id s) s)).

Definition recent_leb (a b : ScheduledAgentRun) : bool :=
  if bool_decide (Trig.job_id a = Trig.job_id b) then trigger_newest a b
  else str_leb (Trig.job_id a) (Trig.job_id b).

Definition list_recent_runs (job_ids : list string) (uid : string) (limit_per_job : nat)
    : M Scheduler (list (ScheduledAgentRun * option AgentRunRequest * option AgentRun)) :=
  if bool_decide (job_ids = []) then mret []
  else gets (λ s,
    map (λ r, let request := request_of (Trig.request_id r) s in (r, request, run_of request s))
      (sort_by recent_leb
         (select (λ r, bool_decide (Trig.job_id r ∈ job_ids)
                       && match Sch.jobs s !! Trig.job_id r with
                          | Some j => bool_decide (Job.uid j = uid)
                          | None => false
                          end
                       && (trigger_position r s <=? limit_per_job)%nat)
            (Sch.triggers s)))).

(** A due job of an active user that no other transaction has locked. *)
Definition is_due (locked : list string) (now : datetime) (s : Scheduler)
    (job : ScheduledAgentJob) : bool :=
  bool_decide (Sch.users s !! Job.uid job = Some 0) && Job.enabled job
  && bool_decide (Job.deleted_at job = None) && (Job.next_run_at job <=? now)
  && negb (bool_decide (Job.id job ∈ locked)).

(** [ORDER BY next_run_at ASC, id ASC]. *)
Definition due_leb (a b : ScheduledAgentJob) : bool :=
  if Job.next_run_at a =? Job.next_run_at b then str_leb (Job.id a) (Job.id b)
  else Job.next_run_at a <=? Job.next_run_at b.

Definition claim_due_job (locked : list string) (now : datetime)
    : M Scheduler (option ScheduledAgentJob) :=
  gets (λ s, head (sort_by due_leb (select (is_due locked now s) (Sch.jobs s)))).

(** A trigger whose execution has not ended, by the facts of its request and run. *)
Definition unfinished (s : Scheduler) (r : ScheduledAgentRun) : bool :=
  match Trig.status r with
  | Dispatching => true
  | Submitted =>
      match request_of (Trig.request_id r) s with
      | None => true
      | Some request =>
          match Req.status request with
          | Queued => true
          | Dispatched =>
              match run_of (Some request) s with
              | None => true
              | Some run => negb (is_terminal (Run.status run))
              end
          | _ => false
          end
      end
  | _ => false
  end.

Definition has_active_run (job_id : string) : M Scheduler bool :=
  gets (λ s, any (λ r, bool_decide (Trig.job_id r = job_id) && unfinished s r) (Sch.triggers s)).

(** Inserting a trigger: its keys and the foreign key. *)
Definition add_run (run : ScheduledAgentRun) : M Scheduler unit :=
  s ← gets id;
  if bool_decide (is_Some (Sch.triggers s !! Trig.id run))
  then raise (IntegrityError "scheduled_agent_runs_pkey")
  else if any (λ o, bool_decide (Trig.job_id o = Trig.job_id run)
                    && bool_decide (Trig.occurrence_key o = Trig.occurrence_key run)) (Sch.triggers s)
  then raise (IntegrityError "uq_scheduled_agent_runs_job_occurrence")
  else if any (λ o, bool_decide (Trig.request_id o = Trig.request_id run)) (Sch.triggers s)
  then raise (IntegrityError "uq_scheduled_agent_runs_request")
  else if any (λ o, bool_decide (Trig.thread_id o = Trig.thread_id run)) (Sch.triggers s)
  then raise (IntegrityError "uq_scheduled_agent_runs_thread")
  else if bool_decide (Sch.jobs s !! Trig.job_id run = None)
  then raise (IntegrityError "scheduled_agent_runs_job_id_fkey")
  else put_trigger run.

Definition get_run (run_id : string) : M Scheduler (option ScheduledAgentRun) :=
  gets (λ s, Sch.triggers s !! run_id).

(** [ORDER BY created_at ASC, id ASC]. *)
Definition trigger_oldest (a b : ScheduledAgentRun) : bool :=
  if Trig.created_at a =? Trig.created_at b then str_leb (Trig.id a) (Trig.id b)
  else Trig.created_at a <=? Trig.created_at b.

Definition list_dispatching_runs (before : datetime) (limit : nat)
    : M Scheduler (list ScheduledAgentRun) :=
  gets (λ s, take limit (sort_by trigger_oldest
    (select (λ r, bool_decide (Trig.status r = Dispatching) && (Trig.created_at r <=? before))
       (Sch.triggers s)))).

Definition delete_job (job : ScheduledAgentJob) (now : datetime) : M Scheduler unit :=
  put_job (job <| Job.enabled := false |> <| Job.deleted_at := Some now |>
               <| Job.updated_at := now |>).

(** * Validation *)

Definition SCHEDULED_AGENT_SOURCE : string := "scheduled_agent".
Definition MAX_PROMPT_LENGTH : Z := 32000.
Definition MAX_NAME_LENGTH : Z := 255.

(** [str(v or "").strip()]. *)
Definition text_of (container_text : json → string) (v : option json) : string :=
  match v with
  | Some v => if truthy v then strip (str_of container_text v) else ""
  | None => ""
  end.

Definition build_request_id (prefix value : string) : string :=
  (str_take 16 prefix ++ "-" ++ str_take 47 (sha256_hexdigest value))%string.

(** [REQUEST_ID_PATTERN.fullmatch]. *)
Definition request_id_char (c : Ascii.ascii) : bool :=
  let n := Z.of_N (Ascii.N_of_ascii c) in
  ((65 <=? n) && (n <=? 90)) || ((97 <=? n) && (n <=? 122)) || ((48 <=? n) && (n <=? 57))
  || (n =? 46) || (n =? 95) || (n =? 58) || (n =? 45).

Section schedules.
Context `{ScheduleLibrary} `{DispatchScope} `{AgentCatalog} (container_text : json → string).

Definition normalize_request_id (value : option json) : M Scheduler string :=
  let request_id := text_of container_text value in
  let n := Z.of_nat (String.length request_id) in
  if negb ((8 <=? n) && (n <=? 64)) || negb (all_chars request_id_char request_id)
  then raise (HTTPException 422 "request_id 必须是 8 到 64 位字母、数字或 ._:-")
  else mret request_id.

Definition normalize_text (value : option json) (field : string) (maximum : Z)
    : M Scheduler string :=
  let normalized := text_of container_text value in
  if bool_decide (normalized = "") then raise (HTTPException 422 (field ++ " 不能为空")%string)
  else if maximum <? Z.of_nat (String.length normalized)
  then raise (HTTPException 422 (field ++ " 不能超过上限")%string)
  else mret normalized.

Definition next_run_at (cron_expression timezone : string) (after : datetime)
    : outcome datetime :=
  if negb (zone_known timezone) then Raise (ValueError "ZoneInfoNotFoundError")
  else match croniter_next cron_expression timezone after with
       | Some t => Ret t
       | None => Raise (ValueError "CroniterError")
       end.

Definition validate_schedule (cron_expression timezone : option json) (now : datetime)
    : M Scheduler (string * string) :=
  let expression := text_of container_text cron_expression in
  if bool_decide (expression = "") then raise (HTTPException 422 "cron_expression 不能为空")
  else if negb (count_words false expression =? 5)%nat || negb (croniter_is_valid expression)
  then raise (HTTPException 422 "cron_expression 不是有效的 5 段 cron 表达式")
  else
    let zone := text_of container_text timezone in
    if negb (zone_known zone) then raise (HTTPException 422 "timezone 必须是有效的 IANA 时区")
    else match next_run_at expression zone now with
         | Raise _ => raise (HTTPException 422 "cron_expression 没有可计算的下一次触发时间")
         | Ret _ => mret (expression, zone)
         end.

(** A list or a dict is not hashable, so testing it for membership raises. *)
Definition normalize_tool_approval_mode (value : json) : outcome string :=
  match value with
  | JArr _ | JObj _ => Raise (TypeError "unhashable type")
  | JStr s => if bool_decide (strip s ∈ TOOL_APPROVAL_MODES) then Ret (strip s)
              else Raise (ValueError "不支持的 tool_approval_mode")
  | _ => Raise (ValueError "不支持的 tool_approval_mode")
  end.

Definition tool_approval_mode_or_422 (value : json) : M Scheduler string :=
  lift (match normalize_tool_approval_mode value with
        | Raise (ValueError m) => Raise (HTTPException 422 m)
        | r => r
        end).

Definition normalize_model_spec (value : option json) : M Scheduler (option string) :=
  let model_spec := text_of container_text value in
  if bool_decide (model_spec = "") then mret None
  else if 512 <? Z.of_nat (String.length model_spec)
  then raise (HTTPException 422 "model_spec 不能超过 512 个字符")
  else mret (Some model_spec).

Definition validate_project (project_id uid : string) : M Scheduler unit :=
  project ← on_agents (lock_active_for_user project_id uid);
  match project with
  | Some _ => mret tt
  | None => raise (HTTPException 404 "Project 不存在或不可访问")
  end.

Definition validate_agent (agent_slug uid project_id : string) : M Scheduler unit :=
  match get_visible_main_agent agent_slug uid with
  | None => raise (HTTPException 404 "智能体不存在或不可访问")
  | Some slug =>
      if negb (agent_backend_known slug) then raise (HTTPException 404 "智能体后端不存在")
      else on_agents (require_agent_project_scope slug project_id)
  end.

(** * Triggers *)

(** [created_at] is the column's default. *)
Definition new_scheduled_run (job : ScheduledAgentJob) (trigger occurrence_key : string)
    (scheduled_for : datetime) (active_run : bool) (identity : option string) (now : datetime)
    : ScheduledAgentRun :=
  let identity := match identity with
                  | Some i => if bool_decide (i = "") then (Job.id job ++ ":" ++ occurrence_key)%string
                              else i
                  | None => (Job.id job ++ ":" ++ occurrence_key)%string
                  end in
  {| Trig.id := build_request_id "scheduled-run" identity;
     Trig.job_id := Job.id job;
     Trig.request_id := build_request_id "scheduled-request" identity;
     Trig.thread_id := build_request_id "scheduled-thread" identity;
     Trig.trigger := trigger;
     Trig.occurrence_key := occurrence_key;
     Trig.scheduled_for := scheduled_for;
     Trig.project_id := Job.project_id job;
     Trig.agent_slug := Job.agent_slug job;
     Trig.conversation_title := Job.name job;
     Trig.prompt := Job.prompt job;
     Trig.tool_approval_mode := Job.tool_approval_mode job;
     Trig.model_spec := Job.model_spec job;
     Trig.status := if active_run then Skipped else Dispatching;
     Trig.error_message := if active_run then Some "上一次运行尚未结束" else None;
     Trig.created_at := now |}.

Definition create_run_record (job : ScheduledAgentJob) (trigger occurrence_key : string)
    (scheduled_for now : datetime) : M Scheduler ScheduledAgentRun :=
  active_run ← has_active_run (Job.id job);
  let run := new_scheduled_run job trigger occurrence_key scheduled_for active_run None now in
  _ ← add_run run;
  mret run.

(** The status a client sees: of the trigger, or of the request or run that took it over. *)
Inductive ViewStatus :=
  | VTrigger (s : TriggerStatus)
  | VRequest (s : RequestStatus)
  | VRun (s : RunStatus).

Record ExecutionView := {
  ev_trigger : ScheduledAgentRun;
  ev_status : ViewStatus;
  ev_run_id : option string;
  ev_error_message : option string;
  ev_completed_at : option datetime;
  ev_conversation_available : option bool
}.

(** [ScheduledAgentRun.to_dict]. *)
Definition trigger_to_dict (r : ScheduledAgentRun) : ExecutionView := {|
  ev_trigger := r; ev_status := VTrigger (Trig.status r); ev_run_id := None;
  ev_error_message := Trig.error_message r; ev_completed_at := None;
  ev_conversation_available := None |}.

Definition execution_to_dict (scheduled_run : ScheduledAgentRun)
    (request : option AgentRunRequest) (run : option AgentRun) : ExecutionView :=
  let view status run_id error_message completed_at := {|
    ev_trigger := scheduled_run; ev_status := status; ev_run_id := run_id;
    ev_error_message := error_message; ev_completed_at := completed_at;
    ev_conversation_available := Some (negb (bool_decide (request = None))) |} in
  match Trig.status scheduled_run, request with
  | Submitted, Some request =>
      match Req.status request, run with
      | Dispatched, Some run =>
          view (VRun (Run.status run)) (Req.dispatched_run_id request) (Run.error_message run)
            (Run.finished_at run)
      | _, _ =>
          view (VRequest (Req.status request)) (Req.dispatched_run_id request)
            (Req.error_message request) None
      end
  | _, _ => view (VTrigger (Trig.status scheduled_run)) None (Trig.error_message scheduled_run) None
  end.

Definition list_scheduled_jobs (uid : string)
    : M Scheduler (list (ScheduledAgentJob * list ExecutionView)) :=
  jobs ← list_jobs uid;
  recent ← list_recent_runs (map Job.id jobs) uid 3;
  mret (map (λ job, (job,
    map (λ t, execution_to_dict t.1.1 t.1.2 t.2)
      (List.filter (λ t, bool_decide (Trig.job_id t.1.1 = Job.id job)) recent))) jobs).

(** * Creating, changing and deleting jobs *)

(** The normalised wish of the client. *)
Record Intent := {
  in_project_id : string;
  in_agent_slug : string;
  in_name : string;
  in_prompt : string;
  in_tool_approval_mode : string;
  in_model_spec : option string;
  in_cron_expression : string;
  in_timezone : string;
  in_enabled : bool
}.

Definition intent_fields (i : Intent) : json :=
  JObj [("project_id", JStr (in_project_id i)); ("agent_slug", JStr (in_agent_slug i));
        ("name", JStr (in_name i)); ("prompt", JStr (in_prompt i));
        ("tool_approval_mode", JStr (in_tool_approval_mode i));
        ("model_spec", default JNull (JStr <$> in_model_spec i));
        ("cron_expression", JStr (in_cron_expression i));
        ("timezone", JStr (in_timezone i)); ("enabled", JBool (in_enabled i))].

Definition intent_hash (data : json) : string := sha256_hexdigest (dumps data).

Definition creation_intent (data : json) (now : datetime) : M Scheduler Intent :=
  project_id ← normalize_text (jget "project_id" data) "project_id" 64;
  agent_slug ← normalize_text (jget "agent_slug" data) "agent_slug" 64;
  name ← normalize_text (jget "name" data) "name" MAX_NAME_LENGTH;
  prompt ← normalize_text (jget "prompt" data) "prompt" MAX_PROMPT_LENGTH;
  schedule ← validate_schedule (jget "cron_expression" data) (jget "timezone" data) now;
  model_spec ← normalize_model_spec (jget "model_spec" data);
  mode ← tool_approval_mode_or_422 (default (JStr "default") (jget "tool_approval_mode" data));
  mret {| in_project_id := project_id; in_agent_slug := agent_slug; in_name := name;
          in_prompt := prompt; in_tool_approval_mode := mode; in_model_spec := model_spec;
          in_cron_expression := schedule.1; in_timezone := schedule.2;
          in_enabled := truthy (default (JBool true) (jget "enabled" data)) |}.

Definition job_of_intent (fresh_id uid request_id : string) (i : Intent) (next now : datetime)
    : ScheduledAgentJob := {|
  Job.id := fresh_id; Job.uid := uid; Job.creation_request_id := request_id;
  Job.creation_intent_hash := intent_hash (intent_fields i);
  Job.project_id := in_project_id i; Job.agent_slug := in_agent_slug i; Job.name := in_name i;
  Job.prompt := in_prompt i; Job.tool_approval_mode := in_tool_approval_mode i;
  Job.model_spec := in_model_spec i; Job.cron_expression := in_cron_expression i;
  Job.timezone := in_timezone i; Job.enabled := in_enabled i; Job.deleted_at := None;
  Job.next_run_at := next; Job.created_at := now; Job.updated_at := now |}.

(** A job that the same request made before must have been made with the same intent. *)
Definition replay_job (intent_hash : string) (job : ScheduledAgentJob)
    : M Scheduler ScheduledAgentJob :=
  if negb (bool_decide (Job.creation_intent_hash job = intent_hash))
  then raise (HTTPException 409 "request_id 已用于其他定时任务创建意图")
  else mret job.

Definition create_scheduled_job (uid : string) (data : json) (fresh_id : string)
    (others : Scheduler → Scheduler) (now : datetime) : M Scheduler ScheduledAgentJob :=
  request_id ← normalize_request_id (jget "request_id" data);
  i ← creation_intent data now;
  let hash := intent_hash (intent_fields i) in
  existing ← get_job_by_creation_request uid request_id;
  match existing with
  | Some job => replay_job hash job
  | None =>
      _ ← validate_project (in_project_id i) uid;
      _ ← validate_agent (in_agent_slug i) uid (in_project_id i);
      next ← lift (next_run_at (in_cron_expression i) (in_timezone i) now);
      let job := job_of_intent fresh_id uid request_id i next now in
      _ ← modify others;
      catch_integrity
        (_ ← add_job job; mret job)
        (λ _,
           replay ← get_job_by_creation_request uid request_id;
           match replay with
           | None => raise (HTTPException 409 "定时任务创建冲突")
           | Some job => replay_job hash job
           end)
  end.

(** [if key in data: f(data[key])], else the job as it is. *)
Definition when_given (key : string) (data : json) (job : ScheduledAgentJob)
    (f : json → M Scheduler ScheduledAgentJob) : M Scheduler ScheduledAgentJob :=
  match jget key data with
  | Some v => f v
  | None => mret job
  end.

Definition given (key : string) (data : json) : bool := negb (bool_decide (jget key data = None)).

(** The project and the agent. *)
Definition update_binding (uid : string) (data : json) (job : ScheduledAgentJob)
    : M Scheduler ScheduledAgentJob :=
  job ← when_given "project_id" data job (λ v,
    project_id ← normalize_text (Some v) "project_id" 64;
    _ ← validate_project project_id uid;
    mret (job <| Job.project_id := project_id |>));
  match jget "agent_slug" data with
  | Some v =>
      agent_slug ← normalize_text (Some v) "agent_slug" 64;
      _ ← validate_agent agent_slug uid (Job.project_id job);
      mret (job <| Job.agent_slug := agent_slug |>)
  | None =>
      _ ← (if given "project_id" data
           then validate_agent (Job.agent_slug job) uid (Job.project_id job) else mret tt);
      mret job
  end.

(** The plan: a new one, and a job that is switched on, count from now. *)
Definition update_plan (data : json) (job : ScheduledAgentJob) (now : datetime)
    : M Scheduler ScheduledAgentJob :=
  schedule ← validate_schedule
    (Some (default (JStr (Job.cron_expression job)) (jget "cron_expression" data)))
    (Some (default (JStr (Job.timezone job)) (jget "timezone" data))) now;
  let '(expression, timezone) := schedule in
  next ← (if negb (bool_decide (expression = Job.cron_expression job))
             || negb (bool_decide (timezone = Job.timezone job))
          then lift (next_run_at expression timezone now) else mret (Job.next_run_at job));
  let job := job <| Job.next_run_at := next |> <| Job.cron_expression := expression |>
                 <| Job.timezone := timezone |> in
  when_given "enabled" data job (λ v,
    let enabled := truthy v in
    next ← (if enabled && negb (Job.enabled job)
            then lift (next_run_at expression timezone now) else mret (Job.next_run_at job));
    mret (job <| Job.next_run_at := next |> <| Job.enabled := enabled |>)).

Definition update_scheduled_job (job_id uid : string) (data : json) (now : datetime)
    : M Scheduler (option ScheduledAgentJob) :=
  atomic (
    job ← get_job job_id uid false;
    match job with
    | None => mret None
    | Some job =>
        job ← update_binding uid data job;
        job ← when_given "name" data job (λ v,
          name ← normalize_text (Some v) "name" MAX_NAME_LENGTH;
          mret (job <| Job.name := name |>));
        job ← when_given "prompt" data job (λ v,
          prompt ← normalize_text (Some v) "prompt" MAX_PROMPT_LENGTH;
          mret (job <| Job.prompt := prompt |>));
        job ← when_given "tool_approval_mode" data job (λ v,
          mode ← tool_approval_mode_or_422 v;
          mret (job <| Job.tool_approval_mode := mode |>));
        job ← when_given "model_spec" data job (λ v,
          model_spec ← normalize_model_spec (Some v);
          mret (job <| Job.model_spec := model_spec |>));
        job ← update_plan data job now;
        let job := job <| Job.updated_at := now |> in
        _ ← flush_job job;
        mret (Some job)
    end).

Definition delete_scheduled_job (job_id uid : string) (now : datetime) : M Scheduler bool :=
  job ← get_job job_id uid false;
  match job with
  | None => mret false
  | Some job => _ ← delete_job job now; mret true
  end.

(** * Dispatching a trigger *)

(** [build_chat_input_message] of a text. *)
Definition build_chat_input_message (query : string) : AgentRunInputMessage := {|
  im_content := query; im_message_type := "text"; im_image_content := None;
  im_raw_message := Some (human_message_dump query) |}.

Definition trigger_metadata (job_id scheduled_run_id : string) : list (string * json) :=
  [("scheduled_job_id", JStr job_id); ("scheduled_run_id", JStr scheduled_run_id)].

Definition trigger_request (run : ScheduledAgentRun) (job : ScheduledAgentJob)
    : AgentRequestInput := {|
  ri_agent_slug := Trig.agent_slug run;
  ri_thread_id := Trig.thread_id run;
  ri_request_id := Trig.request_id run;
  ri_input_message := build_chat_input_message (Trig.prompt run);
  ri_origin := {| origin_source := SCHEDULED_AGENT_SOURCE; origin_channel := "worker";
                  origin_external_id := Some (Trig.id run);
                  origin_metadata := trigger_metadata (Job.id job) (Trig.id run) |};
  ri_request_metadata := JObj (trigger_metadata (Job.id job) (Trig.id run));
  ri_model_spec := Trig.model_spec run;
  ri_tool_approval_mode := Some (Trig.tool_approval_mode run);
  ri_queue_policy := "enqueue";
  ri_create_conversation := true;
  ri_conversation_project_id := Some (Trig.project_id run) |}.

(** The fresh names of a submission: the conversation, its thread and the run. *)
Record FreshNames := { fresh_conversation : Z; fresh_thread : string; fresh_run : string }.

(** How the first transaction of a dispatch ends, when it does not raise. *)
Inductive DispatchStep :=
  | DispatchOver (view : option ExecutionView)
  | DispatchSent (run : ScheduledAgentRun) (job : ScheduledAgentJob).

Definition cancel_trigger (run : ScheduledAgentRun) (reason : string)
    : M Scheduler DispatchStep :=
  let run := run <| Trig.status := TrigCancelled |> <| Trig.error_message := Some reason |> in
  _ ← put_trigger run;
  mret (DispatchOver (Some (trigger_to_dict run))).

(** Up to the commit inside [submit_agent_request]. *)
Definition dispatch_submit (scheduled_run_id : string) (fresh : FreshNames) (now : datetime)
    : M Scheduler DispatchStep :=
  atomic (
    scheduled_run ← get_run scheduled_run_id;
    match scheduled_run with
    | None => mret (DispatchOver None)
    | Some run =>
        if negb (bool_decide (Trig.status run = Dispatching))
        then mret (DispatchOver (Some (trigger_to_dict run)))
        else
          job ← gets (λ s, Sch.jobs s !! Trig.job_id run);
          users ← gets Sch.users;
          match job with
          | Some job =>
              if negb (bool_decide (users !! Job.uid job = Some 0))
              then cancel_trigger run "任务已删除、停用或用户不存在"
              else if bool_decide (Trig.trigger run = "scheduled")
                      && (negb (Job.enabled job) || negb (bool_decide (Job.deleted_at job = None)))
              then cancel_trigger run "任务已停用或删除"
              else
                _ ← validate_project (Trig.project_id run) (Job.uid job);
                _ ← validate_agent (Trig.agent_slug run) (Job.uid job) (Trig.project_id run);
                _ ← on_agents (submit_agent_request container_text (trigger_request run job)
                      (Job.uid job) (fresh_conversation fresh) (fresh_thread fresh)
                      (fresh_run fresh) now);
                mret (DispatchSent run job)
          | None => cancel_trigger run "任务已删除、停用或用户不存在"
          end
    end).

(** The second transaction writes by key; a row that is gone makes its flush fail. *)
Definition mark_submitted (run : ScheduledAgentRun) (job : ScheduledAgentJob) (now : datetime)
    : M Scheduler unit :=
  s ← gets id;
  match Sch.triggers s !! Trig.id run, Sch.jobs s !! Job.id job with
  | Some r, Some j =>
      _ ← put_trigger (r <| Trig.status := Submitted |>);
      put_job (j <| Job.updated_at := now |>)
  | _, _ => raise (RuntimeError "StaleDataError")
  end.

Definition dispatch_body (scheduled_run_id : string) (fresh : FreshNames)
    (others : Scheduler → Scheduler) (delivery : outcome unit) (now : datetime)
    : M Scheduler (option ExecutionView) :=
  step ← dispatch_submit scheduled_run_id fresh now;
  match step with
  | DispatchOver view => mret view
  | DispatchSent run job =>
      _ ← modify others;
      _ ← lift delivery;
      _ ← mark_submitted run job now;
      found ← get_request_and_run (Trig.request_id run);
      mret (Some (execution_to_dict (run <| Trig.status := Submitted |>) found.1 found.2))
  end.

Definition settle_dispatch_error (scheduled_run_id error : string) (terminal : bool)
    : M Scheduler (option ExecutionView) :=
  scheduled_run ← get_run scheduled_run_id;
  match scheduled_run with
  | None => mret None
  | Some run =>
      if negb (bool_decide (Trig.status run = Dispatching))
      then mret (Some (execution_to_dict run None None))
      else
        found ← get_request_and_run (Trig.request_id run);
        let run :=
          if negb (bool_decide (found.1 = None)) then run <| Trig.status := Submitted |>
          else if terminal then run <| Trig.status := TrigFailed |>
                                    <| Trig.error_message := Some error |>
          else run in
        _ ← put_trigger run;
        mret (Some (execution_to_dict run found.1 found.2))
  end.

(** [settled["status"] == "submitted"]. *)
Definition view_submitted (view : option ExecutionView) : bool :=
  match view with
  | Some v => match ev_status v with VTrigger Submitted => true | _ => false end
  | None => false
  end.

(** The error handlers of [dispatch_scheduled_run]; [others] commits before the new session. *)
Definition handle_dispatch_error (scheduled_run_id : string) (e : exn)
    (others : Scheduler → Scheduler) : M Scheduler (option ExecutionView) :=
  _ ← modify others;
  match e with
  | HTTPException _ _ =>
      settled ← settle_dispatch_error scheduled_run_id (exn_text e) true;
      match settled with
      | None => raise e
      | Some _ => mret settled
      end
  | _ =>
      settled ← settle_dispatch_error scheduled_run_id (exn_text e) false;
      if view_submitted settled then mret settled else raise e
  end.

Definition dispatch_scheduled_run (scheduled_run_id : string) (fresh : FreshNames)
    (others others2 : Scheduler → Scheduler) (delivery : outcome unit) (now : datetime)
    : M Scheduler (option ExecutionView) := λ s,
  match dispatch_body scheduled_run_id fresh others delivery now s with
  | (Raise e, s') => handle_dispatch_error scheduled_run_id e others2 s'
  | r => r
  end.

(** * Starting a job by hand *)

(** The trigger of a manual start, made or found: the first transactions of
    [run_scheduled_job_now]. *)
Definition manual_trigger (job_id : string) (request_id : json) (uid : string)
    (others : Scheduler → Scheduler) (now : datetime) : M Scheduler (option ScheduledAgentRun) :=
  request_id ← normalize_request_id (Some request_id);
  job ← get_job job_id uid false;
  match job with
  | None => mret None
  | Some job =>
      let identity := (uid ++ ":manual:" ++ request_id)%string in
      let run_id := build_request_id "scheduled-run" identity in
      run ← get_run run_id;
      match run with
      | Some run =>
          if negb (bool_decide (Trig.job_id run = Job.id job))
          then raise (HTTPException 409 "request_id 已用于其他立即运行意图")
          else mret (Some run)
      | None =>
          _ ← validate_project (Job.project_id job) uid;
          _ ← validate_agent (Job.agent_slug job) uid (Job.project_id job);
          active_run ← has_active_run (Job.id job);
          let run := new_scheduled_run job "manual" ("manual:" ++ request_id)%string now
                       active_run (Some identity) now in
          _ ← modify others;
          catch_integrity
            (_ ← add_run run; mret (Some run))
            (λ _,
               replay ← get_run run_id;
               match replay with
               | None => raise (HTTPException 409 "立即运行请求冲突")
               | Some replay =>
                   if negb (bool_decide (Trig.job_id replay = Job.id job))
                   then raise (HTTPException 409 "request_id 已用于其他立即运行意图")
                   else mret (Some replay)
               end)
      end
  end.

Definition run_scheduled_job_now (job_id : string) (request_id : json) (uid : string)
    (fresh : FreshNames) (others others2 others3 : Scheduler → Scheduler) (delivery : outcome unit)
    (now : datetime) : M Scheduler (option ExecutionView) :=
  run ← manual_trigger job_id request_id uid others now;
  match run with
  | None => mret None
  | Some run =>
      if negb (bool_decide (Trig.status run = Dispatching)) then mret (Some (trigger_to_dict run))
      else dispatch_scheduled_run (Trig.id run) fresh others2 others3 delivery now
  end.

(** * The worker loop *)

(** One iteration of [_claim_due_run]: [Some None] goes on with the next job. *)
Definition claim_step (locked : list string) (now : datetime)
    : M Scheduler (option (option ScheduledAgentRun)) :=
  atomic (
    job ← claim_due_job locked now;
    match job with
    | None => mret None
    | Some job =>
        let scheduled_for := Job.next_run_at job in
        match next_run_at (Job.cron_expression job) (Job.timezone job) now with
        | Raise _ =>
            _ ← put_job (job <| Job.enabled := false |> <| Job.updated_at := now |>);
            mret (Some None)
        | Ret next =>
            let job := job <| Job.next_run_at := next |> <| Job.updated_at := now |> in
            _ ← put_job job;
            run ← create_run_record job "scheduled" ("scheduled:" ++ isoformat scheduled_for)%string
                    scheduled_for now;
            mret (Some (Some run))
        end
    end).

(** [while job := ..]: every iteration that goes on switches a due job off. *)
Fixpoint claim_loop (fuel : nat) (locked : list string) (now : datetime)
    : M Scheduler (option (option ScheduledAgentRun)) :=
  match fuel with
  | O => mret None
  | S fuel =>
      step ← claim_step locked now;
      match step with
      | None => mret (Some None)
      | Some (Some run) => mret (Some (Some run))
      | Some None => claim_loop fuel locked now
      end
  end.

(** The outer option is the fuel; as many turns as jobs, and one more. *)
Definition claim_due_run (locked : list string) (now : datetime)
    : M Scheduler (option (option ScheduledAgentRun)) :=
  jobs ← gets Sch.jobs;
  claim_loop (S (size jobs)) locked now.

(** What happens around the turns of a batch: the locks other transactions hold, what they
    commit, the fresh names, how the deliveries end, the clock. *)
Record Turn := {
  turn_locked : list string;
  turn_fresh : FreshNames;
  turn_others : Scheduler → Scheduler;
  turn_others2 : Scheduler → Scheduler;
  turn_delivery : outcome unit;
  turn_now : datetime
}.

(** [except Exception: logger.error(..)]. *)
Definition logged {A} (m : M Scheduler A) : M Scheduler bool := λ s,
  match m s with
  | (Ret _, s') => (Ret true, s')
  | (Raise _, s') => (Ret false, s')
  end.

Definition dispatch_turn (t : Turn) (run_id : string) : M Scheduler (option ExecutionView) :=
  dispatch_scheduled_run run_id (turn_fresh t) (turn_others t) (turn_others2 t) (turn_delivery t)
    (turn_now t).

Fixpoint claim_and_dispatch_due_jobs (turns : list Turn) : M Scheduler nat :=
  match turns with
  | [] => mret 0%nat
  | t :: turns =>
      claimed ← claim_due_run (turn_locked t) (turn_now t);
      match claimed with
      | Some (Some run) =>
          _ ← (if bool_decide (Trig.status run = Dispatching)
               then logged (dispatch_turn t (Trig.id run)) else mret true);
          n ← claim_and_dispatch_due_jobs turns;
          mret (S n)
      | _ => mret 0%nat
      end
  end.

Fixpoint recover_each (turns : list Turn) (records : list ScheduledAgentRun)
    : M Scheduler nat :=
  match turns, records with
  | t :: turns, record :: records =>
      ok ← logged (dispatch_turn t (Trig.id record));
      n ← recover_each turns records;
      mret (Nat.b2n ok + n)%nat
  | _, _ => mret 0%nat
  end.

(** As many turns as records are listed. *)
Definition recover_scheduled_dispatches (turns : list Turn) (now : datetime) : M Scheduler nat :=
  records ← list_dispatching_runs (now - seconds 30) (length turns);
  recover_each turns records.

End schedules.
