(* ===== verification/ScheduleProps.v ===== *)
(** What scheduling guarantees: claiming a due job, the invariant of the job and trigger tables,
    the outcome of a dispatch, and the idempotent entries. *)

From stdpp Require Import prelude gmap strings list fin_maps relations.
From Stdlib Require Import ZArith Lia.
From S2P Require Import Prelude PyLib Schema RunSpec RunRepo RunInv RunSafe RunLease Requests.
From S2P Require Import Queue QueueSpec Submission SubmissionSpec SubmissionProps Schedules.
Local Open Scope Z_scope.

(** * Keys *)

Definition jobs_keyed (s : Scheduler) : Prop :=
  ∀ k j, Sch.jobs s !! k = Some j → Job.id j = k.

(** No row uses an identifier of the trigger [r]. *)
Definition trigger_fresh (r : ScheduledAgentRun) (s : Scheduler) : Prop :=
  Sch.triggers s !! Trig.id r = None
  ∧ ∀ k o, Sch.triggers s !! k = Some o →
      ¬ (Trig.job_id o = Trig.job_id r ∧ Trig.occurrence_key o = Trig.occurrence_key r)
      ∧ Trig.request_id o ≠ Trig.request_id r ∧ Trig.thread_id o ≠ Trig.thread_id r.

(** A trigger that stops [r] from being inserted. *)
Lemma not_fresh r s :
  ¬ trigger_fresh r s →
  ∃ k o, Sch.triggers s !! k = Some o
    ∧ ((k = Trig.id r)
       ∨ (Trig.job_id o = Trig.job_id r ∧ Trig.occurrence_key o = Trig.occurrence_key r)
       ∨ Trig.request_id o = Trig.request_id r ∨ Trig.thread_id o = Trig.thread_id r).
Proof.
  intros N. destruct (Sch.triggers s !! Trig.id r) as [o|] eqn:Ho; [eauto 10|].
  destruct (any (λ o,
    (bool_decide (Trig.job_id o = Trig.job_id r)
     && bool_decide (Trig.occurrence_key o = Trig.occurrence_key r))
    || bool_decide (Trig.request_id o = Trig.request_id r)
    || bool_decide (Trig.thread_id o = Trig.thread_id r)) (Sch.triggers s)) eqn:A.
  - apply any_true in A as (k & o & Hk & A). exists k, o. split; [done|]. bool_hyps. tauto.
  - exfalso. apply N. split; [done|]. intros k o Hk. rewrite any_false in A.
    specialize (A k o Hk). bool_hyps. tauto.
Qed.

Definition with_trigger (r : ScheduledAgentRun) (s : Scheduler) : Scheduler :=
  s <| Sch.triggers ::= <[Trig.id r := r]> |>.

Definition with_job (j : ScheduledAgentJob) (s : Scheduler) : Scheduler :=
  s <| Sch.jobs ::= <[Job.id j := j]> |>.

Lemma add_run_spec r s :
  match add_run r s with
  | (Ret _, s') =>
      trigger_fresh r s ∧ is_Some (Sch.jobs s !! Trig.job_id r) ∧ s' = with_trigger r s
  | (Raise e, s') =>
      s' = s ∧ (∃ c, e = IntegrityError c)
      ∧ ¬ (trigger_fresh r s ∧ is_Some (Sch.jobs s !! Trig.job_id r))
  end.
Proof.
  unfold add_run, put_trigger, raise, gets, modify, mbind, M_bind, trigger_fresh, id.
  cbv beta iota.
  destruct (bool_decide (is_Some _)) eqn:K.
  { apply bool_decide_eq_true in K. split; [done|]. split; [eauto|].
    intros [[F _] _]. rewrite F in K. by destruct K. }
  apply bool_decide_eq_false, eq_None_not_Some in K.
  destruct (any (λ o, _ && _) _) eqn:A1.
  { apply any_true in A1 as (k & o & Ho & Hp). bool_hyps. split; [done|]. split; [eauto|].
    intros [[_ F] _]. destruct (F k o Ho) as [F1 _]. tauto. }
  destruct (any (λ o, bool_decide (Trig.request_id o = _)) _) eqn:A2.
  { apply any_true in A2 as (k & o & Ho & Hp). bool_hyps. split; [done|]. split; [eauto|].
    intros [[_ F] _]. destruct (F k o Ho) as (_ & F1 & _). tauto. }
  destruct (any (λ o, bool_decide (Trig.thread_id o = _)) _) eqn:A3.
  { apply any_true in A3 as (k & o & Ho & Hp). bool_hyps. split; [done|]. split; [eauto|].
    intros [[_ F] _]. destruct (F k o Ho) as (_ & _ & F1). tauto. }
  case_bool_decide as J.
  { split; [done|]. split; [eauto|]. intros [_ [j Hj]]. congruence. }
  split; [|split; [by apply not_eq_None_Some in J|done]]. split; [done|]. intros k o Ho.
  rewrite any_false in A1, A2, A3. specialize (A1 k o Ho). specialize (A2 k o Ho).
  specialize (A3 k o Ho). bool_hyps. tauto.
Qed.

(** * Claiming a due job *)

Lemma due_leb_total a b : due_leb a b = true ∨ due_leb b a = true.
Proof.
  unfold due_leb. destruct (Z.eqb_spec (Job.next_run_at a) (Job.next_run_at b)) as [E|N];
    destruct (Z.eqb_spec (Job.next_run_at b) (Job.next_run_at a)); try lia.
  apply str_leb_total.
Qed.

Lemma due_leb_trans a b c : due_leb a b = true → due_leb b c = true → due_leb a c = true.
Proof.
  unfold due_leb. intros H1 H2.
  destruct (Z.eqb_spec (Job.next_run_at a) (Job.next_run_at b));
    destruct (Z.eqb_spec (Job.next_run_at b) (Job.next_run_at c));
    destruct (Z.eqb_spec (Job.next_run_at a) (Job.next_run_at c));
    rewrite ?Z.leb_le in *; try lia. by eapply str_leb_trans.
Qed.

Section claim.
Context `{ScheduleLibrary} (locked : list string) (now : datetime).
Implicit Types (s : Scheduler) (j : ScheduledAgentJob).

(** The job that a claim takes: due, and no due job comes before it. *)
Definition first_due s j : Prop :=
  Sch.jobs s !! Job.id j = Some j ∧ is_due locked now s j = true
  ∧ ∀ k o, Sch.jobs s !! k = Some o → is_due locked now s o = true → due_leb j o = true.

Definition nothing_due s : Prop :=
  ∀ k j, Sch.jobs s !! k = Some j → is_due locked now s j = false.

Lemma claim_due_spec s :
  jobs_keyed s →
  match claim_due_job locked now s with
  | (Ret (Some j), s') => s' = s ∧ first_due s j
  | (Ret None, s') => s' = s ∧ nothing_due s
  | (Raise _, _) => False
  end.
Proof.
  intros K. unfold claim_due_job, gets.
  destruct (sort_by due_leb (select (is_due locked now s) (Sch.jobs s))) as [|j l] eqn:E; simpl.
  - split; [done|]. intros k j Hj. destruct (is_due locked now s j) eqn:D; [|done].
    assert (In : j ∈ sort_by due_leb (select (is_due locked now s) (Sch.jobs s)))
      by (apply elem_of_sort_by, elem_of_select; eauto).
    rewrite E in In. by apply elem_of_nil in In.
  - split; [done|]. apply sort_by_head_least in E as [In Le];
      [|apply due_leb_total|apply due_leb_trans].
    apply elem_of_select in In as [D [k Hk]]. split; [by rewrite (K k j Hk)|]. split; [done|].
    intros k' o Ho Do. apply Le, elem_of_select. eauto.
Qed.

(** A due job whose plan cannot be computed is switched off. *)
Definition switched_off j : ScheduledAgentJob :=
  j <| Job.enabled := false |> <| Job.updated_at := now |>.

Definition planned j (next : datetime) : ScheduledAgentJob :=
  j <| Job.next_run_at := next |> <| Job.updated_at := now |>.

Definition plan j : outcome datetime := next_run_at (Job.cron_expression j) (Job.timezone j) now.

Inductive switch_off s : Scheduler → Prop :=
  | switch_off_job j e : first_due s j → plan j = Raise e → switch_off s (with_job (switched_off j) s).

Definition has_unfinished s (job_id : string) : bool :=
  any (λ r, bool_decide (Trig.job_id r = job_id) && unfinished s r) (Sch.triggers s).

(** The trigger of a due job. *)
Definition fired s j : ScheduledAgentRun :=
  new_scheduled_run j "scheduled" ("scheduled:" ++ isoformat (Job.next_run_at j))%string
    (Job.next_run_at j) (has_unfinished s (Job.id j)) None now.

Lemma plan_later j next : plan j = Ret next → now < next.
Proof.
  unfold plan, next_run_at. destruct (negb _); [done|].
  destruct (croniter_next _ _ _) eqn:E; [|done]. intros [= <-]. by apply croniter_next_later in E.
Qed.

Lemma claim_step_spec s :
  jobs_keyed s →
  match claim_step locked now s with
  | (Ret None, s') => s' = s ∧ nothing_due s
  | (Ret (Some None), s') => switch_off s s'
  | (Ret (Some (Some r)), s') =>
      ∃ j next, first_due s j ∧ plan j = Ret next ∧ r = fired s j ∧ trigger_fresh r s
        ∧ s' = with_trigger r (with_job (planned j next) s)
  | (Raise e, s') =>
      s' = s ∧ ∃ j c, first_due s j ∧ e = IntegrityError c ∧ ¬ trigger_fresh (fired s j) s
  end.
Proof.
  intros K. unfold claim_step, atomic. pose proof (claim_due_spec s K) as C.
  unfold mbind at 1, M_bind at 1.
  destruct (claim_due_job locked now s) as [[[j|]|e] s1]; [|done|done].
  destruct C as [-> F]. cbv zeta. fold (plan j). destruct (plan j) as [next|e] eqn:P.
  2: { m_unfold. unfold put_job. econstructor; eauto. }
  unfold put_job, create_run_record, has_active_run. m_unfold.
  assert (Ea : any (λ r, bool_decide (Trig.job_id r = Job.id (planned j next))
      && unfinished (with_job (planned j next) s) r) (Sch.triggers (with_job (planned j next) s))
      = has_unfinished s (Job.id j)) by done.
  unfold planned, with_job in Ea. rewrite Ea.
  pose proof (add_run_spec (fired s j) (with_job (planned j next) s)) as A.
  unfold fired, planned, with_job in A. 
  match goal with |- context [add_run ?r ?x] => change (add_run r x) with
    (add_run (fired s j) (with_job (planned j next) s)) end.
  unfold fired, planned, with_job.
  destruct (add_run _ _) as [[u|e] s2].
  - destruct A as (Fr & _ & ->). exists j, next. done.
  - destruct A as (_ & [c ->] & N). split; [done|]. exists j, c. split; [done|]. split; [done|].
    intros Fr. apply N. split; [exact Fr|]. simpl. row_simpl.
    change (is_Some (<[Job.id j := planned j next]> (Sch.jobs s) !! Job.id j)).
    rewrite lookup_insert_eq. eauto.
Qed.

Lemma jobs_keyed_put j s : jobs_keyed s → jobs_keyed (with_job j s).
Proof.
  intros K k o. unfold with_job. row_simpl. rewrite lookup_insert_Some.
  intros [[<- <-]|[_ Ho]]; [done|by apply K].
Qed.

Definition due_count s : nat := length (select (is_due locked now s) (Sch.jobs s)).

Lemma switch_off_less s s' :
  switch_off s s' → (due_count s' < due_count s)%nat ∧ (jobs_keyed s → jobs_keyed s').
Proof.
  intros [j e (Hj & D & _) _]. split; [|intros K; by apply jobs_keyed_put].
  change (length (select (is_due locked now s) (<[Job.id j := switched_off j]> (Sch.jobs s)))
          < due_count s)%nat.
  apply (length_select_insert_lt _ _ _ j); [done..|].
  unfold is_due, switched_off. row_simpl. by rewrite andb_false_r.
Qed.

(** What a claim does: nothing but switching off jobs without a next time, then nothing is due;
    or then the first due job fires; or its trigger is refused by a key. *)
Definition claimed s (res : outcome (option (option ScheduledAgentRun)) * Scheduler) : Prop :=
  match res with
  | (Ret None, _) => False
  | (Ret (Some None), s') => rtc switch_off s s' ∧ nothing_due s'
  | (Ret (Some (Some r)), s') =>
      ∃ s1 j next, rtc switch_off s s1 ∧ first_due s1 j ∧ plan j = Ret next ∧ now < next
        ∧ r = fired s1 j ∧ trigger_fresh r s1 ∧ s' = with_trigger r (with_job (planned j next) s1)
  | (Raise e, s') =>
      rtc switch_off s s' ∧ ∃ j c, first_due s' j ∧ e = IntegrityError c
        ∧ ¬ trigger_fresh (fired s' j) s'
  end.

Lemma claim_loop_spec fuel s :
  jobs_keyed s → (due_count s < fuel)%nat → claimed s (claim_loop fuel locked now s).
Proof.
  revert s. induction fuel as [|fuel IH]; intros s K Hf; [lia|].
  cbn [claim_loop]. unfold mbind, M_bind. pose proof (claim_step_spec s K) as C.
  destruct (claim_step locked now s) as [[[[r|]|]|e] s1].
  - destruct C as (j & next & F & P & Er & Fr & Es). simpl. exists s, j, next.
    pose proof (plan_later _ _ P). split; [apply rtc_refl|]. done.
  - destruct (switch_off_less _ _ C) as [L K']. specialize (IH s1 (K' K) ltac:(lia)).
    unfold claimed in *. destruct (claim_loop fuel locked now s1) as [[[[r|]|]|e] s2]; [..|done|].
    + destruct IH as (s3 & j & next & T & Rest). exists s3, j, next.
      split; [by eapply rtc_l|done].
    + destruct IH as [T N]. split; [by eapply rtc_l|done].
    + destruct IH as [T N]. split; [by eapply rtc_l|done].
  - destruct C as [-> N]. simpl. split; [apply rtc_refl|done].
  - destruct C as [-> (j & c & F & E & N)]. simpl. split; [apply rtc_refl|]. eauto.
Qed.
End claim.

(** C23: claiming always ends.  It switches off, earliest first, the due jobs whose next time
    cannot be computed; then either no job is due, or the earliest due job fires: it is planned
    for a time after now and one trigger with its snapshot is added, to be dispatched, or skipped
    when an execution of the job has not ended.  It fails only when a key of the trigger is in
    use, and then keeps the job due. *)
Theorem claim_due_run_outcome `{ScheduleLibrary} locked now s :
  jobs_keyed s → claimed locked now s (claim_due_run locked now s).
Proof.
  intros K. unfold claim_due_run. unfold mbind, M_bind, gets. apply claim_loop_spec; [done|].
  unfold due_count. pose proof (length_select_size (is_due locked now s) (Sch.jobs s)). lia.
Qed.

(** * A witness: one due job of a plan that fires every minute *)

Definition every_minute (after : datetime) : option datetime :=
  if (0 <=? after) && (after <=? 16725225000000000) then Some (after + seconds 60) else None.

Lemma every_minute_spec after t : every_minute after = Some t → after < t ∧ representable t.
Proof.
  unfold every_minute. destruct (_ && _) eqn:G; [|done]. bool_hyps. intros [= <-].
  unfold seconds. split; [lia|]. apply representable_range. lia.
Qed.

#[local] Instance demo_library : ScheduleLibrary := {|
  croniter_is_valid := λ _, true;
  zone_known := λ zone, bool_decide (zone = "UTC");
  croniter_next := λ _ _, every_minute;
  croniter_next_later := λ _ _ after t E, proj1 (every_minute_spec after t E);
  croniter_next_representable := λ _ _ after t E, proj2 (every_minute_spec after t E);
  human_message_dump := λ query, JObj [("content", JStr query)];
  exn_text := λ e, match e with HTTPException _ detail => detail | _ => "error" end
|}.

Definition demo_job : ScheduledAgentJob := {|
  Job.id := "j1"; Job.uid := "u1"; Job.creation_request_id := "creation1";
  Job.creation_intent_hash := "h"; Job.project_id := "p1"; Job.agent_slug := "main";
  Job.name := "daily"; Job.prompt := "hi"; Job.tool_approval_mode := "default";
  Job.model_spec := None; Job.cron_expression := "* * * * *"; Job.timezone := "UTC";
  Job.enabled := true; Job.deleted_at := None; Job.next_run_at := 60000000;
  Job.created_at := 0; Job.updated_at := 0 |}.

Definition demo_due : Scheduler := {|
  Sch.agents := demo_thread; Sch.jobs := {["j1" := demo_job]}; Sch.triggers := ∅;
  Sch.users := {["u1" := 0]} |}.

Definition claimed_summary (res : outcome (option (option ScheduledAgentRun)) * Scheduler)
    : option (string * datetime * TriggerStatus * option datetime) :=
  match res with
  | (Ret (Some (Some r)), s) =>
      Some (Trig.occurrence_key r, Trig.scheduled_for r, Trig.status r,
            Job.next_run_at <$> Sch.jobs s !! "j1")
  | _ => None
  end.

Lemma demo_claims :
  claimed_summary (claim_due_run [] 90000000 demo_due)
  = Some ("scheduled:1970-01-01T00:01:00", 60000000, Dispatching, Some 150000000).
Proof. vm_compute. reflexivity. Qed.

Lemma claim_due_run_outcome_witness :
  claimed_summary (claim_due_run [] 90000000 demo_due)
    = Some ("scheduled:1970-01-01T00:01:00", 60000000, Dispatching, Some 150000000)
  ∧ claimed [] 90000000 demo_due (claim_due_run [] 90000000 demo_due).
Proof.
  split; [exact demo_claims|]. apply claim_due_run_outcome.
  intros k j Hj. unfold demo_due in Hj. simpl in Hj.
  apply lookup_singleton_Some in Hj as [<- <-]. reflexivity.
Defined.
