(* ===== verification/ScheduleInv.v ===== *)
(** The invariant of the scheduler's tables, and that every transaction keeps it: keys, the
    occurrence of a trigger, submitted triggers have a request or a run, and a job has at most
    one execution that has not ended. *)

From stdpp Require Import prelude gmap strings list fin_maps relations.
From Stdlib Require Import ZArith Lia.
From S2P Require Import Prelude PyLib Schema RunSpec RunRepo RunInv RunSafe RunLease Requests.
From S2P Require Import Queue QueueSpec Submission SubmissionSpec SubmissionProps Schedules.
From S2P Require Import ScheduleProps.
Local Open Scope Z_scope.

(** * What the agent services may do meanwhile *)

Definition agents_ok (db : Database) : Prop := qwf db ∧ wf db.

Definition agents_move (db db' : Database) : Prop :=
  agents_ok db' ∧ requests_evolve db db' ∧ evolves db db'.

(** A request or a run has the identifier. *)
Definition recorded (request_id : string) (db : Database) : Prop :=
  is_Some (DB.run_requests db !! request_id)
  ∨ ∃ k run, DB.runs db !! k = Some run ∧ Run.request_id run = request_id.

Lemma recorded_moves i db db' : agents_move db db' → recorded i db → recorded i db'.
Proof.
  intros (_ & Rq & Ev) [[r Hr]|(k & run & Hr & E)].
  - left. destruct (Rq i r Hr) as (r' & -> & _). eauto.
  - right. destruct (evolves_runs_kept _ _ Ev k run Hr) as (run' & Hr' & E' & _).
    exists k, run'. split; [done|]. congruence.
Qed.

(** An execution that has ended does not start again. *)
Lemma finished_stays s s' r :
  agents_ok (Sch.agents s) → agents_move (Sch.agents s) (Sch.agents s') →
  unfinished s' r = true → unfinished s r = true.
Proof.
  intros [Q W] (_ & Rq & Ev). unfold unfinished, request_of.
  destruct (Trig.status r); try done.
  destruct (DB.run_requests (Sch.agents s) !! Trig.request_id r) as [q|] eqn:Hq; [|done].
  destruct (Rq _ _ Hq) as (q' & Hq' & _ & Same). rewrite Hq'.
  destruct (decide (Req.status q = Queued)) as [->|N]; [done|]. rewrite (Same N).
  destruct (Req.status q) eqn:St; try done.
  destruct (qwf_dispatched _ Q _ _ Hq St) as (k & run & Ek & Hr & _).
  destruct Ev as [Ev _]. destruct (Ev k run Hr) as (run' & Hr' & Re).
  unfold run_of. simpl. rewrite Ek. simpl. rewrite Hr, Hr'.
  rewrite !negb_true_iff. intros T. destruct (is_terminal (Run.status run)) eqn:T0; [|done].
  destruct Re as [_ Tf _ _ _ _ _ _]. specialize (Tf T0). unfold terminal_facts in Tf.
  simplify_eq. congruence.
Qed.

(** * The invariant *)

(** The occurrence of a trigger tells its moment, before the next time of its job. *)
Definition occurrence_ok (t : datetime) (s : Scheduler) (r : ScheduledAgentRun) : Prop :=
  (Trig.trigger r = "manual" ∧ ∃ x, Trig.occurrence_key r = ("manual:" ++ x)%string)
  ∨ (Trig.trigger r = "scheduled"
     ∧ Trig.occurrence_key r = ("scheduled:" ++ isoformat (Trig.scheduled_for r))%string
     ∧ representable (Trig.scheduled_for r) ∧ Trig.scheduled_for r <= t
     ∧ ∀ j, Sch.jobs s !! Trig.job_id r = Some j → Trig.scheduled_for r < Job.next_run_at j).

Record sinv (t : datetime) (s : Scheduler) : Prop := {
  si_jobs : jobs_keyed s;
  si_triggers : ∀ k r, Sch.triggers s !! k = Some r → Trig.id r = k;
  si_owner : ∀ k r, Sch.triggers s !! k = Some r → is_Some (Sch.jobs s !! Trig.job_id r);
  si_keys : ∀ k1 k2 r1 r2, Sch.triggers s !! k1 = Some r1 → Sch.triggers s !! k2 = Some r2 →
    (Trig.job_id r1 = Trig.job_id r2 ∧ Trig.occurrence_key r1 = Trig.occurrence_key r2)
    ∨ Trig.request_id r1 = Trig.request_id r2 ∨ Trig.thread_id r1 = Trig.thread_id r2 → k1 = k2;
  si_creation : ∀ k1 k2 j1 j2, Sch.jobs s !! k1 = Some j1 → Sch.jobs s !! k2 = Some j2 →
    Job.uid j1 = Job.uid j2 → Job.creation_request_id j1 = Job.creation_request_id j2 → k1 = k2;
  si_next : ∀ k j, Sch.jobs s !! k = Some j → representable (Job.next_run_at j);
  si_occurrence : ∀ k r, Sch.triggers s !! k = Some r → occurrence_ok t s r;
  si_submitted : ∀ k r, Sch.triggers s !! k = Some r → Trig.status r = Submitted →
    recorded (Trig.request_id r) (Sch.agents s);
  si_one : ∀ k1 k2 r1 r2, Sch.triggers s !! k1 = Some r1 → Sch.triggers s !! k2 = Some r2 →
    Trig.job_id r1 = Trig.job_id r2 → unfinished s r1 = true → unfinished s r2 = true → k1 = k2;
  si_agents : agents_ok (Sch.agents s)
}.

Lemma sinv_later t t' s : t <= t' → sinv t s → sinv t' s.
Proof.
  intros L []. split; try done. intros k r Hr.
  destruct (si_occurrence0 k r Hr) as [M|(E1 & E2 & E3 & E4 & E5)]; [by left|right].
  do 3 (split; [done|]). split; [lia|done].
Qed.

(** The agent tables move, the users change. *)
Lemma sinv_agents t s s' :
  sinv t s → Sch.jobs s' = Sch.jobs s → Sch.triggers s' = Sch.triggers s →
  agents_move (Sch.agents s) (Sch.agents s') → sinv t s'.
Proof.
  intros [] Ej Et Mv. split; unfold jobs_keyed; rewrite ?Ej, ?Et; try done.
  - intros k r Hr. destruct (si_occurrence0 k r Hr) as [M|R]; [by left|right]. by rewrite Ej.
  - intros k r Hr St. eapply recorded_moves; eauto.
  - intros k1 k2 r1 r2 H1 H2 E U1 U2. eapply si_one0; eauto.
    + by eapply finished_stays.
    + by eapply finished_stays.
  - by destruct Mv.
Qed.

(** A job's row is replaced: later times only. *)
Lemma sinv_put_job t s j j0 :
  sinv t s → Sch.jobs s !! Job.id j = Some j0 → Job.uid j = Job.uid j0 →
  Job.creation_request_id j = Job.creation_request_id j0 → representable (Job.next_run_at j) →
  t < Job.next_run_at j ∨ Job.next_run_at j0 <= Job.next_run_at j →
  sinv t (with_job j s).
Proof.
  intros [] Hj Eu Ec Rp Later. split; unfold with_job, jobs_keyed; row_simpl; try done.
  - intros k o. rewrite lookup_insert_Some. intros [[<- <-]|[_ Ho]]; [done|by apply si_jobs0].
  - intros k r Hr. destruct (decide (Job.id j = Trig.job_id r)) as [->|N].
    + rewrite lookup_insert_eq. eauto.
    + rewrite lookup_insert_ne by done. eauto.
  - assert (L : ∀ k o, <[Job.id j := j]> (Sch.jobs s) !! k = Some o → ∃ o0,
      Sch.jobs s !! k = Some o0 ∧ Job.uid o0 = Job.uid o
      ∧ Job.creation_request_id o0 = Job.creation_request_id o).
    { intros k o. rewrite lookup_insert_Some. intros [[<- <-]|[_ Ho]]; eauto. }
    intros k1 k2 j1 j2 H1 H2 E1 E2. destruct (L _ _ H1) as (o1 & ? & ? & ?).
    destruct (L _ _ H2) as (o2 & ? & ? & ?). eapply si_creation0; eauto; congruence.
  - intros k o. rewrite lookup_insert_Some. intros [[<- <-]|[_ Ho]]; eauto.
  - intros k r Hr. destruct (si_occurrence0 k r Hr) as [M|(E1 & E2 & E3 & E4 & E5)]; [by left|right].
    do 4 (split; [done|]). row_simpl. intros o. rewrite lookup_insert_Some.
    intros [[Ei <-]|[_ Ho]]; [|by apply E5]. rewrite <- Ei in E5. specialize (E5 _ Hj). lia.
Qed.

Lemma sinv_new_job t s j :
  sinv t s → Sch.jobs s !! Job.id j = None →
  (∀ k o, Sch.jobs s !! k = Some o →
     ¬ (Job.uid o = Job.uid j ∧ Job.creation_request_id o = Job.creation_request_id j)) →
  representable (Job.next_run_at j) → sinv t (with_job j s).
Proof.
  intros [] Hj Uq Rp. split; unfold with_job, jobs_keyed; row_simpl; try done.
  - intros k o. rewrite lookup_insert_Some. intros [[<- <-]|[_ Ho]]; [done|by apply si_jobs0].
  - intros k r Hr. destruct (si_owner0 k r Hr) as [o Ho].
    rewrite lookup_insert_ne by congruence. eauto.
  - intros k1 k2 j1 j2. rewrite !lookup_insert_Some.
    intros [[<- <-]|[N1 H1]] [[<- <-]|[N2 H2]] E1 E2; eauto.
    + exfalso. eapply Uq; eauto.
    + exfalso. eapply Uq; eauto.
  - intros k o. rewrite lookup_insert_Some. intros [[<- <-]|[_ Ho]]; eauto.
  - intros k r Hr. destruct (si_owner0 k r Hr) as [o0 Ho0].
    destruct (si_occurrence0 k r Hr) as [M|(E1 & E2 & E3 & E4 & E5)]; [by left|right].
    do 4 (split; [done|]). row_simpl. intros o. rewrite lookup_insert_Some.
    intros [[Ei <-]|[_ Ho]]; [congruence|by apply E5].
Qed.

(** A new trigger of a job without an unfinished one, or one that is finished at once. *)
Lemma sinv_new_trigger t s r :
  sinv t s → trigger_fresh r s → is_Some (Sch.jobs s !! Trig.job_id r) → occurrence_ok t s r →
  Trig.status r ≠ Submitted →
  (unfinished s r = true → ∀ k o, Sch.triggers s !! k = Some o → Trig.job_id o = Trig.job_id r →
     unfinished s o = false) →
  sinv t (with_trigger r s).
Proof.
  intros [] [Fr Fk] Ow Oc Ns One. split; unfold with_trigger; row_simpl; try done.
  - intros k o. rewrite lookup_insert_Some. intros [[<- <-]|[_ Ho]]; eauto.
  - intros k o. rewrite lookup_insert_Some. intros [[<- <-]|[_ Ho]]; eauto.
  - intros k1 k2 r1 r2. rewrite !lookup_insert_Some.
    intros [[<- <-]|[N1 H1]] [[<- <-]|[N2 H2]] E; eauto.
    + destruct (Fk _ _ H2) as (F1 & F2 & F3). destruct E as [[]|[]]; exfalso; [apply F1; auto|..]; congruence.
    + destruct (Fk _ _ H1) as (F1 & F2 & F3). destruct E as [[]|[]]; exfalso; [apply F1; auto|..]; congruence.
  - intros k o. rewrite lookup_insert_Some. intros [[<- <-]|[_ Ho]]; [done|].
    by apply si_occurrence0 in Ho.
  - intros k o. rewrite lookup_insert_Some. intros [[<- <-]|[_ Ho]]; eauto. done.
  - intros k1 k2 r1 r2. rewrite !lookup_insert_Some.
    intros [[<- <-]|[N1 H1]] [[<- <-]|[N2 H2]] E U1 U2.
    + done.
    + rewrite (One U1 _ _ H2) in U2; done.
    + rewrite (One U2 _ _ H1) in U1; done.
    + eapply si_one0; eauto.
Qed.

(** The columns of a trigger that never change. *)
Definition same_trigger (r r' : ScheduledAgentRun) : Prop :=
  Trig.id r' = Trig.id r ∧ Trig.job_id r' = Trig.job_id r ∧ Trig.request_id r' = Trig.request_id r
  ∧ Trig.thread_id r' = Trig.thread_id r ∧ Trig.trigger r' = Trig.trigger r
  ∧ Trig.occurrence_key r' = Trig.occurrence_key r
  ∧ Trig.scheduled_for r' = Trig.scheduled_for r.

Lemma sinv_put_trigger t s r r' :
  sinv t s → Sch.triggers s !! Trig.id r = Some r → same_trigger r r' →
  (Trig.status r' = Submitted → recorded (Trig.request_id r) (Sch.agents s)) →
  (unfinished s r' = true → unfinished s r = true) →
  sinv t (with_trigger r' s).
Proof.
  intros [] Hr Sm Rc Un. destruct Sm as (S1 & S2 & S3 & S4 & S5 & S6 & S7).
  assert (L : ∀ k o, <[Trig.id r' := r']> (Sch.triggers s) !! k = Some o → ∃ o0,
      Sch.triggers s !! k = Some o0 ∧ (o0 = o ∨ (o0 = r ∧ o = r'))).
  { intros k o. rewrite lookup_insert_Some, S1. intros [[<- <-]|[_ Ho]]; eauto. }
  split; unfold with_trigger; row_simpl; try done.
  - intros k o Ho. destruct (L _ _ Ho) as (o0 & H0 & [->|[-> ->]]); [eauto|]. rewrite S1. eauto.
  - intros k o Ho. destruct (L _ _ Ho) as (o0 & H0 & [->|[-> ->]]); [eauto|]. rewrite S2. eauto.
  - intros k1 k2 r1 r2 H1 H2 E.
    destruct (L _ _ H1) as (o1 & G1 & [->|[-> ->]]), (L _ _ H2) as (o2 & G2 & [->|[-> ->]]);
      eapply si_keys0; eauto; rewrite ?S2, ?S3, ?S4, ?S6 in E; done.
  - intros k o Ho. destruct (L _ _ Ho) as (o0 & H0 & [->|[-> ->]]); [by apply si_occurrence0 in H0|].
    apply si_occurrence0 in H0. unfold occurrence_ok in *. row_simpl. by rewrite S2, S5, S6, S7.
  - intros k o Ho St. destruct (L _ _ Ho) as (o0 & H0 & [->|[-> ->]]); [eauto|]. rewrite S3. auto.
  - intros k1 k2 r1 r2 H1 H2 E U1 U2.
    change (unfinished s r1 = true) in U1. change (unfinished s r2 = true) in U2.
    destruct (L _ _ H1) as (o1 & G1 & [->|[-> ->]]), (L _ _ H2) as (o2 & G2 & [->|[-> ->]]);
      eapply si_one0; eauto; congruence.
Qed.

(** * Claiming *)

Lemma is_due_inv locked now s j :
  is_due locked now s j = true →
  Sch.users s !! Job.uid j = Some 0 ∧ Job.enabled j = true ∧ Job.deleted_at j = None
  ∧ Job.next_run_at j <= now ∧ Job.id j ∉ locked.
Proof. unfold is_due. intros D. bool_hyps. tauto. Qed.

Lemma new_run_unfinished s job tr oc sf active i now :
  unfinished s (new_scheduled_run job tr oc sf active i now) = negb active.
Proof. by destruct active. Qed.

Lemma new_run_not_submitted job tr oc sf active i now :
  Trig.status (new_scheduled_run job tr oc sf active i now) ≠ Submitted.
Proof. by destruct active. Qed.

Section keeping.
Context `{ScheduleLibrary} `{DispatchScope} `{AgentCatalog} (container_text : json → string).

Lemma sinv_switch_off locked now s s' : sinv now s → switch_off locked now s s' → sinv now s'.
Proof.
  intros I [j e (Hj & D & _) _]. apply (sinv_put_job _ _ (switched_off now j) j); [done|exact Hj|done|done|..].
  - exact (si_next _ _ I _ _ Hj).
  - right. unfold switched_off. row_simpl. lia.
Qed.

Lemma sinv_fire locked now s j next :
  sinv now s → first_due locked now s j → plan now j = Ret next → trigger_fresh (fired now s j) s →
  sinv now (with_trigger (fired now s j) (with_job (planned now j next) s)).
Proof.
  intros I (Hj & D & _) P Fr. apply is_due_inv in D as (_ & _ & _ & Le & _).
  pose proof (plan_later _ _ _ P) as Lt.
  assert (I' : sinv now (with_job (planned now j next) s)).
  { apply (sinv_put_job _ _ (planned now j next) j); [done|exact Hj|done|done|..].
    - unfold planned. row_simpl. unfold plan, next_run_at in P. destruct (negb _); [done|].
      destruct (croniter_next _ _ _) eqn:E; [|done]. injection P as <-.
      by eapply croniter_next_representable.
    - left. unfold planned. by row_simpl. }
  assert (Ow : Sch.jobs (with_job (planned now j next) s) !! Job.id j = Some (planned now j next)).
  { unfold with_job. row_simpl. by rewrite lookup_insert_eq. }
  apply sinv_new_trigger; [done|exact Fr|eexists; exact Ow|..].
  - right. split; [done|]. split; [done|]. split; [exact (si_next _ _ I _ _ Hj)|]. split; [done|].
    intros o Ho. change (Trig.job_id (fired now s j)) with (Job.id j) in Ho.
    rewrite Ow in Ho. injection Ho as <-. unfold planned. row_simpl.
    change (Job.next_run_at j < next). lia.
  - unfold fired. apply new_run_not_submitted.
  - unfold fired at 1. rewrite new_run_unfinished. intros N. apply negb_true_iff in N.
    unfold has_unfinished in N. rewrite any_false in N. intros k o Ho Eo.
    specialize (N k o Ho). simpl in Eo. rewrite Eo, bool_decide_eq_true_2 in N by done. exact N.
Qed.

Lemma claim_step_keeps t locked now s :
  sinv t s → t <= now → sinv now (claim_step locked now s).2.
Proof.
  intros I L. apply (sinv_later _ now) in I; [|done].
  pose proof (claim_step_spec locked now s (si_jobs _ _ I)) as C.
  destruct (claim_step locked now s) as [[[[r|]|]|e] s'].
  - destruct C as (j & next & F & P & -> & Fr & ->). by eapply sinv_fire.
  - by eapply sinv_switch_off.
  - by destruct C as [-> _].
  - by destruct C as [-> _].
Qed.

(** * Dispatching *)

Definition cancelled (r : ScheduledAgentRun) (reason : string) : ScheduledAgentRun :=
  r <| Trig.status := TrigCancelled |> <| Trig.error_message := Some reason |>.

(** Why a trigger may no longer be dispatched. *)
Definition stopped (s : Scheduler) (r : ScheduledAgentRun) : option string :=
  match Sch.jobs s !! Trig.job_id r with
  | None => Some "任务已删除、停用或用户不存在"
  | Some j =>
      if negb (bool_decide (Sch.users s !! Job.uid j = Some 0))
      then Some "任务已删除、停用或用户不存在"
      else if bool_decide (Trig.trigger r = "scheduled")
              && (negb (Job.enabled j) || negb (bool_decide (Job.deleted_at j = None)))
      then Some "任务已停用或删除"
      else None
  end.

Definition submit_trigger (r : ScheduledAgentRun) (j : ScheduledAgentJob) (fresh : FreshNames)
    (now : datetime) : M Database (SubmitResponse * option DispatchResult) :=
  submit_agent_request container_text (trigger_request r j) (Job.uid j) (fresh_conversation fresh)
    (fresh_thread fresh) (fresh_run fresh) now.

Lemma on_agents_inv {A} (m : M Database A) s r s' :
  on_agents m s = (r, s') → m (Sch.agents s) = (r, Sch.agents s') ∧ s' = s <| Sch.agents := Sch.agents s' |>.
Proof.
  unfold on_agents. destruct (m (Sch.agents s)) as [o db]. intros [= <- <-]. by split.
Qed.

Lemma scheduler_same s : s <| Sch.agents := Sch.agents s |> = s.
Proof. by destruct s. Qed.

Lemma validate_project_reads {X} (f : Scheduler → X) p u : keeps f (validate_project p u).
Proof.
  apply keeps_pure. intros s. unfold validate_project, on_agents, lock_active_for_user, raise.
  m_unfold. rewrite scheduler_same. by case_match.
Qed.

Lemma validate_agent_reads {X} (f : Scheduler → X) a u p : keeps f (validate_agent a u p).
Proof.
  apply keeps_pure. intros s. unfold validate_agent, raise.
  destruct (get_visible_main_agent a u); [|done]. destruct (negb _); [done|].
  unfold on_agents, require_agent_project_scope, raise. cbv zeta.
  destruct (_ || _); m_unfold; by rewrite scheduler_same.
Qed.

Lemma dispatch_submit_inv id fresh now s step s' :
  dispatch_submit container_text id fresh now s = (Ret step, s') →
  match Sch.triggers s !! id with
  | None => step = DispatchOver None ∧ s' = s
  | Some r =>
      (Trig.status r ≠ Dispatching ∧ step = DispatchOver (Some (trigger_to_dict r)) ∧ s' = s)
      ∨ Trig.status r = Dispatching
        ∧ match stopped s r with
          | Some reason => step = DispatchOver (Some (trigger_to_dict (cancelled r reason)))
              ∧ s' = with_trigger (cancelled r reason) s
          | None => ∃ j resp db, Sch.jobs s !! Trig.job_id r = Some j ∧ step = DispatchSent r j
              ∧ submit_trigger r j fresh now (Sch.agents s) = (Ret resp, db)
              ∧ s' = s <| Sch.agents := db |>
          end
  end.
Proof.
  unfold dispatch_submit, atomic. intros E.
  match type of E with context [?m s] => destruct (m s) as [[p|e] s1] eqn:B end; [|done].
  injection E as -> ->. run B. injection R as <- <-. unfold stopped.
  destruct (Sch.triggers s !! id) as [r|]; [|by injection B as <- <-].
  case_bool_decide as St; cbn [negb] in B; [|injection B as <- <-; by left].
  right. split; [done|]. run B. injection R as <- <-. run B. injection R as <- <-.
  destruct (Sch.jobs s !! Trig.job_id r) as [j|]; [|by injection B as <- <-].
  destruct (negb _); [by injection B as <- <-|].
  destruct (_ && _); [by injection B as <- <-|].
  run B. apply (keeps_inv (λ s, s)) in R; [|apply validate_project_reads].
  run B. apply (keeps_inv (λ s, s)) in R0; [|apply validate_agent_reads].
  run B. apply on_agents_inv in R1 as [R1 Es]. injection B as <- <-. subst s0 s1.
  exists j, a1, (Sch.agents s2). done.
Qed.

Lemma submit_trigger_moves r j fresh now s :
  agents_ok (Sch.agents s) →
  agents_move (Sch.agents s) (submit_trigger r j fresh now (Sch.agents s)).2.
Proof.
  intros [Q W]. destruct (submit_keeps container_text (trigger_request r j) (Job.uid j)
    (fresh_conversation fresh) (fresh_thread fresh) (fresh_run fresh) now _ Q W) as (? & ? & ? & ?).
  done.
Qed.

Lemma atomic_raise {S A} (m : M S A) s e s' : atomic m s = (Raise e, s') → s' = s.
Proof. unfold atomic. destruct (m s) as [[a|e'] s1]; [done|]. by intros [= _ <-]. Qed.

Lemma dispatch_submit_keeps t id fresh now s :
  sinv t s → t <= now → sinv now (dispatch_submit container_text id fresh now s).2.
Proof.
  intros I L. apply (sinv_later _ now) in I; [|done].
  destruct (dispatch_submit container_text id fresh now s) as [[step|e] s'] eqn:E.
  2: { by apply atomic_raise in E as ->. }
  apply dispatch_submit_inv in E. destruct (Sch.triggers s !! id) as [r|] eqn:Hr.
  2: { by destruct E as [_ ->]. }
  pose proof (si_triggers _ _ I _ _ Hr) as <-.
  destruct E as [(_ & _ & ->)|(St & E)]; [done|]. destruct (stopped s r) as [reason|].
  - destruct E as [_ ->]. by apply (sinv_put_trigger _ _ r); [..|done].
  - destruct E as (j & resp & db & Hj & _ & Sub & ->). eapply sinv_agents; [done|done|done|].
    pose proof (submit_trigger_moves r j fresh now s (si_agents _ _ I)) as Mv. by rewrite Sub in Mv.
Qed.

(** The mark comes before any other dispatcher has ended the trigger. *)
Lemma mark_submitted_keeps t run job now s :
  sinv t s → t <= now → recorded (Trig.request_id run) (Sch.agents s) →
  (∀ r, Sch.triggers s !! Trig.id run = Some r →
     Trig.request_id r = Trig.request_id run ∧ unfinished s r = true) →
  sinv now (mark_submitted run job now s).2.
Proof.
  intros I L Rc Un. apply (sinv_later _ now) in I; [|done].
  unfold mark_submitted, put_trigger, put_job, raise. m_unfold. unfold id.
  destruct (Sch.triggers s !! Trig.id run) as [r|] eqn:Hr; [|done].
  destruct (Sch.jobs s !! Job.id job) as [j|] eqn:Hj; [|done]. cbn [snd].
  destruct (Un r eq_refl) as [Eq U]. pose proof (si_triggers _ _ I _ _ Hr) as Ei.
  pose proof (si_jobs _ _ I _ _ Hj) as Ej.
  assert (I' : sinv now (with_trigger (r <| Trig.status := Submitted |>) s)).
  { eapply sinv_put_trigger; [done|by rewrite Ei|done|by rewrite Eq|done]. }
  eapply (sinv_put_job _ _ (j <| Job.updated_at := now |>) j) in I'; [exact I'|..].
  - change (Sch.jobs s !! Job.id j = Some j). by rewrite Ej.
  - done.
  - done.
  - exact (si_next _ _ I _ _ Hj).
  - right. row_simpl. lia.
Qed.

Lemma settle_keeps t id error terminal s :
  sinv t s → sinv t (settle_dispatch_error id error terminal s).2.
Proof.
  intros I. unfold settle_dispatch_error, get_run, get_request_and_run, put_trigger. m_unfold.
  destruct (Sch.triggers s !! id) as [r|] eqn:Hr; [|done].
  case_bool_decide as St; cbn [negb]; [|done]. cbv zeta.
  pose proof (si_triggers _ _ I _ _ Hr) as <-.
  assert (U : unfinished s r = true) by (unfold unfinished; by rewrite St).
  case_bool_decide as Rq; cbn [negb]; cbn [fst snd] in *.
  - destruct terminal; (apply (sinv_put_trigger _ _ r); [done|done|done| |done]); [done|].
    intros Sb. congruence.
  - apply (sinv_put_trigger _ _ r); [done|done|done| |done].
    intros _. left. apply not_eq_None_Some in Rq. exact Rq.
Qed.

(** * Jobs *)

(** What may commit between two statements of a use case. *)
Definition rely (now : datetime) (others : Scheduler → Scheduler) : Prop :=
  ∀ s, sinv now s → sinv now (others s) ∧ agents_move (Sch.agents s) (Sch.agents (others s)).

Section reads.
Context {X : Type} (f : Scheduler → X).

Lemma lift_keeps {A} (o : outcome A) : keeps f (lift o).
Proof. done. Qed.
Lemma request_id_keeps v : keeps f (normalize_request_id container_text v).
Proof. unfold normalize_request_id. cbv zeta. quietly. Qed.
Lemma text_keeps v n m : keeps f (normalize_text container_text v n m).
Proof. unfold normalize_text. cbv zeta. quietly. Qed.
Lemma schedule_keeps e z now : keeps f (validate_schedule container_text e z now).
Proof. unfold validate_schedule. cbv zeta. quietly. Qed.
Lemma mode_keeps v : keeps f (tool_approval_mode_or_422 v).
Proof. done. Qed.
Lemma model_keeps v : keeps f (normalize_model_spec container_text v).
Proof. unfold normalize_model_spec. cbv zeta. quietly. Qed.
Hint Resolve lift_keeps request_id_keeps text_keeps schedule_keeps mode_keeps model_keeps : quiet.
Lemma intent_keeps d now : keeps f (creation_intent container_text d now).
Proof. unfold creation_intent. quietly. Qed.
Lemma replay_job_keeps h j : keeps f (replay_job h j).
Proof. unfold replay_job. quietly. Qed.
Lemma by_creation_keeps u i : keeps f (get_job_by_creation_request u i).
Proof. done. Qed.
End reads.
Hint Resolve lift_keeps request_id_keeps text_keeps schedule_keeps mode_keeps model_keeps
  intent_keeps replay_job_keeps by_creation_keeps validate_project_reads validate_agent_reads
  maintains_reads maintains_bind maintains_atomic maintains_catch : quiet.

Lemma next_run_at_ok e z after t :
  next_run_at e z after = Ret t → after < t ∧ representable t.
Proof.
  unfold next_run_at. destruct (negb _); [done|]. destruct (croniter_next e z after) eqn:E; [|done].
  intros [= <-]. split; [by eapply croniter_next_later|by eapply croniter_next_representable].
Qed.

Lemma add_job_spec j s :
  match add_job j s with
  | (Ret _, s') => Sch.jobs s !! Job.id j = None
      ∧ (∀ k o, Sch.jobs s !! k = Some o →
           ¬ (Job.uid o = Job.uid j ∧ Job.creation_request_id o = Job.creation_request_id j))
      ∧ s' = with_job j s
  | (Raise _, s') => s' = s
  end.
Proof.
  unfold add_job, put_job, raise, gets, modify, mbind, M_bind, id. cbv beta iota.
  destruct (negb (job_columns_fit j)); [done|]. destruct (negb (bool_decide _)); [done|].
  destruct (bool_decide (is_Some _)) eqn:K; [done|].
  apply bool_decide_eq_false, eq_None_not_Some in K.
  destruct (any _ _) eqn:A; [done|]. case_bool_decide; [done|]. destruct (match _ with Some _ => _ | None => _ end); [done|].
  split; [done|]. split; [|done]. intros k o Ho. rewrite any_false in A. specialize (A k o Ho).
  bool_hyps. tauto.
Qed.

Lemma create_keeps t uid data fresh_id others now s :
  sinv t s → t <= now → rely now others →
  sinv now (create_scheduled_job container_text uid data fresh_id others now s).2.
Proof.
  intros I L Rl. apply (sinv_later _ now) in I; [|done]. revert s I.
  change (maintains (sinv now) (create_scheduled_job container_text uid data fresh_id others now)).
  unfold create_scheduled_job. apply maintains_bind; [auto with quiet|]. intros rid.
  apply maintains_bind; [auto with quiet|]. intros i. cbv zeta.
  apply maintains_bind; [auto with quiet|]. intros [job|]; [auto with quiet|].
  apply maintains_bind; [auto with quiet|]. intros _.
  apply maintains_bind; [auto with quiet|]. intros _.
  destruct (next_run_at (in_cron_expression i) (in_timezone i) now) as [next|e] eqn:E;
    [|by intros s Is].
  apply next_run_at_ok in E as [_ Rp]. intros s Is.
  unfold mbind at 1, M_bind at 1, lift. unfold mbind at 1, M_bind at 1, modify. cbn [fst snd].
  apply Rl in Is as [Is _]. revert Is. generalize (others s). clear s.
  apply maintains_catch.
  2: { intros c. apply maintains_bind; [auto with quiet|]. intros [job|]; auto with quiet. }
  apply maintains_bind; [|auto with quiet]. intros s Is.
  pose proof (add_job_spec (job_of_intent fresh_id uid rid i next now) s) as A.
  destruct (add_job _ s) as [[u|e] s']; [|by subst s'].
  destruct A as (N & Uq & ->). by apply sinv_new_job.
Qed.

Lemma delete_keeps t job_id uid now s :
  sinv t s → t <= now → sinv now (delete_scheduled_job job_id uid now s).2.
Proof.
  intros I L. apply (sinv_later _ now) in I; [|done].
  unfold delete_scheduled_job, get_job, delete_job, put_job. m_unfold.
  destruct (Sch.jobs s !! job_id) as [j|] eqn:Hj; simpl; [|done]. destruct (_ && _); [|done]. simpl.
  pose proof (si_jobs _ _ I _ _ Hj) as <-.
  set (j' := j <| Job.enabled := false |> <| Job.deleted_at := Some now |>
               <| Job.updated_at := now |>).
  change (sinv now (with_job j' s)).
  apply (sinv_put_job _ _ j' j); [done|exact Hj|done|done|..].
  - exact (si_next _ _ I _ _ Hj).
  - right. subst j'. row_simpl. lia.
Qed.

(** * Changing a job *)

(** What an update may do to the row. *)
Definition job_edit (now : datetime) (j j' : ScheduledAgentJob) : Prop :=
  Job.id j' = Job.id j ∧ Job.uid j' = Job.uid j
  ∧ Job.creation_request_id j' = Job.creation_request_id j
  ∧ Job.creation_intent_hash j' = Job.creation_intent_hash j
  ∧ Job.deleted_at j' = Job.deleted_at j ∧ Job.created_at j' = Job.created_at j
  ∧ (Job.next_run_at j' = Job.next_run_at j
     ∨ (representable (Job.next_run_at j') ∧ now < Job.next_run_at j')).

#[local] Instance job_edit_refl now : Reflexive (job_edit now).
Proof. intros j. unfold job_edit. auto 10. Qed.

#[local] Instance job_edit_trans now : Transitive (job_edit now).
Proof.
  intros j1 j2 j3 (A1 & A2 & A3 & A4 & A5 & A6 & A7) (B1 & B2 & B3 & B4 & B5 & B6 & B7).
  unfold job_edit. repeat (split; [congruence|]).
  destruct B7 as [B7|]; [|by right]. rewrite B7. done.
Qed.

Ltac edited := intros; unfold job_edit; row_simpl; auto 10.

(** A part of an update reads the tables and edits the row. *)
Definition edits (now : datetime) (j : ScheduledAgentJob) (m : M Scheduler ScheduledAgentJob)
    : Prop :=
  ∀ s j' s', m s = (Ret j', s') → s' = s ∧ job_edit now j j'.

Lemma edits_ret now j j' : job_edit now j j' → edits now j (mret j').
Proof. intros E s k s' [= <- <-]. done. Qed.

Lemma edits_read {A} now j (m : M Scheduler A) k :
  keeps (λ s, s) m → (∀ a, edits now j (k a)) → edits now j (m ≫= k).
Proof.
  intros K E s j' s' H'. run H'. apply (keeps_inv (λ s, s)) in R; [|done]. subst s1. by eapply E.
Qed.

Lemma edits_bind now j m k :
  edits now j m → (∀ j', edits now j' (k j')) → edits now j (m ≫= k).
Proof.
  intros Em Ek s j' s' H'. run H'. apply Em in R as [-> R]. apply Ek in H' as [-> R'].
  split; [done|]. by etrans.
Qed.

Lemma edits_when now key data j j1 f :
  job_edit now j j1 → (∀ v, edits now j (f v)) → edits now j (when_given key data j1 f).
Proof. intros J E. unfold when_given. destruct (jget key data); [done|]. by apply edits_ret. Qed.

Lemma edits_binding now uid data j : edits now j (update_binding container_text uid data j).
Proof.
  unfold update_binding. apply edits_bind.
  { apply edits_when; [done|]. intros v. apply edits_read; [auto with quiet|]. intros p.
    apply edits_read; [auto with quiet|]. intros _. apply edits_ret; edited. }
  intros j'. destruct (jget "agent_slug" data).
  - apply edits_read; [auto with quiet|]. intros a. apply edits_read; [auto with quiet|].
    intros _. apply edits_ret; edited.
  - apply edits_read; [destruct (given _ _); auto with quiet|]. intros _. apply edits_ret; edited.
Qed.

Lemma edits_next now j j1 e z (b : bool) k :
  (∀ next, (b = false → next = Job.next_run_at j1)
     → (b = true → now < next ∧ representable next) → edits now j (k next)) →
  edits now j ((if b then lift (next_run_at e z now) else mret (Job.next_run_at j1)) ≫= k).
Proof.
  intros E s j' s' H'. run H'. destruct b.
  - destruct (next_run_at e z now) as [t|x] eqn:P; [|done]. injection R as <- <-.
    apply next_run_at_ok in P. eapply (E t); [done|by intros _|exact H'].
  - injection R as <- <-. eapply (E (Job.next_run_at j1)); [done|done|exact H'].
Qed.

Lemma edits_plan data j now : edits now j (update_plan container_text data j now).
Proof.
  unfold update_plan. apply edits_read; [auto with quiet|]. intros [e z].
  apply edits_next. intros next N1 N2. cbv zeta.
  assert (J1 : job_edit now j (j <| Job.next_run_at := next |> <| Job.cron_expression := e |>
                                 <| Job.timezone := z |>)).
  { do 6 (split; [done|]). row_simpl. destruct (_ || _); [right|left]; [|auto].
    destruct N2; auto. }
  apply edits_when; [exact J1|]. intros v.
  match goal with |- edits _ _ ((if ?b then _ else mret (Job.next_run_at ?x)) ≫= _) =>
    apply (edits_next now j x e z b) end.
  intros next2 M1 M2. apply edits_ret. etrans; [exact J1|].
  do 6 (split; [done|]). row_simpl. destruct (truthy v && negb (Job.enabled j)).
  - right. destruct M2; auto.
  - left. rewrite M1 by done. by row_simpl.
Qed.

Lemma edits_text now key data j (name : string) limit (put : string → ScheduledAgentJob) :
  (∀ v, job_edit now j (put v)) →
  edits now j (when_given key data j (λ v,
    x ← normalize_text container_text (Some v) name limit; mret (put x))).
Proof.
  intros E. apply edits_when; [done|]. intros v. apply edits_read; [auto with quiet|]. intros x.
  by apply edits_ret.
Qed.

(** The row an update writes, and that it writes nothing else. *)
Lemma update_inv job_id uid data now s o s' :
  update_scheduled_job container_text job_id uid data now s = (Ret o, s') →
  match o with
  | None => s' = s
  | Some j' => ∃ j, Sch.jobs s !! job_id = Some j ∧ Job.uid j = uid ∧ Job.deleted_at j = None
      ∧ job_edit now j j' ∧ s' = with_job j' s
  end.
Proof.
  unfold update_scheduled_job, atomic. intros E.
  match type of E with context [?m s] => destruct (m s) as [[p|e] s1] eqn:B end; [|done].
  injection E as -> ->. run B. injection R as <- <-.
  destruct (Sch.jobs s !! job_id) as [j|] eqn:Hj; [|by injection B as <- <-]. simpl in B.
  destruct (bool_decide (Job.uid j = uid) && _) eqn:G; [|by injection B as <- <-].
  bool_hyps. destruct G as [Eu Ed].
  assert (Ej : edits now j (
    job ← update_binding container_text uid data j;
    job ← when_given "name" data job (λ v,
      name ← normalize_text container_text (Some v) "name" MAX_NAME_LENGTH;
      mret (job <| Job.name := name |>));
    job ← when_given "prompt" data job (λ v,
      prompt ← normalize_text container_text (Some v) "prompt" MAX_PROMPT_LENGTH;
      mret (job <| Job.prompt := prompt |>));
    job ← when_given "tool_approval_mode" data job (λ v,
      mode ← tool_approval_mode_or_422 v;
      mret (job <| Job.tool_approval_mode := mode |>));
    job ← when_given "model_spec" data job (λ v,
      model_spec ← normalize_model_spec container_text (Some v);
      mret (job <| Job.model_spec := model_spec |>));
    update_plan container_text data job now)).
  { apply edits_bind; [apply edits_binding|]. intros j1.
    apply edits_bind; [apply edits_text; edited|]. intros j2.
    apply edits_bind; [apply edits_text; edited|]. intros j3.
    apply edits_bind.
    { apply edits_when; [done|]. intros v. apply edits_read; [auto with quiet|]. intros x.
      apply edits_ret; edited. }
    intros j4. apply edits_bind.
    { apply edits_when; [done|]. intros v. apply edits_read; [auto with quiet|]. intros x.
      apply edits_ret; edited. }
    intros j5. apply edits_plan. }
  run B. run B. run B. run B. run B. run B.
  assert (Em : s5 = s ∧ job_edit now j a4).
  { eapply Ej. rewrite (bind_run _ _ _ _ _ R), (bind_run _ _ _ _ _ R0), (bind_run _ _ _ _ _ R1),
      (bind_run _ _ _ _ _ R2), (bind_run _ _ _ _ _ R3). exact R4. }
  destruct Em as [-> Em]. run B. unfold flush_job, put_job, raise in R5.
  destruct (negb _); [done|]. injection R5 as <- <-. injection B as <- <-.
  exists j. repeat (split; [done|]). done.
Qed.

Lemma update_keeps t job_id uid data now s :
  sinv t s → t <= now → sinv now (update_scheduled_job container_text job_id uid data now s).2.
Proof.
  intros I L. apply (sinv_later _ now) in I; [|done].
  destruct (update_scheduled_job container_text job_id uid data now s) as [[o|e] s'] eqn:E.
  2: { by apply atomic_raise in E as ->. }
  apply update_inv in E. destruct o as [j'|]; [|by subst].
  destruct E as (j & Hj & _ & _ & (E1 & E2 & E3 & _ & _ & _ & N) & ->).
  pose proof (si_jobs _ _ I _ _ Hj) as <-. apply (sinv_put_job _ _ j' j); [done|by rewrite E1|done|done|..].
  - destruct N as [->|[]]; [|done]. exact (si_next _ _ I _ _ Hj).
  - destruct N as [->|[]]; [right; lia|by left].
Qed.

(** * Manual starts *)

(** While the row of a job is locked it stays and no trigger of the job is added. *)
Definition locks_job (job_id : string) (others : Scheduler → Scheduler) : Prop :=
  ∀ s, Sch.jobs (others s) !! job_id = Sch.jobs s !! job_id
    ∧ ∀ k r, Sch.triggers (others s) !! k = Some r → Trig.job_id r = job_id →
        unfinished (others s) r = true →
        ∃ r0, Sch.triggers s !! k = Some r0 ∧ Trig.job_id r0 = job_id ∧ unfinished s r0 = true.

Lemma manual_keeps t job_id request_id uid others now s :
  sinv t s → t <= now → rely now others → locks_job job_id others →
  sinv now (manual_trigger container_text job_id request_id uid others now s).2.
Proof.
  intros I L Rl Lk. apply (sinv_later _ now) in I; [|done]. unfold manual_trigger.
  revert s I. change (maintains (sinv now)
    (manual_trigger container_text job_id request_id uid others now)). unfold manual_trigger.
  apply maintains_bind; [auto with quiet|]. intros rid s Is.
  unfold mbind at 1, M_bind at 1, get_job, gets.
  destruct (Sch.jobs s !! job_id) as [j|] eqn:Hj; simpl; [|done].
  destruct (bool_decide (Job.uid j = uid) && _); [|done]. cbv zeta.
  pose proof (si_jobs _ _ Is _ _ Hj) as <-.
  unfold mbind at 1, M_bind at 1, get_run, gets.
  destruct (Sch.triggers s !! _) as [r|]; [by destruct (negb _)|].
  unfold mbind at 1, M_bind at 1.
  pose proof (validate_project_reads (λ s, s) (Job.project_id j) uid s) as V.
  destruct (validate_project (Job.project_id j) uid s) as [[u|e] s1]; simpl in V; subst s1; [|done].
  unfold mbind at 1, M_bind at 1.
  pose proof (validate_agent_reads (λ s, s) (Job.agent_slug j) uid (Job.project_id j) s) as V.
  destruct (validate_agent (Job.agent_slug j) uid (Job.project_id j) s) as [[u2|e] s1];
    simpl in V; subst s1; [|done].
  unfold mbind at 1, M_bind at 1, has_active_run, gets.
  unfold mbind at 1, M_bind at 1, modify. apply Rl in Is as Io. destruct Io as [Io _].
  set (run := new_scheduled_run _ _ _ _ _ _ _).
  unfold catch_integrity, mbind at 1, M_bind at 1.
  pose proof (add_run_spec run (others s)) as A.
  destruct (add_run run (others s)) as [[u3|e] s2].
  - destruct A as (Fr & Ow & ->). cbn [snd mret M_ret]. apply sinv_new_trigger; [done|done|done|..].
    + left. split; [done|]. by eexists.
    + apply new_run_not_submitted.
    + unfold run at 1. rewrite new_run_unfinished. intros N. apply negb_true_iff in N.
      rewrite any_false in N. intros k o Ho Eo. destruct (unfinished (others s) o) eqn:U; [|done].
      destruct (Lk s) as [_ Lk2]. destruct (Lk2 k o Ho Eo U) as (r0 & Hr0 & E0 & U0).
      specialize (N k r0 Hr0). simpl in N. rewrite E0, bool_decide_eq_true_2 in N by done. simpl in N. congruence.
  - destruct A as (-> & [c ->] & _). unfold mbind, M_bind, raise. 
    destruct (Sch.triggers (others s) !! _) as [r|]; [|done]. by destruct (negb _).
Qed.

(** * Steps *)

(** The rows of a deleted account. *)
Definition owned_by (uid : string) (job : option ScheduledAgentJob) : bool :=
  match job with Some j => bool_decide (Job.uid j = uid) | None => false end.

Definition forget_user (uid : string) (s : Scheduler) : Scheduler :=
  s <| Sch.jobs := filter (λ kj, owned_by uid (Some kj.2) = false) (Sch.jobs s) |>
    <| Sch.triggers := filter (λ kr, owned_by uid (Sch.jobs s !! Trig.job_id kr.2) = false)
                         (Sch.triggers s) |>.

Lemma sinv_forget t uid s : sinv t s → sinv t (forget_user uid s).
Proof.
  intros []. split; unfold jobs_keyed, forget_user; row_simpl; try done.
  - intros k j. rewrite map_lookup_filter_Some. intros [Hj _]. eauto.
  - intros k r. rewrite map_lookup_filter_Some. intros [Hr _]. eauto.
  - intros k r. rewrite map_lookup_filter_Some. intros [Hr O]. simpl in O.
    destruct (si_owner0 k r Hr) as [j Hj]. rewrite Hj in O.
    exists j. by apply map_lookup_filter_Some.
  - intros k1 k2 r1 r2. rewrite !map_lookup_filter_Some. intros [Ha _] [Hb _]. eauto.
  - intros k1 k2 j1 j2. rewrite !map_lookup_filter_Some. intros [Ha _] [Hb _]. eauto.
  - intros k j. rewrite map_lookup_filter_Some. intros [Hj _]. eauto.
  - intros k r. rewrite map_lookup_filter_Some. intros [Hr _].
    destruct (si_occurrence0 k r Hr) as [M|(E1 & E2 & E3 & E4 & E5)]; [by left|right].
    do 4 (split; [done|]). row_simpl. intros j. rewrite map_lookup_filter_Some. intros [Hj _]. auto.
  - intros k r. rewrite map_lookup_filter_Some. intros [Hr _]. eauto.
  - intros k1 k2 r1 r2. rewrite !map_lookup_filter_Some. intros [Ha _] [Hb _]. eauto.
Qed.

(** One transaction at the time [now], no earlier than the last.  The mark of a submission comes
    from the dispatcher that made it, while the trigger is still open; the agent services, and
    the accounts, change between the transactions. *)
Inductive sstep (x : datetime * Scheduler) : datetime * Scheduler → Prop :=
  | step_create uid data fresh_id others now : x.1 <= now → rely now others →
      sstep x (now, (create_scheduled_job container_text uid data fresh_id others now x.2).2)
  | step_update job_id uid data now : x.1 <= now →
      sstep x (now, (update_scheduled_job container_text job_id uid data now x.2).2)
  | step_delete job_id uid now : x.1 <= now →
      sstep x (now, (delete_scheduled_job job_id uid now x.2).2)
  | step_manual job_id request_id uid others now : x.1 <= now → rely now others →
      locks_job job_id others →
      sstep x (now, (manual_trigger container_text job_id request_id uid others now x.2).2)
  | step_claim locked now : x.1 <= now → sstep x (now, (claim_step locked now x.2).2)
  | step_submit id fresh now : x.1 <= now →
      sstep x (now, (dispatch_submit container_text id fresh now x.2).2)
  | step_mark run job now : x.1 <= now → recorded (Trig.request_id run) (Sch.agents x.2) →
      (∀ r, Sch.triggers x.2 !! Trig.id run = Some r →
         Trig.request_id r = Trig.request_id run ∧ unfinished x.2 r = true) →
      sstep x (now, (mark_submitted run job now x.2).2)
  | step_settle id error terminal :
      sstep x (x.1, (settle_dispatch_error id error terminal x.2).2)
  | step_agents s : Sch.jobs s = Sch.jobs x.2 → Sch.triggers s = Sch.triggers x.2 →
      agents_move (Sch.agents x.2) (Sch.agents s) → sstep x (x.1, s)
  | step_forget uid : sstep x (x.1, forget_user uid x.2).

Lemma sstep_keeps x y : sstep x y → sinv x.1 x.2 → sinv y.1 y.2.
Proof.
  intros St I. destruct St; simpl.
  - by eapply create_keeps.
  - by eapply update_keeps.
  - by eapply delete_keeps.
  - by eapply manual_keeps.
  - by eapply claim_step_keeps.
  - by eapply dispatch_submit_keeps.
  - by eapply mark_submitted_keeps.
  - by apply settle_keeps.
  - by eapply sinv_agents.
  - by apply sinv_forget.
Qed.

(** Reached from tables without jobs, beside agent tables that are in order. *)
Definition scheduled (t : datetime) (s : Scheduler) : Prop :=
  ∃ t0 s0, Sch.jobs s0 = ∅ ∧ Sch.triggers s0 = ∅ ∧ agents_ok (Sch.agents s0)
    ∧ rtc sstep (t0, s0) (t, s).

Lemma scheduled_sinv t s : scheduled t s → sinv t s.
Proof.
  intros (t0 & s0 & Ej & Et & Ok & T).
  assert (I0 : sinv t0 s0).
  { split; unfold jobs_keyed; rewrite ?Ej, ?Et; try done; intros *; by rewrite lookup_empty. }
  change t with (t, s).1. change s with (t, s).2 at 2.
  change (sinv (t0, s0).1 (t0, s0).2) in I0. clear Ej Et Ok.
  induction T as [x|x y z St _ IH]; [done|]. apply IH. by eapply sstep_keeps.
Qed.


(** No trigger of a due job has the occurrence that fires now. *)
Lemma fired_occurrence_new locked now s j k o :
  sinv now s → first_due locked now s j → Sch.triggers s !! k = Some o →
  ¬ (Trig.job_id o = Job.id j
     ∧ Trig.occurrence_key o = ("scheduled:" ++ isoformat (Job.next_run_at j))%string).
Proof.
  intros I (Hj & D & _) Ho [Ej Eo].
  destruct (si_occurrence _ _ I _ _ Ho) as [(_ & x & E)|(_ & E & Rp & _ & B)].
  - rewrite Eo in E. discriminate E.
  - rewrite Eo in E. apply append_same_start in E.
    apply isoformat_inj in E; [|exact (si_next _ _ I _ _ Hj)|done].
    rewrite <- Ej in Hj. specialize (B _ Hj). lia.
Qed.

Definition occurrence_of (j : ScheduledAgentJob) : string :=
  ("scheduled:" ++ isoformat (Job.next_run_at j))%string.

(** No stored trigger of another occurrence has an identifier with the digest of an occurrence
    that may fire. *)
Definition digests_apart (s : Scheduler) : Prop :=
  ∀ k j k' o, Sch.jobs s !! k = Some j → Sch.triggers s !! k' = Some o →
    let i := (Job.id j ++ ":" ++ occurrence_of j)%string in
    Trig.id o = build_request_id "scheduled-run" i
    ∨ Trig.request_id o = build_request_id "scheduled-request" i
    ∨ Trig.thread_id o = build_request_id "scheduled-thread" i →
    Trig.job_id o = Job.id j ∧ Trig.occurrence_key o = occurrence_of j.

Lemma digests_apart_switch locked now s s' :
  switch_off locked now s s' → digests_apart s → digests_apart s'.
Proof.
  intros [j e (Hj & _) _] Ap k x k' o Hx Ho. unfold with_job in Hx. revert Hx. row_simpl.
  rewrite lookup_insert_Some. intros [[<- <-]|[_ Hx]]; [|by eapply Ap].
  exact (Ap _ j k' o Hj Ho).
Qed.

(** A claim is never refused, so the loop never stops at a job because its occurrence fired
    before: in every state of the scheduler whose digests are apart, a claim returns. *)
Theorem claims_never_refused t locked now s :
  scheduled t s → t <= now → digests_apart s →
  ∃ o s', claim_due_run locked now s = (Ret (Some o), s').
Proof.
  intros Sc L Ap. apply scheduled_sinv in Sc as I. apply (sinv_later _ now) in I; [|done].
  clear Sc.
  assert (C : claimed locked now s (claim_due_run locked now s)).
  { unfold claim_due_run, mbind, M_bind, gets. apply claim_loop_spec; [by destruct I|].
    unfold due_count. pose proof (length_select_size (is_due locked now s) (Sch.jobs s)). lia. }
  destruct (claim_due_run locked now s) as [[[o|]|e] s']; [by exists o, s'|done|].
  exfalso. destruct C as [T (j & c & F & _ & N)].
  assert (I' : sinv now s' ∧ digests_apart s').
  { clear F N. induction T as [|x y z St _ IH]; [done|].
    apply IH; [by eapply digests_apart_switch|by eapply sinv_switch_off]. }
  destruct I' as [I' Ap']. apply not_fresh in N as (k & o & Ho & Cl).
  apply (fired_occurrence_new locked now s' j k o I' F Ho).
  destruct Cl as [->|[Cl|Cl]]; [|exact Cl|]; destruct F as (Hj & _);
    apply (Ap' _ j _ o Hj Ho); [left; by eapply si_triggers|by right].
Qed.
End keeping.

(** * Witnesses: a job is created and its minute comes *)

Lemma rely_id now : rely now (λ s, s).
Proof. intros s I. split; [done|]. by split; [apply I|]. Qed.

Definition demo_data : json :=
  JObj [("request_id", JStr " creation1"); ("project_id", JStr "p1"); ("agent_slug", JStr "main");
        ("name", JStr "daily "); ("prompt", JStr "hi"); ("cron_expression", JStr "* * * * *");
        ("timezone", JStr "UTC")].

Definition demo_empty : Scheduler := {|
  Sch.agents := demo_thread; Sch.jobs := ∅; Sch.triggers := ∅; Sch.users := {["u1" := 0]} |}.

#[local] Existing Instance demo_library.
#[local] Existing Instance demo_scope.
#[local] Existing Instance demo_catalog.

Definition demo_create (now : datetime) (s : Scheduler) :=
  create_scheduled_job (λ _, "") "u1" demo_data "j1" (λ s, s) now s.

Definition demo_created : Scheduler := (demo_create 0 demo_empty).2.

Lemma demo_created_scheduled : scheduled (λ _, "") 0 demo_created.
Proof.
  exists 0, demo_empty. split; [reflexivity|]. split; [reflexivity|].
  split; [split; [exact demo_thread_qwf|exact demo_thread_wf]|].
  apply rtc_once. apply (step_create (λ _, "") (0, demo_empty)); [reflexivity|apply rely_id].
Qed.


Lemma claims_never_refused_witness :
  claimed_summary (claim_due_run [] 90000000 demo_created)
    = Some ("scheduled:1970-01-01T00:01:00", 60000000, Dispatching, Some 150000000)
  ∧ ∃ o s', claim_due_run [] 90000000 demo_created = (Ret (Some o), s').
Proof.
  split; [vm_compute; reflexivity|].
  apply (claims_never_refused (λ _, "") 0); [exact demo_created_scheduled|lia|].
  intros k j k' o _ Ho. exfalso.
  assert (E : Sch.triggers demo_created = ∅) by (vm_compute; reflexivity).
  rewrite E, lookup_empty in Ho. discriminate Ho.
Defined.
