(* ===== verification/ScheduleRuns.v ===== *)
(** What the use cases of scheduled agents return: dispatching a trigger, the idempotent entries
    that create a job and start it by hand, and the identifiers they store. *)

From stdpp Require Import prelude gmap strings list fin_maps relations.
From Stdlib Require Import ZArith Lia.
From S2P Require Import Prelude PyLib Schema RunSpec RunRepo RunInv RunSafe RunLease Requests.
From S2P Require Import Queue QueueSpec Submission SubmissionSpec SubmissionProps Schedules.
From S2P Require Import ScheduleProps ScheduleInv.
Local Open Scope Z_scope.

(** * Identifiers *)

Lemma all_chars_take p n s : all_chars p s = true → all_chars p (str_take n s) = true.
Proof.
  revert s. induction n as [|n IH]; intros [|c s]; simpl; try done.
  intros H. apply andb_true_iff in H as [-> H]. by rewrite IH.
Qed.

Lemma hex_digit_char d : request_id_char (hex_digit d) = true.
Proof.
  unfold hex_digit. pose proof (Z.land_ones d 4 ltac:(lia)) as E. change (Z.ones 4) with 15 in E.
  pose proof (Z.mod_pos_bound d (2 ^ 4) ltac:(lia)) as B. rewrite <- E in B.
  generalize dependent (Z.land d 15). intros v _ B. simpl in B.
  assert (Hv : v = 0 ∨ v = 1 ∨ v = 2 ∨ v = 3 ∨ v = 4 ∨ v = 5 ∨ v = 6 ∨ v = 7 ∨ v = 8 ∨ v = 9
    ∨ v = 10 ∨ v = 11 ∨ v = 12 ∨ v = 13 ∨ v = 14 ∨ v = 15) by lia.
  repeat (destruct Hv as [->|Hv]; [reflexivity|]). by subst.
Qed.

Lemma hex_chars n z : all_chars request_id_char (hex n z) = true.
Proof. induction n as [|n IH]; simpl; [done|]. by rewrite hex_digit_char, IH. Qed.

Lemma sha256_chars s : all_chars request_id_char (sha256_hexdigest s) = true.
Proof.
  destruct (sha256_words s) as (words & L & ->). do 8 (destruct words as [|? words]; [done|]).
  destruct words; [|done]. cbn [map str_concat]. by rewrite !all_chars_app, !hex_chars.
Qed.

Lemma no_space c : request_id_char c = true → is_space c = false.
Proof. destruct c as [[] [] [] [] [] [] [] []]; reflexivity || discriminate. Qed.

Lemma strip_plain s : all_chars request_id_char s = true → strip s = s.
Proof.
  intros H. apply strip_solid. apply (all_chars_weaken request_id_char); [|done].
  intros c Hc. by rewrite no_space.
Qed.

Section runs.
Context `{ScheduleLibrary} `{DispatchScope} `{AgentCatalog} (container_text : json → string).

(** An identifier made of a proper prefix fits its column of 64 characters and is one that
    the services accept as it is. *)
Theorem build_request_id_accepted prefix value s :
  all_chars request_id_char prefix = true →
  (String.length (build_request_id prefix value) = Nat.min 16 (String.length prefix) + 48)%nat
  ∧ normalize_request_id container_text (Some (JStr (build_request_id prefix value))) s
    = (Ret (build_request_id prefix value), s).
Proof.
  intros Hp.
  assert (L : (String.length (build_request_id prefix value)
               = Nat.min 16 (String.length prefix) + 48)%nat).
  { unfold build_request_id. rewrite !length_append, !length_str_take, length_sha256. simpl. lia. }
  assert (C : all_chars request_id_char (build_request_id prefix value) = true).
  { unfold build_request_id. rewrite !all_chars_app, !all_chars_take; [done|apply sha256_chars|done]. }
  split; [done|]. unfold normalize_request_id, text_of, truthy, str_of. cbv zeta.
  rewrite bool_decide_eq_false_2 by (intros E; rewrite E in L; simpl in L; lia). cbn [negb].
  rewrite strip_plain, C, L by done.
  replace ((8 <=? _) && _) with true by (symmetry; bool_hyps; lia). done.
Qed.

(** * The intent of a creation *)

Lemma intent_keys_sorted (p a n pr m ms c z e : string) :
  sort_by (λ x y : string * string, str_leb x.1 y.1)
    [("project_id", p); ("agent_slug", a); ("name", n); ("prompt", pr); ("tool_approval_mode", m);
     ("model_spec", ms); ("cron_expression", c); ("timezone", z); ("enabled", e)]
  = [("agent_slug", a); ("cron_expression", c); ("enabled", e); ("model_spec", ms); ("name", n);
     ("project_id", p); ("prompt", pr); ("timezone", z); ("tool_approval_mode", m)].
Proof. reflexivity. Qed.

Lemma intent_text i :
  dumps (intent_fields i) =
  ("{" ++ dumps_str "agent_slug" ++ ":" ++ dumps_str (in_agent_slug i)
   ++ "," ++ dumps_str "cron_expression" ++ ":" ++ dumps_str (in_cron_expression i)
   ++ "," ++ dumps_str "enabled" ++ ":" ++ dumps (JBool (in_enabled i))
   ++ "," ++ dumps_str "model_spec" ++ ":" ++ dumps (default JNull (JStr <$> in_model_spec i))
   ++ "," ++ dumps_str "name" ++ ":" ++ dumps_str (in_name i)
   ++ "," ++ dumps_str "project_id" ++ ":" ++ dumps_str (in_project_id i)
   ++ "," ++ dumps_str "prompt" ++ ":" ++ dumps_str (in_prompt i)
   ++ "," ++ dumps_str "timezone" ++ ":" ++ dumps_str (in_timezone i)
   ++ "," ++ dumps_str "tool_approval_mode" ++ ":" ++ dumps_str (in_tool_approval_mode i)
   ++ "}")%string.
Proof.
  unfold intent_fields. cbn [dumps map fst snd]. rewrite intent_keys_sorted.
  cbn [map str_concat fst snd]. by rewrite <- !append_assoc.
Qed.

(** The text whose digest a creation compares determines the intent: a different project,
    agent, name, prompt, mode, model, plan, zone or switch gives a different text. *)
Theorem intent_text_determines i i' :
  dumps (intent_fields i) = dumps (intent_fields i') → i = i'.
Proof.
  rewrite !intent_text. intros E.
  repeat (apply append_same_start in E). apply dumps_str_inj in E as [E1 E].
  repeat (apply append_same_start in E). apply dumps_str_inj in E as [E2 E].
  repeat (apply append_same_start in E). apply dumps_bool_inj in E as [E3 E].
  repeat (apply append_same_start in E). apply dumps_optional_inj in E as [E4 E].
  repeat (apply append_same_start in E). apply dumps_str_inj in E as [E5 E].
  repeat (apply append_same_start in E). apply dumps_str_inj in E as [E6 E].
  repeat (apply append_same_start in E). apply dumps_str_inj in E as [E7 E].
  repeat (apply append_same_start in E). apply dumps_str_inj in E as [E8 E].
  repeat (apply append_same_start in E). apply dumps_str_inj in E as [E9 _].
  destruct i, i'. simpl in *. by subst.
Qed.

(** The intent that [data] states, when it is accepted. *)
Definition stated_intent (data : json) : Intent := {|
  in_project_id := text_of container_text (jget "project_id" data);
  in_agent_slug := text_of container_text (jget "agent_slug" data);
  in_name := text_of container_text (jget "name" data);
  in_prompt := text_of container_text (jget "prompt" data);
  in_tool_approval_mode :=
    match default (JStr "default") (jget "tool_approval_mode" data) with
    | JStr m => strip m
    | _ => ""
    end;
  in_model_spec :=
    let m := text_of container_text (jget "model_spec" data) in
    if bool_decide (m = "") then None else Some m;
  in_cron_expression := text_of container_text (jget "cron_expression" data);
  in_timezone := text_of container_text (jget "timezone" data);
  in_enabled := truthy (default (JBool true) (jget "enabled" data)) |}.

Lemma text_inv v f m s a s' :
  normalize_text container_text v f m s = (Ret a, s') → a = text_of container_text v ∧ s' = s.
Proof. unfold normalize_text, raise. cbv zeta. repeat case_match; by intros [= <- <-]. Qed.

Lemma request_id_inv v s a s' :
  normalize_request_id container_text v s = (Ret a, s') → a = text_of container_text v ∧ s' = s.
Proof. unfold normalize_request_id, raise. cbv zeta. repeat case_match; by intros [= <- <-]. Qed.

Lemma schedule_inv e z now s a s' :
  validate_schedule container_text e z now s = (Ret a, s') →
  a = (text_of container_text e, text_of container_text z) ∧ s' = s.
Proof. unfold validate_schedule, raise. cbv zeta. repeat case_match; by intros [= <- <-]. Qed.

Lemma model_inv v s a s' :
  normalize_model_spec container_text v s = (Ret a, s') →
  a = (let m := text_of container_text v in if bool_decide (m = "") then None else Some m) ∧ s' = s.
Proof. unfold normalize_model_spec, raise. cbv zeta. repeat case_match; by intros [= <- <-]. Qed.

Lemma mode_inv v s a s' :
  tool_approval_mode_or_422 v s = (Ret a, s') →
  a = (match v with JStr m => strip m | _ => "" end) ∧ s' = s.
Proof.
  unfold tool_approval_mode_or_422, lift, normalize_tool_approval_mode.
  destruct v; try done. case_bool_decide; [|done]. by intros [= <- <-].
Qed.

Lemma creation_intent_inv data now s i s' :
  creation_intent container_text data now s = (Ret i, s') → i = stated_intent data ∧ s' = s.
Proof.
  unfold creation_intent. intros E.
  run E. apply text_inv in R as [-> ->]. run E. apply text_inv in R as [-> ->].
  run E. apply text_inv in R as [-> ->]. run E. apply text_inv in R as [-> ->].
  run E. apply schedule_inv in R as [-> ->]. run E. apply model_inv in R as [-> ->].
  run E. apply mode_inv in R as [-> ->]. by injection E as <- <-.
Qed.

(** The key and the digest under which a creation is remembered. *)
Definition creation_key (uid : string) (data : json) : string * string :=
  (uid, text_of container_text (jget "request_id" data)).

Definition creation_of (j : ScheduledAgentJob) : string * string :=
  (Job.uid j, Job.creation_request_id j).

Definition stated_hash (data : json) : string := intent_hash (intent_fields (stated_intent data)).

(** A stored job of the creation. *)
Definition created_before (uid : string) (data : json) (s : Scheduler) (j : ScheduledAgentJob)
    : Prop :=
  Sch.jobs s !! Job.id j = Some j ∧ creation_of j = creation_key uid data
  ∧ Job.creation_intent_hash j = stated_hash data.

Lemma by_creation_spec uid rid s o s' :
  jobs_keyed s → get_job_by_creation_request uid rid s = (Ret o, s') →
  s' = s ∧ match o with
           | Some j => Sch.jobs s !! Job.id j = Some j ∧ creation_of j = (uid, rid)
           | None => ∀ k j, Sch.jobs s !! k = Some j → creation_of j ≠ (uid, rid)
           end.
Proof.
  intros K. unfold get_job_by_creation_request, gets. intros [= <- <-]. split; [done|].
  destruct (select _ _) as [|j l] eqn:E; simpl.
  - intros k j Hj [= Eu Ei].
    assert (In : j ∈ select (λ j, bool_decide (Job.uid j = uid)
      && bool_decide (Job.creation_request_id j = rid)) (Sch.jobs s)).
    { apply elem_of_select. split; [|eauto]. by rewrite !bool_decide_eq_true_2. }
    rewrite E in In. by apply elem_of_nil in In.
  - assert (In : j ∈ select (λ j, bool_decide (Job.uid j = uid)
      && bool_decide (Job.creation_request_id j = rid)) (Sch.jobs s)) by (rewrite E; by left).
    apply elem_of_select in In as [P [k Hk]]. bool_hyps. destruct P as [<- <-].
    by rewrite (K k j Hk).
Qed.

Lemma replay_job_inv h j s j' s' :
  replay_job h j s = (Ret j', s') → j' = j ∧ s' = s ∧ Job.creation_intent_hash j = h.
Proof.
  unfold replay_job, raise. case_bool_decide; cbn [negb]; [|done]. by intros [= <- <-].
Qed.

(** The paths of a creation that returns. *)
Lemma create_inv uid data fresh_id others now s j s' :
  jobs_keyed s → jobs_keyed (others s) →
  create_scheduled_job container_text uid data fresh_id others now s = (Ret j, s') →
  (s' = s ∧ created_before uid data s j)
  ∨ (∀ k o, Sch.jobs s !! k = Some o → creation_of o ≠ creation_key uid data)
    ∧ ((s' = others s ∧ created_before uid data (others s) j)
       ∨ ∃ next, now < next ∧ j = job_of_intent fresh_id uid (creation_key uid data).2
                                    (stated_intent data) next now
           ∧ Sch.jobs (others s) !! fresh_id = None ∧ s' = with_job j (others s)).
Proof.
  intros K Ko. unfold create_scheduled_job. intros E.
  run E. apply request_id_inv in R as [-> ->]. run E. apply creation_intent_inv in R as [-> ->].
  cbv zeta in E. run E. apply by_creation_spec in R as [-> By]; [|done]. destruct a as [old|].
  { left. apply replay_job_inv in E as (-> & -> & Eh). by destruct By. }
  right. split; [exact By|].
  run E. apply (keeps_inv (λ s, s)) in R; [|apply validate_project_reads]. subst s1.
  run E. apply (keeps_inv (λ s, s)) in R; [|apply validate_agent_reads]. subst s1.
  run E. destruct (next_run_at _ _ _) as [next|e] eqn:N; [|done]. injection R as <- <-.
  apply next_run_at_ok in N as [N _]. run E. injection R as _ <-.
  unfold catch_integrity, mbind at 1, M_bind at 1 in E.
  pose proof (add_job_spec (job_of_intent fresh_id uid (text_of container_text
    (jget "request_id" data)) (stated_intent data) next now) (others s)) as A.
  destruct (add_job _ (others s)) as [[u|x] s2].
  - destruct A as (Nj & _ & ->). injection E as <- <-. right. by exists next.
  - subst s2. left. destruct x; try done. run E. apply by_creation_spec in R as [-> By2]; [|done].
    destruct a2 as [old|]; [|done]. apply replay_job_inv in E as (-> & -> & Eh). by destruct By2.
Qed.

(** Creating is idempotent.  A creation that returns leaves one job under its request
    identifier, with the digest of the stated intent and a next time after now if it is new; the
    same creation again, at any later time and for any fresh identifier, changes nothing and can
    only return that job, as it is then. *)
Theorem creation_is_idempotent uid data f1 others now s j s' f2 others2 now2 s2 j2 o s2' :
  sinv now s → rely now others →
  create_scheduled_job container_text uid data f1 others now s = (Ret j, s') →
  sinv now2 s2 → rely now2 others2 →
  Sch.jobs s2 !! Job.id j = Some j2 → creation_of j2 = creation_of j →
  Job.creation_intent_hash j2 = Job.creation_intent_hash j →
  create_scheduled_job container_text uid data f2 others2 now2 s2 = (o, s2') →
  created_before uid data s' j ∧ (s' ≠ s → s' ≠ others s → now < Job.next_run_at j)
  ∧ s2' = s2 ∧ (∀ j', o = Ret j' → j' = j2).
Proof.
  intros I Rl E I2 Rl2 Hj2 Ec Eh E2. destruct (Rl s I) as [Io _].
  assert (Cb : created_before uid data s' j ∧ (s' ≠ s → s' ≠ others s → now < Job.next_run_at j)).
  { apply create_inv in E as [[-> Cb]|[_ [[-> Cb]|(next & Lt & -> & _ & ->)]]];
      [by split|by split| |by destruct I|by destruct Io].
    split; [|done]. split; [|done]. unfold with_job. row_simpl. by rewrite lookup_insert_eq. }
  destruct Cb as [Cb Later]. split; [done|]. split; [done|].
  destruct Cb as (_ & Ek & Ed).
  assert (K2 : ∀ k x, Sch.jobs s2 !! k = Some x → creation_of x = creation_key uid data → x = j2).
  { intros k x Hx Ex. rewrite <- Ek, <- Ec in Ex. injection Ex as Eu Ei.
    pose proof (si_creation _ _ I2 _ _ _ _ Hx Hj2 Eu Ei) as ->. congruence. }
  unfold create_scheduled_job in E2. unfold mbind at 1, M_bind at 1 in E2.
  destruct (normalize_request_id container_text (jget "request_id" data) s2) as [[rid|x] s3] eqn:Er.
  2: { pose proof (request_id_keeps container_text (λ s, s) (jget "request_id" data) s2) as Q.
       rewrite Er in Q. simpl in Q. injection E2 as <- <-. by split. }
  apply request_id_inv in Er as [-> ->]. unfold mbind at 1, M_bind at 1 in E2.
  destruct (creation_intent container_text data now2 s2) as [[i|x] s3] eqn:Ei.
  2: { pose proof (intent_keeps container_text (λ s, s) data now2 s2) as Q.
       rewrite Ei in Q. simpl in Q. injection E2 as <- <-. by split. }
  apply creation_intent_inv in Ei as [-> ->]. cbv zeta in E2. unfold mbind at 1, M_bind at 1 in E2.
  destruct (get_job_by_creation_request _ _ s2) as [[w|x] s3] eqn:Eg; [|done].
  apply by_creation_spec in Eg as [-> By]; [|by destruct I2]. destruct w as [old|].
  - destruct By as [Ho Eo]. apply K2 in Ho as ->; [|done].
    unfold replay_job in E2. rewrite Eh, Ed, bool_decide_eq_true_2 in E2 by done.
    injection E2 as <- <-. split; [done|]. by intros ? [= <-].
  - exfalso. eapply By; [exact Hj2|]. by rewrite Ec, Ek.
Qed.

(** * Dispatching *)

Definition is_http (e : exn) : bool := match e with HTTPException _ _ => true | _ => false end.

(** How an open trigger may end: the request is there and the trigger says so; or an HTTP error
    ended it without a request; or another error leaves it open, to be tried again. *)
Definition dispatched_as (r : ScheduledAgentRun) (res : outcome (option ExecutionView) * Scheduler)
    : Prop :=
  ∃ r', Sch.triggers res.2 !! Trig.id r = Some r' ∧
  ((r' = r <| Trig.status := Submitted |> ∧ recorded (Trig.request_id r) (Sch.agents res.2))
   ∨ (request_of (Trig.request_id r) res.2 = None
      ∧ ((∃ m, r' = r <| Trig.status := TrigFailed |> <| Trig.error_message := Some m |>
            ∧ res.1 = Ret (Some (execution_to_dict r' None None)))
         ∨ (r' = r ∧ ∃ e, res.1 = Raise e ∧ is_http e = false)))).

(** The rows of other triggers stay, and the agent tables only move forward. *)
Definition beside (r : ScheduledAgentRun) (s s' : Scheduler) : Prop :=
  (∀ k, k ≠ Trig.id r → Sch.triggers s' !! k = Sch.triggers s !! k)
  ∧ agents_move (Sch.agents s) (Sch.agents s').

Lemma agents_move_refl db : agents_ok db → agents_move db db.
Proof. by intros Ok. Qed.

Lemma beside_put r r' s s' :
  agents_ok (Sch.agents s) → Trig.id r' = Trig.id r → s' = with_trigger r' s → beside r s s'.
Proof.
  intros Ok E ->. split; [|by apply agents_move_refl]. intros k N. unfold with_trigger. row_simpl.
  rewrite E. by rewrite lookup_insert_ne.
Qed.

(** What the error handlers make of an open trigger. *)
Definition settled_trigger (r : ScheduledAgentRun) (error : string) (terminal : bool)
    (s : Scheduler) : ScheduledAgentRun :=
  if bool_decide (request_of (Trig.request_id r) s = None)
  then if terminal
       then r <| Trig.status := TrigFailed |> <| Trig.error_message := Some error |>
       else r
  else r <| Trig.status := Submitted |>.

Lemma settle_spec r error terminal s :
  Sch.triggers s !! Trig.id r = Some r → Trig.status r = Dispatching →
  let q := request_of (Trig.request_id r) s in
  settle_dispatch_error (Trig.id r) error terminal s
  = (Ret (Some (execution_to_dict (settled_trigger r error terminal s) q (run_of q s))),
     with_trigger (settled_trigger r error terminal s) s).
Proof.
  intros Hr St. cbv zeta. unfold settle_dispatch_error, get_run, get_request_and_run, put_trigger,
    settled_trigger. m_unfold. rewrite Hr, bool_decide_eq_true_2 by done. cbn [negb fst snd].
  by destruct (bool_decide (request_of (Trig.request_id r) s = None)).
Qed.

(** The status of the settled trigger that a client sees is that of its request or run, so the
    handler never finds the word it looks for after it recorded a submission. *)
Lemma settled_view_not_submitted r error terminal s :
  Trig.status r = Dispatching →
  let q := request_of (Trig.request_id r) s in
  view_submitted (Some (execution_to_dict (settled_trigger r error terminal s) q (run_of q s)))
  = false.
Proof.
  intros St. cbv zeta. unfold settled_trigger, execution_to_dict.
  destruct (request_of (Trig.request_id r) s) as [q|].
  - rewrite bool_decide_eq_false_2 by done. row_simpl. destruct (Req.status q), (run_of (Some q) s); done.
  - rewrite bool_decide_eq_true_2 by done. destruct terminal; row_simpl; [done|]. by rewrite St.
Qed.

Lemma handle_error_spec e s r :
  Sch.triggers s !! Trig.id r = Some r → Trig.status r = Dispatching →
  let q := request_of (Trig.request_id r) s in
  let r' := settled_trigger r (exn_text e) (is_http e) s in
  handle_dispatch_error (Trig.id r) e (λ s, s) s
  = (if is_http e then Ret (Some (execution_to_dict r' q (run_of q s))) else Raise e,
     with_trigger r' s).
Proof.
  intros Hr St. cbv zeta. unfold handle_dispatch_error. unfold mbind at 1, M_bind at 1, modify.
  destruct e; unfold mbind, M_bind; rewrite settle_spec by done;
    rewrite ?settled_view_not_submitted by done; done.
Qed.

Lemma handled_as e s r :
  agents_ok (Sch.agents s) → Sch.triggers s !! Trig.id r = Some r → Trig.status r = Dispatching →
  let res := handle_dispatch_error (Trig.id r) e (λ s, s) s in
  dispatched_as r res ∧ beside r s res.2.
Proof.
  intros Ok Hr St. cbv zeta. rewrite handle_error_spec by done. cbn [fst snd].
  set (r' := settled_trigger r (exn_text e) (is_http e) s).
  assert (Ei : Trig.id r' = Trig.id r).
  { unfold r', settled_trigger. destruct (bool_decide _), (is_http e); done. }
  split; [|by eapply beside_put]. exists r'. split.
  { cbn [snd]. unfold with_trigger. row_simpl. by rewrite <- Ei, lookup_insert_eq. }
  cbn [fst snd]. change (request_of (Trig.request_id r) (with_trigger r' s))
    with (request_of (Trig.request_id r) s).
  change (Sch.agents (with_trigger r' s)) with (Sch.agents s). unfold r', settled_trigger.
  destruct (request_of (Trig.request_id r) s) as [q|] eqn:Q.
  - left. rewrite bool_decide_eq_false_2 by done. split; [done|]. left. by exists q.
  - right. split; [done|]. rewrite bool_decide_eq_true_2 by done. destruct (is_http e) eqn:He.
    + left. by eexists.
    + right. split; [done|]. by exists e.
Qed.

Lemma mark_spec run job now s :
  jobs_keyed s → Sch.triggers s !! Trig.id run = Some run → Sch.jobs s !! Trig.job_id run = Some job →
  mark_submitted run job now s
  = (Ret tt, with_job (job <| Job.updated_at := now |>) (with_trigger (run <| Trig.status := Submitted |>) s)).
Proof.
  intros K Hr Hj. pose proof (K _ _ Hj) as Ej. unfold mark_submitted, put_trigger, put_job. m_unfold.
  unfold id. by rewrite Hr, Ej, Hj.
Qed.

Lemma dispatch_submit_stopped fresh now s r reason :
  Sch.triggers s !! Trig.id r = Some r → Trig.status r = Dispatching →
  stopped s r = Some reason →
  dispatch_submit container_text (Trig.id r) fresh now s
  = (Ret (DispatchOver (Some (trigger_to_dict (cancelled r reason)))),
     with_trigger (cancelled r reason) s).
Proof.
  intros Hr St Sp. unfold stopped in Sp. unfold dispatch_submit, atomic, get_run.
  unfold mbind at 1, M_bind at 1, gets. rewrite Hr, bool_decide_eq_true_2 by done. cbn [negb].
  unfold mbind at 1, M_bind at 1. unfold mbind at 1, M_bind at 1.
  destruct (Sch.jobs s !! Trig.job_id r) as [j|]; [|by injection Sp as <-].
  destruct (negb _); [by injection Sp as <-|]. destruct (_ && _); [by injection Sp as <-|done].
Qed.

(** The paths of an undisturbed dispatch. *)
Lemma dispatch_over id fresh delivery now s v s1 :
  dispatch_submit container_text id fresh now s = (Ret (DispatchOver v), s1) →
  dispatch_scheduled_run container_text id fresh (λ s, s) (λ s, s) delivery now s = (Ret v, s1).
Proof. intros E. unfold dispatch_scheduled_run, dispatch_body. by rewrite (bind_run _ _ _ _ _ E). Qed.

Lemma dispatch_refused id fresh delivery now s e :
  dispatch_submit container_text id fresh now s = (Raise e, s) →
  dispatch_scheduled_run container_text id fresh (λ s, s) (λ s, s) delivery now s
  = handle_dispatch_error id e (λ s, s) s.
Proof.
  intros E. unfold dispatch_scheduled_run, dispatch_body, mbind, M_bind. by rewrite E.
Qed.

Lemma dispatch_sent id fresh delivery now s run job s1 :
  jobs_keyed s1 → Sch.triggers s1 !! Trig.id run = Some run →
  Sch.jobs s1 !! Trig.job_id run = Some job →
  dispatch_submit container_text id fresh now s = (Ret (DispatchSent run job), s1) →
  dispatch_scheduled_run container_text id fresh (λ s, s) (λ s, s) delivery now s
  = match delivery with
    | Raise e => handle_dispatch_error id e (λ s, s) s1
    | Ret _ =>
        let run' := run <| Trig.status := Submitted |> in
        let s2 := with_job (job <| Job.updated_at := now |>) (with_trigger run' s1) in
        let q := request_of (Trig.request_id run) s2 in
        (Ret (Some (execution_to_dict run' q (run_of q s2))), s2)
    end.
Proof.
  intros K Hr Hj E. unfold dispatch_scheduled_run, dispatch_body. rewrite (bind_run _ _ _ _ _ E).
  unfold mbind, M_bind, modify, lift. destruct delivery as [[]|e]; [|done].
  by rewrite (mark_spec run job now s1).
Qed.

(** C24: dispatching an open trigger.  If its job, plan or owner is gone the trigger is cancelled
    with the reason and nothing is submitted.  Otherwise, however the submission and the work
    after its commit end, the trigger is marked submitted and its request or run is there, or
    there is no request and it failed with an HTTP error's text, or it stays open under another
    error.  Other triggers keep their rows. *)
Theorem dispatch_outcome fresh delivery now s r :
  sinv now s → Sch.triggers s !! Trig.id r = Some r → Trig.status r = Dispatching →
  let res := dispatch_scheduled_run container_text (Trig.id r) fresh (λ s, s) (λ s, s) delivery
               now s in
  beside r s res.2
  ∧ match stopped s r with
    | Some reason =>
        res = (Ret (Some (trigger_to_dict (cancelled r reason))), with_trigger (cancelled r reason) s)
    | None => dispatched_as r res
    end.
Proof.
  intros I Hr St. cbv zeta. pose proof (si_agents _ _ I) as Ok.
  destruct (stopped s r) as [reason|] eqn:Sp.
  { rewrite (dispatch_over _ _ _ _ _ _ _ (dispatch_submit_stopped fresh now s r reason Hr St Sp)).
    split; [|done]. by eapply (beside_put r (cancelled r reason)). }
  pose proof (dispatch_submit_keeps container_text now (Trig.id r) fresh now s I ltac:(lia)) as I1.
  destruct (dispatch_submit container_text (Trig.id r) fresh now s) as [[step|e] s1] eqn:E.
  2: { assert (s1 = s) as -> by (by eapply atomic_raise).
       rewrite (dispatch_refused _ _ _ _ _ _ E). destruct (handled_as e s r Ok Hr St). by split. }
  pose proof E as P. apply dispatch_submit_inv in P. rewrite Hr, Sp in P.
  destruct P as [(N & _)|(_ & j & resp & db & Hj & -> & Sub & Es)]; [done|].
  pose proof (submit_trigger_moves container_text r j fresh now s Ok) as Mv. rewrite Sub in Mv.
  cbn [snd] in Mv, I1.
  assert (Hr1 : Sch.triggers s1 !! Trig.id r = Some r) by (by subst s1).
  assert (Hj1 : Sch.jobs s1 !! Trig.job_id r = Some j) by (by subst s1).
  assert (Rc : recorded (Trig.request_id r) (Sch.agents s1)).
  { subst s1. destruct resp as [resp d], Ok as [Q W]. 
    exact (submit_recorded container_text (trigger_request r j) (Job.uid j) _ _ _ now _ resp d db Q W Sub). }
  assert (B1 : ∀ s2, beside r s1 s2 → beside r s s2).
  { intros s2 [B Mv2]. subst s1. split; [exact B|].
    destruct Mv as (_ & A1 & A2), Mv2 as (Ok2 & A3 & A4). split; [done|]. split; by etrans. }
  rewrite (dispatch_sent _ _ _ _ _ _ _ _ (si_jobs _ _ I1) Hr1 Hj1 E).
  destruct delivery as [[]|e].
  - cbv zeta. cbn [fst snd]. set (s2 := with_job _ _). split.
    + apply B1. split; [|by apply agents_move_refl, I1]. intros k N.
      unfold s2, with_job, with_trigger. row_simpl. by rewrite lookup_insert_ne.
    + exists (r <| Trig.status := Submitted |>). split; [|by left]. cbn [snd].
      unfold s2, with_job, with_trigger. row_simpl. by rewrite lookup_insert_eq.
  - destruct (handled_as e s1 r (si_agents _ _ I1) Hr1 St) as [D B]. split; [by apply B1|done].
Qed.

(** A trigger whose submission is committed but not yet marked is cancelled when its job stops,
    and no longer counts as an unfinished execution, while its request goes on. *)
Lemma cancelled_despite_request fresh delivery now s r reason q :
  Sch.triggers s !! Trig.id r = Some r → Trig.status r = Dispatching →
  stopped s r = Some reason → request_of (Trig.request_id r) s = Some q →
  let s' := (dispatch_scheduled_run container_text (Trig.id r) fresh (λ s, s) (λ s, s) delivery
               now s).2 in
  Sch.triggers s' !! Trig.id r = Some (cancelled r reason)
  ∧ request_of (Trig.request_id r) s' = Some q
  ∧ unfinished s r = true ∧ unfinished s' (cancelled r reason) = false.
Proof.
  intros Hr St Sp Q. cbv zeta.
  rewrite (dispatch_over _ _ _ _ _ _ _ (dispatch_submit_stopped fresh now s r reason Hr St Sp)).
  split; [|split; [exact Q|split; [unfold unfinished; by rewrite St|done]]].
  cbn [snd]. unfold with_trigger. row_simpl.
  change (Trig.id (cancelled r reason)) with (Trig.id r). by rewrite lookup_insert_eq.
Qed.
End runs.

(** * Witnesses *)

#[local] Existing Instance demo_library.
#[local] Existing Instance demo_scope.
#[local] Existing Instance demo_catalog.

Lemma build_request_id_accepted_witness :
  String.length (build_request_id "scheduled-run" "j1:manual:x") = 61%nat
  ∧ normalize_request_id (λ _, "") (Some (JStr (build_request_id "scheduled-run" "j1:manual:x")))
      demo_empty = (Ret (build_request_id "scheduled-run" "j1:manual:x"), demo_empty).
Proof.
  destruct (build_request_id_accepted (λ _, "") "scheduled-run" "j1:manual:x" demo_empty
    eq_refl) as [L N]. split; [exact L|exact N].
Defined.

(** The same wish with other white space and its fields in another order. *)
Definition demo_data_again : json :=
  JObj [("prompt", JStr " hi"); ("timezone", JStr "UTC"); ("name", JStr "daily");
        ("cron_expression", JStr "* * * * * "); ("enabled", JBool true);
        ("agent_slug", JStr "main"); ("project_id", JStr " p1 "); ("request_id", JStr "creation1")].

Lemma intent_text_determines_witness :
  dumps (intent_fields (stated_intent (λ _, "") demo_data))
    = dumps (intent_fields (stated_intent (λ _, "") demo_data_again))
  ∧ stated_intent (λ _, "") demo_data = stated_intent (λ _, "") demo_data_again.
Proof. split; [vm_compute; reflexivity|]. apply intent_text_determines. vm_compute. reflexivity. Defined.

Definition demo_stored : ScheduledAgentJob := default demo_job (Sch.jobs demo_created !! "j1").

Lemma demo_creates : demo_create 0 demo_empty = (Ret demo_stored, demo_created).
Proof. vm_compute. reflexivity. Qed.

Lemma creation_is_idempotent_witness :
  demo_create 0 demo_empty = (Ret demo_stored, demo_created)
  ∧ 0 < Job.next_run_at demo_stored
  ∧ (create_scheduled_job (λ _, "") "u1" demo_data "j2" (λ s, s) 1000000 demo_created).2
    = demo_created.
Proof.
  split; [exact demo_creates|].
  assert (I0 : sinv 0 demo_empty).
  { apply (scheduled_sinv (λ _, "")). exists 0, demo_empty. split; [reflexivity|].
    split; [reflexivity|]. split; [|apply rtc_refl].
    split; [exact demo_thread_qwf|exact demo_thread_wf]. }
  assert (I1 : sinv 1000000 demo_created)
    by (apply (sinv_later 0); [lia|]; exact (scheduled_sinv (λ _, "") _ _ demo_created_scheduled)).
  destruct (create_scheduled_job (λ _, "") "u1" demo_data "j2" (λ s, s) 1000000 demo_created)
    as [o s2] eqn:E2.
  destruct (creation_is_idempotent (λ _, "") "u1" demo_data "j1" (λ s, s) 0 demo_empty demo_stored
    demo_created "j2" (λ s, s) 1000000 demo_created demo_stored o s2 I0 (rely_id 0) demo_creates I1
    (rely_id 1000000)) as (_ & _ & Es & _).
  - vm_compute. reflexivity.
  - reflexivity.
  - reflexivity.
  - exact E2.
  - split; [vm_compute; reflexivity|exact Es].
Defined.

(** The minute came: the trigger is submitted, but the worker cannot be woken. *)
Definition demo_fired : Scheduler := (claim_step [] 90000000 demo_created).2.

Lemma demo_fired_sinv : sinv 90000001 demo_fired.
Proof.
  apply (sinv_later 90000000); [lia|]. apply (claim_step_keeps 0); [|lia].
  exact (scheduled_sinv (λ _, "") _ _ demo_created_scheduled).
Qed.

Definition demo_trigger : ScheduledAgentRun :=
  new_scheduled_run demo_stored "scheduled" "scheduled:1970-01-01T00:01:00" 60000000 false None
    90000000.

Definition demo_dispatch (delivery : outcome unit) :=
  dispatch_scheduled_run (λ _, "") (Trig.id demo_trigger)
    {| fresh_conversation := 8; fresh_thread := "t9"; fresh_run := "r9" |}
    (λ s, s) (λ s, s) delivery 90000001 demo_fired.

Lemma dispatch_outcome_witness :
  dispatched_as demo_trigger (demo_dispatch (Raise (RuntimeError "redis")))
  ∧ (Run.status <$> DB.runs (Sch.agents (demo_dispatch (Raise (RuntimeError "redis"))).2) !! "r9")
    = Some Pending.
Proof.
  split; [|vm_compute; reflexivity].
  destruct (dispatch_outcome (λ _, "")
    {| fresh_conversation := 8; fresh_thread := "t9"; fresh_run := "r9" |}
    (Raise (RuntimeError "redis")) 90000001 demo_fired demo_trigger) as [_ D].
  - exact demo_fired_sinv.
  - vm_compute. reflexivity.
  - reflexivity.
  - assert (S : stopped demo_fired demo_trigger = None) by (vm_compute; reflexivity).
    rewrite S in D. exact D.
Defined.
