(* ===== verification/Shell.v ===== *)
(** The command lines the services hand to a sandbox: [shlex.quote], and a reader for the fragment
    of the POSIX shell they are written in.

    [sh_read] splits a line into the simple commands of an and-or list.  It knows plain words,
    single quotes, double quotes without expansions, [&&], [||] and the redirection of a file
    descriptor to a file; on every other active character, and on assignments and reserved words
    in command position, it gives up ([None]), so that what it reads means the same to a shell.
    [sh_run] is the order in which such a list executes. *)

From stdpp Require Import prelude strings list.
From Stdlib Require Import ZArith Lia Ascii.
From S2P Require Import Prelude PyLib.
Local Open Scope string_scope.

(** * Quoting *)

Definition squote : ascii := "039"%char.

(** [re.ASCII] word characters and [@%+=:,./-]: what [shlex.quote] leaves as it is. *)
Definition safe_char (c : ascii) : bool :=
  let n := Ascii.N_of_ascii c in
  ((48 <=? n) && (n <=? 57))%N || ((65 <=? n) && (n <=? 90))%N || ((97 <=? n) && (n <=? 122))%N
  || (n =? 95)%N || (n =? 64)%N || (n =? 37)%N || (n =? 43)%N || (n =? 61)%N || (n =? 58)%N
  || (n =? 44)%N || (n =? 46)%N || (n =? 47)%N || (n =? 45)%N.

(** A quoted quote: [s.replace] of a single quote. *)
Fixpoint quote_body (s : string) : string :=
  match s with
  | EmptyString => ""
  | String c s =>
      if Ascii.eqb c squote
      then String squote (String dquote (String squote (String dquote (String squote (quote_body s)))))
      else String c (quote_body s)
  end.

Definition quote (s : string) : string :=
  if bool_decide (s = "") then String squote (String squote "")
  else if all_chars safe_char s then s
  else String squote (quote_body s ++ String squote "").

(** * Reading a command line *)

Inductive token :=
  | TWord (w : string)
  | TAnd
  | TOr
  | TOut (fd : ascii).

(** Where the reader is: between or in an unquoted part of a word, or inside quotes. *)
Inductive quoting :=
  | Bare (word : option string)
  | Single (word : string)
  | Double (word : string).

Definition snoc (s : string) (c : ascii) : string := s ++ String c "".

Definition flush (word : option string) (ts : list token) : list token :=
  match word with
  | None => ts
  | Some w => TWord w :: ts
  end.

(** [$], the back quote and the backslash keep their meaning inside double quotes. *)
Definition active_in_double (c : ascii) : bool :=
  Ascii.eqb c "$" || Ascii.eqb c "`" || Ascii.eqb c backslash.

Definition is_digit (c : ascii) : bool :=
  let n := Ascii.N_of_ascii c in ((48 <=? n) && (n <=? 57))%N.

Fixpoint sh_lex (q : quoting) (s : string) : option (list token) :=
  match s with
  | EmptyString => match q with Bare word => Some (flush word []) | _ => None end
  | String c s' =>
      match q with
      | Single w => if Ascii.eqb c squote then sh_lex (Bare (Some w)) s' else sh_lex (Single (snoc w c)) s'
      | Double w =>
          if Ascii.eqb c dquote then sh_lex (Bare (Some w)) s'
          else if active_in_double c then None
          else sh_lex (Double (snoc w c)) s'
      | Bare word =>
          if Ascii.eqb c " " then flush word <$> sh_lex (Bare None) s'
          else if Ascii.eqb c squote then sh_lex (Single (default "" word)) s'
          else if Ascii.eqb c dquote then sh_lex (Double (default "" word)) s'
          else
            match s' with
            | String d s'' =>
                if Ascii.eqb c "&" && Ascii.eqb d "&"
                then (λ ts, flush word (TAnd :: ts)) <$> sh_lex (Bare None) s''
                else if Ascii.eqb c "|" && Ascii.eqb d "|"
                then (λ ts, flush word (TOr :: ts)) <$> sh_lex (Bare None) s''
                else if is_digit c && Ascii.eqb d ">" && bool_decide (word = None)
                then cons (TOut c) <$> sh_lex (Bare None) s''
                else if safe_char c then sh_lex (Bare (Some (snoc (default "" word) c))) s'
                else None
            | EmptyString =>
                if safe_char c then sh_lex (Bare (Some (snoc (default "" word) c))) s' else None
            end
      end
  end.

Record command := { argv : list string; outs : list (ascii * string) }.
Definition no_command : command := {| argv := []; outs := [] |}.
Definition add_word (w : string) (c : command) : command :=
  {| argv := (argv c ++ [w])%list; outs := outs c |}.
Definition add_out (fd : ascii) (w : string) (c : command) : command :=
  {| argv := argv c; outs := (outs c ++ [(fd, w)])%list |}.

Inductive connective := AndIf | OrIf.

(** A simple command, and what follows it. *)
Definition and_or : Type := command * list (connective * command).

Definition RESERVED : list string :=
  ["if"; "then"; "else"; "elif"; "fi"; "do"; "done"; "case"; "esac"; "while"; "until"; "for"; "in"].

Definition has_equals (s : string) : bool :=
  negb (all_chars (λ c, negb (Ascii.eqb c "=")) s).

(** A command whose first word is neither an assignment nor a reserved word. *)
Definition plain_command (c : command) : bool :=
  match argv c with
  | [] => false
  | w :: _ => negb (has_equals w) && negb (bool_decide (w ∈ RESERVED))
  end.

Fixpoint sh_parse (cur : command) (ts : list token) : option and_or :=
  match ts with
  | [] => if plain_command cur then Some (cur, []) else None
  | TWord w :: ts => sh_parse (add_word w cur) ts
  | TOut fd :: TWord w :: ts => sh_parse (add_out fd w cur) ts
  | TOut _ :: _ => None
  | TAnd :: ts =>
      if plain_command cur
      then '(next, rest) ← sh_parse no_command ts; Some (cur, (AndIf, next) :: rest)
      else None
  | TOr :: ts =>
      if plain_command cur
      then '(next, rest) ← sh_parse no_command ts; Some (cur, (OrIf, next) :: rest)
      else None
  end.

Definition sh_read (line : string) : option and_or :=
  ts ← sh_lex (Bare None) line; sh_parse no_command ts.

(** * Executing an and-or list

    The commands that start, in order; [ok] tells which of them succeed. *)
Fixpoint sh_continue (ok : command → bool) (status : bool) (rest : list (connective * command))
    : list command :=
  match rest with
  | [] => []
  | (AndIf, c) :: rest =>
      if status then c :: sh_continue ok (ok c) rest else sh_continue ok status rest
  | (OrIf, c) :: rest =>
      if status then sh_continue ok status rest else c :: sh_continue ok (ok c) rest
  end.

Definition sh_run (ok : command → bool) (l : and_or) : list command :=
  l.1 :: sh_continue ok (ok l.1) l.2.

(** * What is quoted reads back *)

Definition no_redirection (rest : string) : Prop :=
  match rest with String c _ => c ≠ ">"%char | EmptyString => True end.

Lemma safe_char_inert c :
  safe_char c = true →
  Ascii.eqb c " " = false ∧ Ascii.eqb c squote = false ∧ Ascii.eqb c dquote = false
  ∧ Ascii.eqb c "&" = false ∧ Ascii.eqb c "|" = false ∧ c ≠ ">"%char.
Proof. destruct c as [[] [] [] [] [] [] [] []]; vm_compute; intros; repeat split; congruence. Qed.

Lemma lex_safe_char word c s :
  safe_char c = true → no_redirection s →
  sh_lex (Bare word) (String c s) = sh_lex (Bare (Some (snoc (default "" word) c))) s.
Proof.
  intros Sc Nr. apply safe_char_inert in Sc as Hc. destruct Hc as (E1 & E2 & E3 & E4 & E5 & _).
  cbn [sh_lex]. rewrite E1, E2, E3. destruct s as [|d s]; [by rewrite Sc|].
  rewrite E4, E5, Sc. cbn [andb]. simpl in Nr.
  destruct (Ascii.eqb_spec d ">"%char) as [->|_]; [done|]. by rewrite andb_false_r.
Qed.

Lemma snoc_append s c t : snoc s c ++ t = s ++ String c t.
Proof. unfold snoc. by rewrite <- append_assoc. Qed.

Lemma lex_safe word s rest :
  all_chars safe_char s = true → no_redirection rest → s ≠ "" →
  sh_lex (Bare word) (s ++ rest) = sh_lex (Bare (Some (default "" word ++ s))) rest.
Proof.
  intros Hs Nr. revert word. induction s as [|c s IH]; [done|]. intros word _.
  cbn [all_chars] in Hs. apply andb_true_iff in Hs as [Hc Hs]. rewrite ?append_cons, ?append_nil_l.
  destruct s as [|d s].
  { rewrite lex_safe_char by done. reflexivity. }
  pose proof Hs as Hs'. cbn [all_chars] in Hs'. apply andb_true_iff in Hs' as [Hd _].
  rewrite lex_safe_char; [|done|by apply safe_char_inert in Hd; simpl; tauto].
  rewrite IH by done. cbn [default from_option]. unfold id. by rewrite snoc_append.
Qed.

Lemma lex_quote_body w s rest :
  sh_lex (Single w) (quote_body s ++ String squote rest) = sh_lex (Bare (Some (w ++ s))) rest.
Proof.
  revert w. induction s as [|c s IH]; intros w; cbn [quote_body].
  { cbn. by rewrite append_nil_r. }
  destruct (Ascii.eqb_spec c squote) as [->|Hc].
  - transitivity (sh_lex (Single (snoc w squote)) (quote_body s ++ String squote rest)); [done|].
    rewrite IH. by rewrite snoc_append.
  - rewrite append_cons; cbn [sh_lex]. apply Ascii.eqb_neq in Hc. rewrite Hc, IH. by rewrite snoc_append.
Qed.

(** Whatever the text, its quotation is read as that text, at the end of the current word. *)
Lemma lex_quote word s rest :
  no_redirection rest →
  sh_lex (Bare word) (quote s ++ rest) = sh_lex (Bare (Some (default "" word ++ s))) rest.
Proof.
  intros Nr. unfold quote. case_bool_decide as E; [subst s|].
  { cbn. by rewrite append_nil_r. }
  destruct (all_chars safe_char s) eqn:A; [by apply lex_safe|].
  rewrite ?append_cons, ?append_nil_l. rewrite <- append_assoc. rewrite ?append_cons, ?append_nil_l.
  change (sh_lex (Bare word) (String squote (quote_body s ++ String squote rest)))
    with (sh_lex (Single (default "" word)) (quote_body s ++ String squote rest)).
  apply lex_quote_body.
Qed.

(** [text] is written for the word [w]. *)
Definition reads (text w : string) : Prop :=
  ∀ rest, no_redirection rest → sh_lex (Bare None) (text ++ rest) = sh_lex (Bare (Some w)) rest.

Lemma reads_quote s : reads (quote s) s.
Proof. intros rest Nr. by rewrite lex_quote. Qed.

Lemma reads_safe s : all_chars safe_char s = true → s ≠ "" → reads s s.
Proof. intros Hs Ne rest Nr. by rewrite lex_safe. Qed.

Lemma safe_no_redirection s rest :
  all_chars safe_char s = true → s ≠ "" → no_redirection (s ++ rest).
Proof.
  destruct s as [|c s]; [done|]. cbn. intros Hs _. apply andb_true_iff in Hs as [Hc _].
  apply safe_char_inert in Hc. tauto.
Qed.

Lemma quote_no_redirection s rest : no_redirection (quote s ++ rest).
Proof.
  unfold quote. case_bool_decide; [done|]. case_match; [by apply safe_no_redirection|done].
Qed.

(** A quotation with plain text before or after it is one word. *)
Lemma reads_before key s :
  all_chars safe_char key = true → key ≠ "" → reads (key ++ quote s) (key ++ s).
Proof.
  intros Hk Ne rest Nr. rewrite <- append_assoc.
  rewrite lex_safe, lex_quote by auto using quote_no_redirection. done.
Qed.

Lemma reads_after s t :
  all_chars safe_char t = true → t ≠ "" → reads (quote s ++ t) (s ++ t).
Proof.
  intros Ht Ne rest Nr. rewrite <- append_assoc.
  rewrite lex_quote, lex_safe by auto using safe_no_redirection. done.
Qed.

Lemma lex_space word s : sh_lex (Bare word) (String " " s) = flush word <$> sh_lex (Bare None) s.
Proof. by destruct s. Qed.

(** Texts joined by spaces. *)
Lemma lex_texts t ts w ws rest :
  Forall2 reads (t :: ts) (w :: ws) →
  sh_lex (Bare None) (str_concat " " (t :: ts) ++ String " " rest)
  = (λ l, (map TWord (w :: ws) ++ l)%list) <$> sh_lex (Bare None) rest.
Proof.
  revert t w ws. induction ts as [|u ts IH]; intros t w ws F; inversion F as [|? ? ? ? Ft F']; subst.
  - inversion F'; subst. cbn [str_concat]. rewrite Ft by done. by rewrite lex_space.
  - inversion F' as [|? v ? vs]; subst.
    change (str_concat " " (t :: u :: ts)) with (t ++ String " " (str_concat " " (u :: ts))).
    rewrite <- append_assoc, append_cons, Ft by done.
    rewrite lex_space, (IH u v vs) by done. by destruct (sh_lex (Bare None) rest).
Qed.

Lemma lex_last_texts t ts w ws :
  Forall2 reads (t :: ts) (w :: ws) →
  sh_lex (Bare None) (str_concat " " (t :: ts)) = Some (map TWord (w :: ws)).
Proof.
  revert t w ws. induction ts as [|u ts IH]; intros t w ws F; inversion F as [|? ? ? ? Ft F']; subst.
  - inversion F'; subst. cbn [str_concat]. rewrite <- (append_nil_r t). by rewrite Ft.
  - inversion F' as [|? v ? vs]; subst.
    change (str_concat " " (t :: u :: ts)) with (t ++ String " " (str_concat " " (u :: ts))).
    rewrite Ft by done. rewrite lex_space, (IH u v vs) by done. done.
Qed.

Lemma reads_quotes l : Forall2 reads (map quote l) l.
Proof. induction l; constructor; auto using reads_quote. Qed.

Lemma lex_and s : sh_lex (Bare None) ("&& " ++ s) = cons TAnd <$> sh_lex (Bare None) s.
Proof.
  transitivity (cons TAnd <$> sh_lex (Bare None) (String " " s)); [done|].
  rewrite lex_space. by destruct (sh_lex (Bare None) s).
Qed.

Definition words_command (l : list string) : command := {| argv := l; outs := [] |}.

Lemma parse_words c l ts :
  sh_parse c (map TWord l ++ ts)%list
  = sh_parse {| argv := (argv c ++ l)%list; outs := outs c |} ts.
Proof.
  revert c. induction l as [|w l IH]; intros c; cbn [map app sh_parse].
  - rewrite app_nil_r. by destruct c.
  - rewrite IH. cbn. by rewrite <- app_assoc.
Qed.
