(* ===== verification/CodingAdapters.v ===== *)
(** The command lines and the output of the coding executors: [coding/adapters.py], the redaction
    of credentials in [coding/credentials.py], and where [services/coding_execution_service.py]
    keeps the state of a command-line tool ([_cli_state_layout]).

    A turn is run by handing one line to the shell of a sandbox; [Shell.v] reads such lines. *)

From stdpp Require Import prelude strings list pretty.
From Stdlib Require Import ZArith Lia Ascii.
From S2P Require Import Prelude PyLib PyJson Shell SandboxScope.
Local Open Scope string_scope.

(** * Building a command *)

Module TurnRequest.
Record CodingTurnRequest := {
  prompt : string;
  model : option string;
  session_ref : option string;
  plan_only : bool;
  workdir : option string;
  env : list (string * string);
  prelude : option string
}.
End TurnRequest.
Abbreviation CodingTurnRequest := TurnRequest.CodingTurnRequest.

Definition with_workdir (command : string) (workdir : option string) : string :=
  match workdir with
  | None => command
  | Some w => if bool_decide (w = "") then command else "cd " ++ quote w ++ " && " ++ command
  end.

(** [sorted(request.env.items())]: the keys of a dict differ. *)
Definition env_leb (a b : string * string) : bool := str_leb a.1 b.1.

Definition assignment (kv : string * string) : string := kv.1 ++ "=" ++ quote kv.2.

Definition apply_turn_wrapper (command : string) (request : CodingTurnRequest) : string :=
  let assignments := str_concat " " (map assignment (sort_by env_leb (TurnRequest.env request))) in
  let wrapped :=
    if bool_decide (assignments = "") then command
    else "env " ++ assignments ++ " " ++ command in
  match TurnRequest.prelude request with
  | None => wrapped
  | Some p => if bool_decide (p = "") then wrapped else p ++ " && " ++ wrapped
  end.

(** The texts of the adapters' [executor]. *)
Inductive Adapter := OpenCodeAdapter | CodexAdapter.

#[global] Instance Adapter_eq_dec : EqDecision Adapter.
Proof. solve_decision. Defined.

(** [if value: parts += [flag, value]]. *)
Definition option_part (flag : string) (value : option string) : list string :=
  if falsy_str value then [] else [flag; default "" value].

Definition opencode_parts (r : CodingTurnRequest) : list string :=
  (["opencode"; "run"; "--format"; "json"]
   ++ (if TurnRequest.plan_only r then ["--agent"; "plan"] else [])
   ++ option_part "-m" (TurnRequest.model r) ++ option_part "-s" (TurnRequest.session_ref r)
   ++ [TurnRequest.prompt r])%list.

Definition codex_parts (r : CodingTurnRequest) : list string :=
  ((if falsy_str (TurnRequest.session_ref r)
    then ["codex"; "exec"; "--json"; "--skip-git-repo-check"; "-s";
          if TurnRequest.plan_only r then "read-only" else "workspace-write"]
         ++ option_part "-m" (TurnRequest.model r)
    else ["codex"; "exec"; "resume"; default "" (TurnRequest.session_ref r); "--json";
          "--skip-git-repo-check"])
   ++ [TurnRequest.prompt r])%list.

Definition parts (a : Adapter) (r : CodingTurnRequest) : list string :=
  match a with OpenCodeAdapter => opencode_parts r | CodexAdapter => codex_parts r end.

Definition build_command (a : Adapter) (request : CodingTurnRequest) : string :=
  let command := str_concat " " (map quote (parts a request)) in
  with_workdir (apply_turn_wrapper command request) (TurnRequest.workdir request).

Definition get_coding_adapter (executor : string) : outcome Adapter :=
  let normalized := lower (strip executor) in
  if bool_decide (normalized = "opencode") then Ret OpenCodeAdapter
  else if bool_decide (normalized = "codex") then Ret CodexAdapter
  else Raise (ValueError ("unsupported coding executor: " ++ executor)).

(** * The state of the tools *)

Record CliStateLayout := {
  layout_env : list (string * string);
  layout_prelude : string;
  probe_dir : string
}.

Definition cli_state_layout (executor session_id : string) : CliStateLayout :=
  let base := "/home/gem/user-data/agents/coding/" ++ session_id in
  if bool_decide (executor = "opencode") then
    let data_dir := base ++ "/data" in
    let cache_dir := base ++ "/cache" in
    {| layout_env := [("XDG_DATA_HOME", data_dir); ("XDG_CACHE_HOME", cache_dir)];
       layout_prelude := "mkdir -p " ++ quote data_dir ++ " " ++ quote cache_dir;
       probe_dir := data_dir ++ "/opencode" |}
  else
    let home := base ++ "/codex-home" in
    {| layout_env := [("CODEX_HOME", home)];
       layout_prelude := "mkdir -p " ++ quote home ++ " && cp -n /home/gem/.codex/config.toml "
                         ++ quote home ++ "/config.toml 2>/dev/null || true";
       probe_dir := home |}.

(** The request of [_execute_turn_tail]. *)
Definition turn_request (executor session_id task workdir : string) (session_ref : option string)
    (plan_only : bool) : CodingTurnRequest :=
  let layout := cli_state_layout executor session_id in
  {| TurnRequest.prompt := task; TurnRequest.model := None; TurnRequest.session_ref := session_ref;
     TurnRequest.plan_only := plan_only; TurnRequest.workdir := Some workdir;
     TurnRequest.env := layout_env layout; TurnRequest.prelude := Some (layout_prelude layout) |}.

(** * What a turn produced *)

(** [NormalizedEvent]: the payload of an event is an object. *)
Record NormalizedEvent := { kind : string; payload : json }.

Record CodingTurnResult := {
  output_text : string;
  result_ref : option string;
  usage : option json;
  error : option string
}.

Section results.
Context (container_text : json → string).

(** [str(payload.get(key) or fallback)]. *)
Definition payload_text (key fallback : string) (e : NormalizedEvent) : string :=
  match jget key (payload e) with
  | Some v => if truthy v then str_of container_text v else fallback
  | None => fallback
  end.

Definition result_step (r : CodingTurnResult) (e : NormalizedEvent) : CodingTurnResult :=
  if bool_decide (kind e = "output_delta") then
    {| output_text := output_text r ++ payload_text "text" "" e; result_ref := result_ref r;
       usage := usage r; error := error r |}
  else if bool_decide (kind e = "session_ref") then
    let ref := payload_text "session_ref" "" e in
    {| output_text := output_text r;
       result_ref := if bool_decide (ref = "") then result_ref r else Some ref;
       usage := usage r; error := error r |}
  else if bool_decide (kind e = "usage") then
    {| output_text := output_text r; result_ref := result_ref r; usage := Some (payload e);
       error := error r |}
  else if bool_decide (kind e = "error") then
    {| output_text := output_text r; result_ref := result_ref r; usage := usage r;
       error := Some (payload_text "message" "coding executor failed" e) |}
  else r.

Definition no_result : CodingTurnResult :=
  {| output_text := ""; result_ref := None; usage := None; error := None |}.

Definition extract_turn_result (events : list NormalizedEvent) : CodingTurnResult :=
  let r := foldl result_step no_result events in
  {| output_text := strip (output_text r); result_ref := result_ref r; usage := usage r;
     error := error r |}.

(** * Reading the output of a tool

    [self.parse_events]: one JSON object a line, other lines are noise. *)

(** [payload.get(key)] of an object, and [x.get(key)] of any value. *)
Definition jfield (key : string) (v : json) : json := default JNull (jget key v).

Definition dot_get (v : json) (key : string) : outcome json :=
  match v with JObj _ => Ret (jfield key v) | _ => Raise (AttributeError "get") end.

(** [v or w]. *)
Definition jor (v w : json) : json := if truthy v then v else w.

Definition json_line (raw_line : string) : option json :=
  let line := strip raw_line in
  if String.prefix "{" line then
    match loads line with Some (JObj l) => Some (JObj l) | _ => None end
  else None.

Definition iter_json_lines (output : string) : list json := omap json_line (splitlines output).

(** [str(v or "")]. *)
Definition type_text (v : json) : string := if truthy v then str_of container_text v else "".

Definition or_empty_mark (t : string) : string := if bool_decide (t = "") then "<empty>" else t.

Definition opencode_events (payload : json) : outcome (list NormalizedEvent) :=
  let event_type := type_text (jfield "type" payload) in
  let part := json_or_empty (jfield "part" payload) in
  session_id ← (if truthy (jfield "sessionID" payload) then Ret (jfield "sessionID" payload)
                else dot_get part "sessionID");
  if bool_decide (event_type = "step_start") then
    mret (if truthy session_id
          then [{| kind := "session_ref"; payload := JObj [("session_ref", session_id)] |}] else [])
  else if bool_decide (event_type = "text") then
    text ← dot_get part "text";
    mret [{| kind := "output_delta"; payload := JObj [("text", jor text (JStr ""))] |}]
  else if bool_decide (event_type = "tool") then
    tool ← dot_get part "tool";
    state ← dot_get part "state";
    mret [{| kind := "tool_call";
             payload := JObj [("tool", jor tool (JStr "tool")); ("state", json_or_empty state)] |}]
  else if bool_decide (event_type = "step_finish") then
    tokens ← dot_get part "tokens";
    cost ← dot_get part "cost";
    reason ← dot_get part "reason";
    mret [{| kind := "usage"; payload := JObj [("tokens", json_or_empty tokens); ("cost", cost);
                                               ("reason", reason)] |}]
  else if bool_decide (event_type = "error") then
    data ← dot_get (json_or_empty (jfield "error" payload)) "data";
    message ← dot_get (json_or_empty data) "message";
    mret [{| kind := "error"; payload := JObj [("message", jor message (JStr "opencode error"))] |}]
  else
    mret [{| kind := "warning"; payload := JObj [("message",
               JStr ("unknown opencode event type: " ++ or_empty_mark event_type))] |}].

(** [dict(item)] keeps the last binding of a key; [loads] gives one. *)
Definition codex_item (item : json) : outcome (list NormalizedEvent) :=
  item_type ← dot_get item "type";
  let item_type := type_text item_type in
  if bool_decide (item_type = "agent_message") then
    text ← dot_get item "text";
    mret [{| kind := "output_delta"; payload := JObj [("text", jor text (JStr ""))] |}]
  else if bool_decide (item_type = "command_execution") then
    command ← dot_get item "command";
    status ← dot_get item "status";
    mret [{| kind := "tool_call"; payload := JObj [("tool", JStr "shell"); ("command", command);
                                                   ("status", status)] |}]
  else if bool_decide (item_type ∈ ["file_change"; "patch_apply"]) then
    mret [{| kind := "file_change"; payload := item |}]
  else
    mret [{| kind := "warning"; payload := JObj [("message",
               JStr ("unknown codex item type: " ++ or_empty_mark item_type))] |}].

Definition codex_events (payload : json) : outcome (list NormalizedEvent) :=
  let event_type := type_text (jfield "type" payload) in
  if bool_decide (event_type = "thread.started") then
    let thread_id := jfield "thread_id" payload in
    mret (if truthy thread_id
          then [{| kind := "session_ref"; payload := JObj [("session_ref", thread_id)] |}] else [])
  else if bool_decide (event_type = "turn.started") then mret []
  else if bool_decide (event_type = "item.completed") then
    codex_item (json_or_empty (jfield "item" payload))
  else if bool_decide (event_type = "turn.completed") then
    mret [{| kind := "usage"; payload := JObj [("usage", json_or_empty (jfield "usage" payload))] |}]
  else if bool_decide (event_type ∈ ["error"; "turn.failed"]) then
    let message := jfield "message" payload in
    message ← (if truthy message then Ret message
               else dot_get (json_or_empty (jfield "error" payload)) "message");
    mret [{| kind := "error"; payload := JObj [("message", jor message (JStr "codex error"))] |}]
  else
    mret [{| kind := "warning"; payload := JObj [("message",
               JStr ("unknown codex event type: " ++ or_empty_mark event_type))] |}].

Definition line_events (a : Adapter) : json → outcome (list NormalizedEvent) :=
  match a with OpenCodeAdapter => opencode_events | CodexAdapter => codex_events end.

Fixpoint events_of_lines (a : Adapter) (payloads : list json) : outcome (list NormalizedEvent) :=
  match payloads with
  | [] => mret []
  | payload :: payloads =>
      events ← line_events a payload;
      rest ← events_of_lines a payloads;
      mret (events ++ rest)%list
  end.

Definition parse_events (a : Adapter) (output : string) : outcome (list NormalizedEvent) :=
  events_of_lines a (iter_json_lines output).
End results.

(** * Redaction *)

Definition MARK : string := "[redacted]".

Definition redact_one (text secret : string) : string :=
  if (4 <=? String.length secret)%nat then str_replace secret MARK 0 text else text.

Definition redact_credential_values (text : string) (secrets : list string) : string :=
  foldl redact_one text secrets.

(** * The command line reads back as the turn it was made of *)

Definition cli_command (a : Adapter) (r : CodingTurnRequest) : command :=
  words_command ("env" :: map (λ kv, kv.1 +:+ "=" +:+ kv.2) (sort_by env_leb (TurnRequest.env r))
                 ++ parts a r)%list.

(** What runs between changing the directory and the tool. *)
Definition setup_commands (executor session_id : string) : list (connective * command) :=
  let base := "/home/gem/user-data/agents/coding/" ++ session_id in
  if bool_decide (executor = "opencode") then
    [(AndIf, words_command ["mkdir"; "-p"; base ++ "/data"; base ++ "/cache"])]
  else
    let home := base ++ "/codex-home" in
    [(AndIf, words_command ["mkdir"; "-p"; home]);
     (AndIf, {| argv := ["cp"; "-n"; "/home/gem/.codex/config.toml"; home ++ "/config.toml"];
                outs := [("2"%char, "/dev/null")] |});
     (OrIf, words_command ["true"])].

Lemma parts_cons a r : ∃ w ws, parts a r = w :: ws ∧ plain_command (words_command (w :: ws)) = true.
Proof.
  destruct a; cbn [parts]; [eexists _, _; split; [reflexivity|done]|].
  unfold codex_parts. destruct (falsy_str _); eexists _, _; split; reflexivity || done.
Qed.

(** [text && rest] for a text that reads as the words of a plain command. *)
Definition line_of (text : string) (ws : list string) : Prop :=
  ∃ t ts, text = str_concat " " (t :: ts) ∧ Forall2 reads (t :: ts) ws.

Lemma line_of_and text ws rest :
  line_of text ws →
  sh_lex (Bare None) (text ++ " && " ++ rest)
  = (λ l, (map TWord ws ++ TAnd :: l)%list) <$> sh_lex (Bare None) rest.
Proof.
  intros (t & ts & -> & F). inversion F as [|? w ? ws']; subst.
  change (" && " ++ rest) with (String " " ("&& " ++ rest)).
  rewrite (lex_texts _ _ w ws') by done. rewrite lex_and. by destruct (sh_lex (Bare None) rest).
Qed.

Lemma parse_line ws l :
  plain_command (words_command ws) = true →
  sh_parse no_command (map TWord ws ++ TAnd :: l)%list
  = ('(next, rest) ← sh_parse no_command l; Some (words_command ws, (AndIf, next) :: rest)).
Proof.
  intros P. rewrite parse_words. unfold words_command in *.
  cbn [sh_parse argv outs no_command app]. by rewrite P.
Qed.

Lemma line_cd workdir : line_of ("cd " ++ quote workdir) ["cd"; workdir].
Proof.
  exists "cd", [quote workdir]. split; [done|].
  repeat constructor; [by apply reads_safe|apply reads_quote].
Qed.

Lemma line_mkdir1 d : line_of ("mkdir -p " ++ quote d) ["mkdir"; "-p"; d].
Proof.
  exists "mkdir", ["-p"; quote d]. split; [done|].
  repeat constructor; [by apply reads_safe..|apply reads_quote].
Qed.

Lemma line_mkdir2 d c : line_of ("mkdir -p " ++ quote d ++ " " ++ quote c) ["mkdir"; "-p"; d; c].
Proof.
  exists "mkdir", ["-p"; quote d; quote c]. split; [done|].
  repeat constructor; [by apply reads_safe..|apply reads_quote|apply reads_quote].
Qed.

(** The command of the executor: its environment, then its words. *)
Lemma cli_lexes (e : list (string * string)) a r :
  Forall (λ kv, all_chars safe_char kv.1 = true) e → e ≠ [] →
  sh_lex (Bare None)
    ("env " ++ str_concat " " (map assignment e) ++ " " ++ str_concat " " (map quote (parts a r)))
  = Some (map TWord ("env" :: map (λ kv, kv.1 +:+ "=" +:+ kv.2) e ++ parts a r)%list).
Proof.
  intros F Ne.
  assert (E : "env " ++ str_concat " " (map assignment e) ++ " "
              ++ str_concat " " (map quote (parts a r))
              = str_concat " " ("env" :: map assignment e ++ map quote (parts a r))%list).
  { destruct (parts_cons a r) as (w & ws & -> & _). destruct e as [|kv e]; [done|]. clear.
    cbn [map app]. change ("env " ++ ?x) with ("env" ++ String " " x).
    change (str_concat " " ("env" :: ?x :: ?l)) with ("env" ++ String " " (str_concat " " (x :: l))).
    f_equal. f_equal. generalize (assignment kv). induction e as [|kv' e IH]; intros t; [done|].
    cbn [map app]. change (str_concat " " (t :: ?x :: ?l)) with (t ++ String " " (str_concat " " (x :: l))).
    rewrite <- append_assoc, append_cons. by rewrite IH. }
  rewrite E. rewrite (lex_last_texts _ _ "env" (map (λ kv, kv.1 +:+ "=" +:+ kv.2) e ++ parts a r)).
  { done. }
  constructor; [by apply reads_safe|]. apply Forall2_app; [|apply reads_quotes].
  clear Ne E. induction F as [|kv e Hk F IH]; constructor; [|done].
  unfold assignment. rewrite !append_assoc. apply reads_before; [|by destruct kv.1].
  by rewrite all_chars_app, Hk.
Qed.

Lemma no_command_words ws : plain_command (words_command ws) = true →
  sh_parse no_command (map TWord ws) = Some (words_command ws, []).
Proof.
  intros P. rewrite <- (app_nil_r (map TWord ws)), parse_words. unfold words_command in *.
  cbn [sh_parse argv outs no_command app]. by rewrite P.
Qed.

(** [cp -n .. 2>/dev/null || true && ..]. *)
Lemma lex_copy home rest :
  sh_lex (Bare None) ("cp -n /home/gem/.codex/config.toml " ++ quote home
                      ++ "/config.toml 2>/dev/null || true" ++ " && " ++ rest)
  = (λ l, (map TWord ["cp"; "-n"; "/home/gem/.codex/config.toml"; home +:+ "/config.toml"]
           ++ TOut "2" :: TWord "/dev/null" :: TOr :: TWord "true" :: TAnd :: l)%list)
    <$> sh_lex (Bare None) rest.
Proof.
  transitivity (sh_lex (Bare None) (str_concat " " ["cp"; "-n"; "/home/gem/.codex/config.toml";
                    quote home ++ "/config.toml"] ++ String " " ("2>/dev/null || true && " ++ rest))).
  { f_equal. cbn [map str_concat]. by rewrite <- !append_assoc. }
  rewrite (lex_texts _ _ "cp" ["-n"; "/home/gem/.codex/config.toml"; home ++ "/config.toml"]).
  2:{ repeat constructor; [by apply reads_safe..|by apply reads_after]. }
  assert (T : sh_lex (Bare None) ("2>/dev/null || true && " ++ rest)
    = cons (TOut "2") <$> (flush (Some "/dev/null") <$> (cons TOr <$> (flush None <$>
        (flush (Some "true") <$> (cons TAnd <$> sh_lex (Bare None) (String " " rest))))))) by done.
  rewrite T, lex_space. by destruct (sh_lex (Bare None) rest).
Qed.

Definition coding_base (session_id : string) : string :=
  "/home/gem/user-data/agents/coding/" ++ session_id.

(** The tokens of the prelude and of the [&&] after it. *)
Definition prelude_tokens (executor session_id : string) : list token :=
  let base := coding_base session_id in
  if bool_decide (executor = "opencode")
  then (map TWord ["mkdir"; "-p"; base +:+ "/data"; base +:+ "/cache"] ++ [TAnd])%list
  else (map TWord ["mkdir"; "-p"; base +:+ "/codex-home"] ++ TAnd
        :: map TWord ["cp"; "-n"; "/home/gem/.codex/config.toml";
                      (base +:+ "/codex-home") +:+ "/config.toml"]
        ++ [TOut "2"; TWord "/dev/null"; TOr; TWord "true"; TAnd])%list.

Lemma prelude_lexes executor session_id rest :
  sh_lex (Bare None) (layout_prelude (cli_state_layout executor session_id) ++ " && " ++ rest)
  = (λ l, (prelude_tokens executor session_id ++ l)%list) <$> sh_lex (Bare None) rest.
Proof.
  unfold prelude_tokens, cli_state_layout. fold (coding_base session_id). cbv zeta.
  case_bool_decide; cbn [layout_prelude].
  - rewrite (line_of_and _ _ _ (line_mkdir2 _ _)). by destruct (sh_lex (Bare None) rest).
  - set (home := coding_base session_id ++ "/codex-home").
    transitivity (sh_lex (Bare None) (("mkdir -p " ++ quote home) ++ " && "
                     ++ ("cp -n /home/gem/.codex/config.toml " ++ quote home
                         ++ "/config.toml 2>/dev/null || true" ++ " && " ++ rest))).
    { f_equal. by rewrite <- !append_assoc. }
    rewrite (line_of_and _ _ _ (line_mkdir1 _)), lex_copy. by destruct (sh_lex (Bare None) rest).
Qed.

Lemma prelude_parses executor session_id ws :
  plain_command (words_command ws) = true →
  sh_parse no_command (prelude_tokens executor session_id ++ map TWord ws)%list
  = match (setup_commands executor session_id ++ [(AndIf, words_command ws)])%list with
    | (_, c) :: rest => Some (c, rest)
    | [] => None
    end.
Proof.
  intros P. unfold prelude_tokens, setup_commands. fold (coding_base session_id). cbv zeta.
  case_bool_decide; repeat (rewrite <- app_assoc; cbn [app]).
  - rewrite parse_line by done. by rewrite no_command_words.
  - rewrite parse_line by done. rewrite parse_words.
    cbn [sh_parse argv outs no_command app add_out add_word].
    repeat match goal with |- context [plain_command ?c] => change (plain_command c) with true end.
    by rewrite no_command_words.
Qed.

Section command_line.
Context (a : Adapter) (executor session_id task workdir : string) (session_ref : option string)
  (plan_only : bool).

Definition of_turn : CodingTurnRequest :=
  turn_request executor session_id task workdir session_ref plan_only.

Lemma env_lexes :
  sh_lex (Bare None) ("env " ++ str_concat " "
      (map assignment (sort_by env_leb (TurnRequest.env of_turn)))
      ++ " " ++ str_concat " " (map quote (parts a of_turn)))
  = Some (map TWord (argv (cli_command a of_turn))).
Proof.
  apply cli_lexes; unfold of_turn, turn_request, cli_state_layout; case_bool_decide; cbn;
    repeat constructor; done.
Qed.

Lemma wrapped_line :
  apply_turn_wrapper (str_concat " " (map quote (parts a of_turn))) of_turn
  = layout_prelude (cli_state_layout executor session_id) ++ " && " ++ "env "
    ++ str_concat " " (map assignment (sort_by env_leb (TurnRequest.env of_turn)))
    ++ " " ++ str_concat " " (map quote (parts a of_turn)).
Proof.
  unfold apply_turn_wrapper, of_turn, turn_request, cli_state_layout.
  case_bool_decide; cbn [TurnRequest.env TurnRequest.prelude layout_env layout_prelude]; reflexivity.
Qed.

(** C33: for every task, working directory and session, a shell reads the line of a turn as: go
    to the working directory, prepare the state of the tool, and run the tool with exactly its
    arguments.  No text of the task or of a name ends a word or starts a command. *)
Theorem turn_command_reads :
  workdir ≠ "" →
  sh_read (build_command a of_turn)
  = Some (words_command ["cd"; workdir],
          (setup_commands executor session_id ++ [(AndIf, cli_command a of_turn)])%list).
Proof.
  intros W. unfold sh_read, build_command. rewrite wrapped_line.
  unfold with_workdir. change (TurnRequest.workdir of_turn) with (Some workdir). cbv iota beta.
  rewrite bool_decide_false by done. rewrite append_assoc.
  rewrite (line_of_and _ _ _ (line_cd workdir)), prelude_lexes, env_lexes.
  change (sh_parse no_command (map TWord ["cd"; workdir] ++ TAnd :: prelude_tokens executor session_id
            ++ map TWord (argv (cli_command a of_turn)))%list = Some
    (words_command ["cd"; workdir],
     (setup_commands executor session_id ++ [(AndIf, cli_command a of_turn)])%list)).
  rewrite parse_line, prelude_parses by done. unfold setup_commands. by case_bool_decide.
Qed.

(** When the tool starts: for opencode only in its working directory; for codex always, because
    the [|| true] of its prelude also covers a failed [cd]. *)
Lemma tool_starts ok :
  ok (words_command ["true"]) = true →
  cli_command a of_turn ∈ sh_run ok (words_command ["cd"; workdir],
      (setup_commands executor session_id ++ [(AndIf, cli_command a of_turn)])%list)
  ↔ (executor = "opencode" →
     ok (words_command ["cd"; workdir]) = true
     ∧ Forall (λ c, ok c.2 = true) (setup_commands executor session_id)).
Proof.
  intros T. unfold setup_commands. unfold sh_run. cbn [fst snd].
  assert (Ne : ∀ w ws o, w ≠ "env" → cli_command a of_turn ≠ {| argv := w :: ws; outs := o |})
    by (intros ? ? ? Hw [= E _]; by subst).
  case_bool_decide as E; cbn [app sh_continue].
  - rewrite elem_of_cons. split.
    + intros [C|C] _; [by apply Ne in C|].
      destruct (ok (words_command ["cd"; workdir])); [|by apply elem_of_nil in C]. split; [done|].
      apply elem_of_cons in C as [C|C]; [by apply Ne in C|]. constructor; [|constructor].
      cbn [snd]. match type of C with context [ok ?c] => destruct (ok c) end;
        [done|by apply elem_of_nil in C].
    + intros A. destruct (A E) as [-> F]. apply Forall_cons in F as [F _]. cbn [snd] in F.
      rewrite F. right. right. by left.
  - split; [done|]. intros _. unfold words_command in *.
    destruct (ok {| argv := ["cd"; _]; outs := _ |}); cbn [sh_continue];
      [|rewrite T; do 2 right; by left].
    right. destruct (ok {| argv := "mkdir" :: _; outs := _ |}); cbn [sh_continue];
      [|rewrite T; do 2 right; by left].
    right. destruct (ok {| argv := "cp" :: _; outs := _ |}); cbn [sh_continue];
      [right; by left|rewrite T; do 2 right; by left].
Qed.
End command_line.

Definition demo_line : string :=
  build_command CodexAdapter
    (of_turn "codex" "s1" "say 'hi'; rm -rf ~ $(id)" "/home/gem/user-data/my project" None true).

Lemma turn_command_reads_witness :
  (last ∘ snd <$> sh_read demo_line)
  = Some (Some (AndIf, words_command ["env"; "CODEX_HOME=/home/gem/user-data/agents/coding/s1/codex-home";
      "codex"; "exec"; "--json"; "--skip-git-repo-check"; "-s"; "read-only";
      "say 'hi'; rm -rf ~ $(id)"])).
Proof. unfold demo_line. rewrite turn_command_reads by done. reflexivity. Defined.

(** * Redaction removes the secrets *)

Definition has_char (c : ascii) (s : string) : bool := negb (all_chars (λ d, negb (Ascii.eqb d c)) s).

Lemma has_char_cons c d s : has_char c (String d s) = Ascii.eqb d c || has_char c s.
Proof. unfold has_char. cbn. by destruct (Ascii.eqb d c). Qed.

(** A text that lacks a character does not reach over it. *)
Lemma prefix_stops c w s t :
  has_char c w = false → String.prefix w (s ++ String c t) = true → String.prefix w s = true.
Proof.
  revert s. induction w as [|d w IH]; intros s Hw; [by destruct s|].
  rewrite has_char_cons in Hw. apply orb_false_iff in Hw as [Hd Hw].
  destruct s as [|e s]; rewrite ?append_cons, ?append_nil_l, ?prefix_cons.
  - by rewrite Hd.
  - intros P. apply andb_true_iff in P as [-> P]. cbn. by apply IH.
Qed.

Lemma occurs_stops c w s t :
  has_char c w = false → w ≠ "" → occurs w (s ++ String c t) = true →
  occurs w s = true ∨ occurs w t = true.
Proof.
  intros Hw Ne. induction s as [|d s IH]; rewrite ?append_cons, ?append_nil_l; cbn [occurs].
  - intros O. apply orb_true_iff in O as [P|O]; [|by right]. left. apply orb_true_iff. left.
    by apply (prefix_stops c w "" t).
  - intros O. apply orb_true_iff in O as [P|O].
    + left. apply orb_true_iff. left. by apply (prefix_stops c w (String d s) t).
    + destruct (IH O) as [L|R]; [left|by right]. apply orb_true_iff. by right.
Qed.

(** A secret that cannot be confused with the mark. *)
Definition unlike_mark (w : string) : Prop :=
  w ≠ "" ∧ has_char "[" w = false ∧ has_char "]" w = false ∧ occurs w "redacted" = false.

Lemma occurs_after_mark w t :
  unlike_mark w → occurs w (MARK ++ t) = true → occurs w t = true.
Proof.
  intros (Ne & B1 & B2 & R) O. change (MARK ++ t) with ("" ++ String "[" ("redacted" ++ String "]" t)) in O.
  apply occurs_stops in O as [O|O]; [by destruct w|idtac|done..].
  apply occurs_stops in O as [O|O]; [by rewrite R in O|done..].
Qed.

(** What a replacement starts with, the text started with. *)
Lemma prefix_replaced w old s :
  has_char "[" w = false →
  String.prefix w (str_replace old MARK 0 s) = true → String.prefix w s = true.
Proof.
  intros B. revert w B. induction s as [|c s IH]; intros w B; cbn [str_replace]; [done|].
  destruct (String.prefix old (String c s)) eqn:P.
  - intros Pw. change (MARK ++ ?x) with ("" ++ String "[" ("redacted]" ++ x)) in Pw.
    apply prefix_stops in Pw; [|done]. by destruct w.
  - destruct w as [|d w]; [done|]. rewrite !prefix_cons. rewrite has_char_cons in B.
    apply orb_false_iff in B as [_ B]. intros Q. apply andb_true_iff in Q as [-> Q]. cbn. by apply IH.
Qed.

Lemma occurs_replaced w old skip s :
  unlike_mark w → occurs w (str_replace old MARK skip s) = true → occurs w s = true.
Proof.
  intros U. revert skip. induction s as [|c s IH]; intros skip; [done|].
  destruct skip as [|k]; [destruct (String.prefix old (String c s)) eqn:E|].
  - cbn [str_replace]. rewrite E. intros O. apply occurs_after_mark, IH in O; [|done].
    cbn [occurs]. by rewrite O, orb_true_r.
  - intros O. assert (P : str_replace old MARK 0 (String c s) = String c (str_replace old MARK 0 s))
      by (cbn [str_replace]; by rewrite E).
    rewrite P in O. cbn [occurs] in O |- *. apply orb_true_iff in O as [O|O].
    + rewrite <- P in O. apply prefix_replaced in O; [by rewrite O|]. by destruct U as (_ & ? & _).
    + by rewrite (IH 0%nat O), orb_true_r.
  - cbn [str_replace occurs]. intros O. by rewrite (IH k O), orb_true_r.
Qed.

Lemma replaced_gone w skip s : unlike_mark w → occurs w (str_replace w MARK skip s) = false.
Proof.
  intros U. revert skip. induction s as [|c s IH]; intros skip.
  { destruct U as [Ne _]. by destruct w. }
  destruct skip as [|k]; [|exact (IH k)].
  destruct (occurs w (str_replace w MARK 0 (String c s))) eqn:O; [|done]. exfalso.
  destruct (String.prefix w (String c s)) eqn:E.
  - cbn [str_replace] in O. rewrite E in O. apply occurs_after_mark in O; [|done]. by rewrite IH in O.
  - assert (P : str_replace w MARK 0 (String c s) = String c (str_replace w MARK 0 s))
      by (cbn [str_replace]; by rewrite E).
    rewrite P in O. cbn [occurs] in O. apply orb_true_iff in O as [O|O]; [|by rewrite IH in O].
    rewrite <- P in O. apply prefix_replaced in O; [congruence|]. by destruct U as (_ & ? & _).
Qed.

(** After the redaction of a text no secret of four characters or more occurs in it, whatever
    the order of the secrets, if it cannot be read off the mark itself. *)
Lemma redacted_clean text secrets w :
  w ∈ secrets → (4 <= String.length w)%nat → unlike_mark w →
  occurs w (redact_credential_values text secrets) = false.
Proof.
  intros Hin Hl U. unfold redact_credential_values.
  assert (Keep : ∀ l t, occurs w t = false → occurs w (foldl redact_one t l) = false).
  { induction l as [|v l IH]; intros t Ht; [done|]. cbn [foldl]. apply IH. unfold redact_one.
    case_match; [|done]. destruct (occurs w (str_replace v MARK 0 t)) eqn:O; [|done].
    apply occurs_replaced in O; [congruence|done]. }
  revert text Hin. induction secrets as [|v l IH]; intros text Hin; [by apply elem_of_nil in Hin|].
  cbn [foldl]. apply elem_of_cons in Hin as [<-|Hin]; [|by apply IH].
  apply Keep. unfold redact_one. apply Nat.leb_le in Hl. rewrite Hl. by apply replaced_gone.
Qed.
