(* ===== verification/Coding.v ===== *)
(** Coding sessions: the tables [coding_sessions], [coding_session_turns] and
    [coding_session_events] ([storage/postgres/models_business.py]), their data access
    ([repositories/coding_session_repository.py]) and the state machine of
    [services/coding_session_service.py].

    The services pass ORM objects around: a session that was loaded keeps the columns it had, also
    when another transaction changes the row.  [CodingSession] and [CodingSessionTurn] are the
    rows and these objects; an operation takes the object, returns it as it is afterwards and
    writes the columns it changed ([flush_session]) to the row.  UUIDs are arguments; those of the events are
    left out, and the events are kept in the order of their insertion. *)

From stdpp Require Import prelude gmap strings list fin_maps.
From Stdlib Require Import ZArith Lia.
From S2P Require Import Prelude PyLib CodingAdapters.
Local Open Scope Z_scope.

(** * Tables *)

Inductive SessionStatus :=
  | SPending | SStarting | SIdle | SRunning | SAwaitingPlanApproval | SSuspended
  | SFailed | SCompleted | SCancelled.

#[global] Instance SessionStatus_eq_dec : EqDecision SessionStatus.
Proof. solve_decision. Defined.

Inductive TurnStatus := TurnPending | TurnRunning | TurnCompleted | TurnFailed | TurnCancelled.

#[global] Instance TurnStatus_eq_dec : EqDecision TurnStatus.
Proof. solve_decision. Defined.

Module Ses.
Record CodingSession := mk {
  id : string;
  uid : string;
  project_id : string;
  conversation_id : option Z;
  parent_run_id : option string;
  runtime_scope_id : string;
  executor : string;
  mode : string;
  status : SessionStatus;
  title : option string;
  workdir_path : string;
  sandbox_id : option string;
  cli_session_ref : option string;
  policy_json : json;
  budget_json : json;
  last_activity_at : option datetime;
  suspended_at : option datetime;
  terminal_at : option datetime;
  error_code : option string;
  error_message : option string;
  created_at : datetime;
  updated_at : datetime
}.
#[global] Instance eta : Eta CodingSession := λ r,
  mk (id r) (uid r) (project_id r) (conversation_id r) (parent_run_id r) (runtime_scope_id r)
    (executor r) (mode r) (status r) (title r) (workdir_path r) (sandbox_id r) (cli_session_ref r)
    (policy_json r) (budget_json r) (last_activity_at r) (suspended_at r) (terminal_at r)
    (error_code r) (error_message r) (created_at r) (updated_at r).
End Ses.
Abbreviation CodingSession := Ses.CodingSession.

Module Turn.
Record CodingSessionTurn := mk {
  id : string;
  session_id : string;
  seq : Z;
  request_text : string;
  status : TurnStatus;
  result_summary : option string;
  usage_json : json;
  started_at : option datetime;
  ended_at : option datetime;
  error_code : option string;
  error_message : option string;
  created_at : datetime
}.
#[global] Instance eta : Eta CodingSessionTurn := λ r,
  mk (id r) (session_id r) (seq r) (request_text r) (status r) (result_summary r) (usage_json r)
    (started_at r) (ended_at r) (error_code r) (error_message r) (created_at r).
End Turn.
Abbreviation CodingSessionTurn := Turn.CodingSessionTurn.

Module Ev.
Record CodingSessionEvent := mk {
  session_id : string;
  turn_id : option string;
  seq : Z;
  kind : string;
  payload_json : json;
  created_at : datetime
}.
End Ev.
Abbreviation CodingSessionEvent := Ev.CodingSessionEvent.

(** The tables; of users and projects the keys that sessions refer to. *)
Module CD.
Record CodingDB := mk {
  user_ids : gset string;
  project_ids : gset string;
  sessions : gmap string CodingSession;
  turns : gmap string CodingSessionTurn;
  events : list CodingSessionEvent
}.
#[global] Instance eta : Eta CodingDB := λ s,
  mk (user_ids s) (project_ids s) (sessions s) (turns s) (events s).
End CD.
Abbreviation CodingDB := CD.CodingDB.

(** * The repository *)

Definition fits (n : Z) (s : string) : bool := Z.of_nat (String.length s) <=? n.
Definition opt_fits (n : Z) (s : option string) : bool := fits n (default EmptyString s).

Definition session_fits (r : CodingSession) : bool :=
  fits 64 (Ses.uid r) && fits 64 (Ses.project_id r) && opt_fits 64 (Ses.parent_run_id r)
  && fits 191 (Ses.runtime_scope_id r) && fits 16 (Ses.executor r) && fits 16 (Ses.mode r)
  && opt_fits 255 (Ses.title r) && fits 512 (Ses.workdir_path r)
  && opt_fits 191 (Ses.cli_session_ref r) && opt_fits 64 (Ses.error_code r).

Definition json_or (d : json) (v : option json) : json :=
  match v with Some v => if truthy v then v else d | None => d end.

(** What a creation states. *)
Record SessionInput := {
  si_uid : string;
  si_project_id : string;
  si_runtime_scope_id : string;
  si_executor : string;
  si_workdir_path : string;
  si_conversation_id : option Z;
  si_parent_run_id : option string;
  si_mode : string;
  si_title : option string;
  si_policy : option json;
  si_budget : option json
}.

Definition new_session (fresh_id : string) (i : SessionInput) (now : datetime) : CodingSession := {|
  Ses.id := fresh_id; Ses.uid := si_uid i; Ses.project_id := si_project_id i;
  Ses.conversation_id := si_conversation_id i; Ses.parent_run_id := si_parent_run_id i;
  Ses.runtime_scope_id := si_runtime_scope_id i; Ses.executor := si_executor i;
  Ses.mode := si_mode i; Ses.status := SPending; Ses.title := si_title i;
  Ses.workdir_path := si_workdir_path i; Ses.sandbox_id := None; Ses.cli_session_ref := None;
  Ses.policy_json := json_or (JObj []) (si_policy i);
  Ses.budget_json := json_or (JObj []) (si_budget i);
  Ses.last_activity_at := Some now; Ses.suspended_at := None; Ses.terminal_at := None;
  Ses.error_code := None; Ses.error_message := None; Ses.created_at := now;
  Ses.updated_at := now |}.

Definition add_session (fresh_id : string) (i : SessionInput) (now : datetime)
    : M CodingDB CodingSession :=
  let session := new_session fresh_id i now in
  s ← gets id;
  if negb (session_fits session) then raise (DataError "value too long")
  else if bool_decide (is_Some (CD.sessions s !! fresh_id))
  then raise (IntegrityError "coding_sessions_pkey")
  else if negb (bool_decide (si_uid i ∈ CD.user_ids s))
  then raise (IntegrityError "fk_coding_sessions_uid_users")
  else if negb (bool_decide (si_project_id i ∈ CD.project_ids s))
  then raise (IntegrityError "fk_coding_sessions_project_id")
  else
    _ ← modify (λ s, s <| CD.sessions ::= <[fresh_id := session]> |>);
    mret session.

Definition get (session_id : string) : M CodingDB (option CodingSession) :=
  gets (λ s, CD.sessions s !! session_id).

(** Locking a session in an ORM session that has [loaded] it before returns that object, with the
    columns it was loaded with. *)
Definition get_for_update (loaded : option CodingSession) (session_id : string)
    : M CodingDB (option CodingSession) :=
  gets (λ s, row ← CD.sessions s !! session_id;
             Some (match loaded with
                   | Some session => if bool_decide (Ses.id session = session_id) then session else row
                   | None => row
                   end)).

(** The UPDATE of the columns that [f] sets: in the row, and in the object. *)
Definition flush_session (f : CodingSession → CodingSession) (session : CodingSession)
    : M CodingDB CodingSession :=
  s ← gets id;
  match CD.sessions s !! Ses.id session with
  | None => raise (RuntimeError "StaleDataError")
  | Some row =>
      if negb (session_fits (f row)) then raise (DataError "value too long")
      else
        _ ← modify (λ s, s <| CD.sessions ::= <[Ses.id session := f row]> |>);
        mret (f session)
  end.

Definition flush_turn (f : CodingSessionTurn → CodingSessionTurn) (turn : CodingSessionTurn)
    : M CodingDB CodingSessionTurn :=
  s ← gets id;
  match CD.turns s !! Turn.id turn with
  | None => raise (RuntimeError "StaleDataError")
  | Some row =>
      if negb (opt_fits 64 (Turn.error_code (f row))) then raise (DataError "value too long")
      else
        _ ← modify (λ s, s <| CD.turns ::= <[Turn.id turn := f row]> |>);
        mret (f turn)
  end.

(** [ORDER BY created_at ASC, id ASC]. *)
Definition session_oldest (a b : CodingSession) : bool :=
  if Ses.created_at a =? Ses.created_at b then str_leb (Ses.id a) (Ses.id b)
  else Ses.created_at a <=? Ses.created_at b.

Definition list_for_conversation (conversation_id : Z) (uid : string)
    : M CodingDB (list CodingSession) :=
  gets (λ s, sort_by session_oldest (select (λ r,
    bool_decide (Ses.conversation_id r = Some conversation_id) && bool_decide (Ses.uid r = uid))
    (CD.sessions s))).

Definition list_for_uid (uid : string) (limit : nat) : M CodingDB (list CodingSession) :=
  gets (λ s, take limit (sort_by (λ a b, session_oldest b a)
    (select (λ r, bool_decide (Ses.uid r = uid)) (CD.sessions s)))).

Definition turns_of (session_id : string) (s : CodingDB) : list CodingSessionTurn :=
  select (λ t, bool_decide (Turn.session_id t = session_id)) (CD.turns s).

Definition events_of (session_id : string) (s : CodingDB) : list CodingSessionEvent :=
  List.filter (λ e, bool_decide (Ev.session_id e = session_id)) (CD.events s).

(** [int(max(seq) or 0) + 1]. *)
Definition next_seq (seqs : list Z) : Z :=
  match seqs with
  | [] => 1
  | x :: l => foldr Z.max x l + 1
  end.

Definition new_turn (fresh_id : string) (session : CodingSession) (request_text : string)
    (status : TurnStatus) (now : datetime) (s : CodingDB) : CodingSessionTurn := {|
  Turn.id := fresh_id; Turn.session_id := Ses.id session;
  Turn.seq := next_seq (map Turn.seq (turns_of (Ses.id session) s));
  Turn.request_text := request_text; Turn.status := status; Turn.result_summary := None;
  Turn.usage_json := JObj [];
  Turn.started_at := if bool_decide (status = TurnRunning) then Some now else None;
  Turn.ended_at := None; Turn.error_code := None; Turn.error_message := None;
  Turn.created_at := now |}.

Definition add_turn (fresh_id : string) (session : CodingSession) (request_text : string)
    (status : TurnStatus) (now : datetime) : M CodingDB CodingSessionTurn :=
  s ← gets id;
  let turn := new_turn fresh_id session request_text status now s in
  if bool_decide (is_Some (CD.turns s !! fresh_id))
  then raise (IntegrityError "coding_session_turns_pkey")
  else if bool_decide (CD.sessions s !! Ses.id session = None)
  then raise (IntegrityError "fk_coding_session_turns_session_id")
  else
    _ ← modify (λ s, s <| CD.turns ::= <[fresh_id := turn]> |>);
    mret turn.

Definition finish_turn_row (turn : CodingSessionTurn) (status : TurnStatus)
    (result_summary : option string) (usage : option json) (error_code error_message : option string)
    (now : datetime) : M CodingDB CodingSessionTurn :=
  flush_turn (λ t, t <| Turn.status := status |> <| Turn.result_summary := result_summary |>
    <| Turn.usage_json := json_or (JObj []) usage |> <| Turn.error_code := error_code |>
    <| Turn.error_message := error_message |> <| Turn.ended_at := Some now |>) turn.

Definition append_event (session : CodingSession) (kind : string) (turn_id : option string)
    (payload : json) (now : datetime) : M CodingDB unit :=
  s ← gets id;
  let event := {|
    Ev.session_id := Ses.id session; Ev.turn_id := turn_id;
    Ev.seq := next_seq (map Ev.seq (events_of (Ses.id session) s));
    Ev.kind := kind; Ev.payload_json := json_or_empty payload; Ev.created_at := now |} in
  if negb (fits 32 kind) then raise (DataError "value too long")
  else if bool_decide (CD.sessions s !! Ses.id session = None)
  then raise (IntegrityError "fk_coding_session_events_session_id")
  else modify (λ s, s <| CD.events := CD.events s ++ [event] |>).

Definition seq_leb (a b : CodingSessionEvent) : bool := Ev.seq a <=? Ev.seq b.

Definition list_events (session_id : string) (after_seq : Z) (limit : nat)
    : M CodingDB (list CodingSessionEvent) :=
  gets (λ s, take limit (sort_by seq_leb
    (List.filter (λ e, after_seq <? Ev.seq e) (events_of session_id s)))).

Definition get_turn (turn_id : string) : M CodingDB (option CodingSessionTurn) :=
  gets (λ s, CD.turns s !! turn_id).

(** [populate_existing]: the object takes the columns of the locked row. *)
Definition get_turn_for_update := get_turn.

Definition turn_leb (a b : CodingSessionTurn) : bool := Turn.seq a <=? Turn.seq b.

Definition list_turns (session_id : string) : M CodingDB (list CodingSessionTurn) :=
  gets (λ s, sort_by turn_leb (turns_of session_id s)).

(** [ORDER BY seq DESC LIMIT 1]. *)
Definition latest_turn (session_id : string) : M CodingDB (option CodingSessionTurn) :=
  gets (λ s, head (sort_by (λ a b, turn_leb b a) (turns_of session_id s))).

Definition mark_turn_running (turn : CodingSessionTurn) (now : datetime)
    : M CodingDB CodingSessionTurn :=
  if bool_decide (Turn.status turn = TurnPending)
  then flush_turn (λ t, t <| Turn.status := TurnRunning |> <| Turn.started_at := Some now |>) turn
  else mret turn.

(** [ORDER BY created_at ASC LIMIT limit]. *)
Definition turn_oldest (a b : CodingSessionTurn) : bool := Turn.created_at a <=? Turn.created_at b.

Definition list_turns_by_status (status : TurnStatus) (started_before : option datetime) (limit : nat)
    : M CodingDB (list CodingSessionTurn) :=
  gets (λ s, take limit (sort_by turn_oldest (select (λ t,
    bool_decide (Turn.status t = status)
    && match started_before with
       | None => true
       | Some before => match Turn.started_at t with Some at_ => at_ <? before | None => false end
       end) (CD.turns s)))).

(** * The state machine *)

Definition session_terminal (status : SessionStatus) : bool :=
  match status with SCompleted | SFailed | SCancelled => true | _ => false end.

(** [_ALLOWED_TRANSITIONS]. *)
Definition ALLOWED_TRANSITIONS (status : SessionStatus) : list SessionStatus :=
  match status with
  | SPending => [SStarting; SCancelled; SFailed]
  | SStarting => [SIdle; SFailed; SCancelled]
  | SIdle => [SRunning; SSuspended; SCompleted; SFailed; SCancelled]
  | SRunning => [SIdle; SAwaitingPlanApproval; SSuspended; SFailed; SCancelled]
  | SAwaitingPlanApproval => [SRunning; SIdle; SCancelled; SFailed]
  | SSuspended => [SStarting; SIdle; SFailed; SCancelled]
  | SFailed | SCompleted | SCancelled => []
  end.

Definition session_status_text (status : SessionStatus) : string :=
  match status with
  | SPending => "pending" | SStarting => "starting" | SIdle => "idle" | SRunning => "running"
  | SAwaitingPlanApproval => "awaiting_plan_approval" | SSuspended => "suspended"
  | SFailed => "failed" | SCompleted => "completed" | SCancelled => "cancelled"
  end.

Definition turn_status_text (status : TurnStatus) : string :=
  match status with
  | TurnPending => "pending" | TurnRunning => "running" | TurnCompleted => "completed"
  | TurnFailed => "failed" | TurnCancelled => "cancelled"
  end.

(** [CodingSessionStateError], a [ValueError]. *)
Definition CodingSessionStateError (msg : string) : exn := ValueError msg.

Definition opt_json (o : option string) : json :=
  match o with Some s => JStr s | None => JNull end.

(** [x if x is not None else old]. *)
Definition given_or (x old : option string) : option string :=
  match x with Some _ => x | None => old end.

Definition moved_session (target : SessionStatus) (error_code error_message : option string)
    (now : datetime) (r : CodingSession) : CodingSession :=
  r <| Ses.status := target |> <| Ses.updated_at := now |> <| Ses.last_activity_at := Some now |>
    <| Ses.suspended_at := if bool_decide (target = SSuspended) then Some now else Ses.suspended_at r |>
    <| Ses.terminal_at := if session_terminal target then Some now else Ses.terminal_at r |>
    <| Ses.error_code := given_or error_code (Ses.error_code r) |>
    <| Ses.error_message := given_or error_message (Ses.error_message r) |>.

Definition transition (session : CodingSession) (target : SessionStatus)
    (error_code error_message : option string) (now : datetime) : M CodingDB CodingSession :=
  if negb (bool_decide (target ∈ ALLOWED_TRANSITIONS (Ses.status session)))
  then raise (CodingSessionStateError ("illegal coding session transition: "
                ++ session_status_text (Ses.status session) ++ " -> " ++ session_status_text target)%string)
  else
    session ← flush_session (moved_session target error_code error_message now) session;
    _ ← append_event session "session_status" None
          (JObj [("status", JStr (session_status_text target)); ("error_code", opt_json error_code)]) now;
    mret session.

Definition create_session (fresh_id : string) (i : SessionInput) (now : datetime)
    : M CodingDB CodingSession :=
  session ← add_session fresh_id i now;
  _ ← append_event session "session_status" None
        (JObj [("status", JStr (session_status_text (Ses.status session)))]) now;
  mret session.

(** A session that is new or idle starts to run. *)
Definition begin_running (session : CodingSession) (now : datetime) : M CodingDB CodingSession :=
  if negb (bool_decide (Ses.status session ∈ [SPending; SIdle]))
  then raise (CodingSessionStateError ("coding session is not ready for a new turn: "
                ++ session_status_text (Ses.status session))%string)
  else
    session ←
      (if bool_decide (Ses.status session = SPending) then
         session ← transition session SStarting None None now;
         transition session SIdle None None now
       else mret session);
    transition session SRunning None None now.

Definition start_turn (fresh_id : string) (session : CodingSession) (request_text : string)
    (now : datetime) : M CodingDB (CodingSession * CodingSessionTurn) :=
  session ← begin_running session now;
  turn ← add_turn fresh_id session request_text TurnRunning now;
  _ ← append_event session "turn_started" (Some (Turn.id turn))
        (JObj [("seq", JInt (Turn.seq turn)); ("request_text", JStr request_text)]) now;
  mret (session, turn).

Definition pending_turn_marker (turn_id : string) (plan_only : bool)
    (enqueueing_run_id : option string) : json :=
  JObj [("id", JStr turn_id); ("plan_only", JBool plan_only);
        ("enqueueing_run_id", if falsy_str enqueueing_run_id then JNull else opt_json enqueueing_run_id)].

(** [session.policy_json = policy]; in the row too, at the next flush. *)
Definition set_policy (policy : json) (session : CodingSession) : M CodingDB CodingSession :=
  flush_session (λ r, r <| Ses.policy_json := policy |>) session.

Definition queue_turn (fresh_id : string) (session : CodingSession) (request_text : string)
    (plan_only : bool) (enqueueing_run_id : option string) (now : datetime)
    : M CodingDB (CodingSession * CodingSessionTurn) :=
  session ← begin_running session now;
  turn ← add_turn fresh_id session request_text TurnPending now;
  session ← set_policy (jset "pending_turn" (pending_turn_marker (Turn.id turn) plan_only enqueueing_run_id)
                          (json_or_empty (Ses.policy_json session))) session;
  _ ← append_event session "turn_queued" (Some (Turn.id turn))
        (JObj [("seq", JInt (Turn.seq turn)); ("plan_only", JBool plan_only)]) now;
  mret (session, turn).

(** [d.pop(key, None)]. *)
Definition jpop (key : string) (v : json) : json :=
  match v with
  | JObj l => JObj (List.filter (λ kv, negb (bool_decide (kv.1 = key))) l)
  | _ => v
  end.

Definition marks_turn (turn_id : string) (policy : json) : bool :=
  match jget "pending_turn" policy with
  | Some (JObj marker) =>
      match jget "id" (JObj marker) with Some (JStr i) => bool_decide (i = turn_id) | _ => false end
  | _ => false
  end.

Definition clear_pending_turn (session : CodingSession) (turn_id : string)
    : M CodingDB CodingSession :=
  let policy := json_or_empty (Ses.policy_json session) in
  if marks_turn turn_id policy then set_policy (jpop "pending_turn" policy) session else mret session.

Definition set_cli_session_ref (ref : option string) (session : CodingSession)
    : M CodingDB CodingSession :=
  flush_session (λ r, r <| Ses.cli_session_ref := ref |>) session.

(** What a turn ends with. *)
Record TurnEnd := {
  te_status : TurnStatus;
  te_result_summary : option string;
  te_usage : option json;
  te_error_code : option string;
  te_error_message : option string;
  te_cli_session_ref : option string
}.

Definition finish_turn (session : CodingSession) (turn : CodingSessionTurn) (e : TurnEnd)
    (now : datetime) : M CodingDB (CodingSession * CodingSessionTurn) :=
  turn ← finish_turn_row turn (te_status e) (te_result_summary e) (te_usage e) (te_error_code e)
           (te_error_message e) now;
  session ← clear_pending_turn session (Turn.id turn);
  session ← (if falsy_str (te_cli_session_ref e) then mret session
             else set_cli_session_ref (te_cli_session_ref e) session);
  _ ← append_event session "turn_finished" (Some (Turn.id turn))
        (JObj [("seq", JInt (Turn.seq turn)); ("status", JStr (turn_status_text (te_status e)));
               ("summary", opt_json (te_result_summary e));
               ("usage", json_or (JObj []) (te_usage e));
               ("error_code", opt_json (te_error_code e))]) now;
  session ← transition session (if bool_decide (te_status e = TurnCompleted) then SIdle else SFailed)
              (te_error_code e) (te_error_message e) now;
  mret (session, turn).

Fixpoint record_events (session : CodingSession) (turn_id : option string)
    (events : list NormalizedEvent) (now : datetime) : M CodingDB unit :=
  match events with
  | [] => mret tt
  | e :: events =>
      _ ← append_event session (kind e) turn_id (payload e) now;
      record_events session turn_id events now
  end.

(** The turn timeline and the new events of a session, for its owner. *)
Record SessionDetail := {
  sd_session : CodingSession;
  sd_turns : list CodingSessionTurn;
  sd_events : list CodingSessionEvent
}.

Definition session_detail (uid session_id : string) (after_seq : Z) (event_limit : nat)
    : M CodingDB (option SessionDetail) :=
  session ← get session_id;
  match session with
  | None => mret None
  | Some session =>
      if negb (bool_decide (Ses.uid session = uid)) then mret None
      else
        turns ← list_turns (Ses.id session);
        events ← list_events (Ses.id session) after_seq event_limit;
        mret (Some {| sd_session := session; sd_turns := turns; sd_events := events |})
  end.

Definition list_sessions_for_uid (uid : string) (conversation_id : option Z) (limit : nat)
    : M CodingDB (list CodingSession) :=
  match conversation_id with
  | Some c => list_for_conversation c uid
  | None => list_for_uid uid limit
  end.
