(* ===== verification/CodingProps.v ===== *)
(** What holds of coding sessions ([Coding.v]): the numbers of turns and events have no gaps, the
    log of a session tells its status, pages of events abut, and what the operations of the state
    machine do on each branch. *)

From stdpp Require Import prelude gmap strings list fin_maps.
From Stdlib Require Import ZArith Lia Sorting.Sorted.
From S2P Require Import Prelude PyLib SandboxScope CodingAdapters Coding.
Local Open Scope Z_scope.

(** * Numbers without gaps *)

(** [1 .. n]. *)
Definition numbers (n : nat) : list Z := map Z.of_nat (seq 1 n).

Lemma numbers_S n : numbers (S n) = numbers n ++ [Z.of_nat (S n)].
Proof. unfold numbers. by rewrite seq_S, map_app. Qed.

Lemma length_numbers n : length (numbers n) = n.
Proof. unfold numbers. by rewrite length_map, length_seq. Qed.

Lemma elem_of_numbers z n : z ∈ numbers n ↔ 1 <= z <= Z.of_nat n.
Proof.
  unfold numbers. rewrite list_elem_of_In, in_map_iff. split.
  - intros (k & <- & Hk). apply in_seq in Hk. lia.
  - intros Hz. exists (Z.to_nat z). split; [lia|]. apply in_seq. lia.
Qed.

Lemma foldr_max_bound x l m : (∀ y, y ∈ x :: l → y <= m) → foldr Z.max x l <= m.
Proof.
  intros H. induction l as [|y l IH]; cbn; [apply H; by left|].
  apply Z.max_lub; [apply H; right; by left|]. apply IH.
  intros z Hz. apply H. apply elem_of_cons in Hz as [->|Hz]; [by left|right; by right].
Qed.

Lemma foldr_max_ge x l y : y ∈ x :: l → y <= foldr Z.max x l.
Proof.
  induction l as [|z l IH]; cbn; intros Hy; [by apply list_elem_of_singleton in Hy as ->|].
  apply elem_of_cons in Hy as [->|Hy]; [etrans; [apply IH; by left|apply Z.le_max_r]|].
  apply elem_of_cons in Hy as [->|Hy]; [apply Z.le_max_l|].
  etrans; [apply IH; by right|apply Z.le_max_r].
Qed.

(** The next number continues the sequence. *)
Lemma next_seq_continues l : l ≡ₚ numbers (length l) → next_seq l = Z.of_nat (S (length l)).
Proof.
  intros P. destruct l as [|x l]; [done|]. unfold next_seq.
  assert (B : ∀ y, y ∈ x :: l ↔ 1 <= y <= Z.of_nat (length (x :: l))).
  { intros y. rewrite P. rewrite elem_of_numbers. by rewrite length_numbers. }
  assert (U := foldr_max_bound x l (Z.of_nat (length (x :: l))) (λ y Hy, proj2 (proj1 (B y) Hy))).
  assert (L : Z.of_nat (length (x :: l)) <= foldr Z.max x l).
  { apply foldr_max_ge, B. cbn. lia. }
  cbn [length] in *. lia.
Qed.

(** * The invariant *)

Definition seqs_of_turns (k : string) (s : CodingDB) : list Z := map Turn.seq (turns_of k s).
Definition seqs_of_events (k : string) (s : CodingDB) : list Z := map Ev.seq (events_of k s).

Record cwf (s : CodingDB) : Prop := {
  cwf_session_key k r : CD.sessions s !! k = Some r → Ses.id r = k;
  cwf_turn_key k t : CD.turns s !! k = Some t → Turn.id t = k;
  cwf_turn_session k t : CD.turns s !! k = Some t → is_Some (CD.sessions s !! Turn.session_id t);
  cwf_event_session e : e ∈ CD.events s → is_Some (CD.sessions s !! Ev.session_id e);
  cwf_turn_numbers k : seqs_of_turns k s ≡ₚ numbers (length (seqs_of_turns k s));
  cwf_event_numbers k : seqs_of_events k s = numbers (length (seqs_of_events k s))
}.

(** The last status the log of a session tells. *)
Definition told_status (k : string) (s : CodingDB) : option json :=
  e ← last (List.filter (λ e, bool_decide (Ev.kind e = "session_status")) (events_of k s));
  jget "status" (Ev.payload_json e).

Definition log_tells (s : CodingDB) : Prop :=
  ∀ k r, CD.sessions s !! k = Some r →
    told_status k s = Some (JStr (session_status_text (Ses.status r))).

(** * The writes *)

Lemma flush_session_inv f o s res :
  flush_session f o s = res →
  (∃ e, res = (Raise e, s))
  ∨ ∃ row, CD.sessions s !! Ses.id o = Some row
      ∧ res = (Ret (f o), s <| CD.sessions := <[Ses.id o := f row]> (CD.sessions s) |>).
Proof.
  intros <-. unfold flush_session, id. m_unfold.
  destruct (CD.sessions s !! Ses.id o) as [row|]; [|left; by eexists].
  destruct (negb _); [left; by eexists|]. right. exists row. split; [done|]. reflexivity.
Qed.

Lemma flush_turn_inv f o s res :
  flush_turn f o s = res →
  (∃ e, res = (Raise e, s))
  ∨ ∃ row, CD.turns s !! Turn.id o = Some row
      ∧ res = (Ret (f o), s <| CD.turns := <[Turn.id o := f row]> (CD.turns s) |>).
Proof.
  intros <-. unfold flush_turn, id. m_unfold.
  destruct (CD.turns s !! Turn.id o) as [row|]; [|left; by eexists].
  destruct (negb _); [left; by eexists|]. right. exists row. split; [done|]. reflexivity.
Qed.

Definition event_of (s : CodingDB) (o : CodingSession) kind turn_id payload now : CodingSessionEvent :=
  {| Ev.session_id := Ses.id o; Ev.turn_id := turn_id; Ev.seq := next_seq (seqs_of_events (Ses.id o) s);
     Ev.kind := kind; Ev.payload_json := json_or_empty payload; Ev.created_at := now |}.

Lemma append_event_inv o kind turn_id payload now s res :
  append_event o kind turn_id payload now s = res →
  (∃ e, res = (Raise e, s) ∧ (fits 32 kind = false ∨ CD.sessions s !! Ses.id o = None))
  ∨ is_Some (CD.sessions s !! Ses.id o)
    ∧ res = (Ret tt, s <| CD.events := CD.events s ++ [event_of s o kind turn_id payload now] |>).
Proof.
  intros <-. unfold append_event, id. m_unfold. destruct (fits 32 kind); [|left; by eauto].
  cbn [negb]. destruct (CD.sessions s !! Ses.id o) eqn:E.
  - right. rewrite bool_decide_false by done. split; [by eexists|done].
  - left. rewrite bool_decide_true by done. eexists. split; [done|by right].
Qed.

Lemma events_of_app k s e :
  events_of k (s <| CD.events := CD.events s ++ [e] |>)
  = events_of k s ++ (if bool_decide (Ev.session_id e = k) then [e] else []).
Proof. unfold events_of. row_simpl. rewrite List.filter_app. cbn. by case_bool_decide. Qed.

Lemma turns_of_insert k s i t :
  CD.turns s !! i = None →
  seqs_of_turns k (s <| CD.turns := <[i := t]> (CD.turns s) |>)
  ≡ₚ (if bool_decide (Turn.session_id t = k) then [Turn.seq t] else []) ++ seqs_of_turns k s.
Proof.
  intros N. unfold seqs_of_turns, turns_of. row_simpl.
  rewrite (Permutation_map Turn.seq (select_insert_new _ _ _ t N)), map_app. by case_bool_decide.
Qed.

(** * Every operation keeps the invariant *)

Definition good (s : CodingDB) : Prop := cwf s ∧ log_tells s.

Lemma cwf_put_session s k r :
  cwf s → Ses.id r = k → cwf (s <| CD.sessions := <[k := r]> (CD.sessions s) |>).
Proof.
  intros [K1 K2 K3 K4 K5 K6] E. split; row_simpl; [|exact K2| | |exact K5|exact K6].
  - intros j r'. rewrite lookup_insert_Some. intros [[<- <-]|[_ ?]]; eauto.
  - intros j t Ht. apply K3 in Ht. rewrite lookup_insert_is_Some. destruct (decide (k = Turn.session_id t)); auto.
  - intros e He. apply K4 in He. rewrite lookup_insert_is_Some. destruct (decide (k = Ev.session_id e)); auto.
Qed.

Lemma told_status_events k s s' : CD.events s' = CD.events s → told_status k s' = told_status k s.
Proof. intros E. unfold told_status, events_of. by rewrite E. Qed.

(** A change of a session that keeps its identity and status. *)
Definition keeps_status (f : CodingSession → CodingSession) : Prop :=
  ∀ r, Ses.id (f r) = Ses.id r ∧ Ses.status (f r) = Ses.status r.

Lemma good_flush_session f o : keeps_status f → maintains good (flush_session f o).
Proof.
  intros Kf s [W L]. destruct (flush_session_inv f o s _ eq_refl) as [[e ->]|(row & Hr & ->)]; [by split|].
  cbn [snd]. destruct (Kf row) as [Ki Ks].
  split; [apply cwf_put_session; [done|]; rewrite Ki; by apply W|].
  intros k r Hk. rewrite (told_status_events k s) by done. row_simpl.
  apply lookup_insert_Some in Hk as [[<- <-]|[_ Hk]]; [rewrite Ks|]; by apply L.
Qed.

(** A change of a turn that keeps its place. *)
Definition keeps_place (f : CodingSessionTurn → CodingSessionTurn) : Prop :=
  ∀ t, Turn.id (f t) = Turn.id t ∧ Turn.session_id (f t) = Turn.session_id t
       ∧ Turn.seq (f t) = Turn.seq t.

Lemma good_flush_turn f o : keeps_place f → maintains good (flush_turn f o).
Proof.
  intros Kf s [W L]. destruct (flush_turn_inv f o s _ eq_refl) as [[e ->]|(row & Hr & ->)]; [by split|].
  cbn [snd]. destruct (Kf row) as (Ki & Ks & Kq). split; [|exact L].
  destruct W as [K1 K2 K3 K4 K5 K6]. split; row_simpl; [exact K1| | |exact K4| |exact K6].
  - intros k t. rewrite lookup_insert_Some. intros [[<- <-]|[_ ?]]; eauto. rewrite Ki. eauto.
  - intros k t. rewrite lookup_insert_Some. intros [[<- <-]|[_ ?]]; eauto. rewrite Ks. eauto.
  - intros k. specialize (K5 k). unfold seqs_of_turns, turns_of in *. row_simpl.
    rewrite <- (select_insert_same Turn.seq _ _ _ row (f row) Hr) in K5; [|by rewrite Ks|done].
    by rewrite length_map, <- (length_map Turn.seq).
Qed.

Lemma cwf_append s o kind turn_id payload now :
  cwf s → is_Some (CD.sessions s !! Ses.id o) →
  cwf (s <| CD.events := CD.events s ++ [event_of s o kind turn_id payload now] |>).
Proof.
  intros [K1 K2 K3 K4 K5 K6] Se. split; row_simpl; [exact K1|exact K2|exact K3| |exact K5|].
  - intros e He. apply elem_of_app in He as [He|He]; [by apply K4|].
    by apply list_elem_of_singleton in He as ->.
  - intros k. unfold seqs_of_events. rewrite events_of_app, map_app.
    specialize (K6 k). unfold seqs_of_events in K6. case_bool_decide as E; cbn [map].
    + cbn in E. subst k. rewrite length_app. cbn [length].
      rewrite Nat.add_1_r, numbers_S, <- K6. do 2 f_equal.
      unfold event_of, seqs_of_events. cbn. apply next_seq_continues. by rewrite <- K6.
    + by rewrite app_nil_r.
Qed.

Lemma good_append_event o kind turn_id payload now :
  kind ≠ "session_status" → maintains good (append_event o kind turn_id payload now).
Proof.
  intros Nk s [W L].
  destruct (append_event_inv o kind turn_id payload now s _ eq_refl) as [(e & -> & _)|[Se ->]]; [by split|].
  cbn [snd]. split; [by apply cwf_append|].
  intros k r Hk. rewrite <- (L k r Hk). unfold told_status. rewrite events_of_app.
  case_bool_decide; [|by rewrite app_nil_r]. rewrite List.filter_app. cbn [List.filter event_of Ev.kind].
  rewrite (bool_decide_false (kind = _)) by done. by rewrite app_nil_r.
Qed.

Lemma good_add_turn i o text status now : maintains good (add_turn i o text status now).
Proof.
  intros s [W L]. unfold add_turn, id. m_unfold. cbv zeta.
  destruct (CD.turns s !! i) as [t|] eqn:N; [by rewrite bool_decide_true by eauto|].
  rewrite bool_decide_false by (by intros [? ?]).
  destruct (CD.sessions s !! Ses.id o) as [r|] eqn:Hr; [|by rewrite bool_decide_true].
  rewrite bool_decide_false by done. cbn [snd]. split; [|exact L].
  destruct W as [K1 K2 K3 K4 K5 K6]. split; row_simpl; [exact K1| | |exact K4| |exact K6].
  - intros k t. rewrite lookup_insert_Some. intros [[<- <-]|[_ ?]]; eauto.
  - intros k t. rewrite lookup_insert_Some. intros [[<- <-]|[_ ?]]; cbn; eauto.
  - intros k.
    match goal with |- seqs_of_turns k (set CD.turns <[i := ?t]> s) ≡ₚ _ =>
      assert (P : seqs_of_turns k (set CD.turns <[i := t]> s)
                  ≡ₚ (if bool_decide (Turn.session_id t = k) then [Turn.seq t] else [])
                     ++ seqs_of_turns k s) by (by apply turns_of_insert) end.
    rewrite (Permutation_length P), P. cbn [new_turn Turn.session_id Turn.seq].
    destruct (decide (Ses.id o = k)) as [<-|E];
      [rewrite bool_decide_true by done|rewrite bool_decide_false by done; apply K5].
    fold (seqs_of_turns (Ses.id o) s). rewrite next_seq_continues by apply K5.
    cbn [app length]. rewrite numbers_S, <- K5. by rewrite Permutation_app_comm.
Qed.

(** A session row and the event that tells its status. *)
Lemma good_write_and_tell o row payload now s :
  good s → Ses.id row = Ses.id o →
  jget "status" (json_or_empty payload) = Some (JStr (session_status_text (Ses.status row))) →
  ∃ s', append_event o "session_status" None payload now
          (s <| CD.sessions := <[Ses.id o := row]> (CD.sessions s) |>) = (Ret tt, s') ∧ good s'.
Proof.
  intros [W L] Ei Et. set (s1 := s <| CD.sessions := _ |>).
  assert (Hk : CD.sessions s1 !! Ses.id o = Some row) by apply lookup_insert_eq.
  destruct (append_event_inv o "session_status" None payload now s1 _ eq_refl)
    as [(e & E & [F|F])|[Se E]]; [done|congruence|]. eexists. split; [exact E|]. split.
  { apply cwf_append; [|done]. by apply cwf_put_session. }
  intros k r Hr. unfold told_status. rewrite events_of_app. cbn [event_of Ev.session_id].
  change (<[Ses.id o := row]> (CD.sessions s) !! k = Some r) in Hr.
  apply lookup_insert_Some in Hr as [[<- <-]|[Ne Hr]].
  - rewrite bool_decide_true by done. rewrite List.filter_app. cbn [List.filter event_of Ev.kind].
    by rewrite bool_decide_true, last_snoc by done.
  - rewrite bool_decide_false by done. rewrite app_nil_r. by apply L.
Qed.

Lemma good_create_session i input now : maintains good (create_session i input now).
Proof.
  intros s G. unfold create_session, add_session, id. m_unfold. cbv zeta.
  destruct (negb (session_fits _)); [done|]. destruct (bool_decide _); [done|].
  do 2 (destruct (negb _); [done|]).
  match goal with |- context [append_event ?o _ _ ?p ?n _] =>
    destruct (good_write_and_tell o (new_session i input now) p n s G eq_refl eq_refl) as (s' & E & G') end.
  change (Ses.id (new_session i input now)) with i in E.
  change (set CD.sessions <[i := new_session i input now]> s)
    with (s <| CD.sessions := <[i := new_session i input now]> (CD.sessions s) |>).
  by rewrite E.
Qed.

Lemma good_transition o target code message now : maintains good (transition o target code message now).
Proof.
  intros s G. unfold transition. case_match; [done|]. unfold mbind, M_bind.
  destruct (flush_session_inv (moved_session target code message now) o s _ eq_refl)
    as [[e ->]|(row & Hr & ->)]; [exact G|].
  assert (Ki : Ses.id row = Ses.id o) by (destruct G; eauto using cwf_session_key).
  match goal with |- context [append_event ?o' _ _ ?p ?n _] =>
    destruct (good_write_and_tell o' (moved_session target code message now row) p n s G Ki eq_refl)
      as (s' & E & G') end.
  change (Ses.id (moved_session target code message now o)) with (Ses.id o) in E. by rewrite E.
Qed.

Create HintDb coding.
#[export] Hint Resolve good_create_session good_transition good_add_turn : coding.

Ltac coded :=
  repeat first [ progress (intros; cbv beta zeta) | solve [eauto with coding] | apply maintains_bind
               | done | case_match ].

Lemma good_ret {A} (a : A) : maintains good (mret a : M CodingDB A).
Proof. by intros s. Qed.

Lemma good_raise {A} e : maintains good (raise e : M CodingDB A).
Proof. by intros s. Qed.
#[export] Hint Resolve good_ret good_raise : coding.
#[export] Hint Extern 2 (maintains good (append_event _ _ _ _ _)) =>
  (apply good_append_event; done) : coding.

Lemma good_finish_turn_row t st summary usage code message now :
  maintains good (finish_turn_row t st summary usage code message now).
Proof. by apply good_flush_turn. Qed.

Lemma good_set_policy p o : maintains good (set_policy p o).
Proof. by apply good_flush_session. Qed.

Lemma good_set_cli_session_ref r o : maintains good (set_cli_session_ref r o).
Proof. by apply good_flush_session. Qed.

Lemma good_mark_turn_running t now : maintains good (mark_turn_running t now).
Proof. unfold mark_turn_running. case_match; [by apply good_flush_turn|apply good_ret]. Qed.
#[export] Hint Resolve good_finish_turn_row good_set_policy good_set_cli_session_ref
  good_mark_turn_running : coding.

Lemma good_clear_pending_turn o i : maintains good (clear_pending_turn o i).
Proof. unfold clear_pending_turn. coded. Qed.

Lemma good_begin_running o now : maintains good (begin_running o now).
Proof. unfold begin_running. coded. Qed.
#[export] Hint Resolve good_clear_pending_turn good_begin_running : coding.

Lemma good_start_turn i o text now : maintains good (start_turn i o text now).
Proof. unfold start_turn. coded. Qed.

Lemma good_queue_turn i o text plan run now : maintains good (queue_turn i o text plan run now).
Proof. unfold queue_turn. coded. Qed.

Lemma good_finish_turn o t e now : maintains good (finish_turn o t e now).
Proof. unfold finish_turn. coded. Qed.

(** The events of the adapters are of their own kinds. *)
Definition foreign (events : list NormalizedEvent) : Prop :=
  Forall (λ e, kind e ≠ "session_status") events.

Lemma good_record_events o turn_id events now :
  foreign events → maintains good (record_events o turn_id events now).
Proof.
  induction 1 as [|e l He Hl IH]; cbn [record_events]; [apply good_ret|].
  apply maintains_bind; [by apply good_append_event|auto].
Qed.
#[export] Hint Resolve good_start_turn good_queue_turn good_finish_turn good_record_events : coding.

(** * Reachable states

    One transaction of a service on a session: the objects may be stale. *)
Inductive coding_step : CodingDB → CodingDB → Prop :=
  | step_create i input now s : coding_step s (atomic (create_session i input now) s).2
  | step_transition o target code message now s :
      coding_step s (atomic (transition o target code message now) s).2
  | step_start i o text now s : coding_step s (atomic (start_turn i o text now) s).2
  | step_queue i o text plan run now s : coding_step s (atomic (queue_turn i o text plan run now) s).2
  | step_mark t now s : coding_step s (atomic (mark_turn_running t now) s).2
  | step_finish o t e events now s :
      foreign events →
      coding_step s (atomic (_ ← record_events o (Some (Turn.id t)) events now; finish_turn o t e now) s).2
  | step_settle o t st code message now s :
      coding_step s (atomic (t ← finish_turn_row t st None None code message now;
                             clear_pending_turn o (Turn.id t)) s).2.

Definition no_sessions (users projects : gset string) : CodingDB :=
  {| CD.user_ids := users; CD.project_ids := projects; CD.sessions := ∅; CD.turns := ∅; CD.events := [] |}.

Definition coding_reachable (s : CodingDB) : Prop :=
  ∃ users projects, rtc coding_step (no_sessions users projects) s.

Lemma good_step s s' : coding_step s s' → good s → good s'.
Proof.
  intros T G. destruct T; (apply maintains_atomic; [|exact G]); auto with coding; coded.
Qed.

Lemma no_sessions_good users projects : good (no_sessions users projects).
Proof.
  split; [split|]; try done.
  - intros e He. by apply elem_of_nil in He.
Qed.

Lemma coding_reachable_good s : coding_reachable s → good s.
Proof.
  intros (users & projects & R). assert (G := no_sessions_good users projects).
  induction R as [|s1 s2 s3 T _ IH]; [done|]. apply IH. by apply (good_step s1).
Qed.


(** * Pages of events *)

Lemma sort_by_sorted_id {A} (leb : A → A → bool) l :
  StronglySorted (λ x y, leb x y = true) l → sort_by leb l = l.
Proof.
  induction 1 as [|x l Hl IH Hx]; [done|]. cbn. rewrite IH. destruct l as [|y l]; [done|].
  apply Forall_cons in Hx as [Hx _]. cbn. by rewrite Hx.
Qed.

(** A list numbered from [a + 1] on, in order. *)
Lemma filter_numbered {A} (num : A → Z) (l : list A) (a : nat) after :
  map num l = map Z.of_nat (seq (S a) (length l)) → Z.of_nat a <= after →
  List.filter (λ e, after <? num e) l = drop (Z.to_nat after - a) l.
Proof.
  revert a. induction l as [|x l IH]; intros a E H; [by rewrite drop_nil|].
  cbn [map length seq] in E. injection E as Ex E. cbn [List.filter].
  destruct (Z.ltb_spec after (num x)) as [L|L].
  - replace (Z.to_nat after - a)%nat with 0%nat by lia. cbn [drop]. f_equal.
    clear IH. assert (A1 : ∀ y, y ∈ l → after < num y).
    { intros y Hy. apply (list_elem_of_fmap_2 num) in Hy. change (num <$> l) with (map num l) in Hy. rewrite E in Hy.
      apply list_elem_of_In, in_map_iff in Hy as (k & <- & Hk). apply in_seq in Hk. lia. }
    clear E. induction l as [|y l IH]; [done|]. cbn. destruct (Z.ltb_spec after (num y)).
    + f_equal. apply IH. intros z Hz. apply A1. by right.
    + exfalso. specialize (A1 y ltac:(by left)). lia.
  - rewrite (IH (S a)) by (done || lia). by replace (Z.to_nat after - a)%nat with (S (Z.to_nat after - S a)) by lia.
Qed.

Lemma numbered_sorted (l : list CodingSessionEvent) (a : nat) :
  map Ev.seq l = map Z.of_nat (seq (S a) (length l)) → StronglySorted (λ x y, seq_leb x y = true) l.
Proof.
  revert a. induction l as [|x l IH]; intros a E; [constructor|].
  cbn [map length seq] in E. injection E as Ex E. constructor; [by apply (IH (S a))|].
  apply Forall_forall. intros y Hy. unfold seq_leb. apply Z.leb_le.
  apply (list_elem_of_fmap_2 Ev.seq) in Hy. change (Ev.seq <$> l) with (map Ev.seq l) in Hy.
  rewrite E in Hy. apply list_elem_of_In, in_map_iff in Hy as (k & <- & Hk). apply in_seq in Hk. lia.
Qed.

(** A page of events is the stretch of the session's events that follows the given number, so
    pages read one after the other, each from the last number of the one before, show every event
    once and in order. *)
Theorem event_pages_abut s k after limit :
  coding_reachable s → 0 <= after →
  list_events k after limit s = (Ret (take limit (drop (Z.to_nat after) (events_of k s))), s)
  ∧ ∀ i e, events_of k s !! i = Some e → Ev.seq e = Z.of_nat (S i).
Proof.
  intros R Ha. apply coding_reachable_good in R as [W _].
  assert (E : map Ev.seq (events_of k s) = map Z.of_nat (seq 1 (length (events_of k s)))).
  { pose proof (cwf_event_numbers s W k) as N. unfold seqs_of_events, numbers in N.
    by rewrite length_map in N. }
  split.
  - unfold list_events, gets. do 2 f_equal. rewrite (filter_numbered Ev.seq _ 0) by done.
    rewrite Nat.sub_0_r, sort_by_sorted_id; [done|].
    apply (numbered_sorted _ (Nat.min (Z.to_nat after) (length (events_of k s)))).
    revert E. generalize (events_of k s) as l. intros l E. rewrite <- skipn_map, E, length_drop, skipn_map.
    rewrite skipn_seq.
    destruct (Nat.le_gt_cases (Z.to_nat after) (length l)).
    + by replace (Z.to_nat after `min` length l)%nat with (Z.to_nat after) by lia.
    + by replace (length l - Z.to_nat after)%nat with 0%nat by lia.
  - intros i e Hi. apply (f_equal (λ l, l !! i)) in E. rewrite !list_lookup_fmap in E.
    rewrite Hi in E. apply lookup_lt_Some in Hi. rewrite lookup_seq_lt in E by done. by injection E.
Qed.

(** * The life of a turn *)

(** A session whose object is its row. *)
Definition fresh_session (s : CodingDB) (o : CodingSession) : Prop :=
  CD.sessions s !! Ses.id o = Some o ∧ session_fits o = true.

(** The state in which the session is [o'] and the log has [new] more events. *)
Definition session_now (s s' : CodingDB) (o' : CodingSession) (new : list CodingSessionEvent) : Prop :=
  CD.sessions s' = <[Ses.id o' := o']> (CD.sessions s) ∧ CD.turns s' = CD.turns s
  ∧ CD.events s' = CD.events s ++ new.

Lemma transition_fresh o target now s :
  fresh_session s o → target ∈ ALLOWED_TRANSITIONS (Ses.status o) →
  ∃ s' new o', transition o target None None now s = (Ret o', s')
    ∧ fresh_session s' o' ∧ session_now s s' o' new
    ∧ Ses.id o' = Ses.id o ∧ Ses.status o' = target ∧ Ses.policy_json o' = Ses.policy_json o.
Proof.
  intros [Hr Hf] A. unfold transition. rewrite bool_decide_true by done. cbn [negb].
  unfold mbind, M_bind, flush_session, id. m_unfold. rewrite Hr.
  assert (Hf' : session_fits (moved_session target None None now o) = true) by exact Hf.
  rewrite Hf'. cbn [negb]. set (o' := moved_session target None None now o).
  match goal with |- context [append_event ?a ?b ?c ?d ?e ?s1] =>
    destruct (append_event_inv a b c d e s1 _ eq_refl) as [(x & E & [F|F])|[Se E]]; [done| |];
    [exfalso; revert F; row_simpl; change (Ses.id o') with (Ses.id o); by rewrite lookup_insert_eq|]
  end.
  eexists _, _, o'. rewrite E. split; [reflexivity|].
  split; [split; [apply lookup_insert_eq|done]|]. split; [by repeat split|]. done.
Qed.

Lemma jget_jset k v l : jget k (jset k v (JObj l)) = Some v.
Proof.
  unfold jset. destruct (existsb _ l) eqn:E; cbn [jget].
  - induction l as [|[j w] l IH]; [done|]. cbn [existsb map assoc_last fst] in *.
    set (m := map _ l) in *.
    assert (A : assoc_last k m = Some v ∨ assoc_last k m = None).
    { subst m. clear. induction l as [|[a b] l IH]; [by right|]. cbn.
      destruct IH as [->| ->]; [left|]; case_bool_decide; cbn; auto.
      - left. by rewrite bool_decide_true.
      - right. by rewrite bool_decide_false. }
    destruct (existsb _ l); [by destruct (bool_decide (j = k)); rewrite IH|]. rewrite orb_false_r in E. rewrite E. cbn.
    destruct A as [->| ->]; [done|]. by rewrite bool_decide_true.
  - rewrite assoc_last_app. cbn. by rewrite bool_decide_true.
Qed.

Lemma session_now_trans s s1 s2 o1 o2 n1 n2 :
  session_now s s1 o1 n1 → session_now s1 s2 o2 n2 → Ses.id o2 = Ses.id o1 →
  session_now s s2 o2 (n1 ++ n2).
Proof.
  intros (S1 & T1 & E1) (S2 & T2 & E2) Ei. split; [|split; [by rewrite T2|by rewrite E2, E1, app_assoc]].
  by rewrite S2, S1, Ei, insert_insert_eq.
Qed.

Lemma begin_running_fresh o now s :
  fresh_session s o → Ses.status o ∈ [SPending; SIdle] →
  ∃ s' new o', begin_running o now s = (Ret o', s') ∧ fresh_session s' o' ∧ session_now s s' o' new
    ∧ Ses.id o' = Ses.id o ∧ Ses.status o' = SRunning ∧ Ses.policy_json o' = Ses.policy_json o.
Proof.
  intros F A. unfold begin_running. rewrite bool_decide_true by done. cbn [negb].
  destruct (decide (Ses.status o = SPending)) as [P|P].
  - rewrite bool_decide_true by done.
    destruct (transition_fresh o SStarting now s F) as (s1 & n1 & o1 & E1 & F1 & N1 & I1 & Q1 & P1);
      [rewrite P; by left|].
    destruct (transition_fresh o1 SIdle now s1 F1) as (s2 & n2 & o2 & E2 & F2 & N2 & I2 & Q2 & P2);
      [rewrite Q1; by left|].
    destruct (transition_fresh o2 SRunning now s2 F2) as (s3 & n3 & o3 & E3 & F3 & N3 & I3 & Q3 & P3);
      [rewrite Q2; by left|].
    exists s3, ((n1 ++ n2) ++ n3), o3. rewrite (bind_run _ _ s o2 s2).
    2:{ rewrite (bind_run _ _ s _ s1 E1). exact E2. }
    split; [exact E3|]. split; [exact F3|].
    split; [eauto using session_now_trans|]. split; [congruence|]. split; congruence.
  - rewrite bool_decide_false by done.
    assert (I : Ses.status o = SIdle) by set_solver.
    destruct (transition_fresh o SRunning now s F) as (s3 & n3 & o3 & E3 & F3 & N3 & I3 & Q3 & P3);
      [rewrite I; by left|].
    exists s3, n3, o3. rewrite (bind_run _ _ s o s) by done. done.
Qed.

Lemma flush_session_fresh f o s :
  fresh_session s o → Ses.id (f o) = Ses.id o → session_fits (f o) = true →
  ∃ s', flush_session f o s = (Ret (f o), s') ∧ fresh_session s' (f o) ∧ session_now s s' (f o) [].
Proof.
  intros [Hr Hf] Ei Ff. unfold flush_session, id. m_unfold. rewrite Hr, Ff. cbn [negb].
  eexists. split; [reflexivity|]. split.
  - split; [|done]. row_simpl. by rewrite Ei, lookup_insert_eq.
  - split; [by rewrite Ei|]. split; [done|]. row_simpl. by rewrite app_nil_r.
Qed.

Lemma append_event_fresh o kind turn_id payload now s :
  fresh_session s o → fits 32 kind = true →
  append_event o kind turn_id payload now s
  = (Ret tt, s <| CD.events := CD.events s ++ [event_of s o kind turn_id payload now] |>).
Proof.
  intros [Hr _] Hk. destruct (append_event_inv o kind turn_id payload now s _ eq_refl)
    as [(x & E & [F|F])|[Se E]]; congruence.
Qed.

Lemma add_turn_fresh i o text status now s :
  fresh_session s o → CD.turns s !! i = None →
  add_turn i o text status now s
  = (Ret (new_turn i o text status now s),
     s <| CD.turns := <[i := new_turn i o text status now s]> (CD.turns s) |>).
Proof.
  intros [Hr _] N. unfold add_turn, id. m_unfold. cbv zeta.
  rewrite (bool_decide_false (is_Some _)) by (rewrite N; by intros [? ?]).
  by rewrite bool_decide_false by congruence.
Qed.

(** Queueing a turn for a session that is new or idle makes the session run and adds one
    pending turn with the next number and a marker in the session's policy; for a session in any
    other status it is refused and nothing changes. *)
Theorem queue_turn_outcome i o text plan run now s policy :
  coding_reachable s → fresh_session s o → CD.turns s !! i = None →
  Ses.policy_json o = JObj policy →
  if bool_decide (Ses.status o ∈ [SPending; SIdle])
  then ∃ o' t s', queue_turn i o text plan run now s = (Ret (o', t), s')
    ∧ fresh_session s' o' ∧ CD.sessions s' = <[Ses.id o := o']> (CD.sessions s)
    ∧ Ses.status o' = SRunning
    ∧ jget "pending_turn" (Ses.policy_json o') = Some (pending_turn_marker i plan run)
    ∧ CD.turns s' = <[i := t]> (CD.turns s)
    ∧ Turn.id t = i ∧ Turn.session_id t = Ses.id o ∧ Turn.status t = TurnPending
    ∧ Turn.request_text t = text
    ∧ Turn.seq t = Z.of_nat (S (length (turns_of (Ses.id o) s)))
  else ∃ e, queue_turn i o text plan run now s = (Raise (CodingSessionStateError e), s).
Proof.
  intros R F N Hp. case_bool_decide as A.
  2:{ unfold queue_turn, begin_running. rewrite bool_decide_false by done. by eexists. }
  destruct (begin_running_fresh o now s F A) as (s1 & n1 & o1 & E1 & F1 & (S1 & T1 & V1) & Ei & Es & Ep).
  unfold queue_turn. rewrite (bind_run _ _ s o1 s1 E1).
  rewrite <- T1 in N. rewrite (bind_run _ _ s1 _ _ (add_turn_fresh i o1 text TurnPending now s1 F1 N)).
  set (t := new_turn i o1 text TurnPending now s1). set (s2 := s1 <| CD.turns := _ |>).
  set (p := jset _ _ _).
  assert (F2 : fresh_session s2 o1) by exact F1.
  destruct (flush_session_fresh (λ r, r <| Ses.policy_json := p |>) o1 s2 F2)
    as (s3 & E3 & F3 & S3 & T3 & V3); [done|by destruct F1|].
  rewrite (bind_run _ _ s2 _ s3 E3). set (o' := o1 <| Ses.policy_json := p |>) in *.
  rewrite (bind_run _ _ s3 _ _ (append_event_fresh _ "turn_queued" _ _ _ s3 F3 eq_refl)).
  exists o', t. eexists. split; [reflexivity|]. split; [exact F3|].
  split. { row_simpl. rewrite S3. change (Ses.id o') with (Ses.id o1).
           change (CD.sessions s2) with (CD.sessions s1). by rewrite S1, insert_insert_eq, Ei. }
  split; [exact Es|]. split.
  { change (Ses.policy_json o') with p. unfold p. rewrite Ep, Hp.
    assert (Ej : json_or_empty (JObj policy) = JObj policy) by (by destruct policy).
    rewrite Ej. apply jget_jset. }
  split. { row_simpl. rewrite T3. unfold s2. row_simpl. by rewrite T1. }
  split; [done|]. split; [exact Ei|]. split; [done|]. split; [done|].
  unfold t, new_turn. cbn [Turn.seq]. rewrite Ei.
  assert (Et : turns_of (Ses.id o) s1 = turns_of (Ses.id o) s) by (unfold turns_of; by rewrite T1).
  rewrite Et, next_seq_continues; [by rewrite length_map|].
  by apply (cwf_turn_numbers s), coding_reachable_good.
Qed.

(** * Witnesses *)

Definition demo_input : SessionInput := {|
  si_uid := "u1"; si_project_id := "p1"; si_runtime_scope_id := "agent-project:u1:coder:p1";
  si_executor := "codex"; si_workdir_path := "projects/p1"; si_conversation_id := Some 7;
  si_parent_run_id := None; si_mode := "headless"; si_title := None; si_policy := None;
  si_budget := None |}.

Definition demo_created : CodingDB :=
  (atomic (create_session "s1" demo_input 10) (no_sessions {["u1"]} {["p1"]})).2.
Definition demo_session : CodingSession := new_session "s1" demo_input 10.
Definition demo_queued : CodingDB :=
  (atomic (queue_turn "t1" demo_session "fix the tests" true (Some "r1") 20) demo_created).2.

Lemma demo_session_reachable : coding_reachable demo_created.
Proof. exists {["u1"]}, {["p1"]}. apply rtc_once, step_create. Qed.

Lemma demo_queued_reachable : coding_reachable demo_queued.
Proof.
  destruct demo_session_reachable as (us & ps & R). exists us, ps. eapply rtc_r; [exact R|].
  apply step_queue.
Qed.


Lemma event_pages_abut_witness :
  list_events "s1" 2 2 demo_queued
  = (Ret (take 2 (drop 2 (events_of "s1" demo_queued))), demo_queued)
  ∧ map Ev.kind (take 2 (drop 2 (events_of "s1" demo_queued))) = ["session_status"; "session_status"].
Proof.
  split; [|vm_compute; reflexivity].
  apply (event_pages_abut demo_queued "s1" 2 2 demo_queued_reachable). lia.
Defined.

Lemma queue_turn_outcome_witness :
  ∃ o' t s', queue_turn "t1" demo_session "fix the tests" true (Some "r1") 20 demo_created = (Ret (o', t), s')
    ∧ Ses.status o' = SRunning ∧ Turn.seq t = 1.
Proof.
  destruct (queue_turn_outcome "t1" demo_session "fix the tests" true (Some "r1") 20 demo_created []
    demo_session_reachable) as (o' & t & s' & E & _ & _ & Es & _ & _ & _ & _ & _ & _ & Eq).
  - split; vm_compute; reflexivity.
  - vm_compute. reflexivity.
  - reflexivity.
  - exists o', t, s'. split; [exact E|]. split; [exact Es|]. rewrite Eq. vm_compute. reflexivity.
Defined.
