(* ===== verification/Executors.v ===== *)
(** The executors a task can be delegated to: the contract of [delegation/contracts.py], the
    Multica channel of [delegation/multica.py] and the coding executors in a project's own sandbox
    of [delegation/sandbox.py], with the configuration snapshot of
    [services/coding_execution_service.py].

    [DelegatedExecutor] is the contract; [multica_executor] and [sandbox_executor] implement it.
    The Multica HTTP client and the preparation of a sandbox are the interfaces [MulticaClient]
    and [CodingEnvironment], with a world [W] of their own that no rollback undoes. *)

From stdpp Require Import prelude gmap strings list fin_maps.
From Stdlib Require Import ZArith Lia Ascii.
From S2P Require Import Prelude PyLib SandboxScope CodingAdapters Coding.
Local Open Scope Z_scope.

(** * The contract *)

Module Dreq.
Record DelegationRequest := mk {
  operation_id : string;
  project_id : string;
  task : string;
  initiator_run_id : option string;
  context_refs : list json;
  budget : list (string * json);
  metadata : list (string * json)
}.
#[global] Instance eta : Eta DelegationRequest := λ r,
  mk (operation_id r) (project_id r) (task r) (initiator_run_id r) (context_refs r) (budget r)
    (metadata r).
End Dreq.
Abbreviation DelegationRequest := Dreq.DelegationRequest.

Record DelegationHandle := {
  h_operation_id : string;
  h_executor_key : string;
  h_session_id : option string;
  h_turn_id : option string;
  h_external_ref : option string;
  h_external_url : option string;
  h_remote_status : option string
}.

Record DelegationResult := {
  r_summary : option string;
  r_text : option string;
  r_artifacts : list json;
  r_usage : json;
  r_remote_status : option string;
  r_error_code : option string
}.

(** What an executor changes: the coding tables, in the caller's transaction, and the world. *)
Module Out.
Record Outside (W : Type) := mk { coding : CodingDB; world : W }.
Arguments mk {W}.
Arguments coding {W}.
Arguments world {W}.
#[global] Instance eta {W} : Eta (Outside W) := λ o, mk (coding o) (world o).
End Out.
Abbreviation Outside := Out.Outside.

(** The UUIDs a dispatch draws, and its clock. *)
Record DispatchFresh := { fresh_session : string; fresh_turn : string; dispatch_now : datetime }.

Record DelegatedExecutor (W : Type) := {
  capabilities : list (string * bool);
  ex_dispatch : DispatchFresh → DelegationRequest → M (Outside W) DelegationHandle;
  ex_status : DelegationHandle → M (Outside W) (option string);
  ex_collect : DelegationHandle → M (Outside W) DelegationResult;
  (** [enqueue], of a [SandboxCodingExecutor] only. *)
  ex_enqueue : option (DelegationHandle → bool → M (Outside W) unit)
}.
Arguments capabilities {W}.
Arguments ex_dispatch {W}.
Arguments ex_status {W}.
Arguments ex_collect {W}.
Arguments ex_enqueue {W}.

Section executors.
Context {W : Type}.

Definition on_coding {A} (m : M CodingDB A) : M (Outside W) A := λ o,
  let '(r, c) := m (Out.coding o) in (r, o <| Out.coding := c |>).

Definition on_world {A} (m : M W A) : M (Outside W) A := λ o,
  let '(r, w) := m (Out.world o) in (r, o <| Out.world := w |>).

Definition lift {A} (r : outcome A) : M (Outside W) A := λ o, (r, o).

(** * Multica *)

Record MulticaIssue := {
  i_id : string;
  i_identifier : string;
  i_title : string;
  i_description : string;
  i_status : string;
  i_url : option string;
  i_updated_at : option string
}.

Class MulticaClient := {
  create_issue : string → string → M W MulticaIssue;
  get_issue : string → M W MulticaIssue;
  search_issues : string → nat → M W (list MulticaIssue);
  list_issues : nat → nat → M W (list MulticaIssue)
}.

Definition MULTICA_EXECUTOR_KEY : string := "multica".
Definition OPERATION_MARKER_PREFIX : string := "Yuanlei-Delegation-Operation:".

Definition operation_marker (operation_id : string) : string :=
  (OPERATION_MARKER_PREFIX ++ " " ++ operation_id)%string.

Definition matches_marker (issue : MulticaIssue) (operation_id : string) : bool :=
  occurs (operation_marker operation_id) (i_description issue).

Definition title_from_task (task : string) : string :=
  let first_line := default EmptyString
    (head (List.filter (λ l, negb (bool_decide (l = ""))) (map strip (splitlines task)))) in
  str_take 120 (if bool_decide (first_line = "") then "元垒委派任务" else first_line).

Context (container_text : json → string).

Definition description_for (request : DelegationRequest) : string :=
  str_concat (String "010"%char "")
    ([operation_marker (Dreq.operation_id request); ""; strip (Dreq.task request)]
     ++ (if bool_decide (Dreq.context_refs request = []) then []
         else [""; "来源引用："]
              ++ map (λ ref, ("- " ++ str_of container_text ref)%string) (Dreq.context_refs request))).

Definition multica_handle (operation_id : string) (issue : MulticaIssue) : DelegationHandle := {|
  h_operation_id := operation_id; h_executor_key := MULTICA_EXECUTOR_KEY; h_session_id := None;
  h_turn_id := None; h_external_ref := Some (i_identifier issue); h_external_url := i_url issue;
  h_remote_status := Some (i_status issue) |}.

Section multica.
Context `{MulticaClient}.

Definition find_by_operation (operation_id : string) : M W (option MulticaIssue) :=
  candidates ← search_issues operation_id 20;
  mret (head (List.filter (λ issue, matches_marker issue operation_id) candidates)).

Definition multica_dispatch (request : DelegationRequest) : M W DelegationHandle :=
  existing ← find_by_operation (Dreq.operation_id request);
  match existing with
  | Some issue => mret (multica_handle (Dreq.operation_id request) issue)
  | None =>
      issue ← create_issue (title_from_task (Dreq.task request)) (description_for request);
      mret (multica_handle (Dreq.operation_id request) issue)
  end.

Definition multica_status (handle : DelegationHandle) : M W (option string) :=
  if falsy_str (h_external_ref handle) then mret None
  else
    issue ← get_issue (default EmptyString (h_external_ref handle));
    mret (Some (i_status issue)).

Definition newline : string := String "010"%char "".

Definition multica_collect (handle : DelegationHandle) : M W DelegationResult :=
  if falsy_str (h_external_ref handle)
  then raise (DelegationError "delegation_handle_invalid" "Multica 委派句柄缺少 external_ref")
  else
    issue ← get_issue (default EmptyString (h_external_ref handle));
    mret {|
      r_summary := Some (i_title issue ++ "（" ++ i_status issue ++ "）")%string;
      r_text := Some ("# " ++ i_title issue ++ newline ++ newline ++ i_description issue ++ newline
                      ++ newline ++ "状态: " ++ i_status issue ++ newline)%string;
      r_artifacts := if falsy_str (i_url issue) then []
                     else [JObj [("kind", JStr "url"); ("url", opt_json (i_url issue))]];
      r_usage := JObj []; r_remote_status := Some (i_status issue); r_error_code := None |}.

Definition multica_executor : DelegatedExecutor W := {|
  capabilities := [("multi_turn", false); ("remote_artifacts", true)];
  ex_dispatch := λ _ request, on_world (multica_dispatch request);
  ex_status := λ handle, on_world (multica_status handle);
  ex_collect := λ handle, on_world (multica_collect handle);
  ex_enqueue := None |}.
End multica.

(** * The coding executors *)

(** [update] of a dict. *)
Definition dict_update (fields : list (string * json)) (d : json) : json :=
  foldl (λ d kv, jset kv.1 kv.2 d) d fields.

Definition block (key : string) (config : option json) : list (string * json) :=
  match config ≫= jget key with Some (JObj l) => l | _ => [] end.

Definition coding_agent_config_snapshot (agent_config project_overrides : option json) : json :=
  foldl (λ snapshot key,
    let merged := dict_update (block key project_overrides)
                    (dict_update (block key agent_config) (JObj [])) in
    if truthy merged then jset key merged snapshot else snapshot)
    (JObj [("_coding_effective_snapshot", JBool true)]) ["coding"; "sandbox"].

(** [prepare] of a [CodingExecutionService]: credentials and the dedicated sandbox; the projection
    of the user's skills. *)
Class CodingEnvironment := {
  refresh_user_skill_projection : string → M W unit;
  prepare : SandboxScope → string → option json → M W unit;
  enqueue_coding_turn : string → string → bool → M W unit
}.

Section sandbox.
Context `{CodingEnvironment} (project_overrides : string → string → option json).

(** [str(metadata.get(key) or "")]. *)
Definition metadata_text (key : string) (metadata : list (string * json)) : string :=
  match assoc_last key metadata with
  | Some v => if truthy v then str_of container_text v else ""
  | None => ""
  end.

(** [bool(metadata.get("plan_only", False))]. *)
Definition plan_only_of (metadata : list (string * json)) : bool :=
  match assoc_last "plan_only" metadata with Some v => truthy v | None => false end.

(** The scope of the [CodingExecutionService], the checks before its use and the policy. *)
Definition delegation_scope (request : DelegationRequest) : outcome (string * string * string) :=
  let metadata := Dreq.metadata request in
  let uid := metadata_text "uid" metadata in
  let runtime_scope_id := metadata_text "runtime_scope_id" metadata in
  let workdir_relative_path := metadata_text "workdir_relative_path" metadata in
  if bool_decide (uid = "") || bool_decide (runtime_scope_id = "") || bool_decide (workdir_relative_path = "")
  then Raise (DelegationError "sandbox_scope_missing" "沙盒委派缺少运行范围")
  else
    match from_runtime_scope uid runtime_scope_id with
    | Raise e => Raise e
    | Ret (ThreadScope _ _) =>
        Raise (RuntimeError "coding execution requires a dedicated (agent-project) sandbox scope")
    | Ret (AgentProjectScope scope_uid agent_slug project_id) =>
        if negb (bool_decide (scope_uid = uid)) || negb (bool_decide (project_id = Dreq.project_id request))
        then Raise (DelegationError "sandbox_scope_mismatch" "沙盒委派范围与项目不一致")
        else Ret (uid, agent_slug, workdir_relative_path)
    end.

Definition require_kept_sandbox (policy : SandboxPolicy) : outcome unit :=
  if is_dedicated policy
     && negb (bool_decide (SandboxScope.lifecycle policy = Ephemeral))
  then Ret tt
  else Raise (DelegationError "sandbox_policy_unsupported" "沙盒委派需要 persistent/resident 专属沙盒").

Definition as_object (v : option json) : option json :=
  match v with Some (JObj l) => Some (JObj l) | _ => None end.

Definition sandbox_dispatch (key : string) (fresh : DispatchFresh) (request : DelegationRequest)
    : M (Outside W) DelegationHandle :=
  let metadata := Dreq.metadata request in
  let agent_config := as_object (assoc_last "agent_config" metadata) in
  scope ← lift (delegation_scope request);
  let '(uid, agent_slug, workdir_relative_path) := scope in
  let project_id := Dreq.project_id request in
  policy ← lift (resolve_agent_sandbox_policy (λ _, agent_config) project_overrides agent_slug project_id);
  _ ← lift (require_kept_sandbox policy);
  _ ← on_world (refresh_user_skill_projection uid);
  let sandbox := AgentProjectScope uid agent_slug project_id in
  _ ← on_world (prepare sandbox workdir_relative_path agent_config);
  let title := str_take 120 (strip (Dreq.task request)) in
  session ← on_coding (create_session (fresh_session fresh) {|
    si_uid := uid; si_project_id := project_id; si_runtime_scope_id := cache_key sandbox;
    si_executor := key; si_workdir_path := workdir_relative_path;
    si_conversation_id := match assoc_last "conversation_id" metadata with
                          | Some (JInt c) => Some c | _ => None end;
    si_parent_run_id := Dreq.initiator_run_id request; si_mode := "headless";
    si_title := if bool_decide (title = "") then None else Some title;
    si_policy := Some (JObj [("executor", JStr key);
                             ("agent_config", coding_agent_config_snapshot agent_config
                                (project_overrides project_id agent_slug))]);
    si_budget := if bool_decide (Dreq.budget request = []) then None
                 else Some (JObj (Dreq.budget request)) |} (dispatch_now fresh));
  queued ← on_coding (queue_turn (fresh_turn fresh) session (Dreq.task request) (plan_only_of metadata)
                        (Dreq.initiator_run_id request) (dispatch_now fresh));
  mret {| h_operation_id := Dreq.operation_id request; h_executor_key := key;
          h_session_id := Some (Ses.id queued.1); h_turn_id := Some (Turn.id queued.2);
          h_external_ref := None; h_external_url := None; h_remote_status := None |}.

Definition sandbox_enqueue (handle : DelegationHandle) (plan_only : bool) : M (Outside W) unit :=
  if falsy_str (h_session_id handle) || falsy_str (h_turn_id handle) then mret tt
  else on_world (enqueue_coding_turn (default EmptyString (h_session_id handle))
                   (default EmptyString (h_turn_id handle)) plan_only).

Definition sandbox_status (handle : DelegationHandle) : M (Outside W) (option string) :=
  if falsy_str (h_turn_id handle) then mret None
  else
    turn ← on_coding (get_turn (default EmptyString (h_turn_id handle)));
    mret ((λ t, turn_status_text (Turn.status t)) <$> turn).

Definition sandbox_collect (handle : DelegationHandle) : M (Outside W) DelegationResult :=
  if falsy_str (h_turn_id handle)
  then raise (DelegationError "delegation_handle_invalid" "沙盒委派句柄缺少 turn_id")
  else
    turn ← on_coding (get_turn (default EmptyString (h_turn_id handle)));
    match turn with
    | None => raise (DelegationError "coding_turn_not_found" "编码 turn 不存在")
    | Some turn =>
        if bool_decide (Turn.status turn ∈ [TurnPending; TurnRunning])
        then raise (DelegationError "delegation_not_ready" "编码 turn 尚未终结")
        else mret {|
          r_summary := Turn.result_summary turn; r_text := Turn.result_summary turn;
          r_artifacts := []; r_usage := json_or_empty (Turn.usage_json turn);
          r_remote_status := Some (turn_status_text (Turn.status turn));
          r_error_code := Turn.error_code turn |}
    end.

Definition sandbox_executor (key : string) : DelegatedExecutor W := {|
  capabilities := [("multi_turn", true); ("remote_artifacts", false)];
  ex_dispatch := sandbox_dispatch key;
  ex_status := sandbox_status;
  ex_collect := sandbox_collect;
  ex_enqueue := Some sandbox_enqueue |}.
End sandbox.
End executors.
Arguments MulticaClient : clear implicits.
Arguments CodingEnvironment : clear implicits.
