(* ===== verification/CodingExec.v ===== *)
(** Running the turns of coding sessions: [services/coding_execution_service.py].

    A turn runs in the dedicated sandbox of an agent and a project, under its lease ([Sandboxes.v]):
    the command line of [CodingAdapters.v] is executed there, its output becomes the events and the
    end of the turn ([Coding.v]).  The service commits several times; between its transactions, and
    while a command runs, other transactions change the tables: [others run k] is what happens
    before the [k]-th of the places where the service lets go, [clock run k] its reading of the
    clock there and [redis_up run k] whether Redis answers.

    The sandbox's command execution and the job queue are an interface ([CodingWorld]), as is the
    provider of [Sandboxes.v]; credentials, the agent catalogue and the project overrides are
    arguments. *)

From stdpp Require Import prelude gmap strings list pretty.
From Stdlib Require Import ZArith Lia Ascii.
From S2P Require Import Prelude PyLib PyTime PyJson Queue SandboxScope Paths Sandboxes Shell CodingAdapters Coding Executors.
Local Open Scope Z_scope.

(** What a command in the sandbox answers. *)
Record ExecuteResponse := { response_output : string; response_exit_code : option Z }.

Class CodingWorld (B : Type) := {
  execute : string → option Z → B → outcome ExecuteResponse * B;
  enqueue_job : string → string → bool → B → outcome unit * B
}.

(** The tables, the cancel signals in Redis, the sandboxes and the world outside. *)
Module XS.
Record ExecStore (P B : Type) := mk {
  coding : CodingDB;
  sandboxes : SandboxStore P;
  cancel_signals : gset string;
  outside : B
}.
Arguments mk {P B}.
Arguments coding {P B}.
Arguments sandboxes {P B}.
Arguments cancel_signals {P B}.
Arguments outside {P B}.
#[global] Instance eta {P B} : Eta (ExecStore P B) := λ s,
  mk (coding s) (sandboxes s) (cancel_signals s) (outside s).
End XS.
Abbreviation ExecStore := XS.ExecStore.

Section exec.
Context {P B : Type} `{SandboxProvider P} `{CodingWorld B}.
Abbreviation Store := (ExecStore P B).
Implicit Types s : Store.

Definition on_coding {A} (m : M CodingDB A) : M Store A := λ s,
  let '(r, c) := m (XS.coding s) in (r, s <| XS.coding := c |>).
Definition on_sandboxes {A} (m : M (SandboxStore P) A) : M Store A := λ s,
  let '(r, b) := m (XS.sandboxes s) in (r, s <| XS.sandboxes := b |>).
Definition on_outside {A} (m : M B A) : M Store A := λ s,
  let '(r, b) := m (XS.outside s) in (r, s <| XS.outside := b |>).
Definition lift {A} (r : outcome A) : M Store A := λ s, (r, s).

(** The statements up to a commit: an exception undoes what they wrote to the tables, not what
    they did elsewhere. *)
Definition rolled_back s s' : Store :=
  let boxes := (XS.sandboxes s) <| SB.runtimes := SB.runtimes (XS.sandboxes s') |> in
  s' <| XS.coding := XS.coding s |> <| XS.sandboxes := boxes |>.

Definition transaction {A} (m : M Store A) : M Store A := λ s,
  match m s with
  | (Ret a, s') => (Ret a, s')
  | (Raise e, s') => (Raise e, rolled_back s s')
  end.

(** [try: m except Exception as e: ...], and [try: m finally: last]. *)
Definition attempt {A} (m : M Store A) : M Store (outcome A) := λ s,
  let '(r, s') := m s in (Ret r, s').

Definition finally {A} (m : M Store A) (last : M Store unit) : M Store A := λ s,
  let '(r, s1) := m s in
  match last s1 with
  | (Ret _, s2) => (r, s2)
  | (Raise e, s2) => (Raise e, s2)
  end.

Record Run := {
  others : nat → Store → Store;
  clock : nat → datetime;
  redis_up : nat → bool
}.

(** * Cancel signals *)

Definition publish_coding_cancel_signal (up : bool) (session_id : string) : M Store unit :=
  modify (λ s, if up then s <| XS.cancel_signals ::= λ l, {[session_id]} ∪ l |> else s).
Definition coding_cancel_requested (up : bool) (session_id : string) : M Store bool :=
  gets (λ s, up && bool_decide (session_id ∈ XS.cancel_signals s)).
Definition clear_coding_cancel_signal (up : bool) (session_id : string) : M Store unit :=
  modify (λ s, if up then s <| XS.cancel_signals ::= λ l, l ∖ {[session_id]} |> else s).

(** * Configuration *)

(** [configured] is the environment's value. *)
Definition coding_turn_timeout_seconds (configured : Z) : Z := Z.max 60 configured.

Definition queued_plan_only (session : CodingSession) (turn_id : string) (fallback : bool) : bool :=
  match jget "pending_turn" (json_or_empty (Ses.policy_json session)) with
  | Some (JObj marker) =>
      match jget "id" (JObj marker) with
      | Some (JStr i) =>
          if bool_decide (i = turn_id) then truthy (default JNull (jget "plan_only" (JObj marker)))
          else fallback
      | _ => fallback
      end
  | _ => fallback
  end.

Definition coding_turn_owner_prefix (turn_id : string) : string :=
  ("coding-turn:" ++ str_take 16 (sha256_hexdigest turn_id) ++ ":")%string.

(** [fresh] is [uuid.uuid4().hex]. *)
Definition new_coding_turn_owner_id (turn_id fresh : string) : string :=
  (coding_turn_owner_prefix turn_id ++ str_take 16 fresh)%string.

Definition CODING_SESSION_OWNER : string := "coding_session".

Context (container_text : json → string) (exn_text : exn → string).
Context (sandbox_hash : string → string) (limits : Z * Z) (virtual_path_prefix : string).
Context (configured_timeout configured_lease : Z) (isoformat : datetime → string)
        (int_of_float : string → outcome Z).
(** The overrides of a project for an agent, the configuration of the agent of a run, and
    the environment of the executors: its variables and its fingerprint. *)
Context (project_overrides : string → string → option json) (run_agent_config : string → option json).
Context (coding_environment : option json → string → option string → string →
                              outcome (list (string * string) * option string)).

(** * Preparing the sandbox *)

(** The service is bound to a dedicated scope and a Workdir. *)
Record Service := {
  sv_uid : string;
  sv_agent_slug : string;
  sv_project_id : string;
  sv_workdir : string
}.

Definition sv_scope (sv : Service) : SandboxScope :=
  AgentProjectScope (sv_uid sv) (sv_agent_slug sv) (sv_project_id sv).

(** [CodingExecutionService.__init__]. *)
Definition service_of (uid runtime_scope_id workdir : string) : outcome Service :=
  match from_runtime_scope uid runtime_scope_id with
  | Raise e => Raise e
  | Ret (ThreadScope _ _) =>
      Raise (RuntimeError "coding execution requires a dedicated (agent-project) sandbox scope")
  | Ret (AgentProjectScope scope_uid agent_slug project_id) =>
      Ret {| sv_uid := scope_uid; sv_agent_slug := agent_slug; sv_project_id := project_id;
             sv_workdir := workdir |}
  end.

(** Answers the secrets. *)
Definition prepare (sv : Service) (agent_config : option json) (fresh_box : string) (now : datetime)
    : M Store (list string) :=
  let frozen := match agent_config with
                | Some c => truthy (default JNull (jget "_coding_effective_snapshot" c))
                | None => false
                end in
  let config_project_id := if frozen then "" else sv_project_id sv in
  policy ← lift (resolve_agent_sandbox_policy (λ _, agent_config) project_overrides
                   (sv_agent_slug sv) config_project_id);
  if negb (is_dedicated policy)
  then raise (RuntimeError "agent sandbox policy is not dedicated; coding execution is unavailable")
  else
    environment ← lift (coding_environment agent_config (sv_agent_slug sv)
                          (if frozen then None else Some (sv_project_id sv)) (sv_uid sv));
    _ ← on_sandboxes (ensure_ready sandbox_hash limits fresh_box (sv_uid sv) (sv_agent_slug sv)
                        (sv_project_id sv) policy (Some (sv_workdir sv)) environment.2 now);
    mret (List.filter (λ v, negb (bool_decide (v = EmptyString))) (map snd environment.1)).

Definition terminate_cli_processes : M Store unit :=
  _ ← on_outside (execute "pkill -f 'opencode run' 2>/dev/null; pkill -f 'codex exec' 2>/dev/null; true"
                    (Some 15));
  mret tt.

(** * Executing a turn *)

(** [_redact_event_payload]. *)
Fixpoint redact_event_payload (secrets : list string) (value : json) : json :=
  match value with
  | JStr text => JStr (redact_credential_values text secrets)
  | JObj l => JObj (map (λ kv, (kv.1, redact_event_payload secrets kv.2)) l)
  | JArr l => JArr (map (redact_event_payload secrets) l)
  | _ => value
  end.

Definition redact_event (secrets : list string) (e : NormalizedEvent) : NormalizedEvent :=
  {| kind := kind e; payload := redact_event_payload secrets (payload e) |}.

(** The state of the tool is gone: the turn starts a conversation of its own. *)
Definition state_missing (session : CodingSession) : M Store bool :=
  if falsy_str (Ses.cli_session_ref session) then mret false
  else
    let layout := cli_state_layout (Ses.executor session) (Ses.id session) in
    response ← on_outside (execute ("test -d " ++ quote (probe_dir layout)
                                    ++ " && echo __PRESENT__ || true")%string None);
    mret (negb (occurs "__PRESENT__" (response_output response))).

Record Execution := { raw_output : string; exit_code : Z; infra_error : option string }.

Definition run_command (command : string) : M Store Execution :=
  response ← attempt (on_outside (execute command
                        (Some (coding_turn_timeout_seconds configured_timeout))));
  mret (match response with
        | Ret r => {| raw_output := response_output r; exit_code := default 0 (response_exit_code r);
                      infra_error := None |}
        | Raise e => {| raw_output := ""; exit_code := 0;
                        infra_error := Some ("sandbox execute failed: " ++ exn_text e)%string |}
        end).

(** The redacted events of an execution. *)
Definition turn_events (adapter : Adapter) (x : Execution) (secrets : list string)
    : outcome (list NormalizedEvent) :=
  events ← parse_events container_text adapter (raw_output x);
  let events := match infra_error x with
                | Some m => (events ++ [{| kind := "error"; payload := JObj [("message", JStr m)] |}])%list
                | None => events
                end in
  mret (map (redact_event secrets) events).

(** What a turn came to. *)
Record TurnReport := {
  tr_events : list NormalizedEvent;
  tr_result : CodingTurnResult;
  tr_failed : bool;
  tr_summary : string;
  tr_error : option string
}.

(** [x or y]. *)
Definition str_or (x y : option string) : option string := if falsy_str x then y else x.

Definition turn_report (events : list NormalizedEvent) (x : Execution) (secrets : list string)
    : TurnReport :=
  let result := extract_turn_result container_text events in {|
    tr_events := events;
    tr_result := result;
    tr_failed := negb (falsy_str (error result)) || negb (falsy_str (infra_error x))
                 || negb (exit_code x =? 0);
    tr_summary := redact_credential_values (str_take 2000 (output_text result)) secrets;
    tr_error := str_or (error result) (infra_error x) |}.

(** [text or None]. *)
Definition text_or_none (t : string) : option string := if bool_decide (t = EmptyString) then None else Some t.

(** The tool's state was missing: noted before the command ran. *)
Definition note_degraded (session : CodingSession) (now : datetime) : M CodingDB CodingSession :=
  session ← set_cli_session_ref None session;
  _ ← Coding.append_event session "resume_degraded" None
        (JObj [("reason", JStr "cli_state_missing"); ("executor", JStr (Ses.executor session))]) now;
  mret session.

Definition turn_end (report : TurnReport) (secrets : list string) : TurnEnd := {|
  te_status := if tr_failed report then TurnFailed else TurnCompleted;
  te_result_summary := Some (tr_summary report);
  te_usage := usage (tr_result report);
  te_error_code := if tr_failed report then Some "executor_error" else None;
  te_error_message := text_or_none (redact_credential_values (default EmptyString (tr_error report)) secrets);
  te_cli_session_ref := result_ref (tr_result report) |}.

Definition end_cancelled (session : CodingSession) (turn : CodingSessionTurn) (report : TurnReport)
    (now : datetime) : M CodingDB (CodingSession * CodingSessionTurn) :=
  turn ← finish_turn_row turn TurnCancelled (Some (tr_summary report)) (usage (tr_result report))
           None None now;
  _ ← Coding.append_event session "turn_finished" (Some (Turn.id turn))
        (JObj [("seq", JInt (Turn.seq turn)); ("status", JStr "cancelled")]) now;
  session ← transition session SCancelled None None now;
  mret (session, turn).

(** What the turn writes, all in one transaction. *)
Definition write_turn (session : CodingSession) (turn : CodingSessionTurn) (degraded cancelled : bool)
    (report : TurnReport) (secrets : list string) (probe_now now : datetime)
    : M CodingDB (CodingSession * CodingSessionTurn) :=
  session ← (if degraded then note_degraded session probe_now else mret session);
  _ ← record_events session (Some (Turn.id turn)) (tr_events report) now;
  if cancelled then end_cancelled session turn report now
  else Coding.finish_turn session turn (turn_end report secrets) now.

Record CodingTurnOutcome := {
  co_session_id : string;
  co_turn_seq : Z;
  co_status : SessionStatus;
  co_executor : string;
  co_output_text : string;
  co_cli_session_ref : option string;
  co_usage : option json;
  co_event_count : nat;
  co_resume_degraded : bool;
  co_error_code : option string;
  co_error_message : option string
}.

(** The end of a turn, under [guard]: [None] when the guard refuses ([CodingTurnOwnershipLostError]
    after a rollback). *)
Definition settle_turn (session : CodingSession) (turn : CodingSessionTurn) (degraded : bool)
    (report : TurnReport) (secrets : list string) (guard : M Store bool) (run : Run)
    : M Store (option CodingTurnOutcome) := transaction (
  owned ← guard;
  if negb owned then mret None
  else
    cancelled ← coding_cancel_requested (redis_up run 4) (Ses.id session);
    ended ← on_coding (write_turn session turn degraded cancelled report secrets (clock run 3) (clock run 4));
    let '(session, turn) := ended in
    _ ← clear_coding_cancel_signal (redis_up run 4) (Ses.id session);
    mret (Some {|
      co_session_id := Ses.id session; co_turn_seq := Turn.seq turn;
      co_status := if (cancelled : bool) then SCancelled else Ses.status session;
      co_executor := Ses.executor session; co_output_text := tr_summary report;
      co_cli_session_ref := Ses.cli_session_ref session; co_usage := usage (tr_result report);
      co_event_count := length (tr_events report); co_resume_degraded := degraded;
      co_error_code := if cancelled then None
                       else if tr_failed report then Some "executor_error" else None;
      co_error_message := if cancelled then None else tr_error report |})).

(** [_execute_turn_tail]; others act before the command (3) and while it runs (4). *)
Definition execute_turn_tail (sv : Service) (session : CodingSession) (turn : CodingSessionTurn)
    (executor task : string) (plan_only : bool) (secrets : list string) (guard : M Store bool)
    (run : Run) : M Store (option CodingTurnOutcome) :=
  _ ← modify (others run 3);
  degraded ← state_missing session;
  let session_ref := if (degraded : bool) then None else Ses.cli_session_ref session in
  adapter ← lift (get_coding_adapter (if bool_decide (executor = EmptyString) then Ses.executor session
                                      else executor));
  workdir ← lift (runtime_workdir_path virtual_path_prefix (sv_workdir sv));
  x ← run_command (build_command adapter
        (turn_request (Ses.executor session) (Ses.id session) task workdir session_ref plan_only));
  _ ← modify (others run 4);
  events ← lift (turn_events adapter x secrets);
  settle_turn session turn degraded (turn_report events x secrets) secrets guard run.

(** * A turn run by its caller *)

(** [validate_session_scope]. *)
Definition validate_session_scope (sv : Service) (session : CodingSession) (conversation_id : option Z)
    : outcome unit :=
  if match conversation_id with
     | Some c => negb (bool_decide (Ses.conversation_id session = Some c))
     | None => false
     end
  then Raise (CodingSessionStateError "coding session belongs to another conversation")
  else if negb (bool_decide (Ses.project_id session = sv_project_id sv))
  then Raise (CodingSessionStateError "coding session belongs to another project")
  else if negb (bool_decide (Ses.runtime_scope_id session = cache_key (sv_scope sv)))
  then Raise (CodingSessionStateError "coding session belongs to another runtime scope")
  else if negb (bool_decide (Ses.workdir_path session = sv_workdir sv))
  then Raise (CodingSessionStateError "coding session belongs to another workdir")
  else Ret tt.

Record TurnInput := {
  ti_executor : string;
  ti_task : string;
  ti_plan_only : bool;
  ti_session_id : option string;
  ti_agent_config : option json;
  ti_budget : option json;
  ti_conversation_id : option Z;
  ti_parent_run_id : option string
}.

(** The UUIDs a turn draws. *)
Record TurnFresh := { tf_session : string; tf_turn : string; tf_box : string }.

Definition title_of (task : string) : option string := text_or_none (str_take 120 (strip task)).

(** The session of the turn: the given one, which must be idle, or a new one.  [loaded] is the
    session the caller has loaded before. *)
Definition turn_session (sv : Service) (i : TurnInput) (fresh : TurnFresh)
    (loaded : option CodingSession) (now : datetime) : M Store CodingSession :=
  if falsy_str (ti_session_id i) then
    on_coding (create_session (tf_session fresh) {|
      si_uid := sv_uid sv; si_project_id := sv_project_id sv;
      si_runtime_scope_id := cache_key (sv_scope sv); si_executor := ti_executor i;
      si_workdir_path := sv_workdir sv; si_conversation_id := ti_conversation_id i;
      si_parent_run_id := ti_parent_run_id i; si_mode := "headless"; si_title := title_of (ti_task i);
      si_policy := Some (JObj [("executor", JStr (ti_executor i));
                               ("agent_config", coding_agent_config_snapshot (ti_agent_config i)
                                  (project_overrides (sv_project_id sv) (sv_agent_slug sv)))]);
      si_budget := ti_budget i |} now)
  else
    session ← on_coding (Coding.get_for_update loaded (default EmptyString (ti_session_id i)));
    match session with
    | None => raise (ValueError "coding session not found")
    | Some session =>
        if negb (bool_decide (Ses.uid session = sv_uid sv))
        then raise (ValueError "coding session not found")
        else
          _ ← lift (validate_session_scope sv session (ti_conversation_id i));
          if negb (bool_decide (Ses.status session = SIdle))
          then raise (CodingSessionStateError
                        ("coding session is not idle: " ++ session_status_text (Ses.status session))%string)
          else mret session
    end.

(** [int(s)] of a text: single underscores may stand between the digits. *)
Fixpoint int_digits (acc : Z) (between : bool) (s : string) : option Z :=
  match s with
  | EmptyString => if between then Some acc else None
  | String c s' =>
      if Ascii.eqb c "_"%char then if between then int_digits acc false s' else None
      else d ← digit_of c; int_digits (10 * acc + d) true s'
  end.
Definition int_of_text (s : string) : option Z :=
  match strip s with
  | String "+" rest => int_digits 0 false rest
  | String "-" rest => Z.opp <$> int_digits 0 false rest
  | s => int_digits 0 false s
  end.

(** [int((budget or {}).get("max_turns") or 0)]. *)
Definition max_turns (budget : json) : outcome Z :=
  let v := default JNull (jget "max_turns" (json_or_empty budget)) in
  if negb (truthy v) then Ret 0
  else match v with
       | JInt n => Ret n
       | JBool _ => Ret 1
       | JFloat literal => int_of_float literal
       | JStr s => match int_of_text s with
                   | Some n => Ret n
                   | None => Raise (ValueError "invalid literal for int()")
                   end
       | _ => Raise (TypeError "int() argument must be a string or a number")
       end.

Definition bind_executor (sv : Service) (executor : string) (session : CodingSession)
    : M CodingDB CodingSession :=
  flush_session (λ r, r <| Ses.executor := executor |>
                        <| Ses.sandbox_id := Some (sandbox_hash (cache_key (sv_scope sv))) |>) session.

(** The first transaction of [run_turn]: a turn that runs, or the message of an exceeded budget. *)
Definition begin_turn (sv : Service) (i : TurnInput) (fresh : TurnFresh)
    (loaded : option CodingSession) (now : datetime)
    : M Store (string + CodingSession * CodingSessionTurn * list string) := transaction (
  session ← turn_session sv i fresh loaded now;
  secrets ← prepare sv (ti_agent_config i) (tf_box fresh) now;
  session ← on_coding (bind_executor sv (ti_executor i) session);
  limit ← lift (max_turns (Ses.budget_json session));
  turns ← on_coding (list_turns (Ses.id session));
  if negb (limit =? 0) && (limit <=? Z.of_nat (length turns)) then
    let message := ("coding session budget exceeded: max_turns=" ++ pretty limit)%string in
    _ ← on_coding (transition session SFailed (Some "budget_exceeded") (Some message) now);
    mret (inl message)
  else
    started ← on_coding (start_turn (tf_turn fresh) session (ti_task i) now);
    mret (inr (started.1, started.2, secrets))).

Definition unguarded : M Store bool := mret true.

Definition run_turn (sv : Service) (i : TurnInput) (fresh : TurnFresh) (loaded : option CodingSession)
    (run : Run) : M Store (option CodingTurnOutcome) :=
  begun ← begin_turn sv i fresh loaded (clock run 0);
  match begun with
  | inl message => raise (RuntimeError message)
  | inr (session, turn, secrets) =>
      execute_turn_tail sv session turn (ti_executor i) (ti_task i) (ti_plan_only i) secrets unguarded run
  end.

(** [status] and [list_sessions]: what the answers are made of. *)
Definition session_status (sv : Service) (session_id : string) (event_limit : nat)
    : M Store SessionDetail :=
  session ← on_coding (Coding.get session_id);
  match session with
  | None => raise (ValueError "coding session not found")
  | Some session =>
      if negb (bool_decide (Ses.uid session = sv_uid sv)) then raise (ValueError "coding session not found")
      else
        turns ← on_coding (list_turns (Ses.id session));
        events ← on_coding (list_events (Ses.id session) 0 event_limit);
        mret {| sd_session := session; sd_turns := turns; sd_events := events |}
  end.

Definition list_sessions (sv : Service) (conversation_id : option Z) : M Store (list CodingSession) :=
  on_coding (list_sessions_for_uid (sv_uid sv) conversation_id 50).

(** [loaded] is the session the caller has loaded before. *)
Definition cancel_session (sv : Service) (session_id : string) (loaded : option CodingSession)
    (now : datetime) : M Store CodingSession := transaction (
  session ← on_coding (Coding.get_for_update loaded session_id);
  match session with
  | None => raise (ValueError "coding session not found")
  | Some session =>
      if negb (bool_decide (Ses.uid session = sv_uid sv)) then raise (ValueError "coding session not found")
      else if session_terminal (Ses.status session)
      then raise (CodingSessionStateError
                    ("coding session already terminal: " ++ session_status_text (Ses.status session))%string)
      else on_coding (transition session SCancelled None None now)
  end).

(** * A queued turn, run by the worker *)

Inductive JobResult :=
  | JobSkipped (reason : string)
  | JobCancelled (turn_seq : Z)
  | JobDone (result : CodingTurnOutcome)
  | JobFailed (error_code : string)
  | JobWaiting.  (** still waiting for the lease after the given polls *)

(** A pending turn of a session that has ended. *)
Definition drop_turn (session : CodingSession) (turn : CodingSessionTurn) (now : datetime)
    : M CodingDB unit :=
  turn ← finish_turn_row turn TurnCancelled None None (Some "session_terminal") None now;
  _ ← clear_pending_turn session (Turn.id turn);
  mret tt.

(** A turn that is still pending is dropped. *)
Definition job_drop (session : CodingSession) (session_id turn_id : string) (now : datetime)
    : M Store unit := transaction (
  locked_session ← on_coding (Coding.get_for_update (Some session) session_id);
  locked_turn ← on_coding (get_turn_for_update turn_id);
  match locked_session, locked_turn with
  | Some locked_session, Some locked_turn =>
      if bool_decide (Turn.status locked_turn = TurnPending)
      then on_coding (drop_turn locked_session locked_turn now) else mret tt
  | _, _ => mret tt
  end).

(** Before the lease: whether there is something to run, and where. *)
Definition job_begin (session_id turn_id : string) (run : Run) : M Store (JobResult + SandboxScope) :=
  session ← on_coding (Coding.get session_id);
  match session with
  | None => mret (inl (JobSkipped "session_missing"))
  | Some session =>
      turn ← on_coding (get_turn turn_id);
      match turn with
      | None => mret (inl (JobSkipped "turn_missing"))
      | Some turn =>
          if negb (bool_decide (Turn.status turn = TurnPending))
          then mret (inl (JobSkipped (turn_status_text (Turn.status turn))))
          else if session_terminal (Ses.status session) then
            _ ← modify (others run 0);
            _ ← job_drop session session_id turn_id (clock run 0);
            mret (inl (JobSkipped "session_terminal"))
          else
            scope ← lift (from_runtime_scope (Ses.uid session) (Ses.runtime_scope_id session));
            mret (match scope with
                  | AgentProjectScope _ _ _ => inr scope
                  | ThreadScope _ _ => inl (JobSkipped "coding_scope_unsupported")
                  end)
      end
  end.

(** Under the lease: the turn starts to run, once. *)
Definition job_lock (session_id turn_id : string) (plan_only : bool) (now : datetime)
    : M Store (JobResult + CodingSession * CodingSessionTurn * bool) := transaction (
  session ← on_coding (Coding.get_for_update None session_id);
  turn ← on_coding (get_turn_for_update turn_id);
  match session, turn with
  | None, _ => mret (inl (JobSkipped "session_missing"))
  | _, None => mret (inl (JobSkipped "turn_missing"))
  | Some session, Some turn =>
      if negb (bool_decide (Turn.status turn = TurnPending))
      then mret (inl (JobSkipped (turn_status_text (Turn.status turn))))
      else if session_terminal (Ses.status session) then
        _ ← on_coding (drop_turn session turn now);
        mret (inl (JobSkipped "session_terminal"))
      else
        turn ← on_coding (mark_turn_running turn now);
        mret (inr (session, turn, queued_plan_only session (Turn.id turn) plan_only))
  end).

(** [_load_agent_config_for_session]. *)
Definition load_agent_config (session : CodingSession) : option json :=
  match jget "agent_config" (json_or_empty (Ses.policy_json session)) with
  | Some (JObj l) => Some (JObj l)
  | _ => if falsy_str (Ses.parent_run_id session) then None
         else run_agent_config (default EmptyString (Ses.parent_run_id session))
  end.

Definition cancel_queued_turn (session : CodingSession) (turn : CodingSessionTurn) (up : bool)
    (now : datetime) : M Store unit := transaction (
  ended ← on_coding (
    turn ← finish_turn_row turn TurnCancelled None None (Some "cancel_requested") None now;
    session ← clear_pending_turn session (Turn.id turn);
    _ ← Coding.append_event session "turn_finished" (Some (Turn.id turn))
          (JObj [("seq", JInt (Turn.seq turn)); ("status", JStr "cancelled")]) now;
    transition session SCancelled None None now);
  clear_coding_cancel_signal up (Ses.id ended)).

(** [_owns_coding_turn_lease]. *)
Definition owns_coding_turn_lease (sv : Service) (owner_id : string) (heartbeat_lost : bool)
    (now : datetime) : M Store bool :=
  if heartbeat_lost then mret false
  else on_sandboxes (owns_active (sv_uid sv) (sv_agent_slug sv) (sv_project_id sv) owner_id now).

(** The turn and its session fail with an error code; answers the session as it is then. *)
Definition fail_turn (session : CodingSession) (turn : CodingSessionTurn) (error_code message : string)
    (now : datetime) : M CodingDB CodingSession :=
  turn ← finish_turn_row turn TurnFailed None None (Some error_code) (Some message) now;
  session ← clear_pending_turn session (Turn.id turn);
  _ ← Coding.append_event session "turn_finished" (Some (Turn.id turn))
        (JObj [("seq", JInt (Turn.seq turn)); ("status", JStr "failed"); ("error_code", JStr error_code)]) now;
  if bool_decide (Ses.status session = SRunning)
  then transition session SFailed (Some error_code) (Some message) now
  else mret session.

Definition fail_owned_coding_turn (session_id turn_id error_code message : string)
    (guard : M Store bool) (now : datetime) : M Store bool := transaction (
  owned ← guard;
  if negb owned then mret false
  else
    session ← on_coding (Coding.get_for_update None session_id);
    turn ← on_coding (get_turn_for_update turn_id);
    match session, turn with
    | Some session, Some turn =>
        if negb (bool_decide (Turn.status turn = TurnRunning)) then mret false
        else _ ← on_coding (fail_turn session turn error_code message now); mret true
    | _, _ => mret false
    end).

Definition exn_type (e : exn) : string :=
  match e with
  | ValueError _ => "ValueError" | TypeError _ => "TypeError" | PermissionError _ => "PermissionError"
  | RuntimeError _ => "RuntimeError" | IntegrityError _ => "IntegrityError" | DataError _ => "DataError"
  | HTTPException _ _ => "HTTPException" | DelegationError _ _ => "DelegationError"
  | AttributeError _ => "AttributeError" | MultipleResultsFound => "MultipleResultsFound"
  end.

(** A delivery of the job: its owner name and binding UUIDs, the turns of its wait for the lease,
    and whether its heartbeat has failed at the [k]-th place. *)
Record Delivery := {
  dl_fresh : string;
  dl_fresh_box : string;
  dl_polls : list (@Poll P);
  dl_heartbeat_lost : nat → bool
}.

Definition job_fail (session_id turn_id error_code : string) (e : exn) (guard : M Store bool)
    (run : Run) : M Store JobResult :=
  _ ← modify (others run 5);
  failed ← fail_owned_coding_turn session_id turn_id error_code
             ("编码 turn 准备或执行失败：" ++ exn_type e)%string guard (clock run 5);
  mret (if (failed : bool) then JobFailed error_code else JobSkipped "ownership_lost").

(** With the lease.  [sv] is the service of the scope the lease was taken for. *)
Definition job_body (sv : Service) (session_id turn_id owner_id : string) (plan_only : bool)
    (d : Delivery) (run : Run) : M Store JobResult :=
  _ ← modify (others run 1);
  locked ← job_lock session_id turn_id plan_only (clock run 1);
  match locked with
  | inl answer => mret answer
  | inr (session, turn, plan_only) =>
      _ ← modify (others run 2);
      let agent_config := load_agent_config session in
      cancelled ← coding_cancel_requested (redis_up run 2) (Ses.id session);
      if (cancelled : bool) then
        _ ← cancel_queued_turn session turn (redis_up run 2) (clock run 2);
        mret (JobCancelled (Turn.seq turn))
      else
        service ← lift (service_of (Ses.uid session) (Ses.runtime_scope_id session) (Ses.workdir_path session));
        let guard k := owns_coding_turn_lease sv owner_id (dl_heartbeat_lost d k) (clock run k) in
        prepared ← attempt (transaction (prepare service agent_config (dl_fresh_box d) (clock run 2)));
        match prepared with
        | Raise e => job_fail session_id turn_id "coding_prepare_failed" e (guard 5%nat) run
        | Ret secrets =>
            ended ← attempt (execute_turn_tail service session turn (Ses.executor session)
                               (Turn.request_text turn) plan_only secrets (guard 4%nat) run);
            match ended with
            | Ret (Some result) => mret (JobDone result)
            | Ret None => mret (JobSkipped "ownership_lost")
            | Raise e => job_fail session_id turn_id "coding_worker_error" e (guard 5%nat) run
            end
        end
  end.

Definition run_coding_turn_job (session_id turn_id : string) (plan_only : bool) (d : Delivery) (run : Run)
    : M Store JobResult :=
  let owner_id := new_coding_turn_owner_id turn_id (dl_fresh d) in
  begun ← job_begin session_id turn_id run;
  match begun with
  | inl answer => mret answer
  | inr (ThreadScope _ _) => mret (JobSkipped "coding_scope_unsupported")
  | inr (AgentProjectScope uid agent_slug project_id) =>
      let sv := {| sv_uid := uid; sv_agent_slug := agent_slug; sv_project_id := project_id;
                   sv_workdir := EmptyString |} in
      taken ← on_sandboxes (acquire isoformat uid agent_slug project_id CODING_SESSION_OWNER owner_id
                              None configured_lease (dl_polls d));
      match taken with
      | None => mret JobWaiting
      | Some (SandboxBusy _ _ _) => raise (RuntimeError "SandboxBusyError")
      | Some (Acquired _) =>
          finally (job_body sv session_id turn_id owner_id plan_only d run)
            (_ ← modify (others run 6);
             _ ← on_sandboxes (release uid agent_slug project_id owner_id (clock run 6)); mret tt)
      end
  end.

(** * Reconciliation *)

(** The pending turns as they are published again; [session] is the last session loaded. *)
Fixpoint pending_turns (turns : list CodingSessionTurn) (session : option CodingSession)
    : M Store (list (string * string * bool) * option CodingSession) :=
  match turns with
  | [] => mret ([], session)
  | turn :: turns =>
      found ← on_coding (Coding.get_for_update session (Turn.session_id turn));
      rest ← pending_turns turns found;
      mret ((Turn.session_id turn, Turn.id turn,
             match found with Some o => queued_plan_only o (Turn.id turn) false | None => false end)
            :: rest.1, rest.2)
  end.

Definition WORKER_LOST : string := "coding_worker_lost".
Definition WORKER_LOST_MESSAGE : string := "编码 turn 执行超时且 worker 未能收敛结果".

Inductive TurnFate := FateGone | FateOwned | FateFailed.

(** One stale turn: the session as it is loaded, and what became of the turn. *)
Definition reconcile_turn (turn : CodingSessionTurn) (session : option CodingSession) (now : datetime)
    : M Store (TurnFate * option CodingSession) :=
  session ← on_coding (Coding.get_for_update session (Turn.session_id turn));
  match session with
  | None => mret (FateGone, None)
  | Some loaded =>
      scope ← lift (from_runtime_scope (Ses.uid loaded) (Ses.runtime_scope_id loaded));
      owned ← match scope with
              | AgentProjectScope uid agent_slug project_id =>
                  on_sandboxes (owns_active_prefix uid agent_slug project_id CODING_SESSION_OWNER
                                  (coding_turn_owner_prefix (Turn.id turn)) now)
              | ThreadScope _ _ => mret false
              end;
      if (owned : bool) then mret (FateOwned, Some loaded)
      else
        session ← on_coding (Coding.get_for_update (Some loaded) (Turn.session_id turn));
        locked_turn ← on_coding (get_turn_for_update (Turn.id turn));
        match session, locked_turn with
        | Some session, Some locked_turn =>
            if negb (bool_decide (Turn.status locked_turn = TurnRunning)) then mret (FateGone, Some session)
            else
              session ← on_coding (fail_turn session locked_turn WORKER_LOST WORKER_LOST_MESSAGE now);
              mret (FateFailed, Some session)
        | session, _ => mret (FateGone, session)
        end
  end.

(** The loop; a turn that is owned commits what was done before it, and an exception undoes what
    was done since the last commit. *)
Fixpoint reconcile_each (turns : list CodingSessionTurn) (session : option CodingSession)
    (now : datetime) (failed : nat) (committed : Store) (s : Store) : outcome nat * Store :=
  match turns with
  | [] => (Ret failed, s)
  | turn :: turns =>
      match reconcile_turn turn session now s with
      | (Raise e, s') => (Raise e, rolled_back committed s')
      | (Ret (FateOwned, session), s') => reconcile_each turns session now failed s' s'
      | (Ret (FateGone, session), s') => reconcile_each turns session now failed committed s'
      | (Ret (FateFailed, session), s') => reconcile_each turns session now (S failed) committed s'
      end
  end.

Fixpoint publish_each (pending : list (string * string * bool)) : M Store unit :=
  match pending with
  | [] => mret tt
  | (session_id, turn_id, plan_only) :: pending =>
      _ ← on_outside (enqueue_job session_id turn_id plan_only);
      publish_each pending
  end.

(** [stale_seconds or (timeout + 300)]. *)
Definition stale_after (stale_seconds : option Z) : Z :=
  match stale_seconds with
  | Some n => if n =? 0 then coding_turn_timeout_seconds configured_timeout + 300 else n
  | None => coding_turn_timeout_seconds configured_timeout + 300
  end.

Definition TURN_LIMIT : nat := 200.

(** Answers how many turns are published again and how many failed. *)
Definition reconcile_coding_turns (stale_seconds : option Z) (now : datetime) : M Store (nat * nat) :=
  pending ← on_coding (list_turns_by_status TurnPending None TURN_LIMIT);
  listed ← pending_turns pending None;
  let cutoff := now - seconds (stale_after stale_seconds) in
  stale ← on_coding (list_turns_by_status TurnRunning (Some cutoff) TURN_LIMIT);
  failed ← (λ s, reconcile_each stale listed.2 now 0 s s);
  _ ← publish_each listed.1;
  mret (length listed.1, failed).

(** * Waiting for a turn *)

(** A turn of the waiting loop: what happened before it and whether the deadline has passed. *)
Record WaitPoll := { wp_others : Store → Store; wp_expired : bool }.

Inductive WaitResult :=
  | WaitNotFound
  | WaitEnded (session : CodingSession) (turn : CodingSessionTurn)
  | WaitTimedOut (session : CodingSession).

Definition turn_ended (turn : CodingSessionTurn) : bool :=
  match Turn.status turn with
  | TurnCompleted | TurnFailed | TurnCancelled => true
  | TurnPending | TurnRunning => false
  end.

(** [None]: it still waits after the given polls. *)
Fixpoint wait_for_latest_turn (uid session_id : string) (polls : list WaitPoll)
    : M Store (option WaitResult) :=
  match polls with
  | [] => mret None
  | p :: polls =>
      _ ← modify (wp_others p);
      detail ← on_coding (session_detail uid session_id 0 0);
      match detail with
      | None => mret (Some WaitNotFound)
      | Some detail =>
          match last (sd_turns detail) with
          | Some turn =>
              if turn_ended turn then mret (Some (WaitEnded (sd_session detail) turn))
              else if wp_expired p then mret (Some (WaitTimedOut (sd_session detail)))
              else wait_for_latest_turn uid session_id polls
          | None =>
              if wp_expired p then mret (Some (WaitTimedOut (sd_session detail)))
              else wait_for_latest_turn uid session_id polls
          end
      end
  end.
End exec.
