(* ===== verification/CodingExecProps.v ===== *)
(** What holds of running coding turns ([CodingExec.v]): the tables stay consistent under every
    interleaving of the service's transactions, a turn starts once however often its job is
    delivered, a job ends its turn or has lost its lease, a reconciliation ends the turns whose
    worker is lost, and no secret of the environment reaches the tables. *)

From stdpp Require Import prelude gmap strings list fin_maps pretty.
From Stdlib Require Import ZArith Lia Ascii.
From S2P Require Import Prelude PyLib PyTime PyJson Queue SandboxScope Paths Sandboxes Shell CodingAdapters Coding CodingProps Executors CodingExec.
Local Open Scope Z_scope.

(** * The events of the adapters *)

Definition ADAPTER_KINDS : list string :=
  ["session_ref"; "output_delta"; "tool_call"; "usage"; "error"; "warning"; "file_change"].

Definition known (events : list NormalizedEvent) : Prop := Forall (λ e, kind e ∈ ADAPTER_KINDS) events.

Lemma known_one k p : bool_decide (k ∈ ADAPTER_KINDS) = true → known [{| kind := k; payload := p |}].
Proof. intros Hk%bool_decide_eq_true. constructor; [exact Hk|constructor]. Qed.

Section events.
Context (container_text : json → string).

Definition gives_known (r : outcome (list NormalizedEvent)) : Prop :=
  match r with Ret events => known events | Raise _ => True end.

Lemma gives_known_bind {A} (r : outcome A) (k : A → outcome (list NormalizedEvent)) :
  (∀ a, gives_known (k a)) → gives_known (r ≫= k).
Proof. intros Hk. destruct r; [apply Hk|done]. Qed.

Lemma gives_known_ret events : known events → gives_known (mret events).
Proof. done. Qed.

Ltac adapter_events :=
  repeat first
    [ progress (intros; cbv beta zeta) | match goal with |- gives_known (_ ≫= _) => apply gives_known_bind end
    | match goal with |- gives_known (mret _) => apply gives_known_ret end | progress case_bool_decide
    | match goal with |- gives_known (if ?b then _ else _) => destruct b end
    | match goal with |- known (if ?b then _ else _) => destruct b end
    | apply known_one; reflexivity | by constructor ].

Lemma opencode_known payload : gives_known (opencode_events container_text payload).
Proof. unfold opencode_events. adapter_events. Qed.

Lemma codex_known payload : gives_known (codex_events container_text payload).
Proof. unfold codex_events, codex_item. adapter_events. Qed.

Lemma parse_events_known a output events : parse_events container_text a output = Ret events → known events.
Proof.
  unfold parse_events. generalize (iter_json_lines output) as l. intros l. revert events.
  induction l as [|v l IH]; intros events; cbn [events_of_lines]; [by intros [= <-]; constructor|].
  assert (K : gives_known (line_events container_text a v))
    by (destruct a; [apply opencode_known|apply codex_known]).
  unfold mbind, outcome_bind. destruct (line_events container_text a v) as [es|e]; [|done].
  destruct (events_of_lines container_text a l) as [rest|e]; [|done]. intros [= <-].
  apply Forall_app. by split; [|apply IH].
Qed.

Lemma turn_events_known adapter x secrets events :
  turn_events container_text adapter x secrets = Ret events → known events.
Proof.
  unfold turn_events, mbind, outcome_bind.
  destruct (parse_events container_text adapter (raw_output x)) as [es|e] eqn:E; [|done].
  apply parse_events_known in E. intros [= <-].
  assert (K : known (match infra_error x with
                     | Some m => es ++ [{| kind := "error"; payload := JObj [("message", JStr m)] |}]
                     | None => es end)).
  { destruct (infra_error x) as [m|]; [|done]. apply Forall_app. split; [exact E|].
    by apply (known_one "error"). }
  match type of K with known ?l => revert K; generalize l end. intros l K.
  apply Forall_map. apply (Forall_impl _ _ _ K). done.
Qed.
End events.

Lemma known_foreign events : known events → foreign events.
Proof.
  intros K. apply (Forall_impl _ _ _ K). intros e He E. rewrite E in He.
  unfold ADAPTER_KINDS in He. set_solver.
Qed.

(** * Turns go forward

    Along every operation the tables stay consistent, no turn is deleted, and a turn that runs
    does not wait again and one that has ended stays so. *)

Definition rank (t : CodingSessionTurn) : Z :=
  match Turn.status t with TurnPending => 0 | TurnRunning => 1 | _ => 2 end.

Definition later (t t' : CodingSessionTurn) : Prop :=
  Turn.session_id t' = Turn.session_id t ∧ Turn.seq t' = Turn.seq t ∧ rank t <= rank t'.

#[global] Instance later_preorder : PreOrder later.
Proof.
  split; [intros t; unfold later; auto with lia|]. intros t1 t2 t3 (S & Q & L) (S' & Q' & L').
  unfold later. split; [congruence|]. split; [congruence|lia].
Qed.

Definition forward (s s' : CodingDB) : Prop :=
  ∀ k t, CD.turns s !! k = Some t → ∃ t', CD.turns s' !! k = Some t' ∧ later t t'.

Definition advances (s s' : CodingDB) : Prop := good s → good s' ∧ forward s s'.

Lemma forward_same s s' : CD.turns s' = CD.turns s → forward s s'.
Proof. intros E k t Ht. exists t. by rewrite E. Qed.

#[global] Instance advances_preorder : PreOrder advances.
Proof.
  split; [intros s G; split; [done|by apply forward_same]|]. intros s1 s2 s3 A1 A2 G.
  destruct (A1 G) as [G2 F1]. destruct (A2 G2) as [G3 F2]. split; [done|].
  intros k t Ht. destruct (F1 k t Ht) as (t' & Ht' & L). destruct (F2 k t' Ht') as (t2 & Ht2 & L2).
  exists t2. split; [done|by etrans].
Qed.

Definition adv {A} (m : M CodingDB A) : Prop := ∀ s, advances s (m s).2.

Lemma adv_bind {A B} (m : M CodingDB A) (k : A → M CodingDB B) :
  adv m → (∀ a, adv (k a)) → adv (m ≫= k).
Proof.
  intros Hm Hk s. unfold mbind, M_bind. specialize (Hm s). destruct (m s) as [[a|e] s1]; [|done].
  cbn [snd] in Hm. etrans; [exact Hm|apply Hk].
Qed.

Lemma adv_reads {A} (m : M CodingDB A) : (∀ s, (m s).2 = s) → adv m.
Proof. intros E s. by rewrite E. Qed.

Lemma adv_quiet {A} (m : M CodingDB A) : maintains good m → keeps CD.turns m → adv m.
Proof. intros G K s Gs. split; [by apply G|]. apply forward_same, K. Qed.

Lemma keeps_turns_flush f o : keeps CD.turns (flush_session f o).
Proof. intros s. by destruct (flush_session_inv f o s _ eq_refl) as [[e ->]|(row & _ & ->)]. Qed.

Lemma keeps_turns_append o kind turn_id payload now : keeps CD.turns (append_event o kind turn_id payload now).
Proof.
  intros s. by destruct (append_event_inv o kind turn_id payload now s _ eq_refl) as [(e & -> & _)|[_ ->]].
Qed.

Create HintDb exec.
#[export] Hint Resolve keeps_turns_flush keeps_turns_append : exec.

Lemma adv_ret {A} (a : A) : adv (mret a : M CodingDB A).
Proof. by apply adv_reads. Qed.
Lemma adv_raise {A} e : adv (raise e : M CodingDB A).
Proof. by apply adv_reads. Qed.
Lemma adv_gets {A} (f : CodingDB → A) : adv (gets f).
Proof. by apply adv_reads. Qed.

Lemma adv_transition o target code message now : adv (transition o target code message now).
Proof.
  apply adv_quiet; [apply good_transition|]. unfold transition. case_match; [apply keeps_raise|].
  apply keeps_bind; [auto with exec|]. intros o'. apply keeps_bind; [auto with exec|]. intros _. apply keeps_ret.
Qed.

Lemma adv_append o kind turn_id payload now :
  kind ≠ "session_status" → adv (append_event o kind turn_id payload now).
Proof. intros N. apply adv_quiet; [by apply good_append_event|auto with exec]. Qed.

Lemma adv_set_policy p o : adv (set_policy p o).
Proof. apply adv_quiet; [apply good_set_policy|apply keeps_turns_flush]. Qed.

Lemma adv_set_ref r o : adv (set_cli_session_ref r o).
Proof. apply adv_quiet; [apply good_set_cli_session_ref|apply keeps_turns_flush]. Qed.

Lemma forward_put s k row t :
  CD.turns s !! k = Some row → later row t → forward s (s <| CD.turns ::= <[k := t]> |>).
Proof.
  intros Hr L k' t' Ht. row_simpl. destruct (decide (k = k')) as [<-|N].
  - rewrite lookup_insert_eq. exists t. split; [done|]. congruence.
  - rewrite lookup_insert_ne by done. by exists t'.
Qed.

Lemma adv_flush_turn f o :
  keeps_place f → (∀ t, rank t <= rank (f t)) → adv (flush_turn f o).
Proof.
  intros Kf Sf s G. split; [by apply good_flush_turn|].
  destruct (flush_turn_inv f o s _ eq_refl) as [[e ->]|(row & Hr & ->)]; cbn [snd];
    [by apply forward_same|]. apply (forward_put _ _ row); [done|]. by destruct (Kf row) as (_ & ? & ?).
Qed.

Definition ends (st : TurnStatus) : Prop := st ≠ TurnPending ∧ st ≠ TurnRunning.

Lemma rank_bound t : rank t <= 2.
Proof. unfold rank. by destruct (Turn.status t). Qed.

Lemma rank_of_end t : ends (Turn.status t) → rank t = 2.
Proof. unfold rank. intros [N N']. by destruct (Turn.status t). Qed.

Lemma adv_finish_row t st summary usage code message now :
  ends st → adv (finish_turn_row t st summary usage code message now).
Proof.
  intros N. apply adv_flush_turn; [done|]. intros r. row_simpl. rewrite (rank_of_end (_ <| _ ::= _ |>)).
  - unfold rank. by case_match.
  - by row_simpl.
Qed.

(** The turn was read in the same transaction. *)
Lemma advances_mark s k t now :
  CD.turns s !! k = Some t → advances s (mark_turn_running t now s).2.
Proof.
  intros Ht G. split; [by apply good_mark_turn_running|]. unfold mark_turn_running.
  case_bool_decide as St; [|by apply forward_same].
  match goal with |- context [flush_turn ?f t s] =>
    destruct (flush_turn_inv f t s _ eq_refl) as [[e ->]|(row & Hr & ->)] end; cbn [snd];
    [by apply forward_same|].
  apply (forward_put _ _ row); [done|]. rewrite (cwf_turn_key _ (proj1 G) _ _ Ht) in Hr.
  assert (row = t) as -> by congruence.
  split; [done|]. split; [done|]. unfold rank at 1. rewrite St. unfold rank. by case_match.
Qed.

Lemma adv_add_turn i o text status now : adv (add_turn i o text status now).
Proof.
  intros s G. split; [by apply good_add_turn|]. unfold add_turn, id. m_unfold. cbv zeta.
  destruct (CD.turns s !! i) as [u|] eqn:N; [rewrite bool_decide_true by eauto; by apply forward_same|].
  rewrite bool_decide_false by (by intros [? ?]).
  case_bool_decide; [by apply forward_same|]. cbn [snd]. intros k t Ht. exists t. row_simpl.
  by rewrite lookup_insert_ne by congruence.
Qed.
#[export] Hint Resolve adv_ret adv_raise adv_gets adv_transition adv_set_policy adv_set_ref adv_add_turn : exec.
#[export] Hint Extern 2 (adv (append_event _ _ _ _ _)) => (apply adv_append; done) : exec.
#[export] Hint Extern 2 (adv (finish_turn_row _ _ _ _ _ _ _)) => (apply adv_finish_row; by first [assumption | split]) : exec.

Ltac advance :=
  repeat first [ progress (intros; cbv beta zeta) | solve [eauto with exec] | apply adv_bind
               | done | case_match ].

Lemma adv_clear o i : adv (clear_pending_turn o i).
Proof. unfold clear_pending_turn. advance. Qed.
Lemma adv_begin_running o now : adv (begin_running o now).
Proof. unfold begin_running. advance. Qed.
#[export] Hint Resolve adv_clear adv_begin_running : exec.

Lemma adv_create i input now : adv (create_session i input now).
Proof.
  apply adv_quiet; [apply good_create_session|]. unfold create_session.
  apply keeps_bind; [|intros o; apply keeps_bind; [auto with exec|intros _; apply keeps_ret]].
  unfold add_session, id. intros s. m_unfold. repeat (case_match; [done|]). done.
Qed.

Lemma adv_start i o text now : adv (start_turn i o text now).
Proof. unfold start_turn. advance. Qed.
Lemma adv_queue i o text plan run now : adv (queue_turn i o text plan run now).
Proof. unfold queue_turn. advance. Qed.

Lemma adv_finish o t e now : ends (te_status e) → adv (Coding.finish_turn o t e now).
Proof. intros N. unfold Coding.finish_turn. advance. Qed.

Lemma adv_record o turn_id events now : known events → adv (record_events o turn_id events now).
Proof.
  intros K%known_foreign. induction K as [|e l He Hl IH]; cbn [record_events]; [apply adv_ret|].
  apply adv_bind; [by apply adv_append|auto].
Qed.
#[export] Hint Resolve adv_create adv_start adv_queue adv_record : exec.

Lemma adv_drop o t now : adv (drop_turn o t now).
Proof. unfold drop_turn. advance. Qed.
Lemma adv_fail o t code message now : adv (fail_turn o t code message now).
Proof. unfold fail_turn. advance. Qed.
Lemma adv_bind_executor hash sv executor o : adv (bind_executor hash sv executor o).
Proof. apply adv_quiet; [by apply good_flush_session|apply keeps_turns_flush]. Qed.
#[export] Hint Resolve adv_drop adv_fail adv_bind_executor : exec.

Lemma adv_degraded o now : adv (note_degraded o now).
Proof.
  unfold note_degraded. apply adv_bind; [apply adv_set_ref|]. intros o'.
  apply adv_bind; [by apply adv_append|]. intros _. apply adv_ret.
Qed.
Lemma adv_end_cancelled o t report now : adv (end_cancelled o t report now).
Proof. unfold end_cancelled. advance. Qed.
#[export] Hint Resolve adv_degraded adv_end_cancelled : exec.

Lemma adv_write o t degraded cancelled report secrets probe_now now :
  known (tr_events report) → adv (write_turn o t degraded cancelled report secrets probe_now now).
Proof.
  intros K. unfold write_turn. apply adv_bind; [destruct degraded; auto with exec|]. intros o'.
  apply adv_bind; [by apply adv_record|]. intros _. destruct cancelled; [auto with exec|].
  apply adv_finish. unfold turn_end. cbn [te_status]. by case_match; split.
Qed.

(** * The transactions of the service *)

Section steps.
Context {P B : Type} `{SandboxProvider P} `{CodingWorld B}.
Abbreviation Store := (ExecStore P B).
Implicit Types s : Store.
Context (container_text : json → string) (exn_text : exn → string).
Context (sandbox_hash : string → string) (limits : Z * Z) (configured_timeout : Z).
Context (int_of_float : string → outcome Z) (project_overrides : string → string → option json).
Context (coding_environment : option json → string → option string → string →
                              outcome (list (string * string) * option string)).

(** [m] only moves the coding tables forward. *)
Definition goes {A} (m : M Store A) : Prop := ∀ s, advances (XS.coding s) (XS.coding (m s).2).

Lemma goes_bind {A C} (m : M Store A) (k : A → M Store C) :
  goes m → (∀ a, goes (k a)) → goes (m ≫= k).
Proof.
  intros Hm Hk s. unfold mbind, M_bind. specialize (Hm s). destruct (m s) as [[a|e] s1]; [|done].
  cbn [snd] in Hm. etrans; [exact Hm|apply Hk].
Qed.

Lemma goes_still {A} (m : M Store A) : keeps XS.coding m → goes m.
Proof. intros K s. by rewrite (K s). Qed.

Lemma goes_ret {A} (a : A) : goes (mret a).
Proof. by apply goes_still. Qed.
Lemma goes_raise {A} e : goes (raise e : M Store A).
Proof. by apply goes_still. Qed.
Lemma goes_lift {A} (r : outcome A) : goes (lift r : M Store A).
Proof. by apply goes_still. Qed.

Lemma still_sandboxes {A} (m : M (SandboxStore P) A) : keeps XS.coding (on_sandboxes m : M Store A).
Proof. intros s. unfold on_sandboxes. by destruct (m _). Qed.
Lemma still_outside {A} (m : M B A) : keeps XS.coding (on_outside m : M Store A).
Proof. intros s. unfold on_outside. by destruct (m _). Qed.

Lemma goes_sandboxes {A} (m : M (SandboxStore P) A) : goes (on_sandboxes m : M Store A).
Proof. apply goes_still, still_sandboxes. Qed.
Lemma goes_outside {A} (m : M B A) : goes (on_outside m : M Store A).
Proof. apply goes_still, still_outside. Qed.

Lemma goes_coding {A} (m : M CodingDB A) : adv m → goes (on_coding m : M Store A).
Proof.
  intros Hm s. unfold on_coding. specialize (Hm (XS.coding s)).
  by destruct (m (XS.coding s)).
Qed.

Lemma goes_transaction {A} (m : M Store A) : goes m → goes (transaction m).
Proof. intros Hm s. unfold transaction. specialize (Hm s). by destruct (m s) as [[a|e] s1]. Qed.

Lemma goes_attempt {A} (m : M Store A) : goes m → goes (attempt m).
Proof. intros Hm s. unfold attempt. specialize (Hm s). by destruct (m s). Qed.

Lemma still_signal up k :
  keeps XS.coding (clear_coding_cancel_signal up k : M Store unit) ∧
  keeps XS.coding (coding_cancel_requested up k : M Store bool).
Proof. split; intros s; [|done]. by destruct up. Qed.

Lemma goes_clear up k : goes (clear_coding_cancel_signal up k : M Store unit).
Proof. apply goes_still, still_signal. Qed.
Lemma goes_requested up k : goes (coding_cancel_requested up k : M Store bool).
Proof. apply goes_still, still_signal. Qed.

Lemma adv_get_for_update loaded k : adv (Coding.get_for_update loaded k).
Proof. by apply adv_reads. Qed.
Lemma adv_get_turn k : adv (get_turn_for_update k).
Proof. by apply adv_reads. Qed.
Lemma adv_list_turns k : adv (list_turns k).
Proof. by apply adv_reads. Qed.
Lemma adv_list_by_status st b n : adv (list_turns_by_status st b n).
Proof. by apply adv_reads. Qed.
Hint Resolve adv_get_for_update adv_get_turn adv_list_turns adv_list_by_status adv_write : exec.
Hint Resolve goes_ret goes_raise goes_lift goes_sandboxes goes_outside goes_clear goes_requested
  goes_transaction goes_attempt : exec.
Hint Extern 3 (goes (on_coding _)) => (apply goes_coding; eauto with exec) : exec.

Ltac going :=
  repeat first [ progress (intros; cbv beta zeta) | solve [eauto with exec] | apply goes_bind
               | apply goes_transaction | apply goes_attempt | apply goes_coding; solve [advance]
               | done | case_match ].

Definition Guard : Type := M Store bool.
Definition quiet_guard (guard : Guard) : Prop := keeps XS.coding guard.

Lemma guard_lease_quiet sv owner lost now : quiet_guard (owns_coding_turn_lease sv owner lost now).
Proof. unfold owns_coding_turn_lease. destruct lost; [done|apply still_sandboxes]. Qed.
Lemma unguarded_quiet : quiet_guard unguarded.
Proof. done. Qed.

Lemma goes_prepare sv agent_config fresh now :
  goes (prepare sandbox_hash limits project_overrides coding_environment sv agent_config fresh now).
Proof. unfold prepare. going. Qed.
Hint Resolve goes_prepare : exec.

Lemma goes_begin_turn sv i fresh loaded now :
  goes (begin_turn sandbox_hash limits int_of_float project_overrides coding_environment sv i fresh loaded now).
Proof. unfold begin_turn, turn_session. going. Qed.

Lemma goes_cancel_session sv k loaded now : goes (cancel_session sv k loaded now).
Proof. unfold cancel_session. going. Qed.

Lemma goes_job_drop o k k' now : goes (job_drop o k k' now).
Proof. unfold job_drop. going. Qed.

Lemma on_coding_reads {A} (f : CodingDB → A) s :
  on_coding (gets f) s = (Ret (f (XS.coding s)), s).
Proof. by destruct s. Qed.

Lemma goes_job_lock k k' plan now : goes (job_lock k k' plan now).
Proof.
  unfold job_lock. apply goes_transaction. intros s. unfold Coding.get_for_update.
  erewrite bind_run by apply on_coding_reads. cbv beta.
  erewrite bind_run by apply on_coding_reads. cbv beta.
  destruct (CD.sessions (XS.coding s) !! k) as [o|]; [|done]. cbn [mbind option_bind].
  destruct (CD.turns (XS.coding s) !! k') as [t|] eqn:Ht; [|done].
  case_match; [done|]. case_match; [apply goes_bind; going|].
  unfold on_coding. m_unfold. assert (A := advances_mark _ k' t now Ht).
  by destruct (mark_turn_running t now (XS.coding s)) as [[t'|e] c].
Qed.

Lemma goes_cancel_queued o t up now : goes (cancel_queued_turn o t up now).
Proof.
  unfold cancel_queued_turn. apply goes_transaction, goes_bind; [apply goes_coding|intros o'; apply goes_clear].
  apply adv_bind; [apply adv_finish_row; by split|]. intros t'. apply adv_bind; [apply adv_clear|]. intros o'.
  apply adv_bind; [by apply adv_append|]. intros _. apply adv_transition.
Qed.

Lemma goes_fail_owned k k' code message guard now :
  quiet_guard guard → goes (fail_owned_coding_turn k k' code message guard now).
Proof. intros Q. unfold fail_owned_coding_turn. apply goes_still in Q. going. Qed.

Lemma goes_settle o t degraded report secrets guard run :
  quiet_guard guard → known (tr_events report) →
  goes (settle_turn o t degraded report secrets guard run).
Proof.
  intros Q K. unfold settle_turn. apply goes_transaction, goes_bind; [by apply goes_still|].
  intros owned. destruct (negb owned); [auto with exec|]. apply goes_bind; [auto with exec|].
  intros cancelled. apply goes_bind; [by apply goes_coding, adv_write|]. intros [o' t'].
  apply goes_bind; [auto with exec|]. intros _. apply goes_ret.
Qed.

(** * Reconciliation goes forward *)

Lemma goes_pending_turns turns : ∀ session, goes (pending_turns turns session).
Proof. induction turns as [|t l IH]; intros session; cbn [pending_turns]; going. Qed.

Lemma goes_reconcile_turn t session now : goes (reconcile_turn t session now).
Proof. unfold reconcile_turn. going. Qed.

Lemma advances_reconcile_each now c0 turns : ∀ session failed committed s,
  advances c0 (XS.coding committed) → advances c0 (XS.coding s) →
  advances c0 (XS.coding (reconcile_each turns session now failed committed s).2).
Proof.
  induction turns as [|t l IH]; intros session failed committed s Ac As; cbn [reconcile_each]; [done|].
  assert (G := goes_reconcile_turn t session now s).
  destruct (reconcile_turn t session now s) as [[[fate o]|e] s1]; cbn [snd] in G; [|done].
  assert (A1 : advances c0 (XS.coding s1)) by (by etrans).
  destruct fate; by apply IH.
Qed.

Lemma goes_publish_each l : goes (publish_each l).
Proof. induction l as [|[[k k'] plan] l IH]; cbn [publish_each]; going. Qed.

Lemma goes_reconcile stale now : goes (reconcile_coding_turns configured_timeout stale now).
Proof.
  unfold reconcile_coding_turns. apply goes_bind; [going|intros pending].
  apply goes_bind; [apply goes_pending_turns|intros listed]. apply goes_bind; [going|intros l].
  apply goes_bind; [intros s; by apply advances_reconcile_each|]. intros failed.
  apply goes_bind; [apply goes_publish_each|intros _; going].
Qed.

(** A transaction of the service, of a process that queues turns, or of anything that leaves the
    coding tables alone (commands in the sandboxes, leases, signals).  The objects may be stale. *)
Inductive exec_step : Store → Store → Prop :=
  | exec_create i input now s : exec_step s (transaction (on_coding (create_session i input now)) s).2
  | exec_queue i o text plan run now s :
      exec_step s (transaction (on_coding (queue_turn i o text plan run now)) s).2
  | exec_begin sv i fresh loaded now s :
      exec_step s (begin_turn sandbox_hash limits int_of_float project_overrides coding_environment
                     sv i fresh loaded now s).2
  | exec_cancel_session sv k loaded now s : exec_step s (cancel_session sv k loaded now s).2
  | exec_drop o k k' now s : exec_step s (job_drop o k k' now s).2
  | exec_lock k k' plan now s : exec_step s (job_lock k k' plan now s).2
  | exec_cancel_queued o t up now s : exec_step s (cancel_queued_turn o t up now s).2
  | exec_settle o t degraded adapter x secrets events guard run s :
      turn_events container_text adapter x secrets = Ret events → quiet_guard guard →
      exec_step s (settle_turn o t degraded (turn_report container_text events x secrets) secrets
                     guard run s).2
  | exec_fail k k' code message guard now s :
      quiet_guard guard → exec_step s (fail_owned_coding_turn k k' code message guard now s).2
  | exec_reconcile stale now s :
      exec_step s (reconcile_coding_turns configured_timeout stale now s).2
  | exec_elsewhere s s' : XS.coding s' = XS.coding s → exec_step s s'.

Lemma exec_step_advances s s' : exec_step s s' → advances (XS.coding s) (XS.coding s').
Proof.
  destruct 1.
  - apply goes_transaction. auto with exec.
  - apply goes_transaction, goes_coding, adv_queue.
  - apply goes_begin_turn.
  - apply goes_cancel_session.
  - apply goes_job_drop.
  - apply goes_job_lock.
  - apply goes_cancel_queued.
  - apply goes_settle; [done|]. cbn. by eapply turn_events_known.
  - by apply goes_fail_owned.
  - apply goes_reconcile.
  - match goal with E : _ = _ |- _ => by rewrite E end.
Qed.

Lemma exec_steps_advance s s' : rtc exec_step s s' → advances (XS.coding s) (XS.coding s').
Proof. induction 1 as [|s1 s2 s3 T _ IH]; [done|]. etrans; [by apply exec_step_advances|done]. Qed.

Definition exec_reachable s : Prop :=
  ∃ s0 users projects, XS.coding s0 = no_sessions users projects ∧ rtc exec_step s0 s.

Lemma exec_reachable_good s : exec_reachable s → good (XS.coding s).
Proof.
  intros (s0 & users & projects & E & R). apply (exec_steps_advance _ _ R). rewrite E.
  apply no_sessions_good.
Qed.

Definition running_row (now : datetime) (t : CodingSessionTurn) : CodingSessionTurn :=
  t <| Turn.status := TurnRunning |> <| Turn.started_at := Some now |>.

(** What a job that may run the turn saw and wrote. *)
Lemma job_lock_starts k k' plan now s o t plan' s' :
  job_lock k k' plan now s = (Ret (inr (o, t, plan')), s') →
  ∃ row, CD.turns (XS.coding s) !! k' = Some row ∧ Turn.status row = TurnPending ∧
    CD.sessions (XS.coding s) !! k = Some o ∧ session_terminal (Ses.status o) = false ∧
    t = running_row now row ∧ plan' = queued_plan_only o (Turn.id row) plan ∧
    XS.sandboxes s' = XS.sandboxes s ∧ XS.cancel_signals s' = XS.cancel_signals s ∧
    XS.outside s' = XS.outside s ∧
    ∃ row', CD.turns (XS.coding s) !! Turn.id row = Some row' ∧
    XS.coding s' = (XS.coding s) <| CD.turns ::= <[Turn.id row := running_row now row']> |>.
Proof.
  unfold job_lock, transaction, Coding.get_for_update.
  erewrite bind_run by apply on_coding_reads. cbv beta.
  erewrite bind_run by apply on_coding_reads. cbv beta.
  destruct (CD.sessions (XS.coding s) !! k) as [o0|]; [|done]. cbn [mbind option_bind].
  destruct (CD.turns (XS.coding s) !! k') as [row|] eqn:Hrow; [|done].
  case_bool_decide as St; cbn [negb]; [|done].
  destruct (session_terminal (Ses.status o0)) eqn:T; m_unfold; unfold on_coding.
  { destruct (drop_turn o0 row now (XS.coding s)) as [[a|e] c']; done. }
  destruct (mark_turn_running row now (XS.coding s)) as [[t0|e] c'] eqn:E; [|done].
  unfold mark_turn_running in E. rewrite bool_decide_true in E by done.
  destruct (flush_turn_inv _ _ _ _ E) as [[e' [=]]|(row' & Hr & [= -> ->])].
  intros [= <- <- <- <-]. exists row. repeat split; eauto.
Qed.

(** Turns only go forward.  Whatever transactions run in whatever order, on fresh or on stale
    objects: no turn disappears or changes its session or its number, a turn that runs never
    waits again, and a turn that has completed, failed or was cancelled never runs again. *)
Theorem turns_go_forward s s' k t :
  exec_reachable s → rtc exec_step s s' → CD.turns (XS.coding s) !! k = Some t →
  ∃ t', CD.turns (XS.coding s') !! k = Some t' ∧ later t t'.
Proof. intros G%exec_reachable_good R Ht. by apply (exec_steps_advance _ _ R G). Qed.

(** C35: a turn is started once, whatever happens after its start.  Let a delivery of the job of
    turn [k'] have locked and started it.  After any further transactions of the service or of
    other processes (deliveries of the same job, reconciliations, cancellations, work on stale
    objects), no other delivery starts it again. *)
Theorem turn_starts_once s1 k k' plan now x s2 s3 j plan' now' y :
  exec_reachable s1 →
  job_lock k k' plan now s1 = (Ret (inr x), s2) → rtc exec_step s2 s3 →
  (job_lock j k' plan' now' s3).1 ≠ Ret (inr y).
Proof.
  intros G%exec_reachable_good L R L'.
  destruct (job_lock j k' plan' now' s3) as [r s4] eqn:E. cbn [fst] in L'. subst r. rename E into L'. assert (W := cwf_turn_key _ (proj1 G)).
  assert (G2 := goes_job_lock k k' plan now s1). rewrite L in G2. destruct (G2 G) as [Gs2 _].
  destruct x as [[o t] p], y as [[o' t'] p'].
  apply job_lock_starts in L as (row & Hrow & _ & _ & _ & _ & _ & _ & _ & _ & row' & Hr & E).
  apply job_lock_starts in L' as (late & Hlate & St & _). rewrite (W _ _ Hrow) in *.
  destruct (exec_steps_advance _ _ R Gs2) as [_ F].
  destruct (F k' (running_row now row')) as (t2 & Ht2 & _ & _ & N).
  - rewrite E. row_simpl. by rewrite lookup_insert_eq.
  - assert (t2 = late) as -> by congruence. revert N. unfold rank, running_row. rewrite St. row_simpl. lia.
Qed.
End steps.

(** * What the writes come to

    On success; the objects may be stale. *)

Definition has_turn (k : string) (st : TurnStatus) (code : option string) (c : CodingDB) : Prop :=
  ∃ t, CD.turns c !! k = Some t ∧ Turn.status t = st ∧ Turn.error_code t = code.
Definition has_session (k : string) (st : SessionStatus) (c : CodingDB) : Prop :=
  ∃ o, CD.sessions c !! k = Some o ∧ Ses.status o = st.

Lemma has_turn_eq k st code c c' : CD.turns c' = CD.turns c → has_turn k st code c → has_turn k st code c'.
Proof. intros E. unfold has_turn. by rewrite E. Qed.

Lemma finish_row_ret t st summary usage code message now c t' c' :
  finish_turn_row t st summary usage code message now c = (Ret t', c') →
  Turn.id t' = Turn.id t ∧ has_turn (Turn.id t) st code c'.
Proof.
  intros E. destruct (flush_turn_inv _ _ _ _ E) as [[e [=]]|(row & Hr & [= -> ->])].
  split; [done|]. eexists. row_simpl. rewrite lookup_insert_eq. split; [done|]. by row_simpl.
Qed.

Lemma transition_ret o target code message now c o' c' :
  transition o target code message now c = (Ret o', c') →
  Ses.id o' = Ses.id o ∧ Ses.status o' = target ∧ CD.turns c' = CD.turns c ∧
  has_session (Ses.id o) target c'.
Proof.
  unfold transition. case_match; [done|]. intros E. run E. run E. unfold mret, M_ret in E. injection E as -> ->.
  destruct (flush_session_inv _ _ _ _ R) as [[e [=]]|(row & Hr & [= -> ->])].
  destruct (append_event_inv _ _ _ _ _ _ _ R0) as [(e & [=] & _)|[_ [= _ ->]]].
  split; [done|]. split; [done|]. split; [done|]. eexists. row_simpl. rewrite lookup_insert_eq.
  split; [done|]. by row_simpl.
Qed.

Lemma clear_ret o i c o' c' :
  clear_pending_turn o i c = (Ret o', c') →
  Ses.id o' = Ses.id o ∧ Ses.status o' = Ses.status o ∧ CD.turns c' = CD.turns c.
Proof.
  unfold clear_pending_turn. case_match; [|by intros [= -> ->]]. intros E.
  by destruct (flush_session_inv _ _ _ _ E) as [[e [=]]|(row & Hr & [= -> ->])].
Qed.

Lemma set_ref_ret ref o c o' c' :
  set_cli_session_ref ref o c = (Ret o', c') → Ses.id o' = Ses.id o ∧ CD.turns c' = CD.turns c.
Proof. intros E. by destruct (flush_session_inv _ _ _ _ E) as [[e [=]]|(row & Hr & [= -> ->])]. Qed.

Lemma finish_turn_ret o t e now c o' t' c' :
  Coding.finish_turn o t e now c = (Ret (o', t'), c') →
  has_turn (Turn.id t) (te_status e) (te_error_code e) c' ∧
  Ses.id o' = Ses.id o ∧ Ses.status o' = (if bool_decide (te_status e = TurnCompleted) then SIdle else SFailed) ∧
  has_session (Ses.id o) (Ses.status o') c'.
Proof.
  unfold Coding.finish_turn. intros E. run E. run E. run E. run E. run E. unfold mret, M_ret in E. injection E as -> -> ->.
  apply finish_row_ret in R as [Ei Ht]. apply clear_ret in R0 as (E1 & _ & T1).
  assert (E2 : Ses.id a1 = Ses.id a0 ∧ CD.turns s2 = CD.turns s0).
  { destruct (falsy_str _); [by unfold mret, M_ret in R1; injection R1 as -> ->|by apply set_ref_ret in R1]. }
  apply (keeps_inv CD.turns) in R2; [|auto with exec].
  apply transition_ret in R3 as (E4 & Es & T4 & Hs). destruct E2 as [E2 T2].
  split; [|split; [congruence|]].
  - eapply has_turn_eq; [|exact Ht]. congruence.
  - split; [done|]. by rewrite Es, <- E1, <- E2.
Qed.

Definition final_turn (cancelled : bool) (report : TurnReport) (secrets : list string) : TurnStatus * option string :=
  if cancelled then (TurnCancelled, None)
  else (te_status (turn_end report secrets), te_error_code (turn_end report secrets)).

(** The session's status after a turn that ended so. *)
Definition session_after (st : TurnStatus) : SessionStatus :=
  match st with
  | TurnCompleted => SIdle
  | TurnFailed => SFailed
  | TurnCancelled => SCancelled
  | TurnPending | TurnRunning => SRunning
  end.

Lemma note_degraded_ret o now c o' c' : note_degraded o now c = (Ret o', c') → Ses.id o' = Ses.id o.
Proof.
  unfold note_degraded. intros E. run E. run E. unfold mret, M_ret in E. injection E as -> ->.
  by apply set_ref_ret in R as [? _].
Qed.

Lemma write_turn_ret o t degraded cancelled report secrets probe_now now c o' t' c' :
  write_turn o t degraded cancelled report secrets probe_now now c = (Ret (o', t'), c') →
  has_turn (Turn.id t) (final_turn cancelled report secrets).1 (final_turn cancelled report secrets).2 c' ∧
  Ses.id o' = Ses.id o ∧ Ses.status o' = session_after (final_turn cancelled report secrets).1 ∧
  has_session (Ses.id o) (Ses.status o') c'.
Proof.
  unfold write_turn. intros E. run E. run E.
  assert (Ea : Ses.id a = Ses.id o).
  { destruct degraded; [by apply note_degraded_ret in R|]. unfold mret, M_ret in R. by injection R as -> _. }
  clear R. destruct cancelled; cbn [final_turn fst snd session_after].
  - unfold end_cancelled in E. run E. run E. run E. unfold mret, M_ret in E. injection E as -> -> ->.
    apply finish_row_ret in R as [_ Ht]. apply (keeps_inv CD.turns) in R1; [|auto with exec].
    apply transition_ret in R2 as (Ei & Es & Et & Hs). rewrite Es, <- Ea.
    split; [eapply has_turn_eq; [|exact Ht]; congruence|]. split; [congruence|done].
  - apply finish_turn_ret in E as (Ht & Ei & Es & Hs). rewrite Ea in *.
    split; [done|]. split; [done|]. split; [|done]. rewrite Es. unfold turn_end. cbn [te_status].
    by destruct (tr_failed report).
Qed.

#[local] Abbreviation fresh_session := CodingProps.fresh_session.

(** On fresh objects the writes of a failure and of a cancellation succeed. *)
Lemma finish_row_runs t st summary usage code message now c :
  CD.turns c !! Turn.id t = Some t → opt_fits 64 code = true →
  ∃ t' c', finish_turn_row t st summary usage code message now c = (Ret t', c') ∧
    Turn.id t' = Turn.id t ∧ Turn.seq t' = Turn.seq t ∧ CD.sessions c' = CD.sessions c.
Proof.
  intros Ht Hf. unfold finish_turn_row, flush_turn, id. m_unfold. rewrite Ht. row_simpl. rewrite Hf.
  eexists _, _. split; [reflexivity|]. by repeat split.
Qed.

Lemma fresh_same c c' o : CD.sessions c' = CD.sessions c → fresh_session c o → fresh_session c' o.
Proof. intros E [F1 F2]. by split; [rewrite E|]. Qed.

Lemma clear_runs o i c :
  fresh_session c o → ∃ o' c', clear_pending_turn o i c = (Ret o', c') ∧ fresh_session c' o'.
Proof.
  intros F. unfold clear_pending_turn. case_match; [|by exists o, c].
  destruct (flush_session_fresh (λ r, r <| Ses.policy_json := jpop "pending_turn" (json_or_empty (Ses.policy_json o)) |>)
              o c F) as (c' & E & F' & _); [done|apply F|]. unfold set_policy. by eexists _, c'.
Qed.

Lemma transition_runs o target code message now c :
  fresh_session c o → target ∈ ALLOWED_TRANSITIONS (Ses.status o) →
  opt_fits 64 (given_or code (Ses.error_code o)) = true →
  ∃ o' c', transition o target code message now c = (Ret o', c').
Proof.
  intros [Hr Hf] A Fc. unfold transition. rewrite bool_decide_true by done. cbn [negb].
  set (o' := moved_session target code message now o).
  assert (Hf' : session_fits o' = true).
  { unfold session_fits in *. apply andb_true_iff in Hf as [Hf _]. apply andb_true_iff. by split. }
  destruct (flush_session_fresh (moved_session target code message now) o c) as (c1 & E & F1 & _);
    [by split|done|done|].
  rewrite (bind_run _ _ _ _ _ E). rewrite (bind_run _ _ _ _ _ (append_event_fresh _ "session_status" _ _ _ _ F1 eq_refl)).
  by eexists _, _.
Qed.

Lemma fail_turn_runs o t code message now c :
  fresh_session c o → Ses.status o = SRunning → CD.turns c !! Turn.id t = Some t → fits 64 code = true →
  ∃ o' c', fail_turn o t code message now c = (Ret o', c') ∧
    has_turn (Turn.id t) TurnFailed (Some code) c' ∧ has_session (Ses.id o) SFailed c'.
Proof.
  intros F Hs Ht Hf. unfold fail_turn.
  destruct (finish_row_runs t TurnFailed None None (Some code) (Some message) now c Ht Hf)
    as (t1 & c1 & E1 & Ei & _ & S1).
  rewrite (bind_run _ _ _ _ _ E1). apply finish_row_ret in E1 as [_ T1].
  destruct (clear_runs o (Turn.id t1) c1 (fresh_same _ _ _ S1 F)) as (o2 & c2 & E2 & F2).
  rewrite (bind_run _ _ _ _ _ E2). apply clear_ret in E2 as (I2 & St2 & T2).
  rewrite (bind_run _ _ _ _ _ (append_event_fresh _ "turn_finished" _ _ _ _ F2 eq_refl)).
  rewrite bool_decide_true by congruence.
  match goal with |- context [transition _ _ _ _ _ ?c3] =>
    destruct (transition_runs o2 SFailed (Some code) (Some message) now c3) as (o4 & c4 & E4) end;
    [exact F2|rewrite St2, Hs; cbn; set_solver|done|].
  exists o4, c4. split; [exact E4|]. apply transition_ret in E4 as (_ & _ & T4 & S4).
  split; [|by rewrite <- I2]. eapply has_turn_eq; [|exact T1]. rewrite T4. row_simpl. done.
Qed.

(** * A job with its lease, while nobody else writes the coding tables *)

Section job.
Context {P B : Type} `{SandboxProvider P} `{CodingWorld B}.
Abbreviation Store := (ExecStore P B).
Implicit Types s : Store.

(** The turn runs, and the objects are the rows. *)
Definition runs (c : CodingDB) (o : CodingSession) (t : CodingSessionTurn) : Prop :=
  fresh_session c o ∧ Ses.status o = SRunning ∧
  CD.turns c !! Turn.id t = Some t ∧ Turn.status t = TurnRunning.

Definition job_post (k k' : string) (r : JobResult) (c : CodingDB) : Prop :=
  match r with
  | JobDone result => ∃ st code, ends st ∧ has_turn k' st code c ∧
      has_session k (session_after st) c ∧ co_status result = session_after st
  | JobCancelled _ => has_turn k' TurnCancelled (Some "cancel_requested") c ∧ has_session k SCancelled c
  | JobFailed code => has_turn k' TurnFailed (Some code) c ∧ has_session k SFailed c
  | JobSkipped reason => reason = "ownership_lost" ∧ ∃ o t, runs c o t ∧ Ses.id o = k ∧ Turn.id t = k'
  | JobWaiting => False
  end.

(** The guard answers, and leaves the tables alone. *)
Definition answers (guard : M Store bool) : Prop := ∀ s, ∃ b s', guard s = (Ret b, s') ∧ XS.coding s' = XS.coding s.

Lemma guard_answers sv owner lost now : answers (owns_coding_turn_lease sv owner lost now).
Proof.
  intros s. unfold owns_coding_turn_lease. destruct lost; [by exists false, s|].
  unfold on_sandboxes, owns_active. m_unfold.
  destruct (Sandboxes.get_for_update _ _ _ (XS.sandboxes s)) as [[row|e] b] eqn:E; [by eexists _, _|].
  unfold Sandboxes.get_for_update in E. m_unfold. done.
Qed.

Lemma cancel_queued_runs o t up now s :
  runs (XS.coding s) o t →
  ∃ s', cancel_queued_turn o t up now s = (Ret tt, s') ∧
    has_turn (Turn.id t) TurnCancelled (Some "cancel_requested") (XS.coding s') ∧
    has_session (Ses.id o) SCancelled (XS.coding s').
Proof.
  intros (F & Hs & Ht & _). unfold cancel_queued_turn, transaction, on_coding. m_unfold.
  destruct (finish_row_runs t TurnCancelled None None (Some "cancel_requested") None now _ Ht eq_refl)
    as (t1 & c1 & E1 & Ei & _ & S1).
  rewrite E1. apply finish_row_ret in E1 as [_ T1].
  destruct (clear_runs o (Turn.id t1) c1 (fresh_same _ _ _ S1 F)) as (o2 & c2 & E2 & F2).
  rewrite E2. apply clear_ret in E2 as (I2 & St2 & T2).
  rewrite (append_event_fresh _ "turn_finished" _ _ _ _ F2 eq_refl).
  match goal with |- context [transition _ _ _ _ _ ?c3] =>
    destruct (transition_runs o2 SCancelled None None now c3) as (o4 & c4 & E4) end;
    [exact F2|rewrite St2, Hs; cbn; set_solver|destruct F2 as [_ F2]; revert F2; unfold session_fits; cbn;
     by intros [_ ?]%andb_true_iff|].
  rewrite E4. apply transition_ret in E4 as (_ & _ & T4 & S4).
  eexists. split; [reflexivity|].
  assert (Ec : XS.coding (s <| XS.coding := c4 |>) = c4) by done.
  destruct up; cbn -[has_turn has_session]; rewrite <- I2; (split; [|exact S4]);
    (eapply has_turn_eq; [|exact T1]; change (CD.turns c4 = CD.turns c1); rewrite T4; row_simpl; done).
Qed.

Lemma fail_owned_post k k' code message guard now s o t :
  answers guard → runs (XS.coding s) o t → Ses.id o = k → Turn.id t = k' → fits 64 code = true →
  ∃ b s', fail_owned_coding_turn k k' code message guard now s = (Ret b, s') ∧
    if (b : bool) then has_turn k' TurnFailed (Some code) (XS.coding s') ∧ has_session k SFailed (XS.coding s')
    else XS.coding s' = XS.coding s.
Proof.
  intros A (F & Hs & Ht & Hr) <- <- Hf. destruct (A s) as (b & s1 & E1 & Ec).
  unfold fail_owned_coding_turn, transaction. rewrite (bind_run _ _ _ _ _ E1).
  destruct b; cbn [negb]; [|by exists false, s1]. rewrite <- Ec in F, Ht. unfold Coding.get_for_update.
  erewrite bind_run by apply on_coding_reads. cbv beta.
  erewrite bind_run by apply on_coding_reads. cbv beta.
  destruct F as [F1 F2]. rewrite F1, Ht. cbn [mbind option_bind]. rewrite Hr. cbn [negb bool_decide].
  rewrite bool_decide_true by done. cbn [negb].
  destruct (fail_turn_runs o t code message now (XS.coding s1)) as (o' & c' & E & T & S); [by split|done..|].
  unfold on_coding. m_unfold. rewrite E. exists true. eexists. split; [reflexivity|]. done.
Qed.

Lemma settle_post o t degraded report secrets guard run s :
  answers guard → runs (XS.coding s) o t →
  match settle_turn o t degraded report secrets guard run s with
  | (Ret (Some result), s') => job_post (Ses.id o) (Turn.id t) (JobDone result) (XS.coding s')
  | (_, s') => XS.coding s' = XS.coding s
  end.
Proof.
  intros A R. destruct (A s) as (b & s1 & E1 & Ec). unfold settle_turn, transaction.
  rewrite (bind_run _ _ _ _ _ E1). destruct b; cbn [negb]; [|done].
  unfold coding_cancel_requested, on_coding. m_unfold. set (cancelled := _ && _).
  match goal with |- context [write_turn ?a ?b ?c ?d ?e ?f ?g ?h ?i] =>
    destruct (write_turn a b c d e f g h i) as [[[o' t']|e'] c'] eqn:E end; [|done].
  apply write_turn_ret in E as (Ht & Ei & Es & Hs). cbn [job_post co_status].
  exists (final_turn cancelled report secrets).1, (final_turn cancelled report secrets).2.
  match goal with |- context [has_turn _ _ _ ?x] => assert (Hc : x = c') by (by destruct (redis_up run 4)) end.
  rewrite Hc. split; [|split; [exact Ht|]].
  - unfold final_turn, turn_end. cbn [te_status]. by destruct cancelled, (tr_failed report); split.
  - rewrite Es in Hs. split; [exact Hs|]. by destruct cancelled.
Qed.

Context (container_text : json → string) (exn_text : exn → string).
Context (sandbox_hash : string → string) (limits : Z * Z) (virtual_path_prefix : string).
Context (configured_timeout configured_lease : Z) (isoformat : datetime → string).
Context (project_overrides : string → string → option json) (run_agent_config : string → option json).
Context (coding_environment : option json → string → option string → string →
                              outcome (list (string * string) * option string)).

(** The other transactions change leases, sandboxes, signals and the world, but no coding table. *)
Definition calm (run : Run) : Prop := ∀ n s, XS.coding (others run n s) = XS.coding s.

Lemma still_prepare sv agent_config fresh now :
  keeps XS.coding (prepare sandbox_hash limits project_overrides coding_environment sv agent_config fresh now
                   : M Store (list string)).
Proof.
  unfold prepare. repeat first [progress (intros; cbv beta zeta) | apply keeps_bind | done
                               | apply still_sandboxes | case_match].
Qed.

(** A step that leaves the tables alone. *)
Lemma post_bind {A C} (m : M Store A) (k : A → M Store C) (post : outcome C → CodingDB → Prop) s :
  keeps XS.coding m → (∀ e s1, XS.coding s1 = XS.coding s → post (Raise e) (XS.coding s1)) →
  (∀ a s1, XS.coding s1 = XS.coding s → post (k a s1).1 (XS.coding (k a s1).2)) →
  post ((m ≫= k) s).1 (XS.coding ((m ≫= k) s).2).
Proof.
  intros Km Kr Kk. specialize (Km s). unfold mbind, M_bind.
  destruct (m s) as [[a|e] s1]; cbn [snd] in Km; [by apply Kk|by apply Kr].
Qed.

Lemma tail_post sv o t executor task plan_only secrets guard run s :
  calm run → answers guard → runs (XS.coding s) o t →
  match execute_turn_tail container_text exn_text virtual_path_prefix configured_timeout
          sv o t executor task plan_only secrets guard run s with
  | (Ret (Some result), s') => job_post (Ses.id o) (Turn.id t) (JobDone result) (XS.coding s')
  | (_, s') => XS.coding s' = XS.coding s
  end.
Proof.
  intros C A R. unfold execute_turn_tail.
  set (post := λ (r : outcome (option CodingTurnOutcome)) c,
    match r with
    | Ret (Some result) => job_post (Ses.id o) (Turn.id t) (JobDone result) c
    | _ => c = XS.coding s
    end).
  match goal with |- match ?m s with _ => _ end =>
    enough (Q : post (m s).1 (XS.coding (m s).2)) by (by destruct (m s) as [[[r|]|e] s']) end.
  apply (post_bind _ _ post); [by apply keeps_modify|done|]. intros _ s1 E1.
  apply (post_bind _ _ post); [|intros; unfold post; congruence|].
  { unfold state_missing. case_match; [done|]. apply keeps_bind; [apply still_outside|done]. }
  intros degraded s2 E2. cbv zeta.
  apply (post_bind _ _ post); [done|intros; unfold post; congruence|]. intros adapter s3 E3.
  apply (post_bind _ _ post); [done|intros; unfold post; congruence|]. intros workdir s4 E4.
  apply (post_bind _ _ post); [|intros; unfold post; congruence|].
  { unfold run_command. apply keeps_bind; [|done]. intros s0. unfold attempt.
    match goal with |- context [on_outside ?m s0] => assert (Z := still_outside m s0); by destruct (on_outside m s0) end. }
  intros x s5 E5. apply (post_bind _ _ post); [by apply keeps_modify|intros; unfold post; congruence|]. intros _ s6 E6.
  apply (post_bind _ _ post); [done|intros; unfold post; congruence|]. intros events s7 E7.
  assert (E : XS.coding s7 = XS.coding s) by congruence. rewrite <- E in R.
  match goal with |- context [settle_turn ?a ?b ?c ?d ?e ?f ?g] =>
    assert (S := settle_post a b c d e f g s7 A R); revert S; destruct (settle_turn a b c d e f g s7) as [[[r|]|e'] s'] end;
    unfold post; cbn [fst snd]; congruence || done.
Qed.

Lemma fail_post k k' code e guard run s o t :
  calm run → answers guard → runs (XS.coding s) o t → Ses.id o = k → Turn.id t = k' → fits 64 code = true →
  ∃ r s', job_fail k k' code e guard run s = (Ret r, s') ∧ job_post k k' r (XS.coding s').
Proof.
  intros C A R Ek Et Hf. unfold job_fail.
  erewrite bind_run by reflexivity. rewrite <- (C 5%nat s) in R.
  destruct (fail_owned_post k k' code ("编码 turn 准备或执行失败：" ++ exn_type e)%string guard (clock run 5)
              (others run 5 s) o t A R Ek Et Hf) as (b & s' & E & Q).
  rewrite (bind_run _ _ _ _ _ E). eexists _, s'. split; [reflexivity|].
  destruct b; [done|]. split; [done|]. exists o, t. by rewrite Q.
Qed.

(** A pending turn of a running session. *)
Definition ready (c : CodingDB) (k k' : string) (o : CodingSession) (t : CodingSessionTurn) : Prop :=
  fresh_session c o ∧ Ses.id o = k ∧ Ses.status o = SRunning ∧
  CD.turns c !! k' = Some t ∧ Turn.id t = k' ∧ Turn.status t = TurnPending ∧ opt_fits 64 (Turn.error_code t) = true.

Lemma job_lock_runs k k' plan now s o t :
  ready (XS.coding s) k k' o t →
  ∃ plan' s', job_lock k k' plan now s = (Ret (inr (o, running_row now t, plan')), s') ∧
    runs (XS.coding s') o (running_row now t).
Proof.
  intros (F & <- & Hs & Ht & <- & Hp & Hf). unfold job_lock, transaction, Coding.get_for_update.
  erewrite bind_run by apply on_coding_reads. cbv beta.
  erewrite bind_run by apply on_coding_reads. cbv beta.
  destruct F as [F1 F2]. rewrite F1, Ht. cbn [mbind option_bind]. rewrite Hp, bool_decide_true, Hs by done.
  cbn [negb session_terminal]. unfold on_coding, mark_turn_running, flush_turn, id. m_unfold.
  rewrite Hp, bool_decide_true, Ht by done. row_simpl. rewrite Hf. cbn [negb].
  eexists _, _. split; [reflexivity|]. cbn [XS.coding]. split; [by split|]. split; [done|].
  split; [|done]. apply lookup_insert_eq.
Qed.

Lemma body_post sv k k' owner plan d run s o t service :
  calm run → ready (XS.coding s) k k' o t →
  service_of (Ses.uid o) (Ses.runtime_scope_id o) (Ses.workdir_path o) = Ret service →
  ∃ r s', job_body container_text exn_text sandbox_hash limits virtual_path_prefix configured_timeout
            project_overrides run_agent_config coding_environment sv k k' owner plan d run s = (Ret r, s') ∧
    job_post k k' r (XS.coding s').
Proof.
  intros C R Hsv. assert (Ek : Ses.id o = k) by apply R. assert (Et : Turn.id t = k') by apply R.
  unfold job_body. erewrite bind_run by reflexivity. rewrite <- (C 1%nat s) in R.
  destruct (job_lock_runs k k' plan (clock run 1) _ o t R) as (plan' & s2 & E & R2).
  rewrite (bind_run _ _ _ _ _ E). cbv beta iota. set (t' := running_row _ t) in *.
  assert (Et' : Turn.id t' = k') by exact Et. clearbody t'. clear R E Et.
  erewrite bind_run by reflexivity. rewrite <- (C 2%nat s2) in R2. set (s3 := others run 2 s2) in *. clearbody s3.
  cbv zeta. erewrite bind_run by reflexivity. case_match.
  - destruct (cancel_queued_runs o t' (redis_up run 2) (clock run 2) s3 R2) as (s4 & E & T & S).
    rewrite (bind_run _ _ _ _ _ E). rewrite Ek, Et' in *. by eexists _, s4.
  - rewrite Hsv. erewrite bind_run by reflexivity. cbv beta.
    assert (A := λ k, guard_answers sv owner (dl_heartbeat_lost d k)).
    match goal with |- context [attempt (transaction ?m)] =>
      assert (Km : keeps XS.coding m) by (apply still_prepare);
      specialize (Km s3); destruct (m s3) as [[secrets|e] s4] eqn:E end; cbn [snd] in Km.
    + erewrite bind_run by (unfold attempt, transaction; rewrite E; reflexivity). cbv beta iota.
      rewrite <- Km in R2.
      match goal with |- context [attempt ?m] =>
        assert (Q : match m s4 with
                    | (Ret (Some result), s') => job_post (Ses.id o) (Turn.id t') (JobDone result) (XS.coding s')
                    | (_, s') => XS.coding s' = XS.coding s4 end) by (by apply tail_post);
        destruct (m s4) as [[[result|]|e] s5] eqn:E5 end;
      (erewrite bind_run by (unfold attempt; rewrite E5; reflexivity)); cbv beta iota.
      * rewrite Ek, Et' in Q. by eexists _, s5.
      * eexists _, s5. split; [reflexivity|]. split; [done|]. exists o, t'. by rewrite Q.
      * rewrite <- Q in R2. by apply (fail_post _ _ _ _ _ _ _ o t').
    + erewrite bind_run by (unfold attempt, transaction; rewrite E; reflexivity). cbv beta iota.
      apply (fail_post _ _ _ _ _ _ _ o t'); try done. 
Qed.

Lemma release_returns uid agent_slug project_id owner now (b : SandboxStore P) :
  ∃ r b', release uid agent_slug project_id owner now b = (Ret r, b').
Proof.
  unfold release, Sandboxes.get_for_update, put_box, Sandboxes.append_event. m_unfold.
  by repeat case_match; simplify_eq; eauto.
Qed.

End job.

(** * What a reconciliation comes to *)

Section reconcile.
Context {P B : Type} `{CodingWorld B}.
Abbreviation Store := (ExecStore P B).
Implicit Types s : Store.

(** No live lease of any sandbox names a worker of turn [k]. *)
Definition worker_lost (k : string) (now : datetime) (boxes : SandboxStore P) : Prop :=
  ∀ uid agent_slug project_id,
    owns_active_prefix uid agent_slug project_id CODING_SESSION_OWNER (coding_turn_owner_prefix k) now boxes
    = (Ret false, boxes).

Lemma fail_turn_ret o t code message now c o' c' :
  good c → fail_turn o t code message now c = (Ret o', c') →
  ∃ t', CD.turns c' !! Turn.id t = Some t' ∧ rank t' = 2.
Proof.
  intros G. unfold fail_turn. intros E. run E.
  destruct (finish_row_ret _ _ _ _ _ _ _ _ _ _ R) as [Ei (row & Hr & Hs & _)].
  assert (G1 : good s1).
  { assert (A := adv_finish_row t TurnFailed None None (Some code) (Some message) now ltac:(by split) c).
    rewrite R in A. by apply A. }
  match type of E with ?m s1 = _ => assert (A : adv m) by advance end.
  specialize (A s1 G1) as [_ F]. rewrite E in F. destruct (F _ _ Hr) as (t' & Ht' & _ & _ & L).
  exists t'. split; [exact Ht'|]. revert L. rewrite (rank_of_end row) by (rewrite Hs; by split).
  unfold rank. case_match; lia.
Qed.

Lemma still_boxes {A} (m : M CodingDB A) : keeps XS.sandboxes (on_coding m : M Store A).
Proof. intros s. unfold on_coding. by destruct (m _). Qed.

(** One stale turn. *)
Lemma reconcile_turn_ends t session now s fate o s' row :
  good (XS.coding s) → CD.turns (XS.coding s) !! Turn.id t = Some row →
  Turn.session_id row = Turn.session_id t → 1 <= rank row → worker_lost (Turn.id t) now (XS.sandboxes s) →
  reconcile_turn t session now s = (Ret (fate, o), s') →
  fate ≠ FateOwned ∧ XS.sandboxes s' = XS.sandboxes s ∧
  ∃ t', CD.turns (XS.coding s') !! Turn.id t = Some t' ∧ rank t' = 2.
Proof.
  intros G Ht Es L W. unfold reconcile_turn, Coding.get_for_update, get_turn_for_update, get_turn.
  erewrite bind_run by apply on_coding_reads. cbv beta.
  destruct (cwf_turn_session _ (proj1 G) _ _ Ht) as [o0 Ho]. rewrite Es in Ho. rewrite Ho. cbn [mbind option_bind].
  set (loaded := match session with Some _ => _ | None => _ end).
  destruct (from_runtime_scope (Ses.uid loaded) (Ses.runtime_scope_id loaded)) as [scope|e]; [|done].
  erewrite bind_run by reflexivity. cbv beta.
  erewrite (bind_run _ _ s false s) by (destruct scope; [done|unfold on_sandboxes; rewrite W; by destruct s]).
  cbv iota. erewrite bind_run by apply on_coding_reads. cbv beta. rewrite Ho. cbn [mbind option_bind].
  erewrite bind_run by apply on_coding_reads. cbv beta. rewrite Ht.
  case_bool_decide as Hr; cbn [negb].
  - intros E. run E. unfold mret, M_ret in E. injection E as <- _ <-. split; [done|].
    assert (Hb := still_boxes (fail_turn (if bool_decide (Ses.id loaded = Turn.session_id t) then loaded else o0)
                                 row WORKER_LOST WORKER_LOST_MESSAGE now) s).
    rewrite R in Hb. split; [exact Hb|]. clear Hb. unfold on_coding in R.
    destruct (fail_turn _ _ _ _ _ _) as [[o2|e] c] eqn:F; [|done]. injection R as <- <-.
    apply fail_turn_ret in F; [|done]. by rewrite <- (cwf_turn_key _ (proj1 G) _ _ Ht).
  - unfold mret, M_ret. intros [= <- _ <-]. split; [done|]. split; [done|]. exists row. split; [done|].
    revert L Hr. unfold rank. case_match; [lia|done|done..].
Qed.

(** A turn as the listing saw it. *)
Definition listed_as (c : CodingDB) (t : CodingSessionTurn) : Prop :=
  ∃ row, CD.turns c !! Turn.id t = Some row ∧ Turn.session_id row = Turn.session_id t ∧ 1 <= rank row.

Lemma listed_later c c' t : forward c c' → listed_as c t → listed_as c' t.
Proof.
  intros F (row & Hr & Es & L). destruct (F _ _ Hr) as (row' & Hr' & Es' & _ & L').
  exists row'. split; [done|]. split; [congruence|lia].
Qed.

Lemma reconcile_each_ends now turns : ∀ session failed committed s n s',
  good (XS.coding s) → Forall (listed_as (XS.coding s)) turns →
  Forall (λ t, worker_lost (Turn.id t) now (XS.sandboxes s)) turns →
  reconcile_each turns session now failed committed s = (Ret n, s') →
  forward (XS.coding s) (XS.coding s') ∧
  Forall (λ t, ∃ t', CD.turns (XS.coding s') !! Turn.id t = Some t' ∧ rank t' = 2) turns.
Proof.
  induction turns as [|t l IH]; intros session failed committed s n s' G L W E; cbn [reconcile_each] in E.
  { injection E as _ <-. split; [by apply forward_same|constructor]. }
  apply Forall_cons in L as [(row & Hr & Es & Rk) L]. apply Forall_cons in W as [Wt W].
  assert (A := goes_reconcile_turn t session now s).
  destruct (reconcile_turn t session now s) as [[[fate o]|e] s1] eqn:R; [|done].
  destruct (reconcile_turn_ends _ _ _ _ _ _ _ _ G Hr Es Rk Wt R) as (N & Eb & t' & Ht' & Ended).
  destruct (A G) as [G1 F1]. cbn [snd] in G1, F1. rewrite <- Eb in W.
  assert (Q : ∃ session' failed' committed', reconcile_each l session' now failed' committed' s1 = (Ret n, s'))
    by (destruct fate; [eauto|done|eauto]).
  destruct Q as (session' & failed' & committed' & Q). apply IH in Q as [F2 D]; [|done| |done].
  2:{ eapply Forall_impl; [exact L|]. intros u. by apply listed_later. }
  assert (F : forward (XS.coding s) (XS.coding s')).
  { intros k u Hu. destruct (F1 k u Hu) as (u1 & Hu1 & L1). destruct (F2 k u1 Hu1) as (u2 & Hu2 & L2).
    exists u2. split; [done|by etrans]. }
  split; [exact F|]. constructor; [|exact D]. destruct (F2 _ _ Ht') as (t2 & Ht2 & _ & _ & L2).
  exists t2. split; [exact Ht2|]. assert (U := rank_bound t2). lia.
Qed.

Lemma pending_turns_reads turns : ∀ session, keeps (λ s : Store, s) (pending_turns turns session).
Proof.
  induction turns as [|t l IH]; intros session; cbn [pending_turns]; [by apply keeps_ret|].
  apply keeps_bind; [intros s; by destruct s|]. intros found.
  apply keeps_bind; [apply IH|]. intros rest. apply keeps_ret.
Qed.

Lemma still_publish l : keeps XS.coding (publish_each l : M Store unit).
Proof.
  induction l as [|[[k k'] plan] l IH]; cbn [publish_each]; [apply keeps_ret|].
  apply keeps_bind; [apply still_outside|done].
Qed.

Definition stale_turns (configured : Z) (stale_seconds : option Z) (now : datetime) (c : CodingDB)
    : list CodingSessionTurn :=
  take TURN_LIMIT (sort_by turn_oldest (select (λ t,
    bool_decide (Turn.status t = TurnRunning)
    && match Turn.started_at t with
       | Some at_ => at_ <? now - seconds (stale_after configured stale_seconds)
       | None => false
       end) (CD.turns c))).

End reconcile.


(** * Nothing secret is written *)

(** [w] occurs in a text of the value, at any depth; the keys of objects are not looked at. *)
Fixpoint mentions (w : string) (v : json) : bool :=
  match v with
  | JStr u => occurs w u
  | JArr l => existsb (mentions w) l
  | JObj l => existsb (λ kv, mentions w kv.2) l
  | _ => false
  end.

Section secrets.
Context (secrets : list string) (w : string).
Hypothesis listed : w ∈ secrets.
Hypothesis long : (4 <= String.length w)%nat.
Hypothesis unlike : unlike_mark w.

Lemma redacted_payload_clean v : mentions w (redact_event_payload secrets v) = false.
Proof.
  induction v using json_rect'; cbn [redact_event_payload mentions]; try done; [by apply redacted_clean| |].
  - induction H as [|v l Hv _ IH]; [done|]. cbn [map existsb]. by rewrite Hv, IH.
  - induction H as [|kv l Hv _ IH]; [done|]. cbn [map existsb snd]. by rewrite Hv, IH.
Qed.

Definition clean_events (events : list NormalizedEvent) : Prop := Forall (λ e, mentions w (payload e) = false) events.
End secrets.

Lemma usage_from_events container_text w events r :
  clean_events w events → (∀ v, usage r = Some v → mentions w v = false) →
  ∀ v, usage (foldl (result_step container_text) r events) = Some v → mentions w v = false.
Proof.
  intros C. revert r. induction C as [|e l He _ IH]; intros r Hr; [done|]. cbn [foldl]. apply IH.
  intros v. unfold result_step. repeat case_bool_decide; cbn [usage]; auto. by intros [= <-].
Qed.


(** * Witnesses

    A provisioner that runs whatever it is asked for, a sandbox whose commands print what is
    listed, a queued turn, and a run in which nobody else interferes. *)

#[local] Instance demo_provider : SandboxProvider (list string) := {|
  get_scope := λ scope _ _ _ _ p, (Ret (Some {| conn_generation := Some "g1" |}), cache_key scope :: p);
  release_scope := λ _ _ p, (Ret tt, p);
  touch := λ _ p, (Ret true, p);
  list_sandboxes := λ p, (Ret [], p)
|}.

#[local] Instance demo_world : CodingWorld (list string) := {|
  execute := λ _ _ outputs,
    match outputs with
    | [] => (Raise (RuntimeError "no such sandbox"), [])
    | o :: outputs => (Ret {| response_output := o; response_exit_code := Some 0 |}, outputs)
    end;
  enqueue_job := λ _ _ _ outputs, (Ret tt, outputs)
|}.

Definition demo_hash (k : string) : string := k.
Definition demo_overrides (_ _ : string) : option json :=
  Some (JObj [("sandbox", JObj [("mode", JStr "dedicated"); ("lifecycle", JStr "persistent")])]).
Definition demo_environment (_ : option json) (_ : string) (_ : option string) (_ : string)
    : outcome (list (string * string) * option string) :=
  Ret ([("OPENAI_API_KEY", "sk-1234")], Some "f1").
Definition demo_text (_ : json) : string := "".

Definition demo_boxes : SandboxStore (list string) :=
  (ensure_ready demo_hash (3, 1) "b1" "u1" "coder" "p1"
     {| mode := Dedicated; lifecycle := Persistent; resume_policy := Confirm; idle_suspend_seconds := None |}
     (Some "projects/p1") None 1 (SB.mk ∅ [] [])).2.
Definition demo_store0 : ExecStore (list string) (list string) :=
  XS.mk (no_sessions {["u1"]} {["p1"]}) demo_boxes ∅ [""].
Definition demo_store1 := (transaction (on_coding (create_session "s1" demo_input 10)) demo_store0).2.
Definition demo_store :=
  (transaction (on_coding (queue_turn "t1" demo_session "fix the tests" true (Some "r1") 20)) demo_store1).2.

Definition demo_run : Run (P := list string) (B := list string) := {| others := λ _ s, s; clock := λ n, 100 + Z.of_nat n; redis_up := λ _, true |}.
Definition demo_delivery : Delivery (P := list string) := {|
  dl_fresh := "0123456789abcdef"; dl_fresh_box := "b2";
  dl_polls := [{| meanwhile := λ b, b; poll_now := 90; remaining := 0 |}]; dl_heartbeat_lost := λ _, false |}.

Definition demo_o : CodingSession := default demo_session (CD.sessions (XS.coding demo_store) !! "s1").
Definition demo_t : CodingSessionTurn :=
  default (new_turn "t1" demo_session "" TurnPending 0 (XS.coding demo_store))
    (CD.turns (XS.coding demo_store) !! "t1").

Lemma demo_ready : ready (XS.coding demo_store) "s1" "t1" demo_o demo_t.
Proof.
  refine (conj (conj _ _) (conj _ (conj _ (conj _ (conj _ (conj _ _)))))); vm_compute; reflexivity.
Qed.

Abbreviation demo_reachable := (exec_reachable demo_text demo_hash (3, 1) 600 (λ _, Ret 0) demo_overrides demo_environment).
Abbreviation demo_step := (exec_step demo_text demo_hash (3, 1) 600 (λ _, Ret 0) demo_overrides demo_environment).

Lemma demo_store_reachable : demo_reachable demo_store.
Proof.
  exists demo_store0, {["u1"]}, {["p1"]}. split; [done|].
  eapply rtc_l; [apply exec_create|]. apply rtc_once, exec_queue.
Qed.

Definition demo_locked := (job_lock "s1" "t1" false 30 demo_store).2.

Lemma turns_go_forward_witness :
  ∃ t, CD.turns (XS.coding demo_locked) !! "t1" = Some t ∧ later demo_t t ∧ Turn.status t = TurnRunning.
Proof.
  assert (R : rtc demo_step demo_store demo_locked) by apply rtc_once, exec_lock.
  destruct (turns_go_forward demo_text demo_hash (3, 1) 600 (λ _, Ret 0) demo_overrides demo_environment
              demo_store demo_locked "t1" demo_t demo_store_reachable R) as (t & Ht & L).
  - vm_compute. reflexivity.
  - exists t. split; [exact Ht|]. split; [exact L|]. revert Ht. vm_compute. by intros [= <-].
Defined.

Lemma turn_starts_once_witness :
  ∃ x, job_lock "s1" "t1" false 30 demo_store = (Ret (inr x), demo_locked)
    ∧ ∀ j y, (job_lock j "t1" false 60 demo_locked).1 ≠ Ret (inr y).
Proof.
  destruct (job_lock_runs "s1" "t1" false 30 demo_store demo_o demo_t demo_ready) as (plan & s' & E & _).
  assert (Es : s' = demo_locked) by (unfold demo_locked; by rewrite E). subst s'.
  eexists. split; [exact E|]. intros j y.
  exact (turn_starts_once demo_text demo_hash (3, 1) 600 (λ _, Ret 0) demo_overrides demo_environment
           demo_store "s1" "t1" false 30 _ demo_locked demo_locked j false 60 y demo_store_reachable E
           (rtc_refl _ _)).
Defined.

Abbreviation demo_job :=
  (run_coding_turn_job demo_text (λ _, "") demo_hash (3, 1) "/workspace" 600 120 (λ _, "") demo_overrides
     (λ _, None) demo_environment "s1" "t1" false demo_delivery demo_run demo_store).

Definition answered_idle (r : outcome JobResult) : bool :=
  match r with Ret (JobDone result) => bool_decide (co_status result = SIdle) | _ => false end.


Definition demo_printed : string :=
  str_concat (String (Ascii.ascii_of_nat 34) EmptyString)
    ["{"; "type"; ":"; "text"; ",";  "part"; ":{"; "text"; ":"; "the key is sk-1234"; "}}"].


Lemma unleased_lost {P} (boxes : SandboxStore P) k now :
  map_Forall (λ _ b, Box.lease_owner_kind b = None) (SB.boxes boxes) → worker_lost k now boxes.
Proof.
  intros N uid agent_slug project_id. unfold owns_active_prefix, Sandboxes.get_for_update. m_unfold.
  destruct (head _) as [b|] eqn:E; [|done].
  assert (Hb : b ∈ select (owned_by uid agent_slug project_id) (SB.boxes boxes)).
  { destruct (select _ _); [done|]. injection E as ->. by left. }
  apply elem_of_select in Hb as [_ [i Hi]]. by rewrite (N i b Hi), bool_decide_false.
Qed.

Abbreviation demo_reconcile := (reconcile_coding_turns 600 None 1000000000000 demo_locked).

