(* ===== verification/Multica.v ===== *)
(** The Multica channel ([delegation/multica.py], in [Executors.v]) against its service: [search]
    and [create] as the service answers them, an in-memory service that does so, and what a
    dispatch that is repeated creates. *)

From stdpp Require Import prelude gmap strings list fin_maps pretty.
From Stdlib Require Import ZArith Lia Ascii.
From S2P Require Import Prelude PyLib SandboxScope Shell CodingAdapters Coding Executors.
Local Open Scope Z_scope.

(** * The service *)

(** A search finds the issues whose description has the words, unless there are more than asked
    for; a creation that succeeds adds one issue, and one whose answer is lost may have. *)
Class MulticaService (W : Type) `{MulticaClient W} := {
  issues : W → list MulticaIssue;
  search_answers words limit w :
    ∃ r, search_issues words limit w = (r, w)
      ∧ ∀ l, r = Ret l →
          (∀ i, i ∈ l → i ∈ issues w)
          ∧ ((length (List.filter (λ i, occurs words (i_description i)) (issues w)) ≤ limit)%nat →
             ∀ i, i ∈ issues w → occurs words (i_description i) = true → i ∈ l);
  create_adds title description w :
    let '(r, w') := create_issue title description w in
    match r with
    | Ret i => i_description i = description ∧ issues w' = i :: issues w
    | Raise _ => issues w' = issues w ∨ ∃ i, i_description i = description ∧ issues w' = i :: issues w
    end
}.

(** * Texts *)

Lemma prefix_app_inv a b t : String.prefix (a ++ b) t = true → String.prefix a t = true.
Proof.
  revert t. induction a as [|c a IH]; intros t; [by destruct t|].
  destruct t as [|d t]; [done|]. rewrite append_cons. cbn [String.prefix].
  destruct (ascii_dec c d); [apply IH|done].
Qed.

Lemma occurs_app_l w s : String.prefix w s = true → occurs w s = true.
Proof. intros E. destruct s; cbn [occurs]; by rewrite E. Qed.

Lemma occurs_skip a b t : String.prefix (a ++ b) t = true → occurs b t = true.
Proof.
  revert t. induction a as [|c a IH]; intros t E; [by apply occurs_app_l|].
  destruct t as [|d t]; [done|]. rewrite append_cons in E. cbn [String.prefix] in E.
  destruct (ascii_dec c d); [|done]. cbn [occurs]. by rewrite (IH t E), orb_true_r.
Qed.

(** An issue with the marker has the operation id. *)
Lemma marker_has_id operation_id t :
  occurs (operation_marker operation_id) t = true → occurs operation_id t = true.
Proof.
  induction t as [|c t IH]; cbn [occurs]; rewrite orb_true_iff; intros [E|E].
  - unfold operation_marker in E. by apply occurs_skip in E.
  - done.
  - unfold operation_marker in E. rewrite append_assoc in E.
    by apply occurs_skip in E.
  - by rewrite IH, orb_true_r.
Qed.

Lemma prefix_app a b : String.prefix a (a ++ b) = true.
Proof.
  induction a as [|c a IH]; [by destruct b|]. rewrite append_cons. cbn [String.prefix].
  by destruct (ascii_dec c c).
Qed.

Lemma description_marked container_text request :
  occurs (operation_marker (Dreq.operation_id request)) (description_for container_text request) = true.
Proof. apply occurs_app_l. unfold description_for. cbn [str_concat app]. apply prefix_app. Qed.

(** * Repeated dispatches *)

Section service.
Context {W : Type} `{Client : MulticaClient W, Svc : !MulticaService W} (container_text : json → string).

(** The issues of an operation and those a search for it finds. *)
Definition marked (operation_id : string) (w : W) : list MulticaIssue :=
  List.filter (λ i, matches_marker i operation_id) (issues w).
Definition found (operation_id : string) (w : W) : list MulticaIssue :=
  List.filter (λ i, occurs operation_id (i_description i)) (issues w).

(** A dispatch as often as the caller likes; an attempt may raise before or after the creation. *)
Fixpoint dispatch_again (n : nat) (request : DelegationRequest) (w : W) : W :=
  match n with
  | O => w
  | S n => dispatch_again n request (multica_dispatch container_text request w).2
  end.

Lemma find_answers operation_id w :
  ∃ r, find_by_operation operation_id w = (r, w)
    ∧ ∀ o, r = Ret o →
        match o with
        | Some i => i ∈ marked operation_id w
        | None => (length (found operation_id w) ≤ 20)%nat → marked operation_id w = []
        end.
Proof.
  destruct (search_answers operation_id 20 w) as (r & E & H). unfold find_by_operation. m_unfold.
  rewrite E. destruct r as [l|e]; [|by eexists]. destruct (H l eq_refl) as [Hin Hall].
  eexists. split; [done|]. intros o [= <-].
  destruct (List.filter _ l) as [|i l'] eqn:F; cbn [head].
  - intros Hn. unfold marked.
    destruct (List.filter (λ i, matches_marker i operation_id) (issues w)) as [|i l'] eqn:G; [done|].
    assert (Hi : In i (List.filter (λ i, matches_marker i operation_id) (issues w))) by (rewrite G; by left).
    apply filter_In in Hi as [Hi Hm].
    assert (Hl : i ∈ l) by (apply Hall; [done|by apply list_elem_of_In|by apply marker_has_id]).
    assert (Hc : In i []); [|done]. rewrite <- F. apply filter_In. split; [by apply list_elem_of_In|done].
  - assert (Hi : In i (List.filter (λ issue, matches_marker issue operation_id) l)) by (rewrite F; by left).
    apply filter_In in Hi as [Hi Hm]. unfold marked. apply list_elem_of_In, filter_In.
    split; [|done]. apply list_elem_of_In, Hin, list_elem_of_In, Hi.
Qed.

(** One dispatch: it answers with the operation's issue, having created it if there was none. *)
Lemma dispatch_once request w :
  let op := Dreq.operation_id request in
  (length (found op w) ≤ 20)%nat →
  let '(r, w') := multica_dispatch container_text request w in
  (issues w' = issues w
   ∨ marked op w = [] ∧ ∃ i, i_description i = description_for container_text request
                             ∧ issues w' = i :: issues w)
  ∧ ∀ h, r = Ret h → ∃ i, i ∈ marked op w' ∧ h = multica_handle op i.
Proof.
  intros op Hn. unfold multica_dispatch. m_unfold. fold op.
  destruct (find_answers op w) as (r & E & H). rewrite E.
  destruct r as [[i|]|e]; [| |split; [by left|done]].
  { split; [by left|]. intros h [= <-]. exists i. by split; [apply (H (Some i))|]. }
  specialize (H None eq_refl Hn).
  pose proof (create_adds (title_from_task (Dreq.task request)) (description_for container_text request) w) as C.
  destruct (create_issue _ _ w) as [[i|e] w'].
  - destruct C as [Hd Hi]. split; [right; eauto|]. intros h [= <-]. exists i. split; [|done].
    unfold marked. rewrite Hi. cbn [List.filter]. unfold matches_marker at 1.
    subst op. rewrite Hd, description_marked. by left.
  - split; [|done]. destruct C as [Hi|(i & Hd & Hi)]; [by left|right; eauto].
Qed.

(** What an attempt keeps: at most one issue, found by the next search. *)
Definition findable (operation_id : string) (w : W) : Prop :=
  (length (found operation_id w) ≤ 20)%nat ∧ (length (marked operation_id w) ≤ 1)%nat
  ∧ (marked operation_id w = [] → (length (found operation_id w) < 20)%nat).

Lemma attempt_keeps request w :
  let op := Dreq.operation_id request in
  let w' := (multica_dispatch container_text request w).2 in
  findable op w →
  findable op w'
  ∧ ∀ other, occurs (operation_marker other) (description_for container_text request) = false →
      marked other w' = marked other w.
Proof.
  intros op w' (H1 & H2 & H3). subst w'. pose proof (dispatch_once request w H1) as D. fold op in D.
  destruct (multica_dispatch container_text request w) as [r w1]. cbn [snd].
  destruct D as [[Hi|(Hn & i & Hd & Hi)] _]; unfold findable, marked, found in *; rewrite Hi; [done|].
  assert (Hm : matches_marker i op = true).
  { unfold matches_marker. rewrite Hd. apply description_marked. }
  cbn [List.filter]. rewrite Hm, (marker_has_id op _ Hm), Hn. cbn [length].
  specialize (H3 Hn). split; [split; [lia|done]|].
  intros other Ho. assert (Hm' : matches_marker i other = false).
  { unfold matches_marker. by rewrite Hd. }
  by rewrite Hm'.
Qed.

Lemma attempts_keep n request w :
  let op := Dreq.operation_id request in
  findable op w →
  findable op (dispatch_again n request w)
  ∧ ∀ other, occurs (operation_marker other) (description_for container_text request) = false →
      marked other (dispatch_again n request w) = marked other w.
Proof.
  cbn zeta. revert w. induction n as [|n IH]; intros w Hw; [done|]. cbn [dispatch_again].
  destruct (attempt_keeps request w Hw) as [Hw1 E1]. destruct (IH _ Hw1) as [Hw2 E2].
  split; [done|]. intros other Ho. by rewrite E2, E1.
Qed.

End service.

(** * A service in memory *)

Section memory.

(** Issue numbers count up; the newest issue is first. *)
Definition memory_issue (n : nat) (title description : string) : MulticaIssue := {|
  i_id := pretty n; i_identifier := ("YUA-" ++ pretty n)%string; i_title := title;
  i_description := description; i_status := "todo"; i_url := None;
  i_updated_at := Some "2026-01-01T00:00:00+00:00" |}.

#[global] Instance memory_client : MulticaClient (list MulticaIssue) := {
  create_issue title description := λ w,
    let i := memory_issue (S (length w)) title description in (Ret i, i :: w);
  get_issue ref := λ w,
    match List.find (λ i, bool_decide (i_identifier i = ref)) w with
    | Some i => (Ret i, w)
    | None => (Raise (DelegationError "multica_request_failed" "HTTP 404"), w)
    end;
  search_issues words limit := λ w,
    (Ret (take limit (List.filter (λ i, occurs words (i_description i)) w)), w);
  list_issues limit offset := λ w, (Ret (take limit (drop offset w)), w)
}.

#[global] Instance memory_service : MulticaService (list MulticaIssue).
Proof.
  refine {| issues := λ w, w |}.
  - intros words limit w. eexists. split; [done|]. intros l [= <-]. split.
    + intros i Hi. apply elem_of_take in Hi as (k & Hk & _).
      apply list_elem_of_lookup_2, list_elem_of_In, filter_In in Hk as [Hk _]. by apply list_elem_of_In.
    + intros Hn i Hi Ho. rewrite take_ge by done. apply list_elem_of_In, filter_In.
      split; [by apply list_elem_of_In|done].
  - intros title description w. done.
Defined.
End memory.

Definition demo_request (operation_id : string) : DelegationRequest := {|
  Dreq.operation_id := operation_id; Dreq.project_id := "p1"; Dreq.task := "write the report";
  Dreq.initiator_run_id := Some "run-1"; Dreq.context_refs := []; Dreq.budget := [];
  Dreq.metadata := [] |}.


(** An operation whose id begins with another's is taken for it. *)
Lemma marker_of_longer_operation :
  matches_marker (memory_issue 1 "" (operation_marker "op-12")) "op-1" = true.
Proof. by vm_compute. Qed.
