(* ===== verification/Delegation.v ===== *)
(** Delegating tasks to external executors: the table [channel_delegations]
    ([storage/postgres/models_business.py]), its half of
    [repositories/channel_delegation_repository.py] and [services/delegation_service.py].

    A delegation is stored before its executor is called, so that a crash leaves a row that
    [converge] dispatches again.  Every method is a sequence of transactions; [others] is what
    other processes commit between two of them.  An UPDATE writes the columns in which the object
    differs from what was loaded ([merge]); the row may have changed since.  A rollback undoes
    the tables, not what an executor did to the world. *)

From stdpp Require Import prelude gmap strings list fin_maps.
From Stdlib Require Import ZArith Lia.
From S2P Require Import Prelude PyLib Permissions SandboxScope Coding Executors Governance.
Local Open Scope Z_scope.

(** * The table *)

Inductive DispatchState := DsPending | DsDispatched | DsCollecting | DsReclaimed | DsFailed.

#[global] Instance DispatchState_eq_dec : EqDecision DispatchState.
Proof. solve_decision. Defined.

Module Dlg.
Record ChannelDelegation := mk {
  id : string;
  operation_id : string;
  project_id : string;
  initiator_run_id : option string;
  executor_key : string;
  task : string;
  request_json : json;
  session_id : option string;
  turn_id : option string;
  external_ref : option string;
  external_url : option string;
  dispatch_state : DispatchState;
  attempts : Z;
  remote_status : option string;
  remote_status_synced_at : option datetime;
  result_summary : option string;
  result_json : json;
  artifact_path : option string;
  owner_token : option string;
  lease_expires_at : option datetime;
  error_code : option string;
  last_error_at : option datetime;
  created_by : option string;
  created_at : datetime;
  updated_at : datetime
}.
#[global] Instance eta : Eta ChannelDelegation := λ r,
  mk (id r) (operation_id r) (project_id r) (initiator_run_id r) (executor_key r) (task r)
    (request_json r) (session_id r) (turn_id r) (external_ref r) (external_url r)
    (dispatch_state r) (attempts r) (remote_status r) (remote_status_synced_at r)
    (result_summary r) (result_json r) (artifact_path r) (owner_token r) (lease_expires_at r)
    (error_code r) (last_error_at r) (created_by r) (created_at r) (updated_at r).
#[global] Instance eq_dec : EqDecision ChannelDelegation.
Proof. solve_decision. Defined.
End Dlg.
Abbreviation ChannelDelegation := Dlg.ChannelDelegation.

(** The rows by their operation id, the tables they refer to, and what executors change. *)
Module DS.
Record DelegationStore (W : Type) := mk {
  delegations : gmap string ChannelDelegation;
  governance : GovernanceDB;
  outside : Outside W
}.
Arguments mk {W}.
Arguments delegations {W}.
Arguments governance {W}.
Arguments outside {W}.
#[global] Instance eta {W} : Eta (DelegationStore W) := λ s,
  mk (delegations s) (governance s) (outside s).
End DS.
Abbreviation DelegationStore := DS.DelegationStore.

Section delegation.
Context {W : Type}.
Implicit Types s : DelegationStore W.

Definition rolled_back s s' : DelegationStore W :=
  s <| DS.outside ::= λ o, o <| Out.world := Out.world (DS.outside s') |> |>.

(** The statements up to a commit; an exception rolls them back. *)
Definition transaction {A} (m : M (DelegationStore W) A) : M (DelegationStore W) A := λ s,
  match m s with
  | (Ret a, s') => (Ret a, s')
  | (Raise e, s') => (Raise e, rolled_back s s')
  end.

Definition on_outside {A} (m : M (Outside W) A) : M (DelegationStore W) A := λ s,
  let '(r, o) := m (DS.outside s) in (r, s <| DS.outside := o |>).

Definition on_governance {A} (m : M GovernanceDB A) : M (DelegationStore W) A := λ s,
  let '(r, g) := m (DS.governance s) in (r, s <| DS.governance := g |>).

(** * Data access *)

Definition EXECUTOR_KEYS : list string := ["opencode"; "codex"; "multica"].

Definition delegation_fits (r : ChannelDelegation) : bool :=
  Coding.fits 128 (Dlg.operation_id r) && Coding.fits 64 (Dlg.project_id r)
  && Coding.opt_fits 64 (Dlg.initiator_run_id r) && Coding.fits 32 (Dlg.executor_key r)
  && Coding.opt_fits 64 (Dlg.session_id r) && Coding.opt_fits 64 (Dlg.turn_id r)
  && Coding.opt_fits 191 (Dlg.external_ref r) && Coding.opt_fits 1024 (Dlg.external_url r)
  && Coding.opt_fits 32 (Dlg.remote_status r) && Coding.opt_fits 512 (Dlg.artifact_path r)
  && Coding.opt_fits 64 (Dlg.error_code r) && Coding.opt_fits 64 (Dlg.created_by r).

(** [str(v) if v else None]. *)
Definition some_text (v : option string) : option string := if falsy_str v then None else v.

(** The intent of a delegation. *)
Definition new_delegation (fresh_id operation_id project_id executor_key task : string)
    (request_json : json) (initiator_run_id created_by : option string) (now : datetime)
    : ChannelDelegation := {|
  Dlg.id := fresh_id; Dlg.operation_id := operation_id; Dlg.project_id := project_id;
  Dlg.initiator_run_id := some_text initiator_run_id; Dlg.executor_key := executor_key;
  Dlg.task := task; Dlg.request_json := request_json; Dlg.session_id := None; Dlg.turn_id := None;
  Dlg.external_ref := None; Dlg.external_url := None; Dlg.dispatch_state := DsPending;
  Dlg.attempts := 0; Dlg.remote_status := None; Dlg.remote_status_synced_at := None;
  Dlg.result_summary := None; Dlg.result_json := JObj []; Dlg.artifact_path := None;
  Dlg.owner_token := None; Dlg.lease_expires_at := None; Dlg.error_code := None;
  Dlg.last_error_at := None; Dlg.created_by := some_text created_by; Dlg.created_at := now;
  Dlg.updated_at := now |}.

(** Its INSERT: the widths, the check, the unique operation id and the references. *)
Definition add_delegation (fresh_id operation_id project_id executor_key task : string)
    (request_json : json) (initiator_run_id created_by : option string) (now : datetime)
    : M (DelegationStore W) ChannelDelegation :=
  let row := new_delegation fresh_id operation_id project_id executor_key task request_json
               initiator_run_id created_by now in
  s ← gets id;
  if negb (delegation_fits row) then raise (DataError "value too long")
  else if negb (bool_decide (executor_key ∈ EXECUTOR_KEYS))
  then raise (IntegrityError "ck_channel_delegations_executor_key")
  else if any (λ r, bool_decide (Dlg.id r = fresh_id)) (DS.delegations s)
  then raise (IntegrityError "channel_delegations_pkey")
  else if bool_decide (is_Some (DS.delegations s !! operation_id))
  then raise (IntegrityError "uq_channel_delegations_operation_id")
  else if bool_decide (GDB.projects (DS.governance s) !! project_id = None)
  then raise (IntegrityError "fk_channel_delegations_project_id")
  else if negb (match some_text initiator_run_id with
                | Some run => bool_decide (run ∈ GDB.run_ids (DS.governance s))
                | None => true
                end)
  then raise (IntegrityError "fk_channel_delegations_initiator_run_id")
  else
    _ ← modify (λ s, s <| DS.delegations ::= <[operation_id := row]> |>);
    mret row.

(** With or without the row lock. *)
Definition get_by_operation_id (operation_id : string)
    : M (DelegationStore W) (option ChannelDelegation) :=
  gets (λ s, DS.delegations s !! operation_id).

(** [ORDER BY created_at, id]. *)
Definition delegation_oldest (a b : ChannelDelegation) : bool :=
  if Dlg.created_at a =? Dlg.created_at b then str_leb (Dlg.id a) (Dlg.id b)
  else Dlg.created_at a <=? Dlg.created_at b.

Definition list_for_project (project_id : string) : M (DelegationStore W) (list ChannelDelegation) :=
  gets (λ s, sort_by delegation_oldest
    (select (λ r, bool_decide (Dlg.project_id r = project_id)) (DS.delegations s))).

Definition unsettled (state : DispatchState) : bool :=
  bool_decide (state ∈ [DsPending; DsDispatched; DsCollecting]).

(** [ORDER BY updated_at, id]. *)
Definition delegation_stalest (a b : ChannelDelegation) : bool :=
  if Dlg.updated_at a =? Dlg.updated_at b then str_leb (Dlg.id a) (Dlg.id b)
  else Dlg.updated_at a <=? Dlg.updated_at b.

Definition list_unsettled_leased (now : datetime) (limit : nat)
    : M (DelegationStore W) (list ChannelDelegation) :=
  gets (λ s, take limit (sort_by delegation_stalest (select (λ r,
    unsettled (Dlg.dispatch_state r)
    && match Dlg.lease_expires_at r with None => true | Some e => e <? now end)
    (DS.delegations s)))).

(** The columns in which the object differs from what was loaded. *)
Definition merge (loaded object row : ChannelDelegation) : ChannelDelegation :=
  let pick {A} `{EqDecision A} (f : ChannelDelegation → A) : A :=
    if decide (f object = f loaded) then f row else f object in
  {| Dlg.id := Dlg.id row; Dlg.operation_id := Dlg.operation_id row;
     Dlg.project_id := Dlg.project_id row; Dlg.initiator_run_id := Dlg.initiator_run_id row;
     Dlg.executor_key := Dlg.executor_key row; Dlg.task := Dlg.task row;
     Dlg.request_json := Dlg.request_json row;
     Dlg.session_id := pick Dlg.session_id; Dlg.turn_id := pick Dlg.turn_id;
     Dlg.external_ref := pick Dlg.external_ref; Dlg.external_url := pick Dlg.external_url;
     Dlg.dispatch_state := pick Dlg.dispatch_state; Dlg.attempts := pick Dlg.attempts;
     Dlg.remote_status := pick Dlg.remote_status;
     Dlg.remote_status_synced_at := pick Dlg.remote_status_synced_at;
     Dlg.result_summary := pick Dlg.result_summary; Dlg.result_json := pick Dlg.result_json;
     Dlg.artifact_path := pick Dlg.artifact_path; Dlg.owner_token := pick Dlg.owner_token;
     Dlg.lease_expires_at := pick Dlg.lease_expires_at; Dlg.error_code := pick Dlg.error_code;
     Dlg.last_error_at := pick Dlg.last_error_at; Dlg.created_by := Dlg.created_by row;
     Dlg.created_at := Dlg.created_at row; Dlg.updated_at := pick Dlg.updated_at |}.

(** The flush of an object: no UPDATE when nothing changed, else [onupdate] dates it.  The result
    is the object, which the commit and [refresh] read again. *)
Definition flush (loaded object : ChannelDelegation) (now : datetime)
    : M (DelegationStore W) ChannelDelegation :=
  if bool_decide (object = loaded) then mret object
  else
    s ← gets id;
    match DS.delegations s !! Dlg.operation_id loaded with
    | None => raise (RuntimeError "StaleDataError")
    | Some row =>
        let row := merge loaded (object <| Dlg.updated_at := now |>) row in
        if negb (delegation_fits row) then raise (DataError "value too long")
        else
          _ ← modify (λ s, s <| DS.delegations ::= <[Dlg.operation_id loaded := row]> |>);
          mret row
    end.

(** [await db.refresh(row)]. *)
Definition refresh (operation_id : string) : M (DelegationStore W) ChannelDelegation :=
  row ← get_by_operation_id operation_id;
  match row with
  | Some row => mret row
  | None => raise (RuntimeError "InvalidRequestError")
  end.

(** * The service *)

Definition DEFAULT_LEASE_SECONDS : Z := 120.
Definition SANDBOX_EXECUTOR_KEYS : list string := ["opencode"; "codex"].

Context (executors : list (string * DelegatedExecutor W)) (lease_seconds : Z)
  (exn_text : exn → string) (container_text : json → string).

(** [self._executors.get(key)]; registering a key again replaces its executor. *)
Fixpoint executor_of (key : string) (l : list (string * DelegatedExecutor W))
    : option (DelegatedExecutor W) :=
  match l with
  | [] => None
  | (k, e) :: l =>
      match executor_of key l with
      | Some e => Some e
      | None => if bool_decide (k = key) then Some e else None
      end
  end.

Definition capabilities_of (key : string) : list (string * bool) :=
  match executor_of key executors with Some e => capabilities e | None => [] end.

Definition not_found (operation_id : string) : exn :=
  DelegationError "delegation_not_found" ("委派操作不存在: " ++ operation_id)%string.

Definition require_executor (executor_key : string)
    : M (DelegationStore W) (DelegatedExecutor W) :=
  match executor_of executor_key executors with
  | Some e => mret e
  | None => raise (DelegationError "executor_unavailable" ("执行器未注册或不可用: " ++ executor_key)%string)
  end.

(** The unified view: the row, what is read off its JSON columns, the executor's abilities. *)
Record DelegationView := {
  v_row : ChannelDelegation;
  v_governance_task_id : json;
  v_artifacts : json;
  v_usage : json;
  v_capabilities : list (string * bool)
}.

Definition field_or (key : string) (d : json) (v : json) : json :=
  match jget key v with Some w => if truthy w then w else d | None => d end.

Definition serialize (row : ChannelDelegation) (abilities : list (string * bool)) : DelegationView := {|
  v_row := row;
  v_governance_task_id := default JNull (jget "governance_task_id" (json_or_empty (Dlg.request_json row)));
  v_artifacts := field_or "artifacts" (JArr []) (json_or_empty (Dlg.result_json row));
  v_usage := field_or "usage" (JObj []) (json_or_empty (Dlg.result_json row));
  v_capabilities := abilities |}.

Definition claim_row (token : string) (state : option DispatchState) (now : datetime)
    (row : ChannelDelegation) : ChannelDelegation :=
  row <| Dlg.owner_token := Some token |> <| Dlg.lease_expires_at := Some (now + seconds lease_seconds) |>
      <| Dlg.attempts ::= Z.succ |>
      <| Dlg.dispatch_state := default (Dlg.dispatch_state row) state |>.

Definition release_row (row : ChannelDelegation) : ChannelDelegation :=
  row <| Dlg.owner_token := None |> <| Dlg.lease_expires_at := None |>.

(** [row.dispatch_state = "dispatched"; self._release(row)]. *)
Definition reopen_row (row : ChannelDelegation) : ChannelDelegation :=
  release_row (row <| Dlg.dispatch_state := DsDispatched |>).

Definition synced (status : option string) (now : datetime) (row : ChannelDelegation)
    : ChannelDelegation :=
  if falsy_str status then row
  else row <| Dlg.remote_status := status |> <| Dlg.remote_status_synced_at := Some now |>.

Definition apply_handle (handle : DelegationHandle) (now : datetime) (row : ChannelDelegation)
    : ChannelDelegation :=
  let row :=
    row <| Dlg.session_id := h_session_id handle |> <| Dlg.turn_id := h_turn_id handle |>
        <| Dlg.external_ref := h_external_ref handle |> <| Dlg.external_url := h_external_url handle |> in
  let row := synced (h_remote_status handle) now row in
  release_row (row <| Dlg.dispatch_state := DsDispatched |> <| Dlg.error_code := None |>).

Definition handle_of (row : ChannelDelegation) : DelegationHandle := {|
  h_operation_id := Dlg.operation_id row; h_executor_key := Dlg.executor_key row;
  h_session_id := Dlg.session_id row; h_turn_id := Dlg.turn_id row;
  h_external_ref := Dlg.external_ref row; h_external_url := Dlg.external_url row;
  h_remote_status := None |}.

Definition request_payload (request : DelegationRequest) : json :=
  JObj [("context_refs", JArr (Dreq.context_refs request)); ("budget", JObj (Dreq.budget request));
        ("metadata", JObj (Dreq.metadata request));
        ("governance_task_id", default JNull (assoc_last "governance_task_id" (Dreq.metadata request)))].

(** [payload.get(key) or {}], of an object. *)
Definition payload_fields (key : string) (payload : json) : list (string * json) :=
  match jget key payload with Some (JObj l) => l | _ => [] end.

Definition payload_items (key : string) (payload : json) : list json :=
  match jget key payload with Some (JArr l) => l | _ => [] end.

Definition request_from_row (row : ChannelDelegation) : DelegationRequest :=
  let payload := json_or_empty (Dlg.request_json row) in {|
    Dreq.operation_id := Dlg.operation_id row; Dreq.project_id := Dlg.project_id row;
    Dreq.task := Dlg.task row; Dreq.initiator_run_id := Dlg.initiator_run_id row;
    Dreq.context_refs := payload_items "context_refs" payload;
    Dreq.budget := payload_fields "budget" payload;
    Dreq.metadata := payload_fields "metadata" payload |}.

Definition with_error (code : string) (now : datetime) (row : ChannelDelegation) : ChannelDelegation :=
  release_row (row <| Dlg.error_code := Some code |> <| Dlg.last_error_at := Some now |>).

Definition record_error (operation_id error_code : string) (now : datetime)
    : M (DelegationStore W) unit :=
  transaction (
    pending ← get_by_operation_id operation_id;
    match pending with
    | None => raise (not_found operation_id)
    | Some pending => _ ← flush pending (with_error error_code now pending) now; mret tt
    end).

(** An enqueueing that fails is left to the reconciliation of coding turns. *)
Definition enqueue (executor : DelegatedExecutor W) (handle : DelegationHandle) (plan_only : bool)
    : M (DelegationStore W) unit := λ s,
  match ex_enqueue executor with
  | None => (Ret tt, s)
  | Some f => (Ret tt, (on_outside (f handle plan_only) s).2)
  end.

(** The names a dispatch draws: the operation, the row, the lease, and those of its executor. *)
Record DelegationFresh := {
  fresh_operation : string;
  fresh_row : string;
  fresh_token : string;
  fresh_dispatch : DispatchFresh
}.

Definition DISPATCH_FAILED : string := "executor_dispatch_failed".

(** The call of the executor and what follows it: [now] is read after the call. *)
Definition deliver (executor : DelegatedExecutor W) (request : DelegationRequest)
    (fresh : DispatchFresh) (now : datetime) : M (DelegationStore W) DelegationView := λ s,
  match on_outside (ex_dispatch executor fresh request) s with
  | (Raise e, s') =>
      let code := match e with DelegationError code _ => code | _ => DISPATCH_FAILED end in
      (_ ← record_error (Dreq.operation_id request) code now;
       raise (match e with
              | DelegationError _ _ => e
              | _ => DelegationError DISPATCH_FAILED (exn_text e)
              end)) (rolled_back s s')
  | (Ret handle, s') =>
      match (row ← refresh (Dreq.operation_id request);
             flush row (apply_handle handle now row) now) s' with
      | (Raise e, s'') => (Raise e, rolled_back s s'')
      | (Ret row, s'') =>
          (_ ← enqueue executor handle (plan_only_of (Dreq.metadata request));
           mret (serialize row (capabilities executor))) s''
      end
  end.

(** The first transaction of [dispatch]. *)
Definition store_intent (executor_key : string) (request : DelegationRequest) (uid : option string)
    (fresh : DelegationFresh) (now : datetime) : M (DelegationStore W) ChannelDelegation :=
  transaction (
    row ← add_delegation (fresh_row fresh) (Dreq.operation_id request) (Dreq.project_id request)
            executor_key (Dreq.task request) (request_payload request)
            (Dreq.initiator_run_id request) uid now;
    flush row (claim_row (fresh_token fresh) None now row) now).

Definition dispatch (executor_key : string) (request : DelegationRequest) (uid : option string)
    (fresh : DelegationFresh) (others : DelegationStore W → DelegationStore W) (now now2 : datetime)
    : M (DelegationStore W) DelegationView :=
  executor ← require_executor executor_key;
  let operation_id :=
    if bool_decide (Dreq.operation_id request = "") then fresh_operation fresh
    else Dreq.operation_id request in
  let request := request <| Dreq.operation_id := operation_id |> in
  _ ← store_intent executor_key request uid fresh now;
  _ ← modify others;
  deliver executor request (fresh_dispatch fresh) now2.

(** The columns of [Agent] read here; [resource] holds those of its permissions. *)
Record AgentRow := {
  a_slug : string;
  a_is_subagent : bool;
  a_config_json : json;
  a_resource : Resource
}.

Definition DEFAULT_AGENT_SLUG : string := "default-chatbot".
Definition ADMIN_ROLES : list string := ["admin"; "superadmin"].

Definition user_can_access_agent (user : User) (agent : AgentRow) : outcome bool :=
  match resolve_agent_permission container_text user (a_resource agent) with
  | Ret p => Ret (negb (bool_decide (p = PNone)))
  | Raise e => Raise e
  end.

Definition user_can_manage_agent (user : User) (agent : AgentRow) : outcome bool :=
  if bool_decide (a_slug agent = DEFAULT_AGENT_SLUG)
  then Ret (bool_decide (role user ∈ ADMIN_ROLES))
  else
    match resolve_agent_permission container_text user (a_resource agent) with
    | Ret p => Ret (bool_decide (p = PManage))
    | Raise e => Raise e
    end.

Definition returning {A} (r : outcome A) : M (DelegationStore W) A := λ s, (r, s).

(** [get_visible_by_slug] of a main agent, from the table [agents] by slug. *)
Definition get_visible_by_slug (agents : gmap string AgentRow) (slug : string) (user : User)
    : M (DelegationStore W) (option AgentRow) :=
  match agents !! slug with
  | None => mret None
  | Some agent =>
      visible ← returning (user_can_access_agent user agent);
      mret (if visible && negb (a_is_subagent agent) then Some agent else None)
  end.

(** [task.title if not task.description else f"{task.title}\n\n{task.description}"]. *)
Definition task_prompt (task : GovernanceTask) : string :=
  if falsy_str (GTask.description task) then GTask.title task
  else (GTask.title task ++ newline ++ newline ++ default EmptyString (GTask.description task))%string.

Definition dispatch_project_task (agents : gmap string AgentRow) (project_id task_id executor_key : string)
    (user : User) (fresh : DelegationFresh) (others : DelegationStore W → DelegationStore W)
    (now now2 : datetime) : M (DelegationStore W) DelegationView :=
  let uid := default "None"%string (Permissions.user_uid user) in
  if negb (bool_decide (executor_key ∈ SANDBOX_EXECUTOR_KEYS))
  then raise (HTTPException 422 "invalid_executor")
  else
    project ← on_governance (get_active_selectable_for_user project_id uid);
    match project with
    | None => raise (HTTPException 404 "Project 不存在")
    | Some project =>
        task ← on_governance (get_task task_id);
        match task with
        | None => raise (HTTPException 404 "任务不存在")
        | Some task =>
            if negb (bool_decide (GTask.project_id task = GProject.id project))
            then raise (HTTPException 404 "任务不存在")
            else if negb (bool_decide (GTask.status task = Canonical))
                    || falsy_str (GTask.assignee_agent_slug task)
            then raise (HTTPException 409 "task_not_ready")
            else
              let slug := default EmptyString (GTask.assignee_agent_slug task) in
              bound ← on_governance (gets (λ g,
                bool_decide ((GProject.id project, slug) ∈ GDB.project_agents g)));
              agent ← get_visible_by_slug agents slug user;
              match agent with
              | Some agent =>
                  if negb bound then raise (HTTPException 409 "agent_unbound")
                  else
                    manages ← returning (user_can_manage_agent user agent);
                    if negb manages then raise (HTTPException 403 "需要该项目数字员工的管理权限")
                    else
                      scope ← returning (agent_project uid (a_slug agent) (GProject.id project));
                      dispatch executor_key {|
                        Dreq.operation_id := ""; Dreq.project_id := GProject.id project;
                        Dreq.task := task_prompt task; Dreq.initiator_run_id := None;
                        Dreq.context_refs := []; Dreq.budget := [];
                        Dreq.metadata := [
                          ("uid", JStr uid); ("runtime_scope_id", JStr (cache_key scope));
                          ("workdir_relative_path", JStr (GProject.workdir_path project));
                          ("agent_config", json_or_empty (a_config_json agent));
                          ("governance_task_id", JStr (GTask.id task))] |}
                        (Some uid) fresh others now now2
              | None => raise (HTTPException 409 "agent_unbound")
              end
        end
    end.

Definition load (operation_id : string) (project_id : option string)
    : M (DelegationStore W) ChannelDelegation :=
  row ← get_by_operation_id operation_id;
  match row with
  | None => raise (not_found operation_id)
  | Some row =>
      if match project_id with
         | Some p => negb (bool_decide (Dlg.project_id row = p))
         | None => false
         end
      then raise (not_found operation_id) else mret row
  end.

Definition has_handle (row : ChannelDelegation) : bool :=
  negb (falsy_str (Dlg.external_ref row)) || negb (falsy_str (Dlg.turn_id row)).

(** A failing read of the executor leaves the view as it was. *)
Definition refresh_status (executor : DelegatedExecutor W) (row : ChannelDelegation) (now : datetime)
    : M (DelegationStore W) DelegationView := λ s,
  match on_outside (ex_status executor (handle_of row)) s with
  | (Ret (Some remote), s') =>
      if bool_decide (Some remote = Dlg.remote_status row)
      then (Ret (serialize row (capabilities executor)), s')
      else
        transaction (
          row ← flush row (row <| Dlg.remote_status := Some remote |>
                               <| Dlg.remote_status_synced_at := Some now |>) now;
          mret (serialize row (capabilities executor))) s'
  | (_, s') => (Ret (serialize row (capabilities executor)), s')
  end.

Definition status (operation_id : string) (project_id : option string) (now : datetime)
    : M (DelegationStore W) DelegationView :=
  row ← load operation_id project_id;
  match executor_of (Dlg.executor_key row) executors with
  | None => mret (serialize row [])
  | Some executor =>
      if bool_decide (Dlg.dispatch_state row = DsDispatched) && has_handle row
      then refresh_status executor row now
      else mret (serialize row (capabilities executor))
  end.

(** The path of a materialised result, relative to the working directory. *)
Definition artifact_path_of (operation_id : string) : string :=
  (".yuanlei/delegations/" ++ operation_id ++ "/result.md")%string.

(** [_materialize]: [write] creates the directories and the file of the working directory. *)
Definition materialize (write : string → string → M W unit) (operation_id text : string)
    : M (DelegationStore W) string :=
  let relative := artifact_path_of operation_id in
  _ ← on_outside (on_world (write ("/" ++ relative)%string text));
  mret relative.

Definition with_result (result : DelegationResult) (artifact_path : option string) (now : datetime)
    (row : ChannelDelegation) : ChannelDelegation :=
  let row :=
    row <| Dlg.result_summary := r_summary result |>
        <| Dlg.result_json := JObj [("artifacts", JArr (r_artifacts result)); ("usage", r_usage result)] |>
        <| Dlg.artifact_path := artifact_path |> in
  let row := synced (r_remote_status result) now row in
  row <| Dlg.dispatch_state := DsReclaimed |> <| Dlg.owner_token := None |>
      <| Dlg.lease_expires_at := None |> <| Dlg.error_code := r_error_code result |>.

(** The first transaction of [collect]: the answer of a delegation that is reclaimed, or the
    claimed row and its executor. *)
Definition claim_collect (operation_id : string) (project_id : option string) (token : string)
    (now : datetime) : M (DelegationStore W) (DelegationView + (ChannelDelegation * DelegatedExecutor W)) :=
  transaction (
    row ← load operation_id project_id;
    if bool_decide (Dlg.dispatch_state row = DsReclaimed)
    then mret (inl (serialize row (capabilities_of (Dlg.executor_key row))))
    else if negb (bool_decide (Dlg.dispatch_state row ∈ [DsDispatched; DsCollecting]))
    then raise (DelegationError "delegation_state_invalid" "当前状态不可回收")
    else
      executor ← require_executor (Dlg.executor_key row);
      row ← flush row (claim_row token (Some DsCollecting) now row) now;
      mret (inr (row, executor))).

(** The call of the executor and the second transaction, on the [row] that the first one left. *)
Definition settle_collect (row : ChannelDelegation) (executor : DelegatedExecutor W)
    (workdir : option (string → string → M W unit)) (now now2 : datetime)
    : M (DelegationStore W) DelegationView := λ s,
  match on_outside (ex_collect executor (handle_of row)) s with
  | (Raise (DelegationError code msg), s') =>
      (_ ← flush row (reopen_row row) now2;
       raise (DelegationError code msg)) s'
  | (Raise e, s') => (Raise e, rolled_back s s')
  | (Ret result, s') =>
      transaction (
        artifact_path ←
          match workdir with
          | Some write =>
              if falsy_str (r_text result) then mret None
              else path ← materialize write (Dlg.operation_id row) (default EmptyString (r_text result));
                   mret (Some path)
          | None => mret None
          end;
        row ← flush row (with_result result artifact_path now row) now2;
        mret (serialize row (capabilities executor))) s'
  end.

Definition collect (operation_id : string) (project_id : option string)
    (workdir : option (string → string → M W unit)) (token : string)
    (others : DelegationStore W → DelegationStore W) (now now2 : datetime)
    : M (DelegationStore W) DelegationView :=
  claimed ← claim_collect operation_id project_id token now;
  match claimed with
  | inl view => mret view
  | inr (row, executor) =>
      _ ← modify others;
      settle_collect row executor workdir now now2
  end.

Definition list_delegations (project_id : string) : M (DelegationStore W) (list DelegationView) :=
  rows ← list_for_project project_id;
  mret (map (λ row, serialize row (capabilities_of (Dlg.executor_key row))) rows).

(** * Convergence *)

Record ConvergeCounts := { redispatched : nat; released : nat; reprojected : nat; failed : nat }.
Definition no_counts : ConvergeCounts :=
  {| redispatched := 0; released := 0; reprojected := 0; failed := 0 |}.

Definition converge_pending (row : ChannelDelegation) (fresh : DispatchFresh) (now : datetime)
    (counts : ConvergeCounts) : M (DelegationStore W) ConvergeCounts := λ s,
  match executor_of (Dlg.executor_key row) executors with
  | None => (_ ← flush row (release_row row) now; mret counts) s
  | Some executor =>
      let request := request_from_row row in
      match on_outside (ex_dispatch executor fresh request) s with
      | (Raise _, s') =>
          (row ← get_by_operation_id (Dlg.operation_id row);
           match row with
           | None => raise (not_found (Dreq.operation_id request))
           | Some row =>
               _ ← flush row (with_error DISPATCH_FAILED now row) now;
               mret {| redispatched := redispatched counts; released := released counts;
                       reprojected := reprojected counts; failed := S (failed counts) |}
           end) (rolled_back s s')
      | (Ret handle, s') =>
          (_ ← flush row (apply_handle handle now row) now;
           _ ← enqueue executor handle (plan_only_of (Dreq.metadata request));
           mret {| redispatched := S (redispatched counts); released := released counts;
                   reprojected := reprojected counts; failed := failed counts |}) s'
      end
  end.

Definition converge_dispatched (row : ChannelDelegation) (now : datetime) (counts : ConvergeCounts)
    : M (DelegationStore W) ConvergeCounts := λ s,
  let refused s := (_ ← flush row (release_row row) now; mret counts) s in
  match executor_of (Dlg.executor_key row) executors with
  | None => refused s
  | Some executor =>
      if negb (has_handle row) then refused s
      else
        match on_outside (ex_status executor (handle_of row)) s with
        | (Raise _, s') => refused s'
        | (Ret remote, s') =>
            let row' := match remote with
                        | Some remote => row <| Dlg.remote_status := Some remote |>
                                             <| Dlg.remote_status_synced_at := Some now |>
                        | None => row
                        end in
            (_ ← flush row (release_row row') now;
             mret {| redispatched := redispatched counts; released := released counts;
                     reprojected := S (reprojected counts); failed := failed counts |}) s'
        end
  end.

Definition lease_held (now : datetime) (row : ChannelDelegation) : bool :=
  match Dlg.lease_expires_at row with Some e => now <=? e | None => false end.

(** One listed delegation, under its row lock. *)
Definition converge_one (operation_id : string) (fresh : DispatchFresh) (now : datetime)
    (counts : ConvergeCounts) : M (DelegationStore W) ConvergeCounts :=
  transaction (
    row ← get_by_operation_id operation_id;
    match row with
    | None => mret counts
    | Some row =>
        if negb (unsettled (Dlg.dispatch_state row)) || lease_held now row then mret counts
        else
          match Dlg.dispatch_state row with
          | DsPending => converge_pending row fresh now counts
          | DsCollecting =>
              _ ← flush row (reopen_row row) now;
              mret {| redispatched := redispatched counts; released := S (released counts);
                      reprojected := reprojected counts; failed := failed counts |}
          | _ => converge_dispatched row now counts
          end
    end).

(** [turns] gives each delegation its fresh names and what happens before its turn. *)
Fixpoint converge_each
    (turns : string → DispatchFresh * (DelegationStore W → DelegationStore W))
    (operation_ids : list string) (now : datetime) (counts : ConvergeCounts)
    : M (DelegationStore W) ConvergeCounts :=
  match operation_ids with
  | [] => mret counts
  | operation_id :: operation_ids =>
      _ ← modify (turns operation_id).2;
      counts ← converge_one operation_id (turns operation_id).1 now counts;
      converge_each turns operation_ids now counts
  end.

Definition converge turns (limit : nat) (now : datetime) : M (DelegationStore W) ConvergeCounts :=
  listed ← list_unsettled_leased now limit;
  converge_each turns (map Dlg.operation_id listed) now no_counts.
End delegation.
