(* ===== verification/DelegationProps.v ===== *)
(** What holds of delegations ([Delegation.v]): the shape of their rows and what no operation
    changes, what a dispatch leaves on each branch, the request a crash leaves to be dispatched
    again, and what a convergence settles. *)

From stdpp Require Import prelude gmap strings list fin_maps.
From Stdlib Require Import ZArith Lia.
From S2P Require Import Prelude PyLib Permissions SandboxScope Coding Executors Multica Governance Delegation.
Local Open Scope Z_scope.

(** * Rows *)

(** A lease has an owner; a delegation that was not dispatched has no handle. *)
Record sound_row (operation_id : string) (r : ChannelDelegation) : Prop := {
  sound_key : Dlg.operation_id r = operation_id;
  sound_fits : delegation_fits r = true;
  sound_executor : Dlg.executor_key r ∈ EXECUTOR_KEYS;
  sound_lease : Dlg.owner_token r = None ↔ Dlg.lease_expires_at r = None;
  sound_attempts : 0 <= Dlg.attempts r;
  sound_failed : Dlg.dispatch_state r ≠ DsFailed;
  sound_pending : Dlg.dispatch_state r = DsPending → has_handle r = false ∧ Dlg.result_summary r = None
}.

(** What was asked for never changes, attempts are counted up, and a delegation that was
    dispatched is never pending again. *)
Record evolves (r r' : ChannelDelegation) : Prop := {
  evolves_id : Dlg.id r' = Dlg.id r;
  evolves_operation : Dlg.operation_id r' = Dlg.operation_id r;
  evolves_project : Dlg.project_id r' = Dlg.project_id r;
  evolves_initiator : Dlg.initiator_run_id r' = Dlg.initiator_run_id r;
  evolves_executor : Dlg.executor_key r' = Dlg.executor_key r;
  evolves_task : Dlg.task r' = Dlg.task r;
  evolves_request : Dlg.request_json r' = Dlg.request_json r;
  evolves_creator : Dlg.created_by r' = Dlg.created_by r;
  evolves_created : Dlg.created_at r' = Dlg.created_at r;
  evolves_attempts : Dlg.attempts r <= Dlg.attempts r';
  evolves_pending : Dlg.dispatch_state r' = DsPending → Dlg.dispatch_state r = DsPending
}.

#[global] Instance evolves_preorder : PreOrder evolves.
Proof.
  split.
  - intros r. by split.
  - intros r r' r'' [] []. split; try congruence; [lia|tauto].
Qed.

Lemma merge_fresh row object :
  evolves row object → merge row object row = object.
Proof.
  intros []. destruct row, object. unfold merge. cbn in *. subst.
  f_equal; case_decide; congruence.
Qed.

Section store.
Context {W : Type}.
Implicit Types s : DelegationStore W.

Definition sound s : Prop :=
  ∀ k r, DS.delegations s !! k = Some r → sound_row k r.

Definition grows s s' : Prop :=
  ∀ k r, DS.delegations s !! k = Some r → ∃ r', DS.delegations s' !! k = Some r' ∧ evolves r r'.

(** What a step may do to the table. *)
Definition proceeds s s' : Prop := sound s → sound s' ∧ grows s s'.

#[global] Instance proceeds_preorder : PreOrder proceeds.
Proof.
  split.
  - intros s Hs. split; [done|]. intros k r Hr. by exists r.
  - intros s s' s'' H1 H2 Hs. destruct (H1 Hs) as [Hs' G1]. destruct (H2 Hs') as [Hs'' G2].
    split; [done|]. intros k r Hr. destruct (G1 k r Hr) as (r' & Hr' & E1).
    destruct (G2 k r' Hr') as (r'' & Hr'' & E2). exists r''. split; [done|]. by etrans.
Qed.

Lemma proceeds_sound s s' : (sound s → proceeds s s') → proceeds s s'.
Proof. intros H Hs. by apply H. Qed.

Definition steady {A} (m : M (DelegationStore W) A) : Prop := ∀ s, proceeds s (m s).2.

Lemma proceeds_same s s' : DS.delegations s' = DS.delegations s → proceeds s s'.
Proof.
  intros E Hs. split.
  - intros k r Hr. apply Hs. by rewrite <- E.
  - intros k r Hr. exists r. by rewrite E.
Qed.

Lemma rolled_back_table s s' : DS.delegations (rolled_back s s') = DS.delegations s.
Proof. done. Qed.

Lemma rolled_back_self s : rolled_back s s = s.
Proof. by destruct s as [? ? []]. Qed.

Lemma on_outside_table {A} (m : M (Outside W) A) s :
  DS.delegations (on_outside m s).2 = DS.delegations s.
Proof. unfold on_outside. by destruct (m (DS.outside s)). Qed.

Lemma on_outside_inv {A} (m : M (Outside W) A) s r s' :
  on_outside m s = (r, s') → DS.delegations s' = DS.delegations s.
Proof. intros E. rewrite <- (on_outside_table m s). by rewrite E. Qed.

Lemma steady_keeps {A} (m : M (DelegationStore W) A) : keeps DS.delegations m → steady m.
Proof. intros K s. apply proceeds_same, K. Qed.

Lemma steady_bind {A B} (m : M (DelegationStore W) A) (k : A → M (DelegationStore W) B) :
  steady m → (∀ a, steady (k a)) → steady (m ≫= k).
Proof.
  intros Hm Hk s. unfold mbind, M_bind. specialize (Hm s).
  destruct (m s) as [[a|e] s1]; [|done]. etrans; [apply Hm|apply Hk].
Qed.

Lemma transaction_proceeds {A} (m : M (DelegationStore W) A) s :
  (∀ a s', m s = (Ret a, s') → proceeds s s') → proceeds s (transaction m s).2.
Proof.
  intros H. unfold transaction. destruct (m s) as [[a|e] s'] eqn:E; [by eapply H|].
  by apply proceeds_same.
Qed.

Lemma steady_transaction {A} (m : M (DelegationStore W) A) : steady m → steady (transaction m).
Proof. intros H s. apply transaction_proceeds. intros a s' E. specialize (H s). by rewrite E in H. Qed.

Lemma steady_modify f : (∀ s, proceeds s (f s)) → steady (modify f).
Proof. intros H s. apply H. Qed.

(** * Writing a row *)

Lemma proceeds_insert s k row :
  sound_row k row →
  (∀ r, DS.delegations s !! k = Some r → evolves r row) →
  proceeds s (s <| DS.delegations ::= <[k := row]> |>).
Proof.
  intros Hr He Hs. split.
  - intros j r. row_simpl. rewrite lookup_insert_Some. intros [[<- <-]|[_ Hj]]; [done|by apply Hs].
  - intros j r Hj. row_simpl. destruct (decide (j = k)) as [->|N].
    + exists row. rewrite lookup_insert_eq. auto.
    + exists r. rewrite lookup_insert_ne by done. by split.
Qed.

(** The columns of an object that an operation may set. *)
Record settable (r r' : ChannelDelegation) : Prop := {
  settable_evolves : evolves r r';
  settable_lease : Dlg.owner_token r' = None ↔ Dlg.lease_expires_at r' = None;
  settable_failed : Dlg.dispatch_state r' ≠ DsFailed;
  settable_pending : Dlg.dispatch_state r' = DsPending → has_handle r' = false ∧ Dlg.result_summary r' = None
}.

Lemma flush_inv loaded object now s res :
  flush (W := W) loaded object now s = res →
  (∃ e, res = (Raise e, s)) ∨ (res = (Ret object, s) ∧ object = loaded)
  ∨ ∃ row, DS.delegations s !! Dlg.operation_id loaded = Some row
      ∧ let row' := merge loaded (object <| Dlg.updated_at := now |>) row in
        delegation_fits row' = true
        ∧ res = (Ret row', s <| DS.delegations ::= <[Dlg.operation_id loaded := row']> |>).
Proof.
  intros <-. unfold flush, id. m_unfold. case_bool_decide; [by right; left|].
  destruct (DS.delegations s !! Dlg.operation_id loaded) as [row|]; [|left; by eexists].
  destruct (delegation_fits _) eqn:F; cbn [negb]; [|left; by eexists]. right; right. by exists row.
Qed.

Lemma settable_sound k r r' :
  sound_row k r → settable r r' → delegation_fits r' = true → sound_row k r'.
Proof.
  intros [] [[]] F. split; try done; try congruence. lia.
Qed.

(** An object written over a row that may have changed since it was loaded. *)
Lemma flush_proceeds loaded object now s :
  (∀ row, DS.delegations s !! Dlg.operation_id loaded = Some row → sound_row (Dlg.operation_id loaded) row →
     settable row (merge loaded (object <| Dlg.updated_at := now |>) row)) →
  proceeds s (flush loaded object now s).2.
Proof.
  intros H. destruct (flush_inv loaded object now s _ eq_refl)
    as [[e ->]|[[-> _]|(row & Hrow & F & ->)]]; [reflexivity..|]. cbn [snd].
  intros Hs. specialize (H row Hrow (Hs _ _ Hrow)).
  apply proceeds_insert; [|intros r Hr; rewrite Hrow in Hr; simplify_eq; apply H|done].
  by eapply settable_sound; [apply Hs|..].
Qed.

Lemma settable_dated row object now :
  settable row object → settable row (object <| Dlg.updated_at := now |>).
Proof. intros [[] ? ? ?]. split; [by split|done..]. Qed.

Lemma flush_found row object now s :
  DS.delegations s !! Dlg.operation_id row = Some row → evolves row object → object ≠ row →
  delegation_fits object = true →
  flush row object now s =
    (Ret (object <| Dlg.updated_at := now |>),
     s <| DS.delegations ::= <[Dlg.operation_id row := object <| Dlg.updated_at := now |>]> |>).
Proof.
  intros L Ev N F. unfold flush, id. m_unfold. rewrite bool_decide_eq_false_2, L by done.
  rewrite merge_fresh by (by destruct Ev).
  change (delegation_fits (object <| Dlg.updated_at := now |>)) with (delegation_fits object).
  by rewrite F.
Qed.

(** An object written over the row it was loaded from. *)
Lemma flush_fresh_proceeds row object now s :
  DS.delegations s !! Dlg.operation_id row = Some row →
  (sound_row (Dlg.operation_id row) row → settable row object) →
  proceeds s (flush row object now s).2.
Proof.
  intros Hrow H. apply flush_proceeds. intros r Hr Hs. simplify_eq.
  pose proof (settable_dated _ _ now (H Hs)) as S. by rewrite merge_fresh by apply S.
Qed.

(** * The operations *)

Section service.
Context (executors : list (string * DelegatedExecutor W)) (lease_seconds : Z)
  (exn_text : exn → string) (container_text : json → string).
Implicit Types row : ChannelDelegation.

Lemma settable_claim token state now k row :
  sound_row k row →
  state ∈ [None; Some DsCollecting] →
  settable row (claim_row lease_seconds token state now row).
Proof.
  intros [] Hs. unfold claim_row, has_handle in *.
  assert (state = None ∨ state = Some DsCollecting) as [-> | ->] by set_solver;
    (split; row_simpl; cbn [default] in *; try done; try by eexists).
  all: by split; row_simpl; cbn [default] in *; try done; try lia.
Qed.

Lemma claim_evolves token now row : evolves row (claim_row lease_seconds token None now row).
Proof. unfold claim_row. split; row_simpl; try done. lia. Qed.

Lemma settable_release k row :
  sound_row k row → settable row (release_row row).
Proof. intros []. unfold release_row, has_handle in *. by split; row_simpl. Qed.

Lemma settable_reopen k row :
  sound_row k row → Dlg.dispatch_state row ≠ DsPending →
  settable row (reopen_row row).
Proof. intros [] N. unfold release_row, has_handle in *. by split; row_simpl. Qed.

Lemma settable_handle handle now k row :
  sound_row k row → settable row (apply_handle handle now row).
Proof.
  intros []. unfold apply_handle, release_row, synced. by case_match; split; row_simpl.
Qed.

Lemma settable_error code now k row :
  sound_row k row → settable row (with_error code now row).
Proof. intros []. unfold with_error, release_row, has_handle in *. by split; row_simpl. Qed.

Lemma settable_projected status now k row :
  sound_row k row →
  settable row (row <| Dlg.remote_status := status |> <| Dlg.remote_status_synced_at := now |>).
Proof. intros []. by split; row_simpl. Qed.


Lemma proceeds_found {B} operation_id (k : option ChannelDelegation → M (DelegationStore W) B) s :
  (∀ row, DS.delegations s !! operation_id = Some row → proceeds s (k (Some row) s).2) →
  proceeds s (k None s).2 →
  proceeds s ((get_by_operation_id operation_id ≫= k) s).2.
Proof.
  intros Hk Hn. unfold get_by_operation_id. m_unfold.
  destruct (DS.delegations s !! operation_id); auto.
Qed.

(** The flush of an object read by its operation id in the same transaction. *)
Lemma flush_found_proceeds operation_id row object now s :
  DS.delegations s !! operation_id = Some row →
  (sound_row operation_id row → settable row object) →
  proceeds s (flush row object now s).2.
Proof.
  intros Hrow H Hs. pose proof (sound_key _ _ (Hs _ _ Hrow)) as <-.
  by apply flush_fresh_proceeds.
Qed.

Lemma proceeds_bind {A B} (m : M (DelegationStore W) A) (k : A → M (DelegationStore W) B) s :
  proceeds s (m s).2 → (∀ a s', m s = (Ret a, s') → proceeds s' (k a s').2) →
  proceeds s ((m ≫= k) s).2.
Proof.
  unfold mbind, M_bind. intros Hm Hk. destruct (m s) as [[a|e] s1]; [|done].
  etrans; [apply Hm|by apply Hk].
Qed.

Lemma record_error_steady operation_id code now : steady (record_error (W := W) operation_id code now).
Proof.
  apply steady_transaction. intros s. apply proceeds_found; [|done]. intros row Hrow.
  apply proceeds_bind; [|done]. eapply flush_found_proceeds; [done|]. apply settable_error.
Qed.

Lemma enqueue_steady (executor : DelegatedExecutor W) handle plan_only : steady (enqueue executor handle plan_only).
Proof. intros s. unfold enqueue. case_match; [|done]. apply proceeds_same, on_outside_table. Qed.

Lemma deliver_steady (executor : DelegatedExecutor W) request fresh now :
  steady (deliver exn_text executor request fresh now).
Proof.
  intros s. unfold deliver. destruct (on_outside _ s) as [[handle|e] s'] eqn:E.
  - apply on_outside_inv in E.
    assert (P : proceeds s ((row ← refresh (Dreq.operation_id request);
             flush row (apply_handle handle now row) now) s').2).
    { etrans; [by apply proceeds_same|]. unfold refresh, get_by_operation_id.
      m_unfold. destruct (DS.delegations s' !! _) as [row|] eqn:L; [|done].
      eapply flush_found_proceeds; [done|]. apply settable_handle. }
    match type of P with proceeds _ (?m).2 => destruct m as [[row|e] s''] end; [|by apply proceeds_same].
    etrans; [apply P|]. apply proceeds_bind; [apply enqueue_steady|done].
  - etrans; [by apply (proceeds_same _ (rolled_back s s'))|].
    apply steady_bind; [apply record_error_steady|by intros ? ?].
Qed.

Definition insertable s (row : ChannelDelegation) : Prop :=
  delegation_fits row = true ∧ Dlg.executor_key row ∈ EXECUTOR_KEYS
  ∧ any (λ r, bool_decide (Dlg.id r = Dlg.id row)) (DS.delegations s) = false
  ∧ DS.delegations s !! Dlg.operation_id row = None
  ∧ is_Some (GDB.projects (DS.governance s) !! Dlg.project_id row)
  ∧ ∀ run, Dlg.initiator_run_id row = Some run → run ∈ GDB.run_ids (DS.governance s).

Lemma add_delegation_inv fresh_id op project key task payload initiator creator now s res :
  add_delegation (W := W) fresh_id op project key task payload initiator creator now s = res →
  let row := new_delegation fresh_id op project key task payload initiator creator now in
  (∃ e, res = (Raise e, s) ∧ ¬ insertable s row)
  ∨ insertable s row ∧ res = (Ret row, s <| DS.delegations ::= <[op := row]> |>).
Proof.
  intros <- row. unfold add_delegation, id, insertable. fold row. m_unfold.
  destruct (delegation_fits row) eqn:F; cbn [negb]; [|left; eexists; split; [done|naive_solver]].
  case_bool_decide as K; cbn [negb]; [|left; eexists; split; [done|naive_solver]].
  destruct (any _ _) eqn:A; [left; eexists; split; [done|intros (_ & _ & A' & _); cbn in A'; congruence]|].
  case_bool_decide as O; [left; eexists; split; [done|];
    intros (_ & _ & _ & O' & _); cbn in O'; rewrite O' in O; by destruct O|].
  case_bool_decide as P; [left; eexists; split; [done|];
    intros (_ & _ & _ & _ & P' & _); cbn in P'; rewrite P in P'; by destruct P'|].
  destruct (some_text initiator) as [run|] eqn:I; [case_bool_decide as R|]; cbn [negb].
  2:{ left; eexists; split; [done|]. intros (_ & _ & _ & _ & _ & R'). cbn in R'. by apply R, R'. }
  all: right; split; [|done]; repeat split; try done; cbn; [by apply eq_None_not_Some| |];
    [by apply not_eq_None_Some|]; intros r E; rewrite I in E; by simplify_eq.
Qed.

(** The row a dispatch stores before it calls the executor. *)
Definition intent (key : string) (request : DelegationRequest) (uid : option string)
    (fresh : DelegationFresh) (now : datetime) : ChannelDelegation :=
  claim_row lease_seconds (fresh_token fresh) None now
    (new_delegation (fresh_row fresh) (Dreq.operation_id request) (Dreq.project_id request) key
       (Dreq.task request) (request_payload request) (Dreq.initiator_run_id request) uid now).

Lemma store_intent_inv key request uid fresh now s res :
  store_intent lease_seconds key request uid fresh now s = res →
  let row := intent key request uid fresh now in
  (∃ e, res = (Raise e, s) ∧ ¬ insertable s row)
  ∨ insertable s row
    ∧ res = (Ret row, s <| DS.delegations ::= <[Dreq.operation_id request := row]> |>).
Proof.
  intros <- row. unfold store_intent, transaction, mbind, M_bind.
  destruct (add_delegation_inv (fresh_row fresh) (Dreq.operation_id request) (Dreq.project_id request)
    key (Dreq.task request) (request_payload request) (Dreq.initiator_run_id request) uid now s _
    eq_refl) as [(e & -> & H)|(H & ->)]; [left; exists e; by rewrite rolled_back_self|right].
  split; [done|].
  rewrite flush_found by first [by row_simpl; rewrite lookup_insert_eq | apply claim_evolves
                               | discriminate | apply H].
  unfold set; cbn. by rewrite insert_insert_eq.
Qed.

Lemma store_intent_steady key request uid fresh now :
  steady (store_intent (W := W) lease_seconds key request uid fresh now).
Proof.
  intros s. destruct (store_intent_inv key request uid fresh now s _ eq_refl)
    as [(e & -> & _)|((F & K & _ & N & _) & ->)]; [done|].
  apply proceeds_insert; [|intros r Hr; change (Dlg.operation_id _) with (Dreq.operation_id request) in N;
    congruence].
  by split.
Qed.

Lemma dispatch_steady key request uid fresh others now now2 :
  (∀ s, proceeds s (others s)) →
  steady (dispatch executors lease_seconds exn_text key request uid fresh others now now2).
Proof.
  intros Ho. unfold dispatch. apply steady_bind.
  { unfold require_executor. by case_match; intros s. }
  intros executor. apply steady_bind; [apply store_intent_steady|]. intros _.
  apply steady_bind; [by apply steady_modify|]. intros _. apply deliver_steady.
Qed.

Lemma on_governance_steady {A} (m : M GovernanceDB A) : steady (on_governance (W := W) m).
Proof. intros s. apply proceeds_same. unfold on_governance. by destruct (m _). Qed.

Lemma dispatch_project_task_steady agents project_id task_id key user fresh others now now2 :
  (∀ s, proceeds s (others s)) →
  steady (dispatch_project_task executors lease_seconds exn_text container_text agents project_id
            task_id key user fresh others now now2).
Proof.
  intros Ho. unfold dispatch_project_task, get_visible_by_slug, returning.
  repeat first [ apply on_governance_steady | by apply dispatch_steady | apply steady_bind
               | case_match | intros ? | reflexivity | by apply proceeds_same ].
Qed.

Lemma refresh_status_proceeds (executor : DelegatedExecutor W) operation_id row now s :
  DS.delegations s !! operation_id = Some row →
  proceeds s (refresh_status executor row now s).2.
Proof.
  intros Hrow. unfold refresh_status. destruct (on_outside _ s) as [r s'] eqn:E.
  apply on_outside_inv in E. etrans; [by apply proceeds_same, E|].
  destruct r as [[remote|]|e]; [|done..]. case_bool_decide; [done|].
  apply transaction_proceeds. intros a s'' Et. m_unfold.
  assert (P : proceeds s' (flush row (row <| Dlg.remote_status := Some remote |>
    <| Dlg.remote_status_synced_at := Some now |>) now s').2).
  { eapply flush_found_proceeds; [by rewrite E|]. apply settable_projected. }
  destruct (flush _ _ _ _) as [[row'|e] s1]; by simplify_eq.
Qed.

Lemma load_inv operation_id project_id s row s' :
  load (W := W) operation_id project_id s = (Ret row, s') →
  s' = s ∧ DS.delegations s !! operation_id = Some row.
Proof. unfold load, get_by_operation_id. intros E. by m_cases E. Qed.

Lemma load_pure operation_id project_id s : (load (W := W) operation_id project_id s).2 = s.
Proof. unfold load, get_by_operation_id. m_unfold. by repeat case_match. Qed.

Lemma status_steady operation_id project_id now : steady (status executors operation_id project_id now).
Proof.
  intros s. unfold status. apply proceeds_bind; [by rewrite load_pure|].
  intros row s' E. apply load_inv in E as [-> Hrow]. case_match; [|done].
  case_match; [|done]. by eapply refresh_status_proceeds.
Qed.

(** A row that [claim_collect] leaves. *)
Definition collecting (row : ChannelDelegation) : Prop :=
  is_Some (Dlg.owner_token row) ∧ is_Some (Dlg.lease_expires_at row)
  ∧ Dlg.dispatch_state row = DsCollecting.

Lemma claim_collect_proceeds operation_id project_id token now s :
  proceeds s (claim_collect executors lease_seconds operation_id project_id token now s).2.
Proof.
  apply transaction_proceeds. intros a s' E.
  assert (P : proceeds s s'); [|done]. revert E.
  unfold mbind at 1, M_bind at 1. destruct (load _ _ s) as [[row|e] s1] eqn:L; [|done].
  apply load_inv in L as [-> Hrow]. case_bool_decide; [by intros [= <- <-]|].
  case_bool_decide as N; [cbn [negb]|done]. unfold require_executor. case_match; [|done].
  m_unfold.
  assert (P : proceeds s (flush row (claim_row lease_seconds token (Some DsCollecting) now row) now s).2).
  { eapply flush_found_proceeds; [done|]. intros Hs. by eapply settable_claim; [apply Hs|set_solver]. }
  destruct (flush _ _ _ _) as [[row'|e] s1]; intros E; by simplify_eq.
Qed.

Lemma claim_collect_row operation_id project_id token now s row executor s' :
  claim_collect executors lease_seconds operation_id project_id token now s
    = (Ret (inr (row, executor)), s') →
  sound s → collecting row ∧ DS.delegations s' !! operation_id = Some row.
Proof.
  intros E Hs. unfold claim_collect, transaction in E. revert E.
  unfold mbind at 1, M_bind at 1. destruct (load _ _ s) as [[r|e] s1] eqn:L; [|done].
  apply load_inv in L as [-> Hrow]. case_bool_decide; [done|].
  case_bool_decide as N; [cbn [negb]|done]. unfold require_executor.
  destruct (executor_of _ executors) as [ex|]; [|done].
  m_unfold. pose proof (Hs _ _ Hrow) as Hr. pose proof (sound_key _ _ Hr) as <-.
  destruct (flush_inv r (claim_row lease_seconds token (Some DsCollecting) now r) now s _ eq_refl)
    as [[e ->]|[[_ C]|(r' & L & F & ->)]]; [done| |].
  { apply (f_equal Dlg.attempts) in C. unfold claim_row in C. row_simpl. lia. }
  assert (r' = r) as -> by congruence.
  pose proof (settable_dated _ _ now
    (settable_claim token (Some DsCollecting) now _ r Hr ltac:(set_solver))) as [Ev _ _ _].
  rewrite merge_fresh by done. intros [= <- <- <-]. split.
  - unfold collecting, claim_row. row_simpl. split; [by eexists|]. split; [by eexists|done].
  - row_simpl. by rewrite lookup_insert_eq.
Qed.

(** What a collector writes over a row that may have changed since it claimed it. *)
Lemma settable_late row object now r :
  sound_row (Dlg.operation_id row) r → collecting row →
  Dlg.attempts object = Dlg.attempts row →
  Dlg.owner_token object = None → Dlg.lease_expires_at object = None →
  Dlg.dispatch_state object = DsDispatched ∨ Dlg.dispatch_state object = DsReclaimed →
  settable r (merge row (object <| Dlg.updated_at := now |>) r).
Proof.
  intros [] ([t Ht] & [e He] & Hst) Ha Ho Hl Hd.
  assert (Hstate : Dlg.dispatch_state (merge row (object <| Dlg.updated_at := now |>) r)
            = Dlg.dispatch_state object).
  { change (Dlg.dispatch_state (merge row _ r)) with
      (if decide (Dlg.dispatch_state object = Dlg.dispatch_state row)
       then Dlg.dispatch_state r else Dlg.dispatch_state object).
    case_decide as C; [rewrite C, Hst in Hd; by destruct Hd|done]. }
  assert (Hne : Dlg.dispatch_state object ≠ DsPending ∧ Dlg.dispatch_state object ≠ DsFailed)
    by (by destruct Hd as [-> | ->]).
  split; [|clear Hstate| | ]; try (rewrite Hstate; by destruct Hne).
  - split; try reflexivity; [|rewrite Hstate; by destruct Hne].
    change (Dlg.attempts (merge row _ r)) with
      (if decide (Dlg.attempts object = Dlg.attempts row) then Dlg.attempts r else Dlg.attempts object).
    by rewrite decide_True.
  - change (Dlg.owner_token (merge row _ r)) with
      (if decide (Dlg.owner_token object = Dlg.owner_token row) then Dlg.owner_token r
       else Dlg.owner_token object).
    change (Dlg.lease_expires_at (merge row _ r)) with
      (if decide (Dlg.lease_expires_at object = Dlg.lease_expires_at row) then Dlg.lease_expires_at r
       else Dlg.lease_expires_at object).
    rewrite Ho, Hl, Ht, He. by rewrite !decide_False.
Qed.

Lemma flush_late_proceeds row object now s :
  collecting row → Dlg.attempts object = Dlg.attempts row →
  Dlg.owner_token object = None → Dlg.lease_expires_at object = None →
  Dlg.dispatch_state object = DsDispatched ∨ Dlg.dispatch_state object = DsReclaimed →
  proceeds s (flush row object now s).2.
Proof. intros. apply flush_proceeds. intros r _ Hr. by apply settable_late. Qed.

Lemma materialize_steady write operation_id text : steady (materialize (W := W) write operation_id text).
Proof.
  apply steady_bind; [|by intros ? ?]. intros s. apply proceeds_same, on_outside_table.
Qed.

Lemma settle_collect_proceeds row (executor : DelegatedExecutor W) workdir now now2 s :
  collecting row → proceeds s (settle_collect row executor workdir now now2 s).2.
Proof.
  intros C. unfold settle_collect. destruct (on_outside _ s) as [[result|e] s'] eqn:E;
    apply on_outside_inv in E.
  - etrans; [by apply proceeds_same, E|]. apply steady_transaction. clear s s' E. intros s.
    apply proceeds_bind.
    { repeat case_match; try done. by apply proceeds_bind; [apply materialize_steady|]. }
    intros path s' _. apply proceeds_bind; [|done].
    apply flush_late_proceeds; [done|..]; unfold with_result, synced; destruct (falsy_str _);
      row_simpl; try done; by right.
  - etrans; [by apply (proceeds_same s s')|]. destruct e; try by apply proceeds_same.
    apply proceeds_bind; [|done]. apply flush_late_proceeds; [done|unfold reopen_row, release_row; by row_simpl..|].
    left. unfold reopen_row, release_row. by row_simpl.
Qed.

Lemma collect_proceeds operation_id project_id workdir token others now now2 s :
  (∀ s, proceeds s (others s)) →
  proceeds s (collect executors lease_seconds operation_id project_id workdir token others now now2 s).2.
Proof.
  intros Ho. unfold collect, mbind at 1, M_bind at 1.
  pose proof (claim_collect_proceeds operation_id project_id token now s) as P.
  destruct (claim_collect _ _ _ _ _ _ s) as [[[view|[row executor]]|e] s1] eqn:E; [exact P| |exact P].
  intros Hs. destruct (claim_collect_row _ _ _ _ _ _ _ _ E Hs) as [C _].
  revert Hs. change (proceeds s ((_ ← modify others; settle_collect row executor workdir now now2) s1).2).
  etrans; [apply P|]. etrans; [apply Ho|]. by apply settle_collect_proceeds.
Qed.

Lemma converge_pending_proceeds operation_id row fresh now counts s :
  DS.delegations s !! operation_id = Some row → sound_row operation_id row →
  proceeds s (converge_pending executors row fresh now counts s).2.
Proof.
  intros Hrow Hs. unfold converge_pending. destruct (executor_of _ executors) as [ex|].
  - destruct (on_outside _ s) as [[handle|e] s'] eqn:E; apply on_outside_inv in E.
    + etrans; [by apply proceeds_same, E|]. apply proceeds_bind.
      { eapply flush_found_proceeds; [by rewrite E|]. apply settable_handle. }
      intros r s1 _. apply proceeds_bind; [apply enqueue_steady|done].
    + etrans; [by apply (proceeds_same s (rolled_back s s'))|]. apply proceeds_found; [|done].
      intros r Hr. apply proceeds_bind; [|done]. eapply flush_found_proceeds; [done|].
      apply settable_error.
  - apply proceeds_bind; [|done]. eapply flush_found_proceeds; [done|]. apply settable_release.
Qed.

Lemma converge_dispatched_proceeds operation_id row now counts s :
  DS.delegations s !! operation_id = Some row →
  proceeds s (converge_dispatched executors row now counts s).2.
Proof.
  intros Hrow.
  assert (R : ∀ s', DS.delegations s' = DS.delegations s →
    proceeds s ((_ ← flush row (release_row row) now; mret counts) s').2).
  { intros s' E. etrans; [by apply proceeds_same, E|]. apply proceeds_bind; [|done].
    eapply flush_found_proceeds; [by rewrite E|]. apply settable_release. }
  unfold converge_dispatched. destruct (executor_of _ executors) as [ex|]; [|by apply R].
  case_match; [by apply R|]. destruct (on_outside _ s) as [[remote|e] s'] eqn:E;
    apply on_outside_inv in E; [|by apply R].
  etrans; [by apply proceeds_same, E|]. apply proceeds_bind; [|done].
  eapply flush_found_proceeds; [by rewrite E|]. intros Hr.
  destruct remote as [remote|]; [|by eapply settable_release].
  destruct Hr. unfold release_row, has_handle in *. by split; row_simpl.
Qed.

Lemma converge_one_steady operation_id fresh now counts :
  steady (converge_one executors operation_id fresh now counts).
Proof.
  apply steady_transaction. intros s. apply proceeds_sound. intros Hs.
  apply proceeds_found; [|done]. intros row Hrow. case_match; [done|].
  destruct (Dlg.dispatch_state row) eqn:St; try by eapply converge_dispatched_proceeds.
  - eapply converge_pending_proceeds; [done|by apply Hs].
  - apply proceeds_bind; [|done]. eapply flush_found_proceeds; [done|].
    intros Hr. eapply settable_reopen; [done|congruence].
Qed.

Lemma converge_each_steady turns operation_ids now counts :
  (∀ k s, proceeds s ((turns k).2 s)) →
  steady (converge_each executors turns operation_ids now counts).
Proof.
  intros Ht. revert counts. induction operation_ids as [|k ks IH]; intros counts; [by intros s|].
  cbn [converge_each]. apply steady_bind; [by apply steady_modify|]. intros _.
  apply steady_bind; [apply converge_one_steady|done].
Qed.

Lemma converge_steady turns limit now :
  (∀ k s, proceeds s ((turns k).2 s)) → steady (converge executors turns limit now).
Proof.
  intros Ht. apply steady_bind; [by intros s|]. intros listed. by apply converge_each_steady.
Qed.

(** * The invariant *)

Inductive DelegationOp : Type :=
  | OpDispatch (executor_key : string) (request : DelegationRequest) (uid : option string)
      (fresh : DelegationFresh) (others : DelegationStore W → DelegationStore W) (now now2 : datetime)
  | OpDispatchProjectTask (agents : gmap string AgentRow) (project_id task_id executor_key : string)
      (user : User) (fresh : DelegationFresh) (others : DelegationStore W → DelegationStore W)
      (now now2 : datetime)
  | OpStatus (operation_id : string) (project_id : option string) (now : datetime)
  | OpCollect (operation_id : string) (project_id : option string)
      (workdir : option (string → string → M W unit)) (token : string)
      (others : DelegationStore W → DelegationStore W) (now now2 : datetime)
  | OpConverge (turns : string → DispatchFresh * (DelegationStore W → DelegationStore W))
      (limit : nat) (now : datetime).

Definition perform (op : DelegationOp) : DelegationStore W → DelegationStore W :=
  match op with
  | OpDispatch key request uid fresh others now now2 => λ s,
      (dispatch executors lease_seconds exn_text key request uid fresh others now now2 s).2
  | OpDispatchProjectTask agents project_id task_id key user fresh others now now2 => λ s,
      (dispatch_project_task executors lease_seconds exn_text container_text agents project_id
         task_id key user fresh others now now2 s).2
  | OpStatus operation_id project_id now => λ s,
      (status executors operation_id project_id now s).2
  | OpCollect operation_id project_id workdir token others now now2 => λ s,
      (collect executors lease_seconds operation_id project_id workdir token others now now2 s).2
  | OpConverge turns limit now => λ s, (converge executors turns limit now s).2
  end.

(** What other processes do between the transactions of an operation is, of the table, what
    operations do. *)
Definition interleaves (op : DelegationOp) : Prop :=
  match op with
  | OpDispatch _ _ _ _ others _ _ | OpDispatchProjectTask _ _ _ _ _ _ others _ _
  | OpCollect _ _ _ _ others _ _ => ∀ s, proceeds s (others s)
  | OpStatus _ _ _ => True
  | OpConverge turns _ _ => ∀ k s, proceeds s ((turns k).2 s)
  end.

Lemma perform_proceeds op s : interleaves op → proceeds s (perform op s).
Proof.
  destruct op; cbn [interleaves perform]; intros Ho.
  - by apply dispatch_steady.
  - by apply dispatch_project_task_steady.
  - apply status_steady.
  - by apply collect_proceeds.
  - by apply converge_steady.
Qed.

Lemma operations_proceed ops s :
  Forall interleaves ops → proceeds s (foldl (flip perform) s ops).
Proof.
  intros Ho. revert s. induction Ho as [|op ops Hop _ IH]; intros s; [done|]. cbn [foldl].
  etrans; [by apply perform_proceeds, Hop|apply IH].
Qed.


(** * Dispatching *)

Lemma apply_handle_evolves handle now row : evolves row (apply_handle handle now row).
Proof. unfold apply_handle, release_row, synced. by case_match; split; row_simpl. Qed.

Lemma with_error_evolves code now row : evolves row (with_error code now row).
Proof. by split. Qed.

Definition dated (now : datetime) (row : ChannelDelegation) : ChannelDelegation :=
  row <| Dlg.updated_at := now |>.

(** The error code of a failed call and the exception its caller sees. *)
Definition code_of (e : exn) : string :=
  match e with DelegationError code _ => code | _ => DISPATCH_FAILED end.

Definition surfaced (e : exn) : exn :=
  match e with DelegationError _ _ => e | _ => DelegationError DISPATCH_FAILED (exn_text e) end.

(** What [deliver] leaves, by the executor's answer. *)
Definition delivered (executor : DelegatedExecutor W) (request : DelegationRequest)
    (fresh : DispatchFresh) (now : datetime) (row : ChannelDelegation) s
    (result : outcome DelegationView) s' : Prop :=
  match ex_dispatch executor fresh request (DS.outside s) with
  | (Ret handle, _) =>
      let row' := dated now (apply_handle handle now row) in
      if delegation_fits row'
      then result = Ret (serialize row' (capabilities executor))
           ∧ DS.delegations s' = <[Dlg.operation_id row := row']> (DS.delegations s)
      else (∃ e, result = Raise e) ∧ DS.delegations s' = DS.delegations s
  | (Raise e, o) =>
      let row' := dated now (with_error (code_of e) now row) in
      DS.outside s' = (DS.outside s) <| Out.world := Out.world o |>
      ∧ if delegation_fits row'
        then result = Raise (surfaced e)
             ∧ DS.delegations s' = <[Dlg.operation_id row := row']> (DS.delegations s)
        else (∃ e, result = Raise e) ∧ DS.delegations s' = DS.delegations s
  end.

Lemma flush_wide row object now s :
  DS.delegations s !! Dlg.operation_id row = Some row → evolves row object → object ≠ row →
  delegation_fits (dated now object) = false → ∃ e, flush row object now s = (Raise e, s).
Proof.
  intros L Ev N F. unfold flush, id. m_unfold. rewrite bool_decide_eq_false_2, L by done.
  rewrite merge_fresh by (by destruct Ev).
  change (delegation_fits (object <| _ := _ |>)) with (delegation_fits (dated now object)).
  rewrite F. by eexists.
Qed.

Lemma deliver_outcome executor request fresh now row s :
  Dlg.operation_id row = Dreq.operation_id request →
  DS.delegations s !! Dreq.operation_id request = Some row →
  Dlg.dispatch_state row = DsPending → is_Some (Dlg.owner_token row) →
  let '(result, s') := deliver exn_text executor request fresh now s in
  delivered executor request fresh now row s result s'.
Proof.
  intros Hop Hrow Hst [token Hown]. unfold deliver, delivered. unfold on_outside at 1.
  destruct (ex_dispatch _ _ _ _) as [[handle|e] o] eqn:E.
  - set (s1 := s <| DS.outside := o |>).
    assert (L : DS.delegations s1 !! Dlg.operation_id row = Some row) by (by rewrite Hop).
    assert (N : apply_handle handle now row ≠ row).
    { intros C. apply (f_equal Dlg.dispatch_state) in C. unfold apply_handle, release_row in C.
      row_simpl. congruence. }
    unfold refresh, get_by_operation_id. m_unfold. rewrite <- Hop, L.
    destruct (delegation_fits _) eqn:F.
    + rewrite flush_found by (done || apply apply_handle_evolves).
      unfold enqueue. destruct (ex_enqueue executor); (split; [done|]); cbn; by rewrite ?on_outside_table.
    + destruct (flush_wide row (apply_handle handle now row) now s1 L (apply_handle_evolves _ _ _) N F)
        as [e ->]. split; [by eexists|done].
  - set (s1 := rolled_back s _).
    assert (L : DS.delegations s1 !! Dlg.operation_id row = Some row) by (by rewrite Hop).
    assert (N : with_error (code_of e) now row ≠ row).
    { intros C. apply (f_equal Dlg.owner_token) in C. unfold with_error, release_row in C.
      row_simpl. congruence. }
    fold (code_of e). fold (surfaced e).
    unfold record_error, transaction, get_by_operation_id. m_unfold. rewrite <- Hop, L.
    destruct (delegation_fits _) eqn:F.
    + rewrite flush_found by (done || apply with_error_evolves). done.
    + destruct (flush_wide row (with_error (code_of e) now row) now s1 L (with_error_evolves _ _ _) N F)
        as [e' ->]. rewrite rolled_back_self. split; [done|]. split; [by eexists|done].
Qed.

(** The request as it is dispatched: an empty operation id is replaced by a fresh one. *)
Definition identified (request : DelegationRequest) (fresh : DelegationFresh) : DelegationRequest :=
  request <| Dreq.operation_id := if bool_decide (Dreq.operation_id request = "")
                                  then fresh_operation fresh else Dreq.operation_id request |>.


(** * Dispatching again *)

Lemma request_of_payload request :
  let payload := json_or_empty (request_payload request) in
  payload_items "context_refs" payload = Dreq.context_refs request
  ∧ payload_fields "budget" payload = Dreq.budget request
  ∧ payload_fields "metadata" payload = Dreq.metadata request.
Proof. done. Qed.

(** C28: whatever operations follow, the request a convergence would dispatch again for a stored
    intent is the request that was dispatched. *)
Theorem redelivery_repeats_request key request uid fresh now s row s1 ops :
  store_intent lease_seconds key request uid fresh now s = (Ret row, s1) →
  Dreq.initiator_run_id request ≠ Some "" → sound s → Forall interleaves ops →
  ∃ row', DS.delegations (foldl (flip perform) s1 ops) !! Dreq.operation_id request = Some row'
    ∧ request_from_row row' = request.
Proof.
  intros E Hi Hs Ho. pose proof (store_intent_steady key request uid fresh now s Hs) as [Hs1 _].
  rewrite E in Hs1. cbn [snd] in Hs1.
  destruct (store_intent_inv key request uid fresh now s _ E) as [(e & [=] & _)|(_ & [= -> ->])].
  destruct (operations_proceed ops _ Ho Hs1) as [_ Gr].
  destruct (Gr (Dreq.operation_id request) (intent key request uid fresh now)) as (row' & Hrow' & []).
  { row_simpl. by rewrite lookup_insert_eq. }
  exists row'. split; [done|]. destruct request as [op p t i c b m]. unfold request_from_row.
  rewrite evolves_operation0, evolves_project0, evolves_task0, evolves_initiator0, evolves_request0.
  cbn in Hi |- *. by destruct i as [[|a i]|].
Qed.

(** * Convergence *)

(** What a convergence looks at. *)
Definition due (now : datetime) (r : ChannelDelegation) : bool :=
  unsettled (Dlg.dispatch_state r) && negb (lease_held now r).

(** What a convergence makes of a row. *)
Definition converged (now : datetime) (r r' : ChannelDelegation) : Prop :=
  if due now r then
    Dlg.owner_token r' = None ∧ Dlg.lease_expires_at r' = None ∧ evolves r r'
    ∧ if bool_decide (Dlg.dispatch_state r = DsPending)
      then Dlg.dispatch_state r' = DsDispatched ∧ Dlg.error_code r' = None
           ∨ Dlg.dispatch_state r' = DsPending ∧ has_handle r' = false
             ∧ (Dlg.error_code r' = Some DISPATCH_FAILED ∨ executor_of (Dlg.executor_key r) executors = None)
      else Dlg.dispatch_state r' = DsDispatched ∧ handle_of r' = handle_of r
  else r' = r.

(** The columns a handle is written to are wide enough. *)
Definition handle_fits (h : DelegationHandle) : bool :=
  Coding.opt_fits 64 (h_session_id h) && Coding.opt_fits 64 (h_turn_id h)
  && Coding.opt_fits 191 (h_external_ref h) && Coding.opt_fits 1024 (h_external_url h)
  && Coding.opt_fits 32 (h_remote_status h).

Definition answers_fit (ex : DelegatedExecutor W) : Prop :=
  (∀ fresh request o h o', ex_dispatch ex fresh request o = (Ret h, o') → handle_fits h = true)
  ∧ ∀ h o v o', ex_status ex h o = (Ret (Some v), o') → Coding.fits 32 v = true.

Lemma apply_handle_fits handle now row :
  delegation_fits row = true → handle_fits handle = true →
  delegation_fits (apply_handle handle now row) = true.
Proof.
  unfold delegation_fits, handle_fits, apply_handle, release_row, synced. intros F H.
  destruct (falsy_str _); row_simpl; cbn [Coding.opt_fits default]; bool_hyps; naive_solver.
Qed.

Lemma with_error_fits code now row :
  Coding.fits 64 code = true → delegation_fits row = true →
  delegation_fits (with_error code now row) = true.
Proof.
  unfold delegation_fits, with_error, release_row. intros C F. row_simpl.
  cbn [Coding.opt_fits default]. bool_hyps. naive_solver.
Qed.

Lemma flush_settles now row object s :
  DS.delegations s !! Dlg.operation_id row = Some row →
  evolves row object → delegation_fits object = true →
  ∃ r' s', flush row object now s = (Ret r', s') ∧ (r' = dated now object ∨ r' = object)
    ∧ DS.delegations s' = <[Dlg.operation_id row := r']> (DS.delegations s)
    ∧ DS.outside s' = DS.outside s.
Proof.
  intros L Ev F. destruct (decide (object = row)) as [->|N].
  - exists row, s. unfold flush. rewrite bool_decide_eq_true_2 by done. rewrite insert_id by done.
    split_and!; auto.
  - rewrite flush_found by done. do 2 eexists. split; [done|]. split; [by left|done].
Qed.

Lemma converged_dated now r r' : converged now r r' → due now r = true → converged now r (dated now r').
Proof.
  unfold converged. intros C D. rewrite D in *. destruct C as (Co & Cl & [] & Cs).
  split; [done|]. split; [done|]. split; [by split|]. done.
Qed.

(** The end of one convergence: the object is flushed. *)
Lemma converged_flush now row object s :
  DS.delegations s !! Dlg.operation_id row = Some row → due now row = true →
  delegation_fits object = true → converged now row object →
  ∃ r' s', flush row object now s = (Ret r', s') ∧ converged now row r'
    ∧ DS.delegations s' = <[Dlg.operation_id row := r']> (DS.delegations s).
Proof.
  intros L D F C. pose proof C as C'. unfold converged in C'. rewrite D in C'.
  destruct (flush_settles now row object s L ltac:(apply C') F) as (r' & s' & E & [-> | ->] & Es & _);
    do 2 eexists; (split; [done|]); (split; [|done]); [by apply converged_dated|done].
Qed.

Lemma converged_handle handle now row :
  due now row = true → Dlg.dispatch_state row = DsPending →
  converged now row (apply_handle handle now row).
Proof.
  intros D P. unfold converged. rewrite D, bool_decide_eq_true_2 by done.
  split_and!; [done|done|apply apply_handle_evolves|by left].
Qed.

Lemma converged_pending object now row :
  due now row = true → sound_row (Dlg.operation_id row) row → Dlg.dispatch_state row = DsPending →
  object = release_row row ∧ executor_of (Dlg.executor_key row) executors = None
  ∨ object = with_error DISPATCH_FAILED now row →
  converged now row object.
Proof.
  intros D Hs P Ho. unfold converged. rewrite D, bool_decide_eq_true_2 by done.
  destruct (sound_pending _ _ Hs P) as [H _].
  destruct Ho as [[-> N]| ->]; (split_and!; [done|done|by split|]);
    right; (split; [done|]); (split; [done|]); auto.
Qed.

Lemma converged_kept object now row :
  due now row = true → Dlg.dispatch_state row ≠ DsPending → evolves row object →
  handle_of object = handle_of row → Dlg.dispatch_state object = DsDispatched →
  converged now row (release_row object).
Proof.
  intros D P Ev Hh Hd. unfold converged. rewrite D, bool_decide_eq_false_2 by done.
  split_and!; [done|done|by destruct Ev|done|done].
Qed.

Section answering.
Context (all_answers_fit : ∀ key ex, executor_of key executors = Some ex → answers_fit ex).

Lemma converge_pending_outcome row fresh now counts s :
  DS.delegations s !! Dlg.operation_id row = Some row → sound_row (Dlg.operation_id row) row →
  due now row = true → Dlg.dispatch_state row = DsPending →
  ∃ counts' s' r', converge_pending executors row fresh now counts s = (Ret counts', s')
    ∧ converged now row r' ∧ DS.delegations s' = <[Dlg.operation_id row := r']> (DS.delegations s).
Proof.
  intros L Hs D P. pose proof (sound_fits _ _ Hs) as F. unfold converge_pending.
  destruct (executor_of _ executors) as [ex|] eqn:Ex.
  - destruct (on_outside _ s) as [[handle|e] s1] eqn:E; pose proof (on_outside_inv _ _ _ _ E) as Es.
    + assert (Hf : handle_fits handle = true).
      { unfold on_outside in E. destruct (ex_dispatch _ _ _ _) as [res o] eqn:Ed. simplify_eq.
        by eapply all_answers_fit. }
      destruct (converged_flush now row (apply_handle handle now row) s1) as (r' & s' & Ef & C & Er);
        [by rewrite Es|done|by apply apply_handle_fits|by apply converged_handle|].
      m_unfold. rewrite Ef. unfold enqueue. destruct (ex_enqueue ex); do 3 eexists; (split; [done|]);
        (split; [done|]); rewrite ?on_outside_table, Er; by rewrite Es.
    + destruct (converged_flush now row (with_error DISPATCH_FAILED now row) (rolled_back s s1))
        as (r' & s' & Ef & C & Er); [done|done|by apply with_error_fits|by apply converged_pending; auto|].
      unfold get_by_operation_id. m_unfold.
      change (DS.delegations (rolled_back s s1)) with (DS.delegations s) at 1. rewrite L, Ef. eauto 10.
  - destruct (converged_flush now row (release_row row) s) as (r' & s' & Ef & C & Er);
      [done|done|done|by apply converged_pending; auto|].
    m_unfold. rewrite Ef. eauto 10.
Qed.

Lemma converge_dispatched_outcome row now counts s :
  DS.delegations s !! Dlg.operation_id row = Some row → delegation_fits row = true →
  due now row = true → Dlg.dispatch_state row = DsDispatched →
  ∃ counts' s' r', converge_dispatched executors row now counts s = (Ret counts', s')
    ∧ converged now row r' ∧ DS.delegations s' = <[Dlg.operation_id row := r']> (DS.delegations s).
Proof.
  intros L F D P. assert (NP : Dlg.dispatch_state row ≠ DsPending) by congruence.
  assert (R : ∀ object (counts' : ConvergeCounts) s1, DS.delegations s1 = DS.delegations s →
    evolves row object → handle_of object = handle_of row → Dlg.dispatch_state object = DsDispatched →
    delegation_fits object = true →
    ∃ s' r', (_ ← flush row (release_row object) now; mret counts') s1 = (Ret counts', s')
      ∧ converged now row r' ∧ DS.delegations s' = <[Dlg.operation_id row := r']> (DS.delegations s)).
  { intros object counts' s1 Es Ev Hh Hd Fo.
    destruct (converged_flush now row (release_row object) s1) as (r' & s' & Ef & C & Er);
      [by rewrite Es|done|done|by apply converged_kept|].
    m_unfold. rewrite Ef. rewrite <- Es. eauto 10. }
  unfold converge_dispatched. destruct (executor_of _ executors) as [ex|] eqn:Ex; [|by eexists; apply R].
  destruct (negb _); [by eexists; apply R|].
  destruct (on_outside _ s) as [[remote|e] s1] eqn:E; pose proof (on_outside_inv _ _ _ _ E) as Es;
    [|by eexists; apply R].
  destruct remote as [remote|]; [|by eexists; apply R].
  assert (Hf : Coding.fits 32 remote = true).
  { unfold on_outside in E. destruct (ex_status _ _ _) as [res o] eqn:Ed. simplify_eq.
    by eapply all_answers_fit. }
  eexists. apply R; try done.
  revert F. unfold delegation_fits. row_simpl. cbn [Coding.opt_fits default]. bool_hyps. naive_solver.
Qed.

Lemma converge_one_outcome operation_id fresh now counts s :
  sound s →
  ∃ counts' s', converge_one executors operation_id fresh now counts s = (Ret counts', s')
    ∧ match DS.delegations s !! operation_id with
      | Some r => ∃ r', converged now r r' ∧ DS.delegations s' = <[operation_id := r']> (DS.delegations s)
      | None => DS.delegations s' = DS.delegations s
      end.
Proof.
  intros Hs. unfold converge_one, transaction, get_by_operation_id. m_unfold.
  destruct (DS.delegations s !! operation_id) as [row|] eqn:L; [|by eauto].
  pose proof (Hs _ _ L) as Hr. pose proof (sound_key _ _ Hr) as <-.
  destruct (negb _ || _) eqn:G.
  { do 2 eexists. split; [done|]. exists row. rewrite insert_id by done. split; [|done].
    unfold converged. destruct (due now row) eqn:D; [|done]. unfold due in D.
    by destruct (unsettled _), (lease_held _ _). }
  assert (D : due now row = true) by (unfold due; by destruct (unsettled _), (lease_held _ _)).
  destruct (Dlg.dispatch_state row) eqn:P; try done.
  - destruct (converge_pending_outcome row fresh now counts s L Hr D P) as (c & s' & r' & -> & C & E).
    eauto 10.
  - destruct (converge_dispatched_outcome row now counts s L (sound_fits _ _ Hr) D P)
      as (c & s' & r' & -> & C & E). eauto 10.
  - destruct (converged_flush now row (reopen_row row) s L D
      (sound_fits _ _ Hr)) as (r' & s' & -> & C & E); [|by eauto 10].
    apply converged_kept; [done|congruence|by split|done|done].
Qed.

Lemma converge_each_outcome turns operation_ids now counts s :
  (∀ k s, (turns k).2 s = s) → NoDup operation_ids → sound s →
  ∃ counts' s', converge_each executors turns operation_ids now counts s = (Ret counts', s')
    ∧ ∀ k, match DS.delegations s !! k with
           | Some r => ∃ r', DS.delegations s' !! k = Some r'
               ∧ if bool_decide (k ∈ operation_ids) then converged now r r' else r' = r
           | None => DS.delegations s' !! k = None
           end.
Proof.
  intros Ht. revert counts s. induction operation_ids as [|j ks IH]; intros counts s Hnd Hs.
  { exists counts, s. split; [done|]. intros k. destruct (_ !! k) as [r|]; [|done]. by exists r. }
  apply NoDup_cons in Hnd as [Hj Hnd]. cbn [converge_each].
  destruct (converge_one_outcome j (turns j).1 now counts s Hs) as (c1 & s1 & E1 & H1).
  pose proof (converge_one_steady j (turns j).1 now counts s Hs) as [Hs1 _]. rewrite E1 in Hs1.
  destruct (IH c1 s1 Hnd Hs1) as (c2 & s2 & E2 & H2). exists c2, s2. split.
  { unfold modify, mbind at 1, M_bind at 1. rewrite Ht. unfold mbind at 1, M_bind at 1. by rewrite E1. }
  intros k. specialize (H2 k). destruct (decide (k = j)) as [->|N].
  - destruct (DS.delegations s !! j) as [r|] eqn:L; [|by rewrite H1, L in H2].
    destruct H1 as (r' & C & H1). rewrite H1, lookup_insert_eq in H2.
    destruct H2 as (r'' & L2 & H2). rewrite bool_decide_eq_false_2 in H2 by done. subst r''.
    exists r'. split; [done|]. by rewrite bool_decide_eq_true_2 by set_solver.
  - assert (E : DS.delegations s1 !! k = DS.delegations s !! k).
    { destruct (DS.delegations s !! j) as [r|]; [|by rewrite H1].
      destruct H1 as (r' & _ & ->). by rewrite lookup_insert_ne. }
    rewrite E in H2. destruct (DS.delegations s !! k) as [r|]; [|done].
    destruct H2 as (r' & L2 & H2). exists r'. split; [done|].
    by rewrite (bool_decide_ext (k ∈ j :: ks) (k ∈ ks)) by set_solver.
Qed.

Lemma listed_due now s :
  select (λ r, unsettled (Dlg.dispatch_state r)
               && match Dlg.lease_expires_at r with None => true | Some e => e <? now end)
    (DS.delegations s) = select (due now) (DS.delegations s).
Proof.
  unfold select. apply List.filter_ext. intros r. unfold due, lease_held. f_equal.
  case_match; [|done]. by rewrite Z.ltb_antisym.
Qed.

Lemma elem_of_listed now s k :
  sound s →
  k ∈ map Dlg.operation_id (sort_by delegation_stalest (select (due now) (DS.delegations s)))
  ↔ ∃ r, DS.delegations s !! k = Some r ∧ due now r = true.
Proof.
  intros Hs. rewrite list_elem_of_fmap. setoid_rewrite elem_of_sort_by. setoid_rewrite elem_of_select.
  split.
  - intros (r & -> & D & j & L). exists r. split; [|done]. by rewrite (sound_key _ _ (Hs _ _ L)).
  - intros (r & L & D). exists r. split; [by rewrite (sound_key _ _ (Hs _ _ L))|]. eauto.
Qed.

Lemma NoDup_listed now s :
  sound s →
  NoDup (map Dlg.operation_id (sort_by delegation_stalest (select (due now) (DS.delegations s)))).
Proof.
  intros Hs.
  assert (K : ∀ k r, DS.delegations s !! k = Some r → k = Dlg.operation_id r).
  { intros k r L. by rewrite (sound_key _ _ (Hs _ _ L)). }
  apply NoDup_fmap_2_strong.
  - intros r1 r2. rewrite !elem_of_sort_by, !elem_of_select. intros (_ & k1 & L1) (_ & k2 & L2) E.
    apply K in L1 as K1. apply K in L2 as K2. congruence.
  - rewrite sort_by_perm. apply NoDup_select. intros k1 k2 r L1 L2.
    by rewrite (K _ _ L1), (K _ _ L2).
Qed.

End answering.
End service.
End store.

(** * Witnesses *)

Section witnesses.

Definition channel : list (string * DelegatedExecutor (list MulticaIssue)) :=
  [("multica", multica_executor (λ _, ""))].

Definition small_store : DelegationStore (list MulticaIssue) := {|
  DS.delegations := ∅;
  DS.governance := {|
    GDB.projects := {[ "p1" := {| GProject.id := "p1"; GProject.uid := "u1";
      GProject.selection_status := "selectable"; GProject.status := "active";
      GProject.workdir_path := "w" |} ]};
    GDB.project_agents := ∅; GDB.run_ids := {[ "run-1" ]}; GDB.topics := ∅; GDB.comments := ∅;
    GDB.decisions := ∅; GDB.tasks := ∅; GDB.reports := ∅ |};
  DS.outside := {| Out.coding := CD.mk ∅ ∅ ∅ ∅ []; Out.world := [] |} |}.

Definition small_fresh : DelegationFresh := {|
  fresh_operation := "op-f"; fresh_row := "row-1"; fresh_token := "lease-1";
  fresh_dispatch := {| fresh_session := "s-1"; fresh_turn := "t-1"; dispatch_now := 0 |} |}.

Lemma small_sound : sound small_store.
Proof. intros k r. cbn. by rewrite lookup_empty. Qed.

(** A delegation in the queue whose executor never answered, one collected long ago and one
    under a live lease. *)
Definition waiting (operation_id : string) (state : DispatchState) (lease : option datetime)
    : ChannelDelegation :=
  let row := new_delegation operation_id operation_id "p1" "multica" "task"
               (request_payload (demo_request "")) None None 0 in
  row <| Dlg.dispatch_state := state |> <| Dlg.lease_expires_at := lease |>
      <| Dlg.owner_token := (λ _, "t") <$> lease |>.

Definition waiting_store : DelegationStore (list MulticaIssue) :=
  small_store <| DS.delegations := {[ "op-1" := waiting "op-1" DsPending (Some 5);
                                      "op-2" := waiting "op-2" DsReclaimed None;
                                      "op-3" := waiting "op-3" DsCollecting (Some 50) ]} |>.

Definition small_ops : list (DelegationOp (W := list MulticaIssue)) :=
  [OpDispatch "multica" (demo_request "op-1") None small_fresh id 0 1;
   OpConverge (λ _, (fresh_dispatch small_fresh, id)) 50 200000000;
   OpCollect "op-1" None None "lease-2" id 300000000 300000001].

Lemma small_interleaves : Forall interleaves small_ops.
Proof.
  unfold small_ops. repeat (apply Forall_cons_2; [cbn [interleaves]; intros; apply reflexivity|]).
  apply Forall_nil_2.
Qed.

Definition small_end : DelegationStore (list MulticaIssue) :=
  foldl (flip (perform channel 120 (λ _, "error") (λ _, ""))) small_store small_ops.


Lemma insertable_demo :
  insertable small_store (intent 120 "multica" (demo_request "op-1") None small_fresh 0).
Proof.
  split_and!; [by vm_compute|cbn; unfold EXECUTOR_KEYS; set_solver|by vm_compute..| |].
  - cbn. by eexists.
  - cbn. intros run [= <-]. set_solver.
Qed.


Lemma redelivery_repeats_request_witness :
  ∃ row', DS.delegations (foldl (flip (perform channel 120 (λ _, "error") (λ _, "")))
      (store_intent 120 "multica" (demo_request "op-1") None small_fresh 0 small_store).2 small_ops)
    !! "op-1" = Some row' ∧ request_from_row row' = demo_request "op-1".
Proof.
  apply (redelivery_repeats_request channel 120 (λ _, "error") (λ _, "") "multica"
    (demo_request "op-1") None small_fresh 0 small_store
    (intent 120 "multica" (demo_request "op-1") None small_fresh 0)).
  - destruct (store_intent_inv 120 (λ _, "") "multica" (demo_request "op-1") None small_fresh 0 small_store _ eq_refl)
      as [(e & _ & N)|(_ & ->)]; [by destruct (N insertable_demo)|done].
  - done.
  - apply small_sound.
  - apply small_interleaves.
Defined.

(** An executor that answers the same to every request. *)
Definition steady_executor : DelegatedExecutor (list MulticaIssue) := {|
  capabilities := [];
  ex_dispatch _ request := λ o,
    (Ret (multica_handle (Dreq.operation_id request) (memory_issue 1 "" "")), o);
  ex_status _ := λ o, (Ret (Some "todo"), o);
  ex_collect _ := λ o, (Raise (DelegationError "delegation_not_ready" ""), o);
  ex_enqueue := None |}.

Lemma steady_answers_fit key ex :
  executor_of key [("multica", steady_executor)] = Some ex → answers_fit ex.
Proof.
  cbn. case_bool_decide; [|done]. intros [= <-]. split.
  - intros fresh request o h o' [= <- _]. by vm_compute.
  - intros h o v o' [= <- _]. by vm_compute.
Qed.

Lemma waiting_sound_row operation_id state lease :
  delegation_fits (waiting operation_id state lease) = true → state ≠ DsFailed →
  sound_row operation_id (waiting operation_id state lease).
Proof.
  intros Hl Hs. split; try done; [|by destruct lease].
  apply list_elem_of_In. cbn. tauto.
Qed.

Lemma waiting_sound : sound waiting_store.
Proof.
  intros k r H. unfold waiting_store in H. row_simpl.
  repeat (apply lookup_insert_Some in H as [[<- <-]|[_ H]];
    [by apply waiting_sound_row; [vm_compute|]|]).
  apply lookup_singleton_Some in H as [<- <-]. by apply waiting_sound_row; [vm_compute|].
Qed.

Definition swept : DelegationStore (list MulticaIssue) :=
  (converge [("multica", steady_executor)] (λ _, (fresh_dispatch small_fresh, id)) 50 10 waiting_store).2.


(** * Leases do not fence

    A collector does not look at the lease of another one, and its failure is written whatever
    happened meanwhile. *)

(** Fails as long as the world is empty. *)
Definition flaky_executor : DelegatedExecutor (list MulticaIssue) := {|
  capabilities := [];
  ex_dispatch := ex_dispatch steady_executor;
  ex_status := ex_status steady_executor;
  ex_collect _ := λ o,
    match Out.world o with
    | [] => (Raise (DelegationError "multica_request_failed" ""), o)
    | _ => (Ret {| r_summary := Some "done"; r_text := None; r_artifacts := []; r_usage := JObj [];
                   r_remote_status := Some "done"; r_error_code := None |}, o)
    end;
  ex_enqueue := None |}.

Definition world_of (issues : list MulticaIssue) (s : DelegationStore (list MulticaIssue)) :=
  s <| DS.outside ::= λ o, o <| Out.world := issues |> |>.

Definition dispatched_store : DelegationStore (list MulticaIssue) :=
  small_store <| DS.delegations := {[ "op-1" := waiting "op-1" DsDispatched None ]} |>.

(** Another collector takes the delegation over and completes it. *)
Definition overtaking (s : DelegationStore (list MulticaIssue)) : DelegationStore (list MulticaIssue) :=
  world_of [] (collect [("multica", flaky_executor)] 120 "op-1" None None "lease-b" id 20 30
                 (world_of [memory_issue 1 "" ""] s)).2.

Lemma late_collector_reopens :
  let claimed := (claim_collect [("multica", flaky_executor)] 120 "op-1" None "lease-a" 10
                    dispatched_store).2 in
  let s' := (collect [("multica", flaky_executor)] 120 "op-1" None None "lease-a" overtaking 10 40
               dispatched_store).2 in
  (Dlg.dispatch_state <$> DS.delegations claimed !! "op-1") = Some DsCollecting
  ∧ (Dlg.dispatch_state <$> DS.delegations (overtaking claimed) !! "op-1") = Some DsReclaimed
  ∧ (Dlg.dispatch_state <$> DS.delegations s' !! "op-1") = Some DsDispatched
  ∧ (Dlg.result_summary <$> DS.delegations s' !! "op-1") = Some (Some "done").
Proof. by vm_compute. Qed.
End witnesses.
