(* ===== verification/ChannelSync.v ===== *)
(** Pulling Multica issues into governance: the table [channel_sync_cursors]
    ([storage/postgres/models_business.py]), its half of
    [repositories/channel_delegation_repository.py] and [services/channel_sync_service.py].

    A pull claims the cursor of its project, reads pages of issues, newest first, down to the
    cursor's time, proposes each as a topic ([Governance.v]) and moves the cursor when it has seen
    every issue.  Each topic is a transaction of its own; [others] is what other processes do
    before a page is read and before the cursor is written back. *)

From stdpp Require Import prelude gmap strings list fin_maps.
From Stdlib Require Import ZArith Lia.
From S2P Require Import Prelude PyLib PyTime PyJson CodingAdapters Executors Governance.
Local Open Scope Z_scope.

(** * The tables *)

Module Cur.
Record ChannelSyncCursor := mk {
  id : string;
  channel : string;
  project_id : string;
  cursor_value : option string;
  last_synced_at : option datetime;
  owner_token : option string;
  lease_expires_at : option datetime;
  last_error : option string;
  created_at : datetime;
  updated_at : datetime
}.
#[global] Instance eta : Eta ChannelSyncCursor := λ r,
  mk (id r) (channel r) (project_id r) (cursor_value r) (last_synced_at r) (owner_token r)
    (lease_expires_at r) (last_error r) (created_at r) (updated_at r).
#[global] Instance eq_dec : EqDecision ChannelSyncCursor.
Proof. solve_decision. Defined.
End Cur.
Abbreviation ChannelSyncCursor := Cur.ChannelSyncCursor.

(** Cursors by channel and project, users by uid, the governance tables and Multica. *)
Module Sync.
Record SyncStore (W : Type) := mk {
  cursors : gmap (string * string) ChannelSyncCursor;
  users : gmap string GUser;
  governance : GovernanceDB;
  world : W
}.
Arguments mk {W}.
Arguments cursors {W}.
Arguments users {W}.
Arguments governance {W}.
Arguments world {W}.
#[global] Instance eta {W} : Eta (SyncStore W) := λ s,
  mk (cursors s) (users s) (governance s) (world s).
End Sync.
Abbreviation SyncStore := Sync.SyncStore.

Definition MULTICA_SYNC_CHANNEL : string := MULTICA_EXECUTOR_KEY.
Definition DEFAULT_CURSOR_LEASE_SECONDS : Z := 120.
Definition MULTICA_SYNC_MAX_PAGES : nat := 10.

(** * Cursor keys *)

(** The key of an issue: its time, in UTC with microseconds, and its id. *)
Definition key : Type := string * string.

Definition OVERFLOW : exn := RuntimeError "OverflowError".

(** The years [datetime] knows. *)
Definition in_range (t : datetime) : bool :=
  let '(year, _, _) := ord2ymd (EPOCH_ORDINAL + t / DAY) in (1 <=? year) && (year <=? 9999).

Definition normalize_timestamp (value : string) : outcome string :=
  match fromisoformat (str_replace "Z" "+00:00" 0 (strip value)) with
  | None => Raise (ValueError "Invalid isoformat string")
  | Some (t, offset) =>
      let t := t - default 0 offset in
      if in_range t then Ret (isoformat_micros t) else Raise OVERFLOW
  end.

Definition cursor_key (issue : MulticaIssue) : outcome key :=
  if falsy_str (i_updated_at issue) || bool_decide (i_id issue = "")
  then Raise (ValueError "multica issue missing updated_at/id")
  else
    match normalize_timestamp (default EmptyString (i_updated_at issue)) with
    | Ret t => Ret (t, i_id issue)
    | Raise e => Raise e
    end.

(** [json.dumps] with sorted keys. *)
Definition encode_cursor (k : key) : string := dumps_pair "id" k.2 "updated_at" k.1.

Section decode.
Context (container_text : json → string).

(** [str(payload[name]).strip()], if there is such a field and it is not empty. *)
Definition cursor_field (name : string) (payload : json) : option string :=
  v ← jget name payload;
  let text := strip (str_of container_text v) in
  if bool_decide (text = "") then None else Some text.

Definition MALFORMED : exn := ValueError "malformed multica sync cursor".

Definition as_malformed (r : outcome string) : outcome string :=
  match r with Raise (ValueError _) => Raise MALFORMED | r => r end.

Definition decode_cursor (value : option string) : outcome (option key) :=
  let text := strip (default EmptyString value) in
  if bool_decide (text = "") then Ret None
  else if String.prefix "{" text then
    match payload ← loads text; u ← cursor_field "updated_at" payload;
          i ← cursor_field "id" payload; Some (u, i) with
    | None => Raise MALFORMED
    | Some (updated_at, issue_id) =>
        match as_malformed (normalize_timestamp updated_at) with
        | Ret t => Ret (Some (t, issue_id))
        | Raise e => Raise e
        end
    end
  else
    match as_malformed (normalize_timestamp text) with
    | Ret t => Ret (Some (t, EmptyString))
    | Raise e => Raise e
    end.
End decode.

(** [a < b] of texts and of keys. *)
Definition str_ltb (a b : string) : bool := negb (str_leb b a).
Definition key_ltb (a b : key) : bool :=
  str_ltb a.1 b.1 || (bool_decide (a.1 = b.1) && str_ltb a.2 b.2).

(** * Cursors and their leases *)

Section sync.
Context {W : Type}.
Implicit Types s : SyncStore W.

Definition get_cursor_for_update (channel project_id : string)
    : M (SyncStore W) (option ChannelSyncCursor) :=
  gets (λ s, Sync.cursors s !! (channel, project_id)).

Definition cursor_fits (r : ChannelSyncCursor) : bool :=
  Governance.fits 64 (Cur.id r) && Governance.fits 32 (Cur.channel r)
  && Governance.fits 64 (Cur.project_id r) && Governance.opt_fits 512 (Cur.cursor_value r)
  && Governance.opt_fits 128 (Cur.owner_token r).

Definition new_cursor (fresh_id channel project_id : string) (now : datetime) : ChannelSyncCursor := {|
  Cur.id := fresh_id; Cur.channel := channel; Cur.project_id := project_id;
  Cur.cursor_value := None; Cur.last_synced_at := None; Cur.owner_token := None;
  Cur.lease_expires_at := None; Cur.last_error := None; Cur.created_at := now; Cur.updated_at := now |}.

Definition add_cursor (fresh_id channel project_id : string) (now : datetime)
    : M (SyncStore W) ChannelSyncCursor :=
  let row := new_cursor fresh_id channel project_id now in
  s ← gets id;
  if negb (cursor_fits row) then raise (DataError "value too long")
  else if negb (bool_decide (channel = "multica"))
  then raise (IntegrityError "ck_channel_sync_cursors_channel")
  else if any (λ r, bool_decide (Cur.id r = fresh_id)) (Sync.cursors s)
  then raise (IntegrityError "channel_sync_cursors_pkey")
  else if bool_decide (is_Some (Sync.cursors s !! (channel, project_id)))
  then raise (IntegrityError "uq_channel_sync_cursors_scope")
  else if bool_decide (GDB.projects (Sync.governance s) !! project_id = None)
  then raise (IntegrityError "fk_channel_sync_cursors_project_id")
  else
    _ ← modify (λ s, s <| Sync.cursors ::= <[(channel, project_id) := row]> |>);
    mret row.

(** [ORDER BY created_at, id]. *)
Definition cursor_oldest (a b : ChannelSyncCursor) : bool :=
  if Cur.created_at a =? Cur.created_at b then str_leb (Cur.id a) (Cur.id b)
  else Cur.created_at a <=? Cur.created_at b.

Definition list_cursors_for_channel (channel : string) : M (SyncStore W) (list ChannelSyncCursor) :=
  gets (λ s, sort_by cursor_oldest
    (select (λ r, bool_decide (Cur.channel r = channel)) (Sync.cursors s))).

(** The flush of a locked cursor that was changed. *)
Definition put_cursor (row : ChannelSyncCursor) (now : datetime) : M (SyncStore W) ChannelSyncCursor :=
  let row := row <| Cur.updated_at := now |> in
  if negb (cursor_fits row) then raise (DataError "value too long")
  else
    _ ← modify (λ s, s <| Sync.cursors ::= <[(Cur.channel row, Cur.project_id row) := row]> |>);
    mret row.

Definition LEASE_LOST : string := "delegation_lease_lost".

Context (lease_seconds : Z).

Definition claim_cursor (project_id fresh_id token : string) (now : datetime)
    : M (SyncStore W) ChannelSyncCursor :=
  atomic (
    existing ← get_cursor_for_update MULTICA_SYNC_CHANNEL project_id;
    cursor ← match existing with
             | Some cursor => mret cursor
             | None => add_cursor fresh_id MULTICA_SYNC_CHANNEL project_id now
             end;
    if match Cur.lease_expires_at cursor with Some e => now <? e | None => false end
    then raise (DelegationError LEASE_LOST "渠道同步游标已被其他 owner 持有")
    else put_cursor (cursor <| Cur.owner_token := Some token |>
                            <| Cur.lease_expires_at := Some (now + seconds lease_seconds) |>) now).

Definition finish_cursor (project_id token : string) (cursor_value last_error : option string)
    (now : datetime) : M (SyncStore W) unit :=
  atomic (
    existing ← get_cursor_for_update MULTICA_SYNC_CHANNEL project_id;
    match existing with
    | None => raise (DelegationError LEASE_LOST "渠道同步游标租约已失效")
    | Some cursor =>
        if negb (bool_decide (Cur.owner_token cursor = Some token))
           || match Cur.lease_expires_at cursor with Some e => e <=? now | None => true end
        then raise (DelegationError LEASE_LOST "渠道同步游标租约已失效")
        else
          let cursor := match cursor_value with
                        | Some v => cursor <| Cur.cursor_value := Some v |>
                        | None => cursor
                        end in
          let cursor := match last_error with
                        | None => cursor <| Cur.last_synced_at := Some now |>
                        | Some _ => cursor
                        end in
          _ ← put_cursor (cursor <| Cur.last_error := last_error |> <| Cur.owner_token := None |>
                                 <| Cur.lease_expires_at := None |>) now;
          mret tt
    end).

(** * Pulling *)

(** What a pull draws and reads: the names of the cursor and its lease, a topic's id by how many
    were imported before it, the clock at the claim, at the topics and at the end, and what other
    processes do before page [n] is read and (page [MULTICA_SYNC_MAX_PAGES]) before the end. *)
Record PullTurn := {
  fresh_cursor : string;
  fresh_lease : string;
  fresh_topic : nat → string;
  claim_now : datetime;
  topic_now : datetime;
  finish_now : datetime;
  others : nat → SyncStore W → SyncStore W
}.

Record Progress := { imported : nat; skipped : nat; latest_key : option key }.

Definition later (latest : option key) (k : key) : option key :=
  match latest with
  | None => Some k
  | Some l => if key_ltb l k then Some k else Some l
  end.

Definition on_governance {A} (m : M GovernanceDB A) : M (SyncStore W) A := λ s,
  let '(r, g) := m (Sync.governance s) in (r, s <| Sync.governance := g |>).

Definition on_world {A} (m : M W A) : M (SyncStore W) A := λ s,
  let '(r, w) := m (Sync.world s) in (r, s <| Sync.world := w |>).

Context (container_text : json → string) (exn_text : exn → string).

Definition propose (turn : PullTurn) (project_id : string) (actor : GUser) (n : nat)
    (issue : MulticaIssue) : M (SyncStore W) GovernanceTopic :=
  on_governance (create_governance_topic (fresh_topic turn n) project_id (i_title issue)
    (Some (i_description issue)) (Some MULTICA_SYNC_CHANNEL) (Some (i_identifier issue))
    (i_url issue) actor (topic_now turn)).

(** The issues of a page.  The progress survives an exception; the answer is [reached_cursor]. *)
Fixpoint import_issues (turn : PullTurn) (project_id : string) (actor : GUser)
    (initial_key : option key) (issues : list MulticaIssue) (p : Progress) (s : SyncStore W)
    : Progress * outcome bool * SyncStore W :=
  match issues with
  | [] => (p, Ret false, s)
  | issue :: issues =>
      match cursor_key issue with
      | Raise e => (p, Raise e, s)
      | Ret k =>
          if match initial_key with Some i => str_ltb k.1 i.1 | None => false end
          then (p, Ret true, s)
          else
            let p := {| imported := imported p; skipped := skipped p;
                        latest_key := later (latest_key p) k |} in
            match propose turn project_id actor (imported p) issue s with
            | (Ret _, s) =>
                import_issues turn project_id actor initial_key issues
                  {| imported := S (imported p); skipped := skipped p; latest_key := latest_key p |} s
            | (Raise e, s) =>
                if match e with HTTPException 409 _ => true | _ => false end
                then import_issues turn project_id actor initial_key issues
                       {| imported := imported p; skipped := S (skipped p); latest_key := latest_key p |} s
                else (p, Raise e, s)
            end
      end
  end.

Context `{MulticaClient W}.

(** [pages] more pages from [offset]; the answer is [consumed]. *)
Fixpoint pull_pages (turn : PullTurn) (project_id : string) (actor : GUser)
    (initial_key : option key) (page_size pages offset : nat) (p : Progress) (s : SyncStore W)
    : Progress * outcome bool * SyncStore W :=
  match pages with
  | O => (p, Ret false, s)
  | S pages' =>
      match on_world (list_issues page_size offset) (others turn (MULTICA_SYNC_MAX_PAGES - pages) s) with
      | (Raise e, s) => (p, Raise e, s)
      | (Ret [], s) => (p, Ret true, s)
      | (Ret issues, s) =>
          match import_issues turn project_id actor initial_key issues p s with
          | (p, Raise e, s) => (p, Raise e, s)
          | (p, Ret reached_cursor, s) =>
              if reached_cursor || (length issues <? page_size)%nat
              then (p, Ret true, s)
              else pull_pages turn project_id actor initial_key page_size pages'
                     (offset + length issues) p s
          end
      end
  end.

Record PullResult := {
  pulled_imported : nat;
  pulled_skipped : nat;
  pulled_cursor : option string;
  pulled_error : option string
}.

Definition PAGE_CAP : string := "Multica 同步达到 10 页上限，游标未推进".

(** A flush that failed leaves the session unusable until it is rolled back. *)
Definition session_broken (e : exn) : bool :=
  match e with IntegrityError _ | DataError _ => true | _ => false end.

Definition PENDING_ROLLBACK : exn := RuntimeError "PendingRollbackError".

(** The end of a pull that failed: the error is noted on the cursor, which stays where it was. *)
Definition note_failure (turn : PullTurn) (project_id token : string) (initial : option string)
    (p : Progress) (e : exn) : M (SyncStore W) PullResult :=
  if session_broken e then raise PENDING_ROLLBACK
  else
    _ ← finish_cursor project_id token None (Some (exn_text e)) (finish_now turn);
    mret {| pulled_imported := imported p; pulled_skipped := skipped p; pulled_cursor := initial;
            pulled_error := Some (exn_text e) |}.

Definition no_progress (k : option key) : Progress :=
  {| imported := 0; skipped := 0; latest_key := k |}.

(** After the claim: [cursor] is the claimed row. *)
Definition pull_claimed (turn : PullTurn) (project_id : string) (actor : GUser) (page_size : nat)
    (token : string) (initial : option string) : M (SyncStore W) PullResult :=
  match decode_cursor container_text initial with
  | Raise (ValueError m) => note_failure turn project_id token initial (no_progress None) (ValueError m)
  | Raise e => raise e
  | Ret initial_key => λ s,
      match pull_pages turn project_id actor initial_key page_size MULTICA_SYNC_MAX_PAGES 0
              (no_progress initial_key) s with
      | (p, r, s) =>
          let s := others turn MULTICA_SYNC_MAX_PAGES s in
          match r with
          | Raise e => note_failure turn project_id token initial p e s
          | Ret consumed =>
              let error := if consumed then None else Some PAGE_CAP in
              let cursor_value :=
                match latest_key p with
                | Some k => if consumed then Some (encode_cursor k) else initial
                | None => initial
                end in
              (_ ← finish_cursor project_id token cursor_value error (finish_now turn);
               mret {| pulled_imported := imported p; pulled_skipped := skipped p;
                       pulled_cursor := cursor_value; pulled_error := error |}) s
          end
      end
  end.

Definition pull_multica (turn : PullTurn) (project_id actor_uid : string) (limit : Z)
    : M (SyncStore W) PullResult :=
  actor ← gets (λ s, Sync.users s !! actor_uid);
  match actor with
  | None => raise (DelegationError LEASE_LOST "同步发起用户不存在")
  | Some actor =>
      cursor ← claim_cursor project_id (fresh_cursor turn) (fresh_lease turn) (claim_now turn);
      pull_claimed turn project_id actor (Z.to_nat (Z.max 1 limit)) (fresh_lease turn)
        (Cur.cursor_value cursor)
  end.

(** * Convergence *)

Record SyncCounts := {
  c_projects : nat; c_imported : nat; c_skipped : nat; c_released : nat; c_failed : nat
}.

(** The stale leases of the listed projects, in one transaction. *)
Fixpoint release_stale (project_ids : list string) (now : datetime) (released : nat)
    : M (SyncStore W) nat :=
  match project_ids with
  | [] => mret released
  | project_id :: project_ids =>
      locked ← get_cursor_for_update MULTICA_SYNC_CHANNEL project_id;
      match locked with
      | Some cursor =>
          if match Cur.lease_expires_at cursor with Some e => e <=? now | None => false end
          then
            _ ← put_cursor (cursor <| Cur.owner_token := None |> <| Cur.lease_expires_at := None |>) now;
            release_stale project_ids now (S released)
          else release_stale project_ids now released
      | None => release_stale project_ids now released
      end
  end.

Fixpoint pull_each (turns : string → PullTurn) (project_ids : list string) (limit : Z)
    (counts : SyncCounts) : M (SyncStore W) SyncCounts :=
  match project_ids with
  | [] => mret counts
  | project_id :: project_ids => λ s,
      match GDB.projects (Sync.governance s) !! project_id with
      | None => pull_each turns project_ids limit counts s
      | Some project =>
          match pull_multica (turns project_id) project_id (GProject.uid project) limit s with
          | (Ret result, s) =>
              pull_each turns project_ids limit
                {| c_projects := S (c_projects counts);
                   c_imported := c_imported counts + pulled_imported result;
                   c_skipped := c_skipped counts + pulled_skipped result;
                   c_released := c_released counts;
                   c_failed := if falsy_str (pulled_error result) then c_failed counts
                               else S (c_failed counts) |} s
          | (Raise e, s) =>
              if match e with DelegationError code _ => bool_decide (code = LEASE_LOST) | _ => false end
              then pull_each turns project_ids limit
                     {| c_projects := c_projects counts; c_imported := c_imported counts;
                        c_skipped := c_skipped counts; c_released := c_released counts;
                        c_failed := S (c_failed counts) |} s
              else (Raise e, s)
          end
      end
  end.

Definition converge_sync (turns : string → PullTurn) (limit_per_project : Z) (max_projects : nat)
    (now : datetime) : M (SyncStore W) SyncCounts :=
  listed ← list_cursors_for_channel MULTICA_SYNC_CHANNEL;
  let project_ids := take max_projects (map Cur.project_id listed) in
  released ← atomic (release_stale project_ids now 0);
  pull_each turns project_ids limit_per_project
    {| c_projects := 0; c_imported := 0; c_skipped := 0; c_released := released; c_failed := 0 |}.

(** [get_cursor]. *)
Definition read_cursor (project_id : string) : M (SyncStore W) (option ChannelSyncCursor) :=
  listed ← list_cursors_for_channel MULTICA_SYNC_CHANNEL;
  mret (List.find (λ c, bool_decide (Cur.project_id c = project_id)) listed).
End sync.
Arguments PullTurn : clear implicits.
