(* ===== verification/ChannelSyncProps.v ===== *)
(** What holds of the synchronisation of Multica ([ChannelSync.v]): a cursor that is stored is the
    cursor that is read, a lease keeps others out, a pull that fails leaves the cursor where it
    was, and one that does not has proposed every issue there is. *)

From stdpp Require Import prelude gmap strings list fin_maps pretty.
From Stdlib Require Import ZArith Lia Ascii Sorting.Sorted.
From S2P Require Import Prelude PyLib PyTime PyJson CodingAdapters Executors Multica Governance ChannelSync.
Local Open Scope Z_scope.

(** * Texts of times and cursors *)

Definition plain_char (c : ascii) : bool := negb (is_space c) && negb (Ascii.eqb c "Z").

Lemma digit_char_plain a : 0 <= a < 10 → plain_char (ascii_of_N (Z.to_N (48 + a))) = true.
Proof.
  intros Ha. assert (H : upto 10 (λ a, plain_char (ascii_of_N (Z.to_N (48 + a)))) 0 = true) by done.
  apply (upto_spec _ _ _ H). lia.
Qed.

Lemma decimal_plain n z : all_chars plain_char (decimal n z) = true.
Proof.
  induction n as [|n IH]; [done|]. cbn [decimal all_chars].
  rewrite IH, digit_char_plain by (apply Z.mod_pos_bound; lia). done.
Qed.

Lemma isoformat_plain t : all_chars plain_char (isoformat_micros t) = true.
Proof.
  unfold isoformat_micros. destruct (ord2ymd _) as [[y m] d].
  rewrite !all_chars_app, !decimal_plain. done.
Qed.

Lemma strip_ends c s d :
  is_space c = false → is_space d = false →
  strip (String c (s ++ String d "")) = String c (s ++ String d "").
Proof.
  intros Hc Hd. unfold strip. cbn [lstrip]. rewrite Hc.
  assert (R : rstrip (s ++ String d "") = (s ++ String d "")%string).
  { induction s as [|e s IH]; [rewrite append_nil_l; cbn [rstrip]; by rewrite Hd|].
    rewrite append_cons. cbn [rstrip]. rewrite IH.
    destruct s; [done|]. by rewrite append_cons. }
  cbn [rstrip]. rewrite R. destruct s; [done|]. by rewrite append_cons.
Qed.

Lemma in_range_iff t : in_range t = true ↔ representable t.
Proof.
  unfold in_range, representable. destruct (ord2ymd _) as [[y m] d]. rewrite andb_true_iff, !Z.leb_le. lia.
Qed.

Lemma isoformat_stripped t : strip (isoformat_micros t) = isoformat_micros t.
Proof.
  apply strip_solid. eapply all_chars_weaken, isoformat_plain. unfold plain_char.
  intros c. by rewrite andb_true_iff; intros [? _].
Qed.

(** A normal time is normal. *)
Lemma normalize_normal t :
  representable t → normalize_timestamp (isoformat_micros t) = Ret (isoformat_micros t).
Proof.
  intros Ht. unfold normalize_timestamp. rewrite isoformat_stripped, replace_absent.
  - rewrite fromisoformat_isoformat by done. cbn [default]. rewrite Z.sub_0_r.
    by rewrite (proj2 (in_range_iff t) Ht).
  - eapply all_chars_weaken, isoformat_plain. unfold plain_char.
    intros c. by rewrite andb_true_iff; intros [_ ?].
Qed.

(** A key that [cursor_key] gives: a normal time. *)
Lemma normalize_inv v r :
  normalize_timestamp v = Ret r → ∃ t, representable t ∧ r = isoformat_micros t.
Proof.
  unfold normalize_timestamp. destruct (fromisoformat _) as [[t o]|]; [|done].
  destruct (in_range _) eqn:E; [|done]. intros [= <-]. eexists. split; [by apply in_range_iff|done].
Qed.

Lemma cursor_key_inv i k :
  cursor_key i = Ret k →
  (∃ t, representable t ∧ k.1 = isoformat_micros t) ∧ k.2 = i_id i ∧ i_id i ≠ "".
Proof.
  unfold cursor_key. destruct (_ || _) eqn:E; [done|].
  destruct (normalize_timestamp _) as [r|] eqn:N; [|done]. intros [= <-]. cbn.
  split; [by eapply normalize_inv|]. split; [done|]. intros C. rewrite C in E. by destruct (falsy_str _).
Qed.

Lemma dumps_pair_stripped k1 v1 k2 v2 : strip (dumps_pair k1 v1 k2 v2) = dumps_pair k1 v1 k2 v2.
Proof.
  unfold dumps_pair. rewrite append_cons, append_nil_l, !append_assoc. by apply strip_ends.
Qed.

(** The cursor a pull stores is the cursor the next pull starts from, when the id of its issue
    has no surrounding blanks. *)
Theorem stored_cursor_reads_back container_text i k :
  cursor_key i = Ret k → strip (i_id i) = i_id i →
  decode_cursor container_text (Some (encode_cursor k)) = Ret (Some k).
Proof.
  intros Hk Hs. destruct k as [u d]. apply cursor_key_inv in Hk as ((t & Ht & Hu) & Hd & Hne).
  cbn in Hu, Hd. subst u d. unfold decode_cursor, encode_cursor. change (default EmptyString (Some ?x)) with x. cbv zeta. cbn [fst snd].
  rewrite dumps_pair_stripped. rewrite bool_decide_eq_false_2 by done.
  replace (String.prefix "{" _) with true
    by (unfold dumps_pair; by rewrite append_cons).
  rewrite loads_pair by done. cbn [mbind option_bind]. unfold cursor_field. cbn [jget].
  change (assoc_last "updated_at" _) with (Some (JStr (isoformat_micros t))).
  change (assoc_last "id" _) with (Some (JStr (i_id i))). cbn [mbind option_bind str_of].
  rewrite isoformat_stripped, Hs, !bool_decide_eq_false_2.
  - cbn [mbind option_bind]. by rewrite normalize_normal.
  - unfold isoformat_micros. by destruct (ord2ymd _) as [[? ?] ?].
  - done.
Qed.

(** * Leases *)

Section leases.
Context {W : Type} `{Client : MulticaClient W}.
Context (lease_seconds : Z) (container_text : json → string) (exn_text : exn → string).
Implicit Types s : SyncStore W.

Definition cursor_of (project_id : string) s : option ChannelSyncCursor :=
  Sync.cursors s !! (MULTICA_SYNC_CHANNEL, project_id).

Definition value_of (project_id : string) s : option string :=
  cursor_of project_id s ≫= Cur.cursor_value.

(** Cursors are stored under their channel and project. *)
Definition keyed s : Prop :=
  ∀ k c, Sync.cursors s !! k = Some c → k = (Cur.channel c, Cur.project_id c).

Lemma put_cursor_inv row now s r s' :
  put_cursor (W := W) row now s = (r, s') →
  let row' := row <| Cur.updated_at := now |> in
  (∃ e, r = Raise e ∧ s' = s ∧ cursor_fits row' = false)
  ∨ cursor_fits row' = true ∧ r = Ret row'
    ∧ s' = s <| Sync.cursors ::= <[(Cur.channel row, Cur.project_id row) := row']> |>.
Proof.
  unfold put_cursor. destruct (cursor_fits _) eqn:F; cbn [negb].
  - m_unfold. intros [= <- <-]. by right.
  - intros [= <- <-]. left. by eexists.
Qed.

(** What a claim does. *)
Lemma claim_cursor_inv project_id fresh_id token now s r s' :
  keyed s → claim_cursor (W := W) lease_seconds project_id fresh_id token now s = (r, s') →
  (∃ e, r = Raise e ∧ s' = s)
  ∨ ∃ c, r = Ret c ∧ Cur.owner_token c = Some token
      ∧ Cur.lease_expires_at c = Some (now + seconds lease_seconds)
      ∧ Cur.channel c = MULTICA_SYNC_CHANNEL ∧ Cur.project_id c = project_id
      ∧ Cur.cursor_value c = value_of project_id s
      ∧ s' = s <| Sync.cursors ::= <[(MULTICA_SYNC_CHANNEL, project_id) := c]> |>.
Proof.
  intros K. unfold claim_cursor, atomic, get_cursor_for_update. m_unfold.
  unfold value_of, cursor_of.
  destruct (Sync.cursors s !! _) as [c0|] eqn:L.
  - apply K in L as [= E1 E2].
    destruct (match Cur.lease_expires_at c0 with Some e => now <? e | None => false end);
      [intros [= <- <-]; left; by eexists|].
    destruct (put_cursor _ now s) as [r1 s1] eqn:P. apply put_cursor_inv in P.
    destruct P as [(e & -> & -> & _)|(F & -> & ->)]; intros [= <- <-]; [left; by eexists|].
    right. eexists. split; [done|]. row_simpl. by rewrite <- E1, <- E2.
  - unfold add_cursor, id. m_unfold.
    repeat (destruct (negb _) || destruct (any _ _) || case_bool_decide);
      try (intros [= <- <-]; left; by eexists).
    cbn [Cur.lease_expires_at new_cursor].
    destruct (put_cursor _ now _) as [r1 s1] eqn:P. apply put_cursor_inv in P.
    destruct P as [(e & -> & -> & _)|(F' & -> & ->)]; intros [= <- <-]; [left; by eexists|].
    right. eexists. split; [done|]. row_simpl. cbn [Cur.channel Cur.project_id new_cursor].
    split_and!; try done. unfold set; cbn. f_equal. by rewrite insert_insert_eq.
Qed.

(** C30: from a claim to the end of its lease no other pull of the project begins or asks Multica
    for anything, and no one ends the pull but the owner of the claim; after the end of the lease
    not even the owner does. *)
Theorem cursor_lease_excludes project_id fresh_id token now s c s1 :
  keyed s → claim_cursor (W := W) lease_seconds project_id fresh_id token now s = (Ret c, s1) →
  let expiry := now + seconds lease_seconds in
  (∀ turn actor_uid limit, claim_now turn < expiry →
     ∃ m, pull_multica lease_seconds container_text exn_text turn project_id actor_uid limit s1
          = (Raise (DelegationError LEASE_LOST m), s1))
  ∧ (∀ token' value error now', token' ≠ token ∨ expiry <= now' →
       ∃ m, finish_cursor project_id token' value error now' s1
            = (Raise (DelegationError LEASE_LOST m), s1)).
Proof.
  intros K E expiry.
  destruct (claim_cursor_inv project_id fresh_id token now s _ s1 K E)
    as [(e & [=] & _)|(c' & [= <-] & Ho & Hl & _ & _ & _ & ->)].
  set (s1 := s <| Sync.cursors ::= _ |>).
  assert (L : Sync.cursors s1 !! (MULTICA_SYNC_CHANNEL, project_id) = Some c).
  { subst s1. row_simpl. by rewrite lookup_insert_eq. }
  split.
  - intros turn uid limit Ht. unfold pull_multica, claim_cursor, atomic, get_cursor_for_update. m_unfold.
    destruct (Sync.users s1 !! uid); [|by eexists]. rewrite L, Hl.
    fold expiry. rewrite (proj2 (Z.ltb_lt _ _) Ht). by eexists.
  - intros token' value error now' Hn. unfold finish_cursor, atomic, get_cursor_for_update. m_unfold.
    rewrite L, Ho, Hl. fold expiry. destruct Hn as [Hn|Hn].
    + rewrite bool_decide_eq_false_2 by congruence. by eexists.
    + rewrite (proj2 (Z.leb_le _ _) Hn), orb_true_r. by eexists.
Qed.

(** * Failed pulls *)

Lemma finish_cursor_inv project_id token value error now s r s' :
  keyed s → finish_cursor (W := W) project_id token value error now s = (r, s') →
  (∃ e, r = Raise e ∧ s' = s)
  ∨ ∃ c c', r = Ret tt ∧ cursor_of project_id s = Some c ∧ Cur.owner_token c = Some token
      ∧ s' = s <| Sync.cursors ::= <[(MULTICA_SYNC_CHANNEL, project_id) := c']> |>
      ∧ Cur.channel c' = MULTICA_SYNC_CHANNEL ∧ Cur.project_id c' = project_id
      ∧ Cur.cursor_value c' = match value with Some v => Some v | None => Cur.cursor_value c end
      ∧ Cur.last_error c' = error ∧ Cur.owner_token c' = None ∧ Cur.lease_expires_at c' = None.
Proof.
  intros K. unfold finish_cursor, atomic, get_cursor_for_update, cursor_of. m_unfold.
  destruct (Sync.cursors s !! _) as [c|] eqn:L; [|intros [= <- <-]; left; by eexists].
  destruct (_ || _) eqn:G; [intros [= <- <-]; left; by eexists|].
  apply orb_false_iff in G as [G _]. apply negb_false_iff, bool_decide_eq_true in G.
  apply K in L as [= E1 E2].
  destruct (put_cursor _ now s) as [r1 s1] eqn:P. apply put_cursor_inv in P.
  destruct P as [(e & -> & -> & _)|(F & -> & ->)]; intros [= <- <-]; [left; by eexists|].
  right. exists c. destruct value as [v|], error as [e|]; eexists; (split; [done|]); (split; [done|]);
    (split; [done|]); row_simpl; rewrite <- E1, <- E2; (split; [reflexivity|]); by row_simpl.
Qed.

Lemma import_issues_cursors turn project_id actor initial issues p s :
  Sync.cursors (import_issues (W := W) turn project_id actor initial issues p s).2 = Sync.cursors s.
Proof.
  revert p s. induction issues as [|i issues IH]; intros p s; [done|]. cbn [import_issues].
  destruct (cursor_key i) as [k|e]; [|done]. destruct (match initial with Some _ => _ | None => _ end); [done|].
  cbv zeta. destruct (propose turn project_id actor _ i s) as [[t|e] s'] eqn:E;
    unfold propose, on_governance in E; destruct (create_governance_topic _ _ _ _ _ _ _ _ _ _) as [r g];
    injection E as -> <-; [by rewrite IH|]. case_match; [by rewrite IH|done].
Qed.

Lemma pull_pages_cursors turn project_id actor initial size pages offset p s :
  (∀ n s, Sync.cursors (others turn n s) = Sync.cursors s) →
  Sync.cursors (pull_pages (W := W) turn project_id actor initial size pages offset p s).2 = Sync.cursors s.
Proof.
  intros Ho. revert offset p s. induction pages as [|n IH]; intros offset p s; [done|].
  cbn [pull_pages]. unfold on_world. destruct (list_issues size offset _) as [[l|e] w]; [|cbn; apply Ho].
  destruct l as [|i l]; [cbn; apply Ho|].
  pose proof (import_issues_cursors turn project_id actor initial (i :: l) p
    ((others turn (MULTICA_SYNC_MAX_PAGES - S n) s) <| Sync.world := w |>)) as C.
  destruct (import_issues _ _ _ _ _ _ _) as [[p' [reached|e]] s']; cbn [snd] in C.
  - destruct (reached || _); cbn [snd]; [by rewrite C; cbn; apply Ho|]. rewrite IH, C. cbn. apply Ho.
  - cbn [snd]. rewrite C. cbn. apply Ho.
Qed.

Lemma keyed_insert s c project_id :
  keyed s → Cur.channel c = MULTICA_SYNC_CHANNEL → Cur.project_id c = project_id →
  keyed (s <| Sync.cursors ::= <[(MULTICA_SYNC_CHANNEL, project_id) := c]> |>).
Proof.
  intros K Hc Hp k x. row_simpl. rewrite lookup_insert_Some. intros [[<- <-]|[_ L]]; [congruence|by apply K].
Qed.

Lemma keyed_same s s' : Sync.cursors s' = Sync.cursors s → keyed s → keyed s'.
Proof. intros E K k c. rewrite E. apply K. Qed.

(** What the end of a pull makes of the cursors. *)
Definition ended (project_id : string) s (r : outcome PullResult) s' : Prop :=
  (∀ q, q ≠ project_id → cursor_of q s' = cursor_of q s)
  ∧ (value_of project_id s' = value_of project_id s
     ∨ ∃ res, r = Ret res ∧ pulled_error res = None ∧ value_of project_id s' = pulled_cursor res)
  ∧ ∀ res, r = Ret res → ∃ c, cursor_of project_id s' = Some c ∧ Cur.owner_token c = None
      ∧ Cur.lease_expires_at c = None ∧ Cur.last_error c = pulled_error res.

Lemma ended_same project_id s e s' :
  Sync.cursors s' = Sync.cursors s → ended project_id s (Raise e) s'.
Proof. intros E. unfold ended, value_of, cursor_of. rewrite E. split; [done|]. split; [by left|done]. Qed.

Lemma ended_before project_id s0 s r s' :
  Sync.cursors s = Sync.cursors s0 → ended project_id s r s' → ended project_id s0 r s'.
Proof. unfold ended, value_of, cursor_of. by intros ->. Qed.

(** The end of a pull that stores [value] and notes [error]. *)
Lemma finished project_id token value error now s res :
  keyed s → pulled_error res = error →
  (∀ v, value = Some v → value_of project_id s = Some v ∨ error = None ∧ pulled_cursor res = Some v) →
  let '(r, s') := (_ ← finish_cursor (W := W) project_id token value error now; mret res) s in
  ended project_id s r s'.
Proof.
  intros K He Hv. m_unfold. destruct (finish_cursor _ _ _ _ _ s) as [r s'] eqn:F.
  destruct (finish_cursor_inv project_id token value error now s r s' K F)
    as [(e & -> & ->)|(c & c' & -> & L & _ & -> & _ & _ & V & E & O & X)]; [by apply ended_same|].
  assert (L' : cursor_of project_id (s <| Sync.cursors ::= <[(MULTICA_SYNC_CHANNEL, project_id) := c']> |>)
    = Some c') by (unfold cursor_of; row_simpl; by rewrite lookup_insert_eq).
  split.
  { intros q Hq. unfold cursor_of. row_simpl. rewrite lookup_insert_ne by congruence. done. }
  split.
  - unfold value_of at 1 3. rewrite L'. cbn [mbind option_bind]. rewrite V.
    destruct value as [v|]; [|left; unfold value_of; by rewrite L].
    destruct (Hv v eq_refl) as [Hl|[He' Hc]]; [left; by rewrite Hl|right]. exists res. by subst.
  - intros res' [= <-]. exists c'. subst. done.
Qed.

Lemma note_failure_ended turn project_id token initial p e s :
  keyed s →
  let '(r, s') := note_failure (W := W) exn_text turn project_id token initial p e s in
  ended project_id s r s'.
Proof.
  intros K. unfold note_failure. destruct (session_broken e); [by apply ended_same|].
  by apply finished.
Qed.

Lemma pull_claimed_ended turn project_id actor size token s :
  keyed s → (∀ n s, Sync.cursors (others turn n s) = Sync.cursors s) →
  let '(r, s') := pull_claimed container_text exn_text turn project_id actor size token
                    (value_of project_id s) s in
  ended project_id s r s'.
Proof.
  intros K Ho. unfold pull_claimed. destruct (decode_cursor _ _) as [initial|e].
  - pose proof (pull_pages_cursors turn project_id actor initial size MULTICA_SYNC_MAX_PAGES 0
      (no_progress initial) s Ho) as C.
    destruct (pull_pages _ _ _ _ _ _ _ _ s) as [[p [consumed|e]] s1]; cbn [snd] in C.
    + set (s2 := others turn MULTICA_SYNC_MAX_PAGES s1).
      assert (E2 : Sync.cursors s2 = Sync.cursors s) by (subst s2; by rewrite Ho).
      pose proof (finished project_id token
        (match latest_key p with
         | Some k => if consumed then Some (encode_cursor k) else value_of project_id s
         | None => value_of project_id s
         end) (if consumed then None else Some PAGE_CAP) (finish_now turn) s2
        {| pulled_imported := imported p; pulled_skipped := skipped p;
           pulled_cursor := match latest_key p with
             | Some k => if consumed then Some (encode_cursor k) else value_of project_id s
             | None => value_of project_id s end;
           pulled_error := if consumed then None else Some PAGE_CAP |} (keyed_same _ _ E2 K) eq_refl) as F.
      match type of F with _ → match ?m with _ => _ end => destruct m as [r s'] end.
      eapply ended_before; [exact E2|]. apply F. intros v Hv. cbn [pulled_cursor]. rewrite Hv.
      assert (Ev : value_of project_id s2 = value_of project_id s) by (unfold value_of, cursor_of; by rewrite E2).
      rewrite Ev. destruct (latest_key p); [destruct consumed|]; auto.
    + set (s2 := others turn MULTICA_SYNC_MAX_PAGES s1).
      assert (E2 : Sync.cursors s2 = Sync.cursors s) by (subst s2; by rewrite Ho).
      pose proof (note_failure_ended turn project_id token (value_of project_id s) p e s2
        (keyed_same _ _ E2 K)) as F.
      destruct (note_failure _ _ _ _ _ _ _ s2) as [r s']. by eapply ended_before.
  - destruct e; try by apply ended_same. by apply note_failure_ended.
Qed.

End leases.

(** * Complete pulls *)

(** Multica lists a page of its issues. *)
Class MulticaListing (W : Type) `{MulticaClient W} := {
  listed : W → list MulticaIssue;
  list_answers limit offset w : list_issues limit offset w = (Ret (take limit (drop offset (listed w))), w)
}.

(** What governance asks of an issue. *)
Definition importable (i : MulticaIssue) : bool :=
  let title := strip (i_title i) in
  negb (bool_decide (title = "")) && Governance.fits MAX_TITLE_LENGTH title
  && (N.of_nat (String.length (strip (i_description i))) <=? MAX_TOPIC_TEXT_LENGTH)%N
  && negb (bool_decide (strip (i_identifier i) = ""))
  && Governance.fits 191 (strip (i_identifier i)) && Governance.opt_fits 1024 (strip_opt (i_url i)).

Definition is_topic_of (project_id : string) (i : MulticaIssue) (r : GovernanceTopic) : bool :=
  by_source GTopic.project_id topic_source project_id MULTICA_SYNC_CHANNEL (strip (i_identifier i)) r.

Definition has_topic (project_id : string) (topics : gmap string GovernanceTopic) (i : MulticaIssue) : Prop :=
  ∃ k r, topics !! k = Some r ∧ is_topic_of project_id i r = true.

(** The project a pull writes to, open to its actor. *)
Definition open_project (project_id : string) (actor : GUser) (g : GovernanceDB) : Prop :=
  ∃ p, GDB.projects g !! project_id = Some p ∧ GProject.id p = project_id
    ∧ GProject.uid p = Governance.user_uid actor
    ∧ GProject.selection_status p = "selectable" ∧ GProject.status p = "active".

Lemma has_topic_mono project_id t t' i : t ⊆ t' → has_topic project_id t i → has_topic project_id t' i.
Proof. intros S (k & r & L & H). exists k, r. split; [by eapply lookup_weaken|done]. Qed.

(** A new topic that the constraints allow. *)
Lemma insert_topic_ok row g :
  Governance.fits 512 (GTopic.title row) = true → source_fits (topic_source row) = true →
  GTopic.source_channel row = MULTICA_SYNC_CHANNEL → is_Some (GTopic.source_external_id row) →
  GTopic.status row = Proposed → GTopic.review_owner_uid row = None → GTopic.reviewed_at row = None →
  GDB.topics g !! GTopic.id row = None → is_Some (GDB.projects g !! GTopic.project_id row) →
  any (λ r, same_source (GTopic.project_id r) (topic_source r) (GTopic.project_id row) (topic_source row))
    (GDB.topics g) = false →
  insert_topic row g = (Ret row, g <| GDB.topics ::= <[GTopic.id row := row]> |>).
Proof.
  intros Ft Fs Hc [e He] Hst Ho Hr Hid [p Hp] Ha. unfold insert_topic, require, id. m_unfold.
  rewrite Ft, Fs, Hc. cbn [andb]. rewrite bool_decide_eq_true_2 by (unfold GOVERNANCE_SOURCE_CHANNELS; set_solver).
  assert (S : source_shape (topic_source row) = true).
  { unfold source_shape, topic_source. cbn. by rewrite Hc, He. }
  assert (R : review_shape (topic_review row) = true).
  { unfold review_shape, topic_review. cbn. by rewrite Hst, Ho, Hr. }
  by rewrite S, R, Hid, Ha, Hp.
Qed.

Lemma strip_opt_some s : s ≠ "" → strip_opt (Some s) = Some (strip s).
Proof. intros H. unfold strip_opt. by rewrite bool_decide_eq_false_2. Qed.

(** One issue: a new topic, or the answer that there is one. *)
Lemma create_topic_outcome fresh_id project_id i actor now g :
  open_project project_id actor g → importable i = true → GDB.topics g !! fresh_id = None →
  let '(r, g') := create_governance_topic fresh_id project_id (i_title i) (Some (i_description i))
    (Some MULTICA_SYNC_CHANNEL) (Some (i_identifier i)) (i_url i) actor now g in
  has_topic project_id (GDB.topics g') i
  ∧ (r = Raise (HTTPException 409 "duplicate_source") ∧ g' = g
     ∨ ∃ row, r = Ret row ∧ g' = g <| GDB.topics ::= <[fresh_id := row]> |>).
Proof.
  intros (p & Lp & Ip & Up & Sp & Tp) Hi Lf. unfold importable in Hi. rewrite !andb_true_iff in Hi.
  destruct Hi as (((((Ht & Ftitle) & Hd) & He) & Fe) & Fu).
  apply negb_true_iff, bool_decide_eq_false in Ht. apply negb_true_iff, bool_decide_eq_false in He.
  assert (Hne : i_identifier i ≠ "") by (intros C; by rewrite C in He).
  unfold create_governance_topic, atomic, normalize_title, normalize_governance_source,
    require_project, get_active_selectable_for_user, normalize_topic_text. m_unfold.
  rewrite (bool_decide_eq_false_2 _ Ht), Ftitle. cbn [orb negb].
  change (strip (default "" (Some MULTICA_SYNC_CHANNEL))) with MULTICA_SYNC_CHANNEL.
  change (negb (bool_decide (MULTICA_SYNC_CHANNEL ∈ GOVERNANCE_SOURCE_CHANNELS))) with false.
  change (bool_decide (MULTICA_SYNC_CHANNEL = "project")) with false. cbv iota.
  rewrite (strip_opt_some _ Hne).
  assert (Hf : falsy_str (Some (strip (i_identifier i))) = false) by (by apply bool_decide_eq_false_2).
  rewrite Hf. cbn [external_id channel url]. unfold find_topic_by_source.
  rewrite Lp. cbn [mbind option_bind]. rewrite Up, Sp, Tp, !bool_decide_eq_true_2 by done. cbn [andb].
  m_unfold. rewrite Ip. destruct (head _) as [r|] eqn:F; cbn [present].
  { apply head_Some_elem_of, elem_of_select in F as (B & k & L).
    split; [exists k, r; by split|left; done]. }
  change (default "" (Some (i_description i))) with (i_description i).
  rewrite N.ltb_antisym, Hd. cbn [negb]. unfold add_topic. rewrite insert_topic_ok; try done; cbn.
  - split.
    + exists fresh_id. eexists. row_simpl. rewrite lookup_insert_eq. split; [done|].
      unfold is_topic_of, by_source. cbn. by rewrite !bool_decide_eq_true_2.
    + right. by eexists.
  - unfold source_fits. cbn. by rewrite Fe, Fu.
  - apply (proj2 (any_false _ _)). intros k r L. unfold same_source. cbn.
    destruct (GTopic.source_external_id r) as [e|] eqn:X; [|done].
    destruct (_ && _ && _) eqn:G; [|done]. exfalso. rewrite !andb_true_iff, !bool_decide_eq_true in G.
    destruct G as [[G1 G2] G3]. cbn in G2. subst e.
    assert (I : r ∈ select (by_source GTopic.project_id topic_source project_id MULTICA_SYNC_CHANNEL
      (strip (i_identifier i))) (GDB.topics g)).
    { apply elem_of_select. split; [|by eexists]. unfold by_source. cbn.
      by rewrite G1, G2, X, !bool_decide_eq_true_2. }
    destruct (select _ _); [by apply not_elem_of_nil in I|done].
Qed.

Section complete.
Context {W : Type} `{Client : MulticaClient W}.
Context (lease_seconds : Z) (container_text : json → string) (exn_text : exn → string).
Implicit Types s : SyncStore W.

(** Below the cursor's time. *)
Definition older_than (initial : option key) (i : MulticaIssue) : bool :=
  match cursor_key i, initial with Ret k, Some j => str_ltb k.1 j.1 | _, _ => false end.

(** The issues down to the first below the cursor. *)
Fixpoint newer (initial : option key) (l : list MulticaIssue) : list MulticaIssue :=
  match l with
  | [] => []
  | i :: l => if older_than initial i then [] else i :: newer initial l
  end.

Definition keys (l : list MulticaIssue) : list key :=
  omap (λ i, match cursor_key i with Ret k => Some k | Raise _ => None end) l.

Lemma newer_app initial a b :
  newer initial (a ++ b)
  = if existsb (older_than initial) a then newer initial a else a ++ newer initial b.
Proof.
  induction a as [|i a IH]; [done|]. cbn. destruct (older_than initial i); [done|]. rewrite IH.
  by destruct (existsb _ a).
Qed.

Lemma newer_all initial a : existsb (older_than initial) a = false → newer initial a = a.
Proof. intros H. rewrite <- (app_nil_r a) at 1. rewrite newer_app, H. cbn. by rewrite app_nil_r. Qed.

Definition has_key (i : MulticaIssue) : Prop := ∃ k, cursor_key i = Ret k.

(** The ids that topics will get are not taken. *)
Definition unused (turn : PullTurn W) (n : nat) s : Prop :=
  ∀ m, (n ≤ m)%nat → GDB.topics (Sync.governance s) !! fresh_topic turn m = None.

(** What importing [l] makes of the progress and the tables. *)
Record imports (turn : PullTurn W) (project_id : string) (l : list MulticaIssue)
    (p p' : Progress) s s' : Prop := {
  imports_topics : GDB.topics (Sync.governance s) ⊆ GDB.topics (Sync.governance s');
  imports_rest : s' = s <| Sync.governance := (Sync.governance s) <| GDB.topics :=
                             GDB.topics (Sync.governance s') |> |>;
  imports_all i : i ∈ l → has_topic project_id (GDB.topics (Sync.governance s')) i;
  imports_count : (imported p' + skipped p' = imported p + skipped p + length l)%nat;
  imports_key : latest_key p' = foldl later (latest_key p) (keys l);
  imports_unused : unused turn (imported p') s'
}.

Lemma imports_nil turn project_id p s : unused turn (imported p) s → imports turn project_id [] p p s s.
Proof.
  intros U. split; try done; first [by destruct s as [? ? [] ?]
    | intros i Hi; by apply not_elem_of_nil in Hi | cbn; lia].
Qed.

Lemma imports_app turn project_id l1 l2 p p1 p2 s s1 s2 :
  imports turn project_id l1 p p1 s s1 → imports turn project_id l2 p1 p2 s1 s2 →
  imports turn project_id (l1 ++ l2) p p2 s s2.
Proof.
  intros [T1 R1 A1 C1 K1 _] [T2 R2 A2 C2 K2 U2]. split.
  - by etrans.
  - rewrite R2, R1. by destruct s as [? ? [] ?].
  - intros i. rewrite elem_of_app. intros [Hi|Hi]; [|by apply A2].
    eapply has_topic_mono; [exact T2|by apply A1].
  - rewrite length_app. lia.
  - unfold keys. by rewrite K2, K1, omap_app, foldl_app.
  - done.
Qed.

Lemma open_after turn project_id actor l p p' s s' :
  imports turn project_id l p p' s s' → open_project project_id actor (Sync.governance s) →
  open_project project_id actor (Sync.governance s').
Proof. intros [_ R _ _ _ _] (x & L & H). rewrite R. by exists x. Qed.

Context (turn : PullTurn W) (project_id : string) (actor : GUser) (initial : option key).
Context (fresh_inj : ∀ n m, fresh_topic turn n = fresh_topic turn m → n = m).

(** One issue at or above the cursor. *)
Lemma propose_imports i k (p : Progress) s :
  cursor_key i = Ret k → importable i = true → open_project project_id actor (Sync.governance s) →
  unused turn (imported p) s →
  let p1 := {| imported := imported p; skipped := skipped p; latest_key := later (latest_key p) k |} in
  ∃ p' s', imports turn project_id [i] p p' s s'
    ∧ ((∃ r, propose turn project_id actor (imported p) i s = (Ret r, s'))
         ∧ p' = {| imported := S (imported p1); skipped := skipped p1; latest_key := latest_key p1 |}
       ∨ propose turn project_id actor (imported p) i s
           = (Raise (HTTPException 409 "duplicate_source"), s')
         ∧ p' = {| imported := imported p1; skipped := S (skipped p1); latest_key := latest_key p1 |}).
Proof.
  intros Hk Hi Ho Hu p1.
  assert (Ek : keys [i] = [k]) by (unfold keys; cbn; by rewrite Hk).
  pose proof (create_topic_outcome (fresh_topic turn (imported p)) project_id i actor (topic_now turn)
    (Sync.governance s) Ho Hi (Hu _ (le_n _))) as C.
  unfold propose, on_governance. destruct (create_governance_topic _ _ _ _ _ _ _ _ _ _) as [r g].
  destruct C as (Ht & [(-> & ->)|(row & -> & ->)]).
  - exists {| imported := imported p1; skipped := S (skipped p1); latest_key := latest_key p1 |}, s.
    split.
    { split; try done; first [by destruct s as [? ? [] ?] | by rewrite Ek | cbn; lia
        | intros j Hj; by apply list_elem_of_singleton in Hj as ->]. }
    right. split; [|done]. f_equal. by destruct s as [? ? ? ?].
  - exists {| imported := S (imported p1); skipped := skipped p1; latest_key := latest_key p1 |}.
    eexists. split; [|left; split; [by eexists|done]]. split; try done.
    + row_simpl. by apply insert_subseteq, Hu.
    + intros j Hj. by apply list_elem_of_singleton in Hj as ->.
    + cbn. lia.
    + by rewrite Ek.
    + intros m Hm. row_simpl. rewrite lookup_insert_ne; [apply Hu; cbn in Hm; lia|].
      intros E%fresh_inj. cbn in Hm. lia.
Qed.

Lemma import_issues_outcome issues p s :
  Forall has_key issues → Forall (λ i, importable i = true) issues →
  open_project project_id actor (Sync.governance s) → unused turn (imported p) s →
  ∃ p' s', import_issues turn project_id actor initial issues p s
      = (p', Ret (existsb (older_than initial) issues), s')
    ∧ imports turn project_id (newer initial issues) p p' s s'.
Proof.
  intros Hk Hi. revert p s. induction issues as [|i issues IH]; intros p s Ho Hu.
  { exists p, s. split; [done|]. by apply imports_nil. }
  inversion_clear Hk as [|? ? [k Ek] Hk']. inversion_clear Hi as [|? ? Ei Hi']. specialize (IH Hk' Hi').
  cbn [import_issues newer existsb]. rewrite Ek.
  assert (Eo : match initial with Some j => str_ltb k.1 j.1 | None => false end = older_than initial i).
  { unfold older_than. by rewrite Ek. }
  rewrite Eo. destruct (older_than initial i); cbn [orb].
  { exists p, s. split; [done|]. by apply imports_nil. }
  cbv zeta. cbn [imported skipped latest_key].
  destruct (propose_imports i k p s Ek Ei Ho Hu) as (p1 & s1 & I & H).
  destruct (IH p1 s1 (open_after _ _ _ _ _ _ _ _ I Ho) (imports_unused _ _ _ _ _ _ _ I)) as (p' & s' & E & I').
  exists p', s'. split; [|by apply (imports_app turn project_id [i] _ p p1 p' s s1 s')].
  destruct H as [[[r ->] ->]|[-> ->]]; exact E.
Qed.

Context `{Listing : !MulticaListing W}.
Context (undisturbed : ∀ n s, others turn n s = s).

Lemma listed_page size offset s :
  on_world (list_issues size offset) s = (Ret (take size (drop offset (listed (Sync.world s)))), s).
Proof. unfold on_world. rewrite list_answers. by destruct s. Qed.

(** What does not change while issues are imported. *)
Lemma imports_world l p p' s s' : imports turn project_id l p p' s s' → Sync.world s' = Sync.world s.
Proof. intros [_ R _ _ _ _]. by rewrite R. Qed.

Lemma pull_pages_outcome size pages offset p s :
  let rest := drop offset (listed (Sync.world s)) in
  (0 < size)%nat → (length (newer initial rest) < pages * size)%nat →
  Forall has_key rest → Forall (λ i, importable i = true) rest →
  open_project project_id actor (Sync.governance s) → unused turn (imported p) s →
  ∃ p' s', pull_pages turn project_id actor initial size pages offset p s = (p', Ret true, s')
    ∧ imports turn project_id (newer initial rest) p p' s s'.
Proof.
  cbn zeta. intros Hz. revert offset p s. induction pages as [|n IH]; intros offset p s Hn Hk Hi Ho Hu; [lia|].
  cbn [pull_pages]. rewrite undisturbed, listed_page.
  set (rest := drop offset (listed (Sync.world s))) in *.
  destruct (take size rest) as [|i page] eqn:Ep.
  { destruct rest as [|j rest']; [|by destruct size; [lia|]].
    exists p, s. split; [done|]. by apply imports_nil. }
  rewrite <- Ep in *. assert (Es : rest = take size rest ++ drop size rest) by (by rewrite take_drop).
  assert (Hkp : Forall has_key (take size rest)) by (by apply Forall_take).
  assert (Hip : Forall (λ i, importable i = true) (take size rest)) by (by apply Forall_take).
  destruct (import_issues_outcome (take size rest) p s Hkp Hip Ho Hu) as (p1 & s1 & E1 & I1). rewrite E1.
  destruct (existsb (older_than initial) (take size rest)) eqn:Er; cbn [orb].
  { exists p1, s1. split; [done|]. rewrite Es, newer_app, Er. done. }
  rewrite (newer_all _ _ Er) in I1.
  destruct (Nat.ltb_spec (length (take size rest)) size) as [Hlt|Hge].
  { exists p1, s1. split; [done|]. rewrite length_take in Hlt.
    assert (El : take size rest = rest) by (apply take_ge; lia). rewrite El in *.
    by rewrite (newer_all _ _ Er). }
  assert (Hl : length (take size rest) = size) by (rewrite length_take in *; lia). rewrite Hl.
  assert (Ed : drop (offset + size) (listed (Sync.world s1)) = drop size rest).
  { rewrite (imports_world _ _ _ _ _ I1). unfold rest. by rewrite drop_drop. }
  rewrite Es, newer_app, Er in Hn |- *. rewrite length_app, Hl in Hn.
  destruct (IH (offset + size)%nat p1 s1) as (p' & s' & E & I); rewrite ?Ed.
  - lia.
  - by apply Forall_drop.
  - by apply Forall_drop.
  - by eapply open_after.
  - apply I1.
  - exists p', s'. split; [done|]. rewrite Ed in I. by eapply imports_app.
Qed.

(** Multica lists the newest issues first. *)
Definition newest_first (l : list MulticaIssue) : Prop :=
  StronglySorted (λ a b, ∀ ka kb, cursor_key a = Ret ka → cursor_key b = Ret kb → str_leb kb.1 ka.1 = true) l.

Lemma older_rest a b ka kb :
  cursor_key a = Ret ka → cursor_key b = Ret kb → str_leb kb.1 ka.1 = true →
  older_than initial a = true → older_than initial b = true.
Proof.
  unfold older_than, str_ltb. intros -> -> L. destruct initial as [j|]; [|done].
  rewrite !negb_true_iff. intros A. destruct (str_leb j.1 kb.1) eqn:B; [|done].
  by rewrite (str_leb_trans _ _ _ B L) in A.
Qed.

Lemma newer_complete l :
  Forall has_key l → newest_first l → ∀ i, i ∈ l → older_than initial i = false → i ∈ newer initial l.
Proof.
  intros Hk Hs. induction Hs as [|i l Hs IH Hi]; intros j Hj Hn; [by apply not_elem_of_nil in Hj|].
  inversion_clear Hk as [|? ? [ki Ek] Hk']. cbn [newer].
  apply elem_of_cons in Hj as [->|Hj]; [rewrite Hn; by left|].
  destruct (older_than initial i) eqn:Ho; [exfalso|right; by apply IH].
  pose proof (proj1 (List.Forall_forall _ _) Hi j ltac:(by apply list_elem_of_In)) as L. cbv beta in L.
  destruct (proj1 (List.Forall_forall _ _) Hk' j ltac:(by apply list_elem_of_In)) as [kj Ej].
  rewrite (older_rest i j ki kj Ek Ej (L _ _ Ek Ej) Ho) in Hn. done.
Qed.

Lemma later_from a l k : foldl later a l = Some k → a = Some k ∨ k ∈ l.
Proof.
  revert a. induction l as [|x l IH]; intros a; [by left|]. cbn [foldl]. intros E%IH.
  destruct E as [E|E]; [|right; by right]. unfold later in E. destruct a as [y|].
  - destruct (key_ltb y x); simplify_eq; [right; by left|by left].
  - simplify_eq. right. by left.
Qed.

Lemma claim_cursor_fits fresh_id token now s c s1 :
  claim_cursor (W := W) lease_seconds project_id fresh_id token now s = (Ret c, s1) → cursor_fits c = true.
Proof.
  unfold claim_cursor, atomic. intros E.
  match type of E with match ?m with _ => _ end = _ => destruct m as [[c'|e] s'] eqn:E'; [|done] end.
  simplify_eq. run E'. run E'. revert E'.
  destruct (match Cur.lease_expires_at a0 with Some _ => _ | None => _ end); [done|]. intros P.
  apply put_cursor_inv in P. by destruct P as [(e & [=] & _)|(F & [= ->] & _)].
Qed.

Lemma finish_cursor_ok token value now expiry c s :
  keyed s → cursor_of project_id s = Some c → Cur.owner_token c = Some token →
  Cur.lease_expires_at c = Some expiry → now < expiry → cursor_fits c = true →
  Governance.opt_fits 512 value = true →
  ∃ s', finish_cursor (W := W) project_id token value None now s = (Ret tt, s').
Proof.
  intros K L Ho Hl Hn F Fv. unfold finish_cursor, atomic, get_cursor_for_update. m_unfold.
  unfold cursor_of in L. rewrite L, Ho, Hl, bool_decide_eq_true_2 by done.
  rewrite (proj2 (Z.leb_gt _ _) Hn). cbn [negb orb].
  destruct (put_cursor _ now s) as [r s1] eqn:P. apply put_cursor_inv in P.
  destruct P as [(e & -> & _ & Fx)|(_ & -> & ->)]; [|by eexists].
  exfalso. unfold cursor_fits in *. destruct value as [v|]; row_simpl; cbn [Governance.opt_fits] in *;
    rewrite !andb_true_iff in F; destruct F as ((((F1 & F2) & F3) & F4) & F5);
    by rewrite ?F1, ?F2, ?F3, ?F4, ?Fv in Fx.
Qed.

End complete.

(** * Witnesses *)

Section witnesses.

#[local] Instance memory_listing : MulticaListing (list MulticaIssue) :=
  {| listed := λ w, w; list_answers limit offset w := eq_refl |}.

Definition sync_issue (n : nat) (updated_at : string) : MulticaIssue := {|
  i_id := pretty n; i_identifier := ("YUA-" ++ pretty n)%string; i_title := "Issue";
  i_description := "text"; i_status := "todo"; i_url := None; i_updated_at := Some updated_at |}.

(** The newest was written in another zone. *)
Definition sync_remote : list MulticaIssue :=
  [sync_issue 3 "2026-01-02T01:00:00+02:00"; sync_issue 2 "2026-01-01T12:00:00Z";
   sync_issue 1 "2026-01-01T12:00:00"].

Definition sync_actor : GUser := {| Governance.user_uid := "u1"; username := "Ann" |}.

Definition sync_store : SyncStore (list MulticaIssue) := {|
  Sync.cursors := ∅;
  Sync.users := {[ "u1" := sync_actor ]};
  Sync.governance := {|
    GDB.projects := {[ "p1" := {| GProject.id := "p1"; GProject.uid := "u1";
      GProject.selection_status := "selectable"; GProject.status := "active";
      GProject.workdir_path := "w" |} ]};
    GDB.project_agents := ∅; GDB.run_ids := ∅; GDB.topics := ∅; GDB.comments := ∅;
    GDB.decisions := ∅; GDB.tasks := ∅; GDB.reports := ∅ |};
  Sync.world := sync_remote |}.

Definition sync_turn : PullTurn (list MulticaIssue) := {|
  fresh_cursor := "c-1"; fresh_lease := "lease-1"; fresh_topic n := ("topic-" ++ pretty n)%string;
  claim_now := 0; topic_now := 1; finish_now := 2; others := λ _ s, s |}.

Lemma sync_keyed : keyed sync_store.
Proof. intros k c. cbn. by rewrite lookup_empty. Qed.

Definition sync_claim :=
  claim_cursor (W := list MulticaIssue) 120 "p1" "c-1" "lease-1" 0 sync_store.

Definition sync_cursor : ChannelSyncCursor :=
  (new_cursor "c-1" "multica" "p1" 0)
    <| Cur.owner_token := Some "lease-1" |> <| Cur.lease_expires_at := Some 120000000 |>
    <| Cur.updated_at := 0 |>.

Lemma sync_claimed : sync_claim = (Ret sync_cursor, sync_claim.2).
Proof. by vm_compute. Qed.

Lemma stored_cursor_reads_back_witness :
  decode_cursor (λ _, "") (Some (encode_cursor ("2026-01-01T23:00:00.000000+00:00", "3")))
  = Ret (Some ("2026-01-01T23:00:00.000000+00:00", "3")).
Proof.
  apply (stored_cursor_reads_back (λ _, "") (sync_issue 3 "2026-01-02T01:00:00+02:00"));
    by vm_compute.
Defined.

Lemma cursor_lease_excludes_witness :
  ∃ m, pull_multica 120 (λ _, "") (λ _, "error") sync_turn "p1" "u1" 50 sync_claim.2
       = (Raise (DelegationError LEASE_LOST m), sync_claim.2).
Proof.
  apply (cursor_lease_excludes 120 (λ _, "") (λ _, "error") "p1" "c-1" "lease-1" 0 sync_store sync_cursor
    sync_claim.2 sync_keyed sync_claimed). by vm_compute.
Defined.


Lemma fresh_topic_inj n m : fresh_topic sync_turn n = fresh_topic sync_turn m → n = m.
Proof. intros E. cbn in E. simplify_eq. done. Qed.

End witnesses.
